(* ===== verification/_CoqProject ===== *)
-Q . S2P
Prelude.v
Kernel.v
World.v
Frame.v
Hoare.v
Packet.v
Handshake.v
TokenBucket.v
Limits.v
Health.v
Xdp.v
Locality.v
XdpAccounting.v
XdpProps.v
Policy.v
Sockops.v
Datapath.v
Served.v
Ledger.v
Rates.v
Bans.v
Traffic.v
Breaker.v
Confined.v
Sessions.v
Races.v
XdpWitnesses.v
GoBase.v
GoSys.v
Layout.v
Pins.v
Labels.v
GoLogic.v
Json.v
Dump.v
Shown.v
Report.v
Clear.v
Inspect.v
Top.v
Loader.v
LoaderProps.v
EndToEnd.v
LoadHandles.v
Api.v
ApiProps.v
Collector.v
CollectorProps.v
Run.v
Commands.v
Daemon.v
Flags.v
FlagProps.v
CommandLine.v
CommandLineProps.v
GoWitnesses.v
DaemonWitnesses.v
RateWitnesses.v
