(* ===== verification/Prelude.v ===== *)
(** * Verification of minecraft-ebpf

    ** The program

    minecraft-ebpf is a DDoS filter for Minecraft (Java Edition) servers.  Two BPF
    programs share thirteen pinned maps: [minecraft_xdp] (src/bpf/minecraft_xdp.bpf.c)
    decides about every packet to the server's port, [minecraft_sockops]
    (src/bpf/minecraft_sockops.bpf.c) hears from the kernel of connections that are
    established and closed.  A Go binary loads them (src/internal/loader), exports
    their counters (src/internal/metrics) and offers a daemon with an HTTP API and
    operator commands (src/cmd/minecraft-ebpf) that read, and in one case clear, the
    pinned maps.

    ** The files, in the order they build on one another

    Foundations.
    - Prelude: machine integers as Z with their wrap-around ([u64], [u32], [s64], ...),
      the IPv4 keys, sums, the tactics and hint databases everything shares.
    - Kernel, World: maps.h and stats.h.  The kernel's hash maps are the classes
      [BpfMap] and [BpfMapLaws] (which allow LRU eviction; [lru] shows that they do) and
      [BpfMapNoEvict]; [world] is the state of all maps, [kenv] the tunables, the CPU
      and the boot clock, [prog] the state monad of the BPF programs, [Preserves] a
      relation carried through a program.
    - Frame, Hoare: frame relations ([only_ip], [only_maps], ...), triples, and the
      symbolic execution ([sym]) the datapath proofs use.

    The datapath.
    - Packet: the bounds checks of [minecraft_xdp] up to the port ([xdp_parse]).
    - Handshake: [load_varint] and [classify_handshake], against a grammar of the wire
      format and a client's encoder.
    - TokenBucket, Limits: the contract of a token bucket with its rate bound, and the
      three limiters of the source, proved to implement it in 64-bit arithmetic.
    - Health: blacklist, anomaly window and drop history.
    - Xdp: [minecraft_xdp] itself, in parts that may return early.
    - Locality: two runs compared ([agree], [Local]): a source is judged by its own
      record, whatever the maps hold of others.
    - XdpAccounting, XdpProps: every verdict is counted once; isolation of sources; who
      is dropped, who gets whitelisted and passed.
    - Policy: the abstract specification of the verdict, a table of rulings ([policy])
      over the record of a source, ideal token buckets and instants of the run; the
      program follows it ([follow_filter]).
    - Sockops: [minecraft_sockops], with the interference of other CPUs in its
      compare-and-swap loop.
    - Datapath: both programs on all CPUs over one clock ([event], [handle], [reach]);
      the invariant [world_ok] of reachable states, in which the policy holds.
    - Served: what players are owed in reachable states: logins, traffic within the
      caps, an end of every ban.
    - Bans: the anomaly record of a source over whole runs ([replay]), and the drops for
      too much traffic that earn a ban.
    - Ledger, Rates, Traffic, Breaker: what the limiters add up to over whole runs
      ([weigh], [tally] of the packets passed), per source and for the machine: a ledger of
      grants ([within], [spent], [paid]) carried through both programs.
    - Confined: what a source without an established connection or whitelist entry can
      touch, in the per-source maps and in the state all share.
    - Sessions: both programs as steps over the open sockets of the server; the
      invariant that ties the maps to the connections while the maps evict nothing, the
      part of it that outlives evictions, and the race between a closing and an opening
      connection that the program does have.
    - Races: a take of a shared bucket, one access of memory at a time, interleaved with
      the takes of other CPUs ([micro], [run]).
    - XdpWitnesses: the theorems at concrete packets.

    The Go side.
    - GoBase, GoSys: what the code uses of Go's standard library (formatting, durations,
      addresses) and of the operating system (errors, pinned maps, the boot clock,
      output, exit codes) as the monad [io].
    - Layout, Pins, Labels: the C structs as bytes against the Go structs that read
      them; when a pin directory shows a state of the datapath ([shows],
      [pinned_world]); the names and numbers both sides share.
    - GoLogic, Json: reasoning about commands ([Clean], [Prints]); encoding/json.
    - Shown: how values and ages are to be shown, stated without the code that shows
      them; the views of Inspect and Top are held against it.
    - Dump, Report, Clear, Inspect, Top: the commands dump; stats, info and health;
      clear; inspect; top, one Definition per Go function.
    - Loader, LoaderProps, LoadHandles: [Load] and [Close] over the open handles, the
      tunables they write, and what is open afterwards.
    - EndToEnd: loader and datapath together, from the options to the packets that pass.
    - Api, ApiProps: the handlers, the routes and the router.
    - Collector, CollectorProps: the Prometheus collector.
    - Run, Commands: [main], the daemon's wiring, and what holds for all commands.
    - Daemon: the goroutines of the daemon side by side ([step], [reached]): loading, the
      ticker of the gauges, the HTTP server and its requests, the signal, the shutdown, and
      the deferred [Close], which closes one handle after the other while the rest run on.
    - Flags, FlagProps: the parts of flag, strconv and time the commands parse their
      arguments with, and that what is printed is read back.
    - CommandLine, CommandLineProps: the flags of every command and [os_main], from
      [os.Args] to the exit code.
    - GoWitnesses, DaemonWitnesses, RateWitnesses: the theorems at concrete inputs.

    ** What the theorems show

    Of the datapath: that the word arithmetic of the limiters is the token bucket, with
    the bound on what any run of requests is granted; that the classifier decides the
    wire format; that a packet touches no other source; that unverified, blacklisted
    and over-connected sources are held back and verified players are not; that every
    verdict is accounted for; that over every interleaving of packets and socket events
    the maps agree with the connections (if they evict nothing, the calls are atomic and
    both programs were loaded first; with evictions the counts only fall short); that in every reachable state the verdict is a
    ruling of the policy table, with the counters charged for it; that it depends on
    the source's own record only; that logins, traffic within the caps and expired
    bans are let through; and that over any traffic an unverified source opens
    connections, pings and is promoted, and a verified one sends packets and bytes, no
    faster than the options say (as long as the LRU maps keep its buckets), and all
    unverified sources together open connections no faster than the circuit breaker
    does; and that a ban is earned by drops for too much traffic, and follows enough of
    them.  [Races] shows what does not hold: takes of one bucket on two CPUs can fill it.

    Of the Go side: that it reads the bytes the C structs hold, that the loader writes the
    tunables the options ask for, which the datapath theorems accept, and releases every
    handle it names, that every view (command, API, metrics) shows the
    state of the datapath, and that of everything that can be typed only clear changes
    it; that the daemon, however its goroutines interleave, ends in one of three ways,
    with everything it names closed unless the interval of its gauges kills it, stops in a
    bounded number of its own steps when told to, and works on open maps until its
    deferred [Close] begins, which a refresh and a late request can outlive; and that
    settings survive being written as flags.

    ** Fuel and bounds

    [load_varint_loop] runs 5 times and [dec_loop] 8 times, as the unrolled loops of the
    source do.  The watch loops of stats and inspect never return in the source; their
    [rounds] says how many rounds are looked at.  [parse_loop] has one round per argument
    and one more ([parse_loop_total]); [duration_loop] one per character.  Clock readings
    are below 2^63 ns ([clock_ok], 292 years of uptime) and do not decrease; bursts are
    below 2^63.

    ** What is not modelled

    The verifier, the JIT and the BPF instructions; vmlinux.h; memory sharing between
    CPUs inside [minecraft_xdp] as a whole (a run is one step of [Datapath] and
    [Sessions]; the races of the connection counter are in [Sockops] and [Sessions],
    those of the buckets in [Races], and the bounds of [Rates], [Traffic] and [Breaker] do
    not cover them); a signal before [signal.Notify], which ends the process at once; HTTP, promhttp and the registry beyond the calls made; log output with
    its time stamps; gen.go (a go:generate line); tests, scripts and deployment files. *)
From stdpp Require Export base gmap list strings numbers.
From stdpp Require Export sorting.
From Stdlib Require Export ZArith Lia.

#[export] Set Default Goal Selector "!".
Global Open Scope Z_scope.

(** ** Machine integers

    A [w]-bit unsigned integer is a [Z] in [0, 2^w); arithmetic of the source is
    written with its wrap-around.  [s64] is the two's complement reading of a
    64-bit pattern, the Go conversion [int64(x)]. *)
Definition wrapZ (w x : Z) : Z := x mod 2 ^ w.
Definition u64 (x : Z) : Z := wrapZ 64 x.
Definition u32 (x : Z) : Z := wrapZ 32 x.
Definition u16 (x : Z) : Z := wrapZ 16 x.
Definition s64 (x : Z) : Z := wrapZ 64 (x + 2 ^ 63) - 2 ^ 63.

Definition is_u64 (x : Z) : Prop := 0 ≤ x < 2 ^ 64.
Definition is_u32 (x : Z) : Prop := 0 ≤ x < 2 ^ 32.
Definition is_u16 (x : Z) : Prop := 0 ≤ x < 2 ^ 16.
Definition is_s64 (x : Z) : Prop := - 2 ^ 63 ≤ x < 2 ^ 63.
Definition is_byte (x : Z) : Prop := 0 ≤ x < 256.

(** Unfolds the words of the goal and of the context to constants [lia] reads. *)
Ltac words :=
  unfold is_u64, is_u32, is_u16, is_s64, is_byte, s64, u64, u32, u16, wrapZ in *;
  change (2 ^ 64) with 18446744073709551616 in *;
  change (2 ^ 63) with 9223372036854775808 in *;
  change (2 ^ 32) with 4294967296 in *;
  change (2 ^ 16) with 65536 in *.
Ltac word_lia := words; Z.div_mod_to_equations; lia.

Create HintDb words.
Create Rewrite HintDb words.
Create HintDb frame.
Create HintDb kernel.

Section Words.
Lemma u64_id x : is_u64 x → u64 x = x.
Proof. intros H; unfold u64, wrapZ; by apply Z.mod_small. Qed.
Lemma u64_range x : is_u64 (u64 x).
Proof. unfold is_u64, u64, wrapZ. apply Z.mod_pos_bound; lia. Qed.
Lemma u32_id x : is_u32 x → u32 x = x.
Proof. intros H; unfold u32, wrapZ; by apply Z.mod_small. Qed.
Lemma u32_range x : is_u32 (u32 x).
Proof. unfold is_u32, u32, wrapZ. apply Z.mod_pos_bound; lia. Qed.
Lemma s64_id x : is_s64 x → s64 x = x.
Proof. intros H; unfold s64, wrapZ. rewrite Z.mod_small; word_lia. Qed.
Lemma s64_range x : is_s64 (s64 x).
Proof. word_lia. Qed.
(** Subtraction of two clock readings in order does not wrap. *)
Lemma u64_sub x y : is_u64 x → is_u64 y → y ≤ x → u64 (x - y) = x - y.
Proof. intros ???. apply u64_id. word_lia. Qed.
(** Reversed readings wrap to a huge value. *)
Lemma u64_sub_wrap x y : is_u64 x → is_u64 y → x < y → u64 (x - y) = x - y + 2 ^ 64.
Proof. intros ???. word_lia. Qed.

(** Or-ing in bits above [m] is an addition. *)
Lemma lor_high_add acc x m : 0 ≤ m → 0 ≤ acc < 2 ^ m → 0 ≤ x →
  Z.lor acc (x * 2 ^ m) = acc + x * 2 ^ m.
Proof.
  intros Hm Ha Hx. symmetry. apply Z.add_nocarry_lor, Z.bits_inj'. intros n Hn.
  rewrite Z.land_spec, Z.bits_0.
  destruct (Z.lt_ge_cases n m) as [Hlt|Hge].
  - rewrite Z.mul_pow2_bits_low by done. apply andb_false_r.
  - rewrite (proj1 (Z.bounded_iff_bits_nonneg m acc Hm (proj1 Ha)) (proj2 Ha) n Hge).
    done.
Qed.
Lemma u32_lor_high acc x m : 0 ≤ m ≤ 32 → 0 ≤ acc < 2 ^ m → 0 ≤ x →
  Z.lor acc (u32 (x * 2 ^ m)) = u32 (acc + x * 2 ^ m).
Proof.
  intros Hm Ha Hx. unfold u32, wrapZ.
  assert (Hp : 2 ^ 32 = 2 ^ (32 - m) * 2 ^ m) by (rewrite <-Z.pow_add_r by lia; f_equal; lia).
  assert (0 < 2 ^ (32 - m)) by (apply Z.pow_pos_nonneg; lia).
  rewrite Hp, Z.mul_mod_distr_r by lia.
  pose proof (Z.mod_pos_bound x (2 ^ (32 - m)) ltac:(lia)) as Hr.
  rewrite lor_high_add by lia.
  rewrite (Z.div_mod x (2 ^ (32 - m))) at 2 by lia.
  set (q := x / _) in *. set (r := x mod _) in *.
  replace (acc + (2 ^ (32 - m) * q + r) * 2 ^ m)
    with (acc + r * 2 ^ m + q * (2 ^ (32 - m) * 2 ^ m)) by ring.
  rewrite Z.mod_add by lia. symmetry. apply Z.mod_small. nia.
Qed.
Lemma u32_add_idemp a b : u32 (u32 a + b) = u32 (a + b).
Proof. unfold u32, wrapZ. apply Z.add_mod_idemp_l. lia. Qed.
(** A byte splits into its continuation bit and its seven value bits. *)
Lemma byte_land_127 c : is_byte c → Z.land c 0x7F = c mod 128.
Proof. intros _. change 127 with (Z.ones 7). by rewrite Z.land_ones by lia. Qed.
Lemma byte_land_128 c : is_byte c → (Z.land c 0x80 =? 0) = (c <? 128).
Proof.
  intros Hc.
  assert (H : forallb (λ c, Bool.eqb (Z.land c 0x80 =? 0) (c <? 128)) (seqZ 0 256) = true)
    by (vm_compute; reflexivity).
  rewrite forallb_forall in H. apply Bool.eqb_prop, H.
  apply list_elem_of_In, elem_of_seqZ. unfold is_byte in Hc. lia.
Qed.
End Words.
#[export] Hint Resolve u64_range u32_range s64_range : words.
#[export] Hint Rewrite u64_id u32_id s64_id using (solve [word_lia]) : words.

(** ** Tactics *)

(** Cases on the boolean of an [if] or the scrutinee of a [match], keeping the
    equation, anywhere in the goal. *)
Ltac case_goal :=
  match goal with
  | |- context [if ?b then _ else _] => destruct b eqn:?
  | |- context [match ?x with _ => _ end] => destruct x eqn:?
  end.
Ltac bool_hyps :=
  repeat match goal with
  | H : _ && _ = true |- _ => apply andb_true_iff in H; destruct H
  | H : _ || _ = false |- _ => apply orb_false_iff in H; destruct H
  | H : negb _ = true |- _ => apply negb_true_iff in H
  | H : negb _ = false |- _ => apply negb_false_iff in H
  | H : (_ <? _) = true |- _ => apply Z.ltb_lt in H
  | H : (_ <? _) = false |- _ => apply Z.ltb_ge in H
  | H : (_ <=? _) = true |- _ => apply Z.leb_le in H
  | H : (_ <=? _) = false |- _ => apply Z.leb_gt in H
  | H : (_ =? _) = true |- _ => apply Z.eqb_eq in H
  | H : (_ =? _) = false |- _ => apply Z.eqb_neq in H
  end.

(** ** IPv4 keys

    The per-IP maps are keyed by the four address bytes in network order: the
    [__be32] of the datapath and the [[4]byte] of the Go programs. *)
Record ipkey := IPKey { ip0 : Z; ip1 : Z; ip2 : Z; ip3 : Z }.

#[export] Instance ipkey_eq_dec : EqDecision ipkey.
Proof. solve_decision. Defined.
#[export] Instance ipkey_countable : Countable ipkey.
Proof.
  refine (inj_countable' (λ k, (ip0 k, ip1 k, ip2 k, ip3 k))
                         (λ t, let '(a, b, c, d) := t in IPKey a b c d) _).
  by intros [????].
Defined.

Definition ipkey_ok (k : ipkey) : Prop :=
  is_byte (ip0 k) ∧ is_byte (ip1 k) ∧ is_byte (ip2 k) ∧ is_byte (ip3 k).

(** ** Lists of integers *)
Definition sumZ (l : list Z) : Z := foldr Z.add 0 l.

Section SumZ.
Lemma sumZ_app l1 l2 : sumZ (l1 ++ l2) = sumZ l1 + sumZ l2.
Proof. induction l1 as [|x l IH]; simpl; [done|]. unfold sumZ in *; simpl; lia. Qed.
Lemma sumZ_perm l1 l2 : l1 ≡ₚ l2 → sumZ l1 = sumZ l2.
Proof. induction 1; unfold sumZ in *; simpl in *; lia. Qed.
Lemma sumZ_nonneg l : Forall (λ x, 0 ≤ x) l → 0 ≤ sumZ l.
Proof. induction 1; unfold sumZ in *; simpl in *; lia. Qed.
Lemma sumZ_insert l i x y :
  l !! i = Some x → sumZ (<[i:=y]> l) = sumZ l - x + y.
Proof.
  revert i. induction l as [|z l IH]; intros [|i] H; simplify_eq/=.
  - unfold sumZ; simpl; lia.
  - specialize (IH i H). unfold sumZ in *; simpl in *; lia.
Qed.
End SumZ.

Lemma Forall2_impl_in {A B} (P Q : A → B → Prop) l k :
  Forall2 P l k → (∀ x y, x ∈ l → P x y → Q x y) → Forall2 Q l k.
Proof.
  induction 1 as [|x y l k Hxy Hl IH]; intros H; constructor; [apply H; [constructor|done]|].
  apply IH. intros x' y' Hin. apply H. by constructor.
Qed.
