(* ===== verification/Kernel.v ===== *)
(** * The BPF maps and the kernel interface of the datapath

    [bpf/shared/maps.h] and [bpf/shared/stats.h]: the map values, the counter
    slots and the thirteen maps, as the state [world] of the two BPF programs.
    The helpers the kernel provides (hash maps, the boot clock, packet loads) are
    not code of the repository: the maps are the class [BpfMap] with its laws
    [BpfMapLaws], which leave the LRU eviction open; the clock and the packet are
    arguments.  Programs are the state monad [prog], and [Preserves] carries a
    relation between states through a whole program. *)
From S2P Require Import Prelude.

(** ** Map values (maps.h) *)
Record ratelimit := Ratelimit { tokens : Z; last_refill_ns : Z }.
Record ip_health := IpHealth {
  anomalies : Z; window_start_ns : Z; blacklist_until_ns : Z }.
Record conn_limit := ConnLimit {
  pkt_tokens : Z; pkt_last_ns : Z; byte_tokens : Z; byte_last_ns : Z }.
Record ip_drop_history := IpDropHistory {
  first_drop_ns : Z; last_drop_ns : Z; counts : list Z }.

Inductive drop_reason :=
  | DROP_REASON_TCP_NO_SYN | DROP_REASON_TCP_TOO_MANY_OPEN
  | DROP_REASON_TCP_GLOBAL_RATELIMIT | DROP_REASON_STATUS_RATELIMIT
  | DROP_REASON_LOGIN_RATELIMIT | DROP_REASON_MALFORMED_HANDSHAKE
  | DROP_REASON_UNHEALTHY | DROP_REASON_TCP_BAD_FLAGS
  | DROP_REASON_CONN_RATELIMIT | DROP_REASON_TCP_CONN_RATE.
#[export] Instance drop_reason_eq_dec : EqDecision drop_reason.
Proof. solve_decision. Defined.

Definition NUM_DROP_REASONS : nat := 10.
Definition drop_reason_idx (r : drop_reason) : nat :=
  match r with
  | DROP_REASON_TCP_NO_SYN => 0 | DROP_REASON_TCP_TOO_MANY_OPEN => 1
  | DROP_REASON_TCP_GLOBAL_RATELIMIT => 2 | DROP_REASON_STATUS_RATELIMIT => 3
  | DROP_REASON_LOGIN_RATELIMIT => 4 | DROP_REASON_MALFORMED_HANDSHAKE => 5
  | DROP_REASON_UNHEALTHY => 6 | DROP_REASON_TCP_BAD_FLAGS => 7
  | DROP_REASON_CONN_RATELIMIT => 8 | DROP_REASON_TCP_CONN_RATE => 9
  end.

Inductive minecraft_stat :=
  | STAT_PASS_TCP | STAT_TCP_ESTABLISHED_INSERTS | STAT_TCP_L7_PROMOTED
  | STAT_TCP_L7_MATCH_NO_EST | STAT_TCP_HANDSHAKE_STATUS_SEEN
  | STAT_TCP_HANDSHAKE_LOGIN_SEEN | STAT_DROP_TCP_NO_SYN
  | STAT_DROP_TCP_TOO_MANY_OPEN | STAT_DROP_TCP_GLOBAL_RATELIMIT
  | STAT_DROP_STATUS_RATELIMIT | STAT_DROP_LOGIN_RATELIMIT
  | STAT_DROP_MALFORMED_HANDSHAKE | STAT_DROP_TCP_UNHEALTHY
  | STAT_DROP_TCP_BAD_FLAGS | STAT_DROP_CONN_RATELIMIT | STAT_DROP_TCP_CONN_RATE.
#[export] Instance minecraft_stat_eq_dec : EqDecision minecraft_stat.
Proof. solve_decision. Defined.

Definition STAT_MAX : nat := 16.
Definition stat_slot (s : minecraft_stat) : nat :=
  match s with
  | STAT_PASS_TCP => 0 | STAT_TCP_ESTABLISHED_INSERTS => 1
  | STAT_TCP_L7_PROMOTED => 2 | STAT_TCP_L7_MATCH_NO_EST => 3
  | STAT_TCP_HANDSHAKE_STATUS_SEEN => 4 | STAT_TCP_HANDSHAKE_LOGIN_SEEN => 5
  | STAT_DROP_TCP_NO_SYN => 6 | STAT_DROP_TCP_TOO_MANY_OPEN => 7
  | STAT_DROP_TCP_GLOBAL_RATELIMIT => 8 | STAT_DROP_STATUS_RATELIMIT => 9
  | STAT_DROP_LOGIN_RATELIMIT => 10 | STAT_DROP_MALFORMED_HANDSHAKE => 11
  | STAT_DROP_TCP_UNHEALTHY => 12 | STAT_DROP_TCP_BAD_FLAGS => 13
  | STAT_DROP_CONN_RATELIMIT => 14 | STAT_DROP_TCP_CONN_RATE => 15
  end.

(** ** Hash maps of the kernel

    [bpf_lookup] is bpf_map_lookup_elem, [bpf_update] is bpf_map_update_elem
    with BPF_ANY, [bpf_delete] is bpf_map_delete_elem, and [bpf_store] is a store
    through the pointer a lookup returned. *)
Class BpfMap (M : Type → Type) := {
  bpf_lookup {V} : ipkey → M V → option V;
  bpf_update {V} : ipkey → V → M V → M V;
  bpf_delete {V} : ipkey → M V → M V;
  bpf_store {V} : ipkey → V → M V → M V;
}.

(** What the programs rely on.  An update of an LRU map may evict entries of
    other keys; it changes no value.  A store writes to a live entry; an element that
    is no longer in the map is written where no lookup finds it. *)
Class BpfMapLaws (M : Type → Type) `{!BpfMap M} := {
  bpf_lookup_update_eq {V} k (v : V) m : bpf_lookup k (bpf_update k v m) = Some v;
  bpf_lookup_update_ne {V} k j (v : V) m : j ≠ k →
    bpf_lookup j (bpf_update k v m) = bpf_lookup j m ∨
    bpf_lookup j (bpf_update k v m) = None;
  bpf_lookup_delete_eq {V} k (m : M V) : bpf_lookup k (bpf_delete k m) = None;
  bpf_lookup_delete_ne {V} k j (m : M V) : j ≠ k →
    bpf_lookup j (bpf_delete k m) = bpf_lookup j m;
  bpf_lookup_store_eq {V} k (v : V) m : is_Some (bpf_lookup k m) →
    bpf_lookup k (bpf_store k v m) = Some v;
  bpf_lookup_store_none {V} k (v : V) m : bpf_lookup k m = None →
    bpf_lookup k (bpf_store k v m) = None;
  bpf_lookup_store_ne {V} k j (v : V) m : j ≠ k →
    bpf_lookup j (bpf_store k v m) = bpf_lookup j m;
}.

(** A map below its capacity evicts nothing. *)
Class BpfMapNoEvict (M : Type → Type) `{!BpfMap M} := {
  bpf_no_evict {V} k j (v : V) m : j ≠ k →
    bpf_lookup j (bpf_update k v m) = bpf_lookup j m;
}.

(** *** A map that never fills: [gmap] *)
#[export] Instance gmap_bpf : BpfMap (gmap ipkey) := {
  bpf_lookup V k m := m !! k;
  bpf_update V k v m := <[k := v]> m;
  bpf_delete V k m := delete k m;
  bpf_store V k v m := alter (λ _, v) k m;
}.
#[export] Instance gmap_bpf_laws : BpfMapLaws (gmap ipkey).
Proof.
  split; intros; unfold bpf_lookup, bpf_update, bpf_delete, bpf_store in *; simpl in *;
    rewrite ?lookup_alter_eq, ?lookup_alter_ne by done; try left; simplify_map_eq; try done.
  match goal with H : is_Some _ |- _ => by destruct H as [? ->] end.
Qed.
#[export] Instance gmap_bpf_no_evict : BpfMapNoEvict (gmap ipkey).
Proof. split; intros; unfold bpf_lookup, bpf_update; simpl; by simplify_map_eq. Qed.

(** *** A bounded map that evicts its oldest entry

    Shows that [BpfMapLaws] admits eviction: [lru n] holds at most [S n] entries,
    newest first. *)
Definition lru (n : nat) (V : Type) : Type := list (ipkey * V).

Fixpoint assoc {V} (k : ipkey) (l : list (ipkey * V)) : option V :=
  match l with
  | [] => None
  | (j, v) :: l => if decide (j = k) then Some v else assoc k l
  end.
Definition assoc_remove {V} (k : ipkey) (l : list (ipkey * V)) : list (ipkey * V) :=
  filter (λ p, p.1 ≠ k) l.
Fixpoint assoc_set {V} (k : ipkey) (v : V) (l : list (ipkey * V)) : list (ipkey * V) :=
  match l with
  | [] => []
  | (j, u) :: l => if decide (j = k) then (k, v) :: l else (j, u) :: assoc_set k v l
  end.

#[export] Instance lru_bpf n : BpfMap (lru n) := {
  bpf_lookup V k m := assoc k m;
  bpf_update V k v m := (k, v) :: take n (assoc_remove k m);
  bpf_delete V k m := assoc_remove k m;
  bpf_store V k v m := assoc_set k v m;
}.

Section Assoc.
Context {V : Type}.
Implicit Types (l : list (ipkey * V)) (v : V).

Lemma assoc_remove_eq k l : assoc k (assoc_remove k l) = None.
Proof.
  unfold assoc_remove. induction l as [|[j u] l IH]; [done|].
  rewrite filter_cons. case_decide; simpl in *; [rewrite decide_False|]; done.
Qed.
Lemma assoc_remove_ne k j l : j ≠ k → assoc j (assoc_remove k l) = assoc j l.
Proof.
  intros Hne. unfold assoc_remove. induction l as [|[i u] l IH]; [done|].
  rewrite filter_cons. simpl. repeat case_decide; simpl; simplify_eq;
    repeat case_decide; simplify_eq; done.
Qed.
Lemma assoc_take n k l : assoc k (take n l) = assoc k l ∨ assoc k (take n l) = None.
Proof.
  revert n. induction l as [|[j u] l IH]; intros [|n]; simpl; auto.
  case_decide; auto.
Qed.
Lemma assoc_set_eq k v l : is_Some (assoc k l) → assoc k (assoc_set k v l) = Some v.
Proof.
  induction l as [|[j u] l IH]; simpl; [by intros []|].
  case_decide; simpl; [by rewrite decide_True|by rewrite decide_False].
Qed.
Lemma assoc_set_ne k j v l : j ≠ k → assoc j (assoc_set k v l) = assoc j l.
Proof.
  intros Hne. induction l as [|[i u] l IH]; simpl; [done|].
  repeat case_decide; simpl; repeat case_decide; simplify_eq; done.
Qed.
Lemma assoc_set_none k v l : assoc k l = None → assoc k (assoc_set k v l) = None.
Proof.
  induction l as [|[j u] l IH]; simpl; [done|].
  case_decide; simpl; [done|]. rewrite decide_False by done. apply IH.
Qed.
End Assoc.

#[export] Instance lru_bpf_laws n : BpfMapLaws (lru n).
Proof.
  split; intros; unfold bpf_lookup, bpf_update, bpf_delete, bpf_store; simpl.
  - by rewrite decide_True.
  - rewrite decide_False by done.
    destruct (assoc_take n j (assoc_remove k m)) as [-> | ->]; [left|by right].
    by apply assoc_remove_ne.
  - apply assoc_remove_eq.
  - by apply assoc_remove_ne.
  - by apply assoc_set_eq.
  - by apply assoc_set_none.
  - by apply assoc_set_ne.
Qed.
