(* ===== verification/World.v ===== *)
(** * The shared state of the datapath and the program monad

    [world] holds the thirteen maps of [bpf/shared/maps.h]; [mapid] names the
    per-IP ones (the [void *map] the source passes around), so that one lemma per
    helper serves all of them.  [prog] threads the state through the helpers;
    [Preserves R m] says that a relation [R] holds between the states before and
    after [m], whatever the state and the environment, and the [preserve] tactic
    carries it along the structure of a program. *)
From S2P Require Import Prelude Kernel.

(** ** State *)
Record world (M : Type → Type) := World {
  tcp_established : M Z;
  tcp_syn_seen : M Z;
  tcp_first_data : M Z;
  tcp_whitelist : M Z;
  status_ratelimit : M ratelimit;
  login_ratelimit : M ratelimit;
  syn_ratelimit : M ratelimit;
  tcp_open_count : M Z;
  conn_ratelimit : M conn_limit;
  health : M ip_health;
  drop_history : M ip_drop_history;
  (** per-CPU arrays: one element per CPU *)
  tcp_global_ratelimit : list ratelimit;
  stats : list (list Z);
  (** how many times the boot clock was read *)
  clock_reads : nat;
}.
Arguments World {M}.
Arguments tcp_established {M}. Arguments tcp_syn_seen {M}.
Arguments tcp_first_data {M}. Arguments tcp_whitelist {M}.
Arguments status_ratelimit {M}. Arguments login_ratelimit {M}.
Arguments syn_ratelimit {M}. Arguments tcp_open_count {M}.
Arguments conn_ratelimit {M}. Arguments health {M}. Arguments drop_history {M}.
Arguments tcp_global_ratelimit {M}. Arguments stats {M}. Arguments clock_reads {M}.

(** The map a helper call names, with the type of its values. *)
Inductive mapid : Type → Type :=
  | ESTABLISHED : mapid Z | SYN_SEEN : mapid Z | FIRST_DATA : mapid Z
  | WHITELIST : mapid Z | OPEN_COUNT : mapid Z
  | STATUS_RL : mapid ratelimit | LOGIN_RL : mapid ratelimit | SYN_RL : mapid ratelimit
  | CONN_RL : mapid conn_limit | HEALTH : mapid ip_health
  | DROP_HISTORY : mapid ip_drop_history.

(** Map names without their value type, to compare them. *)
Inductive tag := TEst | TSyn | TFirst | TWl | TOpen | TStatus | TLogin | TSynRl
  | TConn | THealth | THist.
#[export] Instance tag_eq_dec : EqDecision tag.
Proof. solve_decision. Defined.
Definition tag_of {V} (i : mapid V) : tag :=
  match i with
  | ESTABLISHED => TEst | SYN_SEEN => TSyn | FIRST_DATA => TFirst
  | WHITELIST => TWl | OPEN_COUNT => TOpen | STATUS_RL => TStatus
  | LOGIN_RL => TLogin | SYN_RL => TSynRl | CONN_RL => TConn | HEALTH => THealth
  | DROP_HISTORY => THist
  end.

Section Access.
Context {M : Type → Type}.

Definition get_map {V} (i : mapid V) (w : world M) : M V :=
  match i in mapid V return M V with
  | ESTABLISHED => tcp_established w | SYN_SEEN => tcp_syn_seen w
  | FIRST_DATA => tcp_first_data w | WHITELIST => tcp_whitelist w
  | OPEN_COUNT => tcp_open_count w | STATUS_RL => status_ratelimit w
  | LOGIN_RL => login_ratelimit w | SYN_RL => syn_ratelimit w
  | CONN_RL => conn_ratelimit w | HEALTH => health w
  | DROP_HISTORY => drop_history w
  end.

Definition set_map {V} (i : mapid V) (m : M V) (w : world M) : world M :=
  match w with
  | World est syn fd wl st lo sr oc cl he dh gl ss n =>
    match i in mapid V return M V → world M with
    | ESTABLISHED => λ m, World m syn fd wl st lo sr oc cl he dh gl ss n
    | SYN_SEEN => λ m, World est m fd wl st lo sr oc cl he dh gl ss n
    | FIRST_DATA => λ m, World est syn m wl st lo sr oc cl he dh gl ss n
    | WHITELIST => λ m, World est syn fd m st lo sr oc cl he dh gl ss n
    | STATUS_RL => λ m, World est syn fd wl m lo sr oc cl he dh gl ss n
    | LOGIN_RL => λ m, World est syn fd wl st m sr oc cl he dh gl ss n
    | SYN_RL => λ m, World est syn fd wl st lo m oc cl he dh gl ss n
    | OPEN_COUNT => λ m, World est syn fd wl st lo sr m cl he dh gl ss n
    | CONN_RL => λ m, World est syn fd wl st lo sr oc m he dh gl ss n
    | HEALTH => λ m, World est syn fd wl st lo sr oc cl m dh gl ss n
    | DROP_HISTORY => λ m, World est syn fd wl st lo sr oc cl he m gl ss n
    end m
  end.

Definition set_global (g : list ratelimit) (w : world M) : world M :=
  match w with
  | World est syn fd wl st lo sr oc cl he dh _ ss n =>
    World est syn fd wl st lo sr oc cl he dh g ss n
  end.
Definition set_stats (s : list (list Z)) (w : world M) : world M :=
  match w with
  | World est syn fd wl st lo sr oc cl he dh gl _ n =>
    World est syn fd wl st lo sr oc cl he dh gl s n
  end.
Definition tick (w : world M) : world M :=
  match w with
  | World est syn fd wl st lo sr oc cl he dh gl ss n =>
    World est syn fd wl st lo sr oc cl he dh gl ss (S n)
  end.

Section Laws.
Context {V W : Type} (i : mapid V) (j : mapid W) (w : world M).
Lemma get_set_eq m : get_map i (set_map i m w) = m.
Proof. by destruct w, i. Qed.
Lemma get_set_ne m : tag_of i ≠ tag_of j → get_map j (set_map i m w) = get_map j w.
Proof. by destruct w, i, j. Qed.
Lemma get_set_global g : get_map i (set_global g w) = get_map i w.
Proof. by destruct w, i. Qed.
Lemma get_set_stats s : get_map i (set_stats s w) = get_map i w.
Proof. by destruct w, i. Qed.
Lemma get_tick : get_map i (tick w) = get_map i w.
Proof. by destruct w, i. Qed.
Lemma stats_set_map m : stats (set_map i m w) = stats w.
Proof. by destruct w, i. Qed.
Lemma global_set_map m : tcp_global_ratelimit (set_map i m w) = tcp_global_ratelimit w.
Proof. by destruct w, i. Qed.
Lemma clock_set_map m : clock_reads (set_map i m w) = clock_reads w.
Proof. by destruct w, i. Qed.
Lemma stats_tick : stats (tick w) = stats w. Proof. by destruct w. Qed.
Lemma global_tick : tcp_global_ratelimit (tick w) = tcp_global_ratelimit w.
Proof. by destruct w. Qed.
Lemma clock_tick : clock_reads (tick w) = S (clock_reads w). Proof. by destruct w. Qed.
Lemma stats_set_stats s : stats (set_stats s w) = s. Proof. by destruct w. Qed.
Lemma stats_set_global g : stats (set_global g w) = stats w. Proof. by destruct w. Qed.
Lemma global_set_stats s : tcp_global_ratelimit (set_stats s w) = tcp_global_ratelimit w.
Proof. by destruct w. Qed.
Lemma global_set_global g : tcp_global_ratelimit (set_global g w) = g.
Proof. by destruct w. Qed.
Lemma clock_set_stats s : clock_reads (set_stats s w) = clock_reads w.
Proof. by destruct w. Qed.
Lemma clock_set_global g : clock_reads (set_global g w) = clock_reads w.
Proof. by destruct w. Qed.
End Laws.

(** A relation on maps that holds for the map written and is reflexive holds
    for every map. *)
Lemma set_map_rel (R : ∀ W, mapid W → M W → M W → Prop) {V} (i : mapid V) m w :
  (∀ W j x, R W j x x) → R V i (get_map i w) m →
  ∀ W j, R W j (get_map j w) (get_map j (set_map i m w)).
Proof. intros Hr Hi W j. destruct w, i, j; simpl in *; auto. Qed.
End Access.
Create Rewrite HintDb world.
#[export] Hint Rewrite @get_set_eq @get_set_global @get_set_stats @get_tick
  @stats_set_map @global_set_map @clock_set_map @stats_tick @global_tick @clock_tick
  @stats_set_stats @stats_set_global @global_set_stats @global_set_global
  @clock_set_stats @clock_set_global : world.
#[export] Hint Rewrite @get_set_ne using (by vm_compute) : world.

(** ** Tunables: the volatile constants the loader writes before the load *)
Record xdp_config := XdpConfig {
  target_port : Z; whitelist_ttl_ns : Z;
  status_period_ns : Z; status_burst : Z;
  login_period_ns : Z; login_burst : Z;
  tcp_global_period_ns : Z; tcp_global_burst : Z;
  tcp_max_open_per_ip : Z;
  health_window_ns : Z; health_threshold : Z; health_blacklist_ns : Z;
  conn_pkt_period_ns : Z; conn_pkt_burst : Z;
  conn_byte_period_ns : Z; conn_byte_burst : Z;
  conn_new_period_ns : Z; conn_new_burst : Z;
}.

(** The values compiled into the object file. *)
Definition default_config : xdp_config := {|
  target_port := 25565; whitelist_ttl_ns := 600 * 1000000000;
  status_period_ns := 1000000000; status_burst := 20;
  login_period_ns := 3000000000; login_burst := 8;
  tcp_global_period_ns := 0; tcp_global_burst := 0; tcp_max_open_per_ip := 0;
  health_window_ns := 10 * 1000000000; health_threshold := 20;
  health_blacklist_ns := 300 * 1000000000;
  conn_pkt_period_ns := 0; conn_pkt_burst := 0;
  conn_byte_period_ns := 0; conn_byte_burst := 0;
  conn_new_period_ns := 0; conn_new_burst := 0 |}.

(** The surroundings of one run: the tunables, the CPU it runs on, and the boot
    clock, the [n]-th reading of which is [boot_ns n]. *)
Record kenv := Kenv { conf : xdp_config; cpu : nat; boot_ns : nat → Z }.

(** What the kernel documents of its boot clock: it never runs backwards, and it
    stays far from the end of its range (2^63 ns is 292 years of uptime). *)
Definition clock_ok (e : kenv) : Prop :=
  (∀ n, 0 ≤ boot_ns e n < 2 ^ 63) ∧ (∀ n m, (n ≤ m)%nat → boot_ns e n ≤ boot_ns e m).

(** ** Programs *)
Definition prog (M : Type → Type) (A : Type) : Type := kenv → world M → A * world M.
#[export] Instance prog_ret M : MRet (prog M) := λ A a e w, (a, w).
#[export] Instance prog_bind M : MBind (prog M) :=
  λ A B k m e w, let '(a, w') := m e w in k a e w'.

Section Helpers.
Context {M : Type → Type} `{!BpfMap M}.

Definition reads {A} (f : kenv → A) : prog M A := λ e w, (f e, w).
Definition cfg (f : xdp_config → Z) : prog M Z := reads (λ e, f (conf e)).

Definition bpf_map_lookup_elem {V} (i : mapid V) (k : ipkey) : prog M (option V) :=
  λ e w, (bpf_lookup k (get_map i w), w).
Definition bpf_map_update_elem {V} (i : mapid V) (k : ipkey) (v : V) : prog M unit :=
  λ e w, (tt, set_map i (bpf_update k v (get_map i w)) w).
Definition bpf_map_delete_elem {V} (i : mapid V) (k : ipkey) : prog M unit :=
  λ e w, (tt, set_map i (bpf_delete k (get_map i w)) w).
(** An assignment through the pointer a lookup of [k] returned. *)
Definition map_store {V} (i : mapid V) (k : ipkey) (v : V) : prog M unit :=
  λ e w, (tt, set_map i (bpf_store k v (get_map i w)) w).
Definition bpf_ktime_get_boot_ns : prog M Z :=
  λ e w, (boot_ns e (clock_reads w), tick w).

(** The per-CPU arrays: the program sees the element of its own CPU. *)
Definition global_lookup : prog M (option ratelimit) :=
  λ e w, (tcp_global_ratelimit w !! cpu e, w).
Definition global_store (b : ratelimit) : prog M unit :=
  λ e w, (tt, set_global (<[cpu e := b]> (tcp_global_ratelimit w)) w).

Definition stat_bump (s : minecraft_stat) : prog M unit :=
  λ e w, (tt, match stats w !! cpu e with
    | Some row => match row !! stat_slot s with
      | Some c => set_stats (<[cpu e := <[stat_slot s := u64 (c + 1)]> row]> (stats w)) w
      | None => w
      end
    | None => w
    end).

(** ** Relations preserved by programs *)
Definition Preserves (R : kenv → world M → world M → Prop) {A} (m : prog M A) : Prop :=
  ∀ e w, R e w (m e w).2.

Section PreservesLaws.
Context (R : kenv → world M → world M → Prop) `{!∀ e, PreOrder (R e)}.

Lemma preserves_ret {A} (a : A) : Preserves R (mret a).
Proof. intros e w. simpl. reflexivity. Qed.
Lemma preserves_reads {A} (f : kenv → A) : Preserves R (reads f).
Proof. intros e w. simpl. reflexivity. Qed.
Lemma preserves_lookup {V} (i : mapid V) k : Preserves R (bpf_map_lookup_elem i k).
Proof. intros e w. simpl. reflexivity. Qed.
Lemma preserves_global_lookup : Preserves R global_lookup.
Proof. intros e w. simpl. reflexivity. Qed.
Lemma preserves_bind {A B} (m : prog M A) (k : A → prog M B) :
  Preserves R m → (∀ a, Preserves R (k a)) → Preserves R (m ≫= k).
Proof.
  intros Hm Hk e w. unfold mbind, prog_bind.
  specialize (Hm e w). destruct (m e w) as [a w']. simpl in Hm.
  by etrans; [apply Hm|apply Hk].
Qed.
End PreservesLaws.
End Helpers.
Arguments Preserves {M} R {A} m.
#[export] Hint Resolve preserves_ret preserves_reads preserves_lookup
  preserves_global_lookup : frame.

(** Carries a preserved relation through a program: binds, conditionals and
    matches are opened, the helpers are discharged by the hint database. *)
Ltac preserve :=
  repeat match goal with
  | |- Preserves _ _ => solve [auto with frame typeclass_instances]
  | |- Preserves _ (_ ≫= _) => apply preserves_bind; [apply _| |intros ?]
  | |- Preserves _ (if ?b then _ else _) => destruct b eqn:?
  | |- Preserves _ (match ?x with _ => _ end) => destruct x eqn:?
  | |- Preserves _ ((match ?x with _ => _ end) _) => destruct x eqn:?
  end.

(** ** A concrete world, for witnesses *)
Definition empty_world (ncpu : nat) : world (gmap ipkey) :=
  World ∅ ∅ ∅ ∅ ∅ ∅ ∅ ∅ ∅ ∅ ∅ (replicate ncpu (Ratelimit 0 0))
    (replicate ncpu (replicate STAT_MAX 0)) 0.
(** A clock that ticks once per reading, one second apart, up to 2^62 ns. *)
Definition example_env (c : xdp_config) : kenv :=
  Kenv c 0 (λ n, Z.min (1000000000 * (Z.of_nat n + 1)) (2 ^ 62)).
Lemma example_env_clock c : clock_ok (example_env c).
Proof.
  split; simpl; [intros n|intros n m ?]; change (2 ^ 62) with 4611686018427387904;
    change (2 ^ 63) with 9223372036854775808; lia.
Qed.
