(* ===== verification/Frame.v ===== *)
(** * Frame relations of the datapath

    Three ways to bound what a program may change, each a preorder that every
    helper call respects: [only_ip k] (only entries of the source [k]; other
    sources lose entries to LRU eviction at worst), [only_maps S] (only the maps
    named in [S]) and [stats_bounded] (the counters of this CPU only). *)
From S2P Require Import Prelude Kernel World.

(** Membership in a concrete list of map names. *)
Ltac new_tag := apply (proj1 (bool_decide_eq_false _)); vm_compute; reflexivity.
Ltac sub_tags :=
  let x := fresh "x" in intros x; rewrite ?elem_of_cons, ?elem_of_nil; tauto.

Section Frame.
Context {M : Type → Type} `{!BpfMap M, !BpfMapLaws M}.
Implicit Types (w : world M) (e : kenv).

(** [m'] agrees with [m] away from [src], up to evicted entries. *)
Definition map_only (src : ipkey) {V} (m m' : M V) : Prop :=
  ∀ k, k ≠ src → bpf_lookup k m' = bpf_lookup k m ∨ bpf_lookup k m' = None.

#[export] Instance map_only_preorder src V : PreOrder (@map_only src V).
Proof.
  split; [by left|]. intros x y z H1 H2 k Hk.
  destruct (H2 k Hk) as [->|]; auto.
Qed.
Lemma map_only_update src {V} (v : V) m : map_only src m (bpf_update src v m).
Proof. intros k ?. by apply bpf_lookup_update_ne. Qed.
Lemma map_only_delete src {V} (m : M V) : map_only src m (bpf_delete src m).
Proof. intros k ?. left. by apply bpf_lookup_delete_ne. Qed.
Lemma map_only_store src {V} (v : V) m : map_only src m (bpf_store src v m).
Proof. intros k ?. left. by apply bpf_lookup_store_ne. Qed.

(** Every per-IP map agrees away from [src], up to evicted entries. *)
Definition only_ip (src : ipkey) (e : kenv) (w w' : world M) : Prop :=
  ∀ V (i : mapid V), map_only src (get_map i w) (get_map i w').

#[export] Instance only_ip_preorder src e : PreOrder (only_ip src e).
Proof.
  split; [intros w V i; reflexivity|]. intros x y z H1 H2 V i. etrans; [apply H1|apply H2].
Qed.

Lemma only_ip_set src e {V} (i : mapid V) m w :
  map_only src (get_map i w) m → only_ip src e w (set_map i m w).
Proof.
  intros H W j. refine (set_map_rel (λ W _, @map_only src W) i m w _ H W j).
  reflexivity.
Qed.

Lemma only_ip_update src {V} (i : mapid V) v :
  Preserves (only_ip src) (bpf_map_update_elem i src v).
Proof. intros e w. apply only_ip_set, map_only_update. Qed.
Lemma only_ip_delete src {V} (i : mapid V) :
  Preserves (only_ip src) (bpf_map_delete_elem i src).
Proof. intros e w. apply only_ip_set, map_only_delete. Qed.
Lemma only_ip_store src {V} (i : mapid V) v :
  Preserves (only_ip src) (map_store i src v).
Proof. intros e w. apply only_ip_set, map_only_store. Qed.
Lemma only_ip_ktime src : Preserves (only_ip src) bpf_ktime_get_boot_ns.
Proof. intros e w V i. simpl. by rewrite get_tick. Qed.
Lemma only_ip_global_store src b : Preserves (only_ip src) (global_store b).
Proof. intros e w V i. simpl. by rewrite get_set_global. Qed.
Lemma only_ip_stat_bump src s : Preserves (only_ip src) (stat_bump s).
Proof.
  intros e w V i. simpl. repeat case_match; simpl; rewrite ?get_set_stats; done.
Qed.

(** Every per-IP map whose name is not in [S] is the same map. *)
Definition only_maps (S : list tag) (e : kenv) (w w' : world M) : Prop :=
  ∀ V (i : mapid V), tag_of i ∉ S → get_map i w' = get_map i w.

#[export] Instance only_maps_preorder S e : PreOrder (only_maps S e).
Proof.
  split; [by intros w V i|]. intros x y z H1 H2 V i Hi.
  by rewrite H2, H1.
Qed.
Lemma only_maps_mono S S' e w w' : S ⊆ S' → only_maps S e w w' → only_maps S' e w w'.
Proof. intros HS H V i Hi. apply H. set_solver. Qed.

Lemma only_maps_set S e {V} (i : mapid V) m w :
  bool_decide (tag_of i ∈ S) = true → only_maps S e w (set_map i m w).
Proof.
  intros Hi%bool_decide_eq_true W j Hj. apply get_set_ne. by intros Heq; rewrite Heq in Hi.
Qed.
Lemma only_maps_update S {V} (i : mapid V) k v :
  bool_decide (tag_of i ∈ S) = true → Preserves (only_maps S) (bpf_map_update_elem i k v).
Proof. intros H e w. by apply only_maps_set. Qed.
Lemma only_maps_delete S {V} (i : mapid V) k :
  bool_decide (tag_of i ∈ S) = true → Preserves (only_maps S) (bpf_map_delete_elem i k).
Proof. intros H e w. by apply only_maps_set. Qed.
Lemma only_maps_store S {V} (i : mapid V) k v :
  bool_decide (tag_of i ∈ S) = true → Preserves (only_maps S) (map_store i k v).
Proof. intros H e w. by apply only_maps_set. Qed.
Lemma only_maps_ktime S : Preserves (only_maps S) bpf_ktime_get_boot_ns.
Proof. intros e w V i _. simpl. by rewrite get_tick. Qed.
Lemma only_maps_global_store S b : Preserves (only_maps S) (global_store b).
Proof. intros e w V i _. simpl. by rewrite get_set_global. Qed.
Lemma only_maps_stat_bump S s : Preserves (only_maps S) (stat_bump s).
Proof.
  intros e w V i _. simpl. repeat case_match; simpl; rewrite ?get_set_stats; done.
Qed.

(** The counters are untouched. *)
Definition same_stats (e : kenv) (w w' : world M) : Prop := stats w' = stats w.
#[export] Instance same_stats_preorder e : PreOrder (same_stats e).
Proof. split; [by intros w|]. intros x y z H1 H2. unfold same_stats in *. congruence. Qed.
Lemma same_stats_update {V} (i : mapid V) k v :
  Preserves same_stats (bpf_map_update_elem i k v).
Proof. intros e w. apply stats_set_map. Qed.
Lemma same_stats_delete {V} (i : mapid V) k : Preserves same_stats (bpf_map_delete_elem i k).
Proof. intros e w. apply stats_set_map. Qed.
Lemma same_stats_store {V} (i : mapid V) k v : Preserves same_stats (map_store i k v).
Proof. intros e w. apply stats_set_map. Qed.
Lemma same_stats_ktime : Preserves same_stats bpf_ktime_get_boot_ns.
Proof. intros e w. apply stats_tick. Qed.
Lemma same_stats_global_store b : Preserves same_stats (global_store b).
Proof. intros e w. apply stats_set_global. Qed.

(** The circuit breaker is untouched. *)
Definition same_breaker (e : kenv) (w w' : world M) : Prop :=
  tcp_global_ratelimit w' = tcp_global_ratelimit w.
#[export] Instance same_breaker_preorder e : PreOrder (same_breaker e).
Proof. split; [by intros w|]. intros x y z H1 H2. unfold same_breaker in *. congruence. Qed.
Lemma same_breaker_update {V} (i : mapid V) k v :
  Preserves same_breaker (bpf_map_update_elem i k v).
Proof. intros e w. apply global_set_map. Qed.
Lemma same_breaker_delete {V} (i : mapid V) k : Preserves same_breaker (bpf_map_delete_elem i k).
Proof. intros e w. apply global_set_map. Qed.
Lemma same_breaker_store {V} (i : mapid V) k v : Preserves same_breaker (map_store i k v).
Proof. intros e w. apply global_set_map. Qed.
Lemma same_breaker_ktime : Preserves same_breaker bpf_ktime_get_boot_ns.
Proof. intros e w. apply global_tick. Qed.
Lemma same_breaker_stat_bump s : Preserves same_breaker (stat_bump s).
Proof.
  intros e w. unfold same_breaker. simpl. repeat case_match; simpl; by rewrite ?global_set_stats.
Qed.

(** The clock is read some more times. *)
Definition later (e : kenv) (w w' : world M) : Prop :=
  (clock_reads w ≤ clock_reads w')%nat.
#[export] Instance later_preorder e : PreOrder (later e).
Proof. split; [by intros w; unfold later|]. intros x y z; unfold later; lia. Qed.
Lemma later_update {V} (i : mapid V) k v : Preserves later (bpf_map_update_elem i k v).
Proof. intros e w. unfold later; simpl. by rewrite clock_set_map. Qed.
Lemma later_delete {V} (i : mapid V) k : Preserves later (bpf_map_delete_elem i k).
Proof. intros e w. unfold later; simpl. by rewrite clock_set_map. Qed.
Lemma later_store {V} (i : mapid V) k v : Preserves later (map_store i k v).
Proof. intros e w. unfold later; simpl. by rewrite clock_set_map. Qed.
Lemma later_ktime : Preserves later bpf_ktime_get_boot_ns.
Proof. intros e w. unfold later; simpl. rewrite clock_tick. lia. Qed.
Lemma later_global_store b : Preserves later (global_store b).
Proof. intros e w. unfold later; simpl. by rewrite clock_set_global. Qed.
Lemma later_stat_bump s : Preserves later (stat_bump s).
Proof.
  intros e w. unfold later; simpl. repeat case_match; simpl; by rewrite ?clock_set_stats.
Qed.

(** Only the maps in [S] change, and the clock moves on. *)
Definition calm (S : list tag) (e : kenv) (w w' : world M) : Prop :=
  only_maps S e w w' ∧ later e w w'.
#[export] Instance calm_preorder S e : PreOrder (calm S e).
Proof.
  split; [intros w; split; reflexivity|].
  intros x y z [H1 H2] [H3 H4]. split; by etrans.
Qed.
Lemma calm_mono S S' e w w' : S ⊆ S' → calm S e w w' → calm S' e w w'.
Proof. intros HS [Hm Hl]. split; [by eapply only_maps_mono|done]. Qed.
Lemma calm_intro S {A} (m : prog M A) :
  Preserves (only_maps S) m → Preserves later m → Preserves (calm S) m.
Proof. intros Hm Hl e w. by split. Qed.
End Frame.

#[export] Hint Resolve only_ip_update only_ip_delete only_ip_store only_ip_ktime
  only_ip_global_store only_ip_stat_bump only_maps_ktime only_maps_global_store
  only_maps_stat_bump same_stats_update same_stats_delete same_stats_store
  same_stats_ktime same_stats_global_store same_breaker_update same_breaker_delete
  same_breaker_store same_breaker_ktime same_breaker_stat_bump later_update later_delete later_store
  later_ktime later_global_store later_stat_bump : frame.
#[export] Hint Extern 1 (Preserves (calm _) _) => apply calm_intro : frame.
#[export] Hint Extern 1 (Preserves (only_maps _) (bpf_map_update_elem _ _ _)) =>
  apply only_maps_update; vm_compute; reflexivity : frame.
#[export] Hint Extern 1 (Preserves (only_maps _) (bpf_map_delete_elem _ _)) =>
  apply only_maps_delete; vm_compute; reflexivity : frame.
#[export] Hint Extern 1 (Preserves (only_maps _) (map_store _ _ _)) =>
  apply only_maps_store; vm_compute; reflexivity : frame.
