(* ===== verification/Hoare.v ===== *)
(** * Triples over the program monad

    [triple P m Q]: from a state (and environment) satisfying [P], [m] answers a value
    and a state satisfying [Q].  The [triple] tactic steps through a program whose
    statements keep an invariant, and leaves its returns. *)
From S2P Require Import Prelude Kernel World Frame.

Lemma bind_run {M A B} (m : prog M A) (k : A → prog M B) e w a w' :
  m e w = (a, w') → (m ≫= k) e w = k a e w'.
Proof. intros Hm. unfold mbind, prog_bind. by rewrite Hm. Qed.

Section Triple.
Context {M : Type → Type} `{!BpfMap M, !BpfMapLaws M}.
Implicit Types (P I : kenv → world M → Prop).

Definition triple P {A} (m : prog M A) (Q : A → kenv → world M → Prop) : Prop :=
  ∀ e w, P e w → Q (m e w).1 e (m e w).2.

Lemma triple_ret P {A} (a : A) (Q : A → kenv → world M → Prop) :
  (∀ e w, P e w → Q a e w) → triple P (mret a) Q.
Proof. intros H e w Hp. by apply H. Qed.
Lemma triple_bind P {A B} (m : prog M A) (k : A → prog M B) Q R :
  triple P m Q → (∀ a, triple (Q a) (k a) R) → triple P (m ≫= k) R.
Proof.
  intros Hm Hk e w Hp. unfold mbind, prog_bind. specialize (Hm e w Hp).
  destruct (m e w) as [a w1]. by apply Hk.
Qed.
Lemma triple_conseq P P' {A} (m : prog M A) (Q Q' : A → kenv → world M → Prop) :
  triple P' m Q' → (∀ e w, P e w → P' e w) → (∀ a e w, Q' a e w → Q a e w) →
  triple P m Q.
Proof. intros Hm HP HQ e w Hp. apply HQ, Hm, HP, Hp. Qed.
Lemma triple_assoc P {A B C} (m : prog M A) (k : A → prog M B) (k' : B → prog M C) Q :
  triple P (m ≫= λ a, k a ≫= k') Q → triple P ((m ≫= k) ≫= k') Q.
Proof.
  intros H e w Hp. specialize (H e w Hp). unfold mbind, prog_bind in *.
  by destruct (m e w).
Qed.
(** A pure part of the precondition. *)
Lemma triple_pure (φ : Prop) P {A} (m : prog M A) Q :
  (φ → triple P m Q) → triple (λ e w, P e w ∧ φ) m Q.
Proof. intros H e w [Hp Hφ]. by apply H. Qed.

(** A statement that keeps the relation [R] keeps a predicate stable under [R]. *)
Definition Stable (R : kenv → world M → world M → Prop) I : Prop :=
  ∀ e w w', R e w w' → I e w → I e w'.
Lemma triple_keep R I {A} (m : prog M A) :
  Preserves R m → Stable R I → triple I m (λ _, I).
Proof. intros Hm HI e w Hi. eapply HI; [apply Hm|done]. Qed.
Lemma triple_skip R I {A B} (m : prog M A) (k : A → prog M B) Q :
  Preserves R m → Stable R I → (∀ a, triple I (k a) Q) → triple I (m ≫= k) Q.
Proof. intros Hm HI Hk. eapply triple_bind; [by eapply triple_keep|done]. Qed.

(** Reading the surroundings and the maps. *)
Lemma triple_cfg P f {B} (k : Z → prog M B) Q :
  (∀ c, triple (λ e w, P e w ∧ f (conf e) = c) (k c) Q) → triple P (cfg f ≫= k) Q.
Proof.
  intros Hk. eapply triple_bind; [|exact Hk]. intros e w Hp. by split.
Qed.
Lemma triple_lookup P {V} (i : mapid V) key {B} (k : option V → prog M B) Q :
  (∀ o, triple (λ e w, P e w ∧ bpf_lookup key (get_map i w) = o) (k o) Q) →
  triple P (bpf_map_lookup_elem i key ≫= k) Q.
Proof.
  intros Hk. eapply triple_bind; [|exact Hk]. intros e w Hp. by split.
Qed.
End Triple.

(** ** Symbolic execution against the initial state

    [anchored R e0 w0]: the environment is [e0] and the state is related to [w0] by
    the preorder [R] that the statements so far keep; a lookup in a map that [R] pins
    down answers what it answers in [w0]. *)
Section Anchored.
Context {M : Type → Type} `{!BpfMap M, !BpfMapLaws M}.
Context (R : kenv → world M → world M → Prop) `{HR : !∀ e, PreOrder (R e)}.
Context (e0 : kenv) (w0 : world M).

Definition anchored (e : kenv) (w : world M) : Prop := e = e0 ∧ R e w0 w.
Definition pins {V} (i : mapid V) : Prop :=
  ∀ e w w', R e w w' → get_map i w' = get_map i w.

Lemma anchored_here : anchored e0 w0.
Proof. split; [done|reflexivity]. Qed.
Lemma anchored_stable : Stable R anchored.
Proof. intros e w w' Hr [-> Ha]. split; [done|]. by etrans. Qed.
Lemma anchored_run {A} (m : prog M A) (Q : A → kenv → world M → Prop) :
  triple anchored m Q → Q (m e0 w0).1 e0 (m e0 w0).2.
Proof. intros Hm. apply Hm, anchored_here. Qed.

Context {B : Type} (Q : B → kenv → world M → Prop).
Lemma anchored_cfg f (k : Z → prog M B) :
  triple anchored (k (f (conf e0))) Q → triple anchored (cfg f ≫= k) Q.
Proof.
  intros Hk. apply triple_cfg. intros c. apply (triple_conseq _ (λ e w, anchored e w ∧
    c = f (conf e0)) _ _ Q); [|intros e w [[-> H] <-]; by repeat split|done].
  apply triple_pure. by intros ->.
Qed.
Lemma anchored_lookup {V} (i : mapid V) key (k : option V → prog M B) :
  pins i →
  triple anchored (k (bpf_lookup key (get_map i w0))) Q →
  triple anchored (bpf_map_lookup_elem i key ≫= k) Q.
Proof.
  intros Hi Hk. apply triple_lookup. intros o.
  apply (triple_conseq _ (λ e w, anchored e w ∧ o = bpf_lookup key (get_map i w0)) _ _ Q);
    [|intros e w [[-> H] <-]; by rewrite (Hi _ _ _ H)|done].
  apply triple_pure. by intros ->.
Qed.
(** A statement about which nothing but the frame is known. *)
Lemma anchored_skip {A} (m : prog M A) (k : A → prog M B) :
  Preserves R m → (∀ a, triple anchored (k a) Q) → triple anchored (m ≫= k) Q.
Proof. intros Hm Hk. by apply (triple_skip _ _ _ _ _ Hm anchored_stable). Qed.
(** A statement whose answer is known. *)
Lemma anchored_known {A} (m : prog M A) a (k : A → prog M B) :
  triple anchored m (λ a' e w, anchored e w ∧ a' = a) →
  triple anchored (k a) Q → triple anchored (m ≫= k) Q.
Proof.
  intros Hm Hk. eapply triple_bind; [exact Hm|]. intros a'. apply triple_pure. by intros ->.
Qed.
Lemma anchored_ret a : (∀ e w, anchored e w → Q a e w) → triple anchored (mret a) Q.
Proof. apply triple_ret. Qed.
End Anchored.

Lemma only_maps_pins {M : Type → Type} S {V} (i : mapid V) :
  bool_decide (tag_of i ∈ S) = false → pins (@only_maps M S) i.
Proof. intros Hi%bool_decide_eq_false e w w' H. by apply H. Qed.
Lemma calm_pins {M : Type → Type} S {V} (i : mapid V) :
  bool_decide (tag_of i ∈ S) = false → pins (@calm M S) i.
Proof. intros Hi%bool_decide_eq_false e w w' [H _]. by apply H. Qed.
Create HintDb pins.
#[export] Hint Extern 1 (pins (only_maps _) _) =>
  apply only_maps_pins; vm_compute; reflexivity : pins.
#[export] Hint Extern 1 (pins (calm _) _) =>
  apply calm_pins; vm_compute; reflexivity : pins.

(** Executes a program under [anchored]: configuration and unwritten maps are read
    from the initial state, other statements are skipped over, branches are opened
    when nothing decides them. *)
Ltac sym_step :=
  match goal with
  | |- triple ?P (mret ?a ≫= ?k) ?Q => change (triple P (k a) Q)
  | |- triple _ ((_ ≫= _) ≫= _) _ => apply triple_assoc
  | H : bpf_lookup ?k (get_map ?i ?w) = _ |- context [bpf_lookup ?k (get_map ?i ?w)] =>
    rewrite H
  | |- triple _ (cfg _ ≫= _) _ => apply anchored_cfg
  | |- triple _ (bpf_map_lookup_elem _ _ ≫= _) _ =>
    apply anchored_lookup; [solve [auto with pins]|]
  | |- triple _ ((if ?b then _ else _) ≫= _) _ => destruct b eqn:?
  | |- triple _ ((match ?x with _ => _ end) ≫= _) _ => destruct x eqn:?
  | |- triple _ ((match ?x with _ => _ end) _ ≫= _) _ => destruct x eqn:?
  | |- triple _ (_ ≫= _) _ => apply anchored_skip; [exact _|solve [preserve]|intros ?]
  | |- triple _ (mret _) _ => apply anchored_ret; intros
  | |- triple _ (if ?b then _ else _) _ => destruct b eqn:?
  | |- triple _ (match ?x with _ => _ end) _ => destruct x eqn:?
  | |- triple _ ((match ?x with _ => _ end) _) _ => destruct x eqn:?
  end.
Ltac sym := repeat (sym_step; cbn beta iota; simplify_eq).
