(* ===== verification/Packet.v ===== *)
(** * Packets: the context of the XDP program and its header checks

    The linear part of a frame is a list of bytes; [xdp_load_byte] is the helper
    bpf_xdp_load_bytes for one byte, an argument constrained by [ctx_ok].
    [xdp_parse] is the chain of bounds checks at the top of [minecraft_xdp], up to
    the comparison of the destination port. *)
From S2P Require Import Prelude Kernel World.

Record xdp_md := XdpMd {
  data : list Z;                       (* the bytes from data to data_end *)
  xdp_load_byte : Z → option Z;        (* bpf_xdp_load_bytes(ctx, off, b, 1) *)
}.

(** The helper reads the frame, of which [data] is the linear head. *)
Definition ctx_ok (ctx : xdp_md) (frame : list Z) : Prop :=
  (∀ off, 0 ≤ off → xdp_load_byte ctx off = frame !! Z.to_nat off) ∧
  data ctx `prefix_of` frame ∧ Forall is_byte frame.

(** A frame held in linear memory only. *)
Definition linear_ctx (frame : list Z) : xdp_md :=
  XdpMd frame (λ off, frame !! Z.to_nat off).
Lemma linear_ctx_ok frame : Forall is_byte frame → ctx_ok (linear_ctx frame) frame.
Proof. by repeat split. Qed.

Definition byte_at (d : list Z) (off : Z) : Z := d !!! Z.to_nat off.
Definition be16_at (d : list Z) (off : Z) : Z := byte_at d off * 256 + byte_at d (off + 1).
Definition ip_at (d : list Z) (off : Z) : ipkey :=
  IPKey (byte_at d off) (byte_at d (off + 1)) (byte_at d (off + 2)) (byte_at d (off + 3)).

Definition ETH_P_IP : Z := 0x0800.
Definition IPPROTO_TCP : Z := 6.
Definition ETH_HLEN : Z := 14.
Definition sizeof_iphdr : Z := 20.
Definition sizeof_tcphdr : Z := 20.

(** ** TCP flags *)
Record tcphdr_flags := TcpFlags {
  fin : bool; syn : bool; rst : bool; psh : bool; ack : bool; urg : bool }.
Definition flags_of (b : Z) : tcphdr_flags :=
  TcpFlags (Z.testbit b 0) (Z.testbit b 1) (Z.testbit b 2)
           (Z.testbit b 3) (Z.testbit b 4) (Z.testbit b 5).

Definition tcp_flags_bogus (t : tcphdr_flags) : bool :=
  if negb (syn t) && negb (ack t) && negb (fin t) && negb (rst t)
     && negb (psh t) && negb (urg t) then true
  else if syn t && fin t then true
  else if syn t && rst t then true
  else if fin t && rst t then true
  else fin t && psh t && urg t && negb (ack t).

(** ** Header checks of minecraft_xdp *)
Record parsed := Parsed {
  src : ipkey;           (* ip->saddr *)
  ihl : Z;               (* ip->ihl * 4 *)
  ip_tot : Z;            (* bpf_ntohs(ip->tot_len) *)
  l4 : Z;                (* offset of the TCP header *)
  flags : tcphdr_flags;
  doff : Z;              (* tcp->doff *)
}.

Definition xdp_parse (port : Z) (d : list Z) : option parsed :=
  let data_end := Z.of_nat (length d) in
  if data_end <? ETH_HLEN then None
  else if negb (be16_at d 12 =? ETH_P_IP) then None
  else if data_end <? ETH_HLEN + sizeof_iphdr then None
  else
    let ihl := Z.land (byte_at d ETH_HLEN) 0x0F * 4 in
    if ihl <? sizeof_iphdr then None
    else
      let l4 := ETH_HLEN + ihl in
      if data_end <? l4 then None
      else if negb (byte_at d (ETH_HLEN + 9) =? IPPROTO_TCP) then None
      else if data_end <? l4 + sizeof_tcphdr then None
      else if negb (be16_at d (l4 + 2) =? port) then None
      else Some {| src := ip_at d (ETH_HLEN + 12); ihl := ihl;
                   ip_tot := be16_at d (ETH_HLEN + 2); l4 := l4;
                   flags := flags_of (byte_at d (l4 + 13));
                   doff := Z.shiftr (byte_at d (l4 + 12)) 4 |}.

Section Parse.
Context (port : Z) (d : list Z).

(** What a parsed packet satisfies: headers in bounds, sizes in range. *)
Lemma xdp_parse_bounds p : Forall is_byte d → xdp_parse port d = Some p →
  20 ≤ ihl p ≤ 60 ∧ l4 p = 14 + ihl p ∧ l4 p + 20 ≤ Z.of_nat (length d) ∧
  0 ≤ ip_tot p < 65536 ∧ 0 ≤ doff p < 16.
Proof.
  intros Hd. unfold xdp_parse. repeat case_match; intros [= <-]; simpl; bool_hyps.
  assert (Hb : ∀ o, is_byte (byte_at d o)).
  { intros o. unfold byte_at. destruct (decide (Z.to_nat o < length d)%nat) as [Ho|Ho].
    - apply (proj1 (Forall_lookup_total _ _) Hd _ Ho).
    - rewrite list_lookup_total_alt, lookup_ge_None_2 by lia. done. }
  pose proof (Hb (14 + 2)); pose proof (Hb (14 + 2 + 1)).
  pose proof (Hb (14 + Z.land (byte_at d 14) 15 * 4 + 12)).
  assert (Z.land (byte_at d 14) 15 < 16).
  { change 15 with (Z.ones 4). rewrite Z.land_ones by lia. apply Z.mod_pos_bound; lia. }
  unfold ETH_HLEN, sizeof_iphdr, sizeof_tcphdr, be16_at, is_byte in *.
  rewrite Z.shiftr_div_pow2 by lia. change (2 ^ 4) with 16.
  Z.div_mod_to_equations. lia.
Qed.
End Parse.

(** ** A concrete frame, for witnesses: from 10.0.0.1 to the Minecraft port *)
Definition example_src : ipkey := IPKey 10 0 0 1.
Definition example_frame (fl : Z) (payload : list Z) : list Z :=
  let tot := 40 + Z.of_nat (length payload) in
  replicate 12 0 ++ [8; 0] ++
  [69; 0; tot / 256; tot mod 256; 0; 0; 0; 0; 64; 6; 0; 0; 10; 0; 0; 1; 10; 0; 0; 2] ++
  [195; 80; 99; 221; 0; 0; 0; 0; 0; 0; 0; 0; 80; fl; 255; 255; 0; 0; 0; 0] ++ payload.
Definition example_parsed (fl tot : Z) : parsed := {|
  src := example_src; ihl := 20; ip_tot := tot; l4 := 34; flags := flags_of fl; doff := 5 |}.
Example example_frame_parse :
  xdp_parse 25565 (example_frame 24 [1; 2; 3]) = Some (example_parsed 24 43).
Proof. reflexivity. Qed.
