(* ===== verification/Handshake.v ===== *)
(** * The Minecraft handshake parser

    [load_byte], [load_varint] and [classify_handshake] of the XDP program, with
    their 32-bit offset arithmetic, against a grammar of the wire format:
    [varint bs v] (the bytes [bs] encode [v]) and [handshake p ns] (the payload [p]
    opens with a handshake packet whose next_state is [ns]). *)
From S2P Require Import Prelude Kernel World Packet.

Inductive hs_class := HS_NONE | HS_STATUS | HS_LOGIN | HS_MALFORMED.
#[export] Instance hs_class_eq_dec : EqDecision hs_class.
Proof. solve_decision. Defined.

Definition MC_HANDSHAKE_PACKET_ID : Z := 0x00.
Definition MC_NEXT_STATE_STATUS : Z := 1.
Definition MC_NEXT_STATE_LOGIN : Z := 2.
Definition MC_NEXT_STATE_TRANSFER : Z := 3.
Definition MC_LEGACY_PING_BYTE : Z := 0xFE.
Definition MC_ADDR_MAX : Z := 255.
Definition MC_HANDSHAKE_MAX_LEN : Z := 1024.

Definition load_byte (ctx : xdp_md) (pkt_off : Z) : option Z := xdp_load_byte ctx pkt_off.

(** The unrolled loop over [i]: [Some (value, i + 1)] for the C function's positive
    result, [None] for its 0. *)
Fixpoint load_varint_loop (ctx : xdp_md) (pkt_off avail : Z) (n : nat) (i value : Z)
    : option (Z * Z) :=
  match n with
  | O => None
  | S n =>
    if avail <=? i then None
    else match load_byte ctx (u32 (pkt_off + i)) with
    | None => None
    | Some c =>
      let value := Z.lor value (u32 (Z.shiftl (Z.land c 0x7F) (7 * i))) in
      if Z.land c 0x80 =? 0 then Some (value, i + 1)
      else load_varint_loop ctx pkt_off avail n (i + 1) value
    end
  end.
Definition load_varint (ctx : xdp_md) (pkt_off avail : Z) : option (Z * Z) :=
  load_varint_loop ctx pkt_off avail 5 0 0.

Declare Scope hs_scope.
Notation "'try' x <- e ; k" := (match e with Some x => k | None => HS_NONE end)
  (at level 10, x pattern, e at level 100, k at level 200) : hs_scope.
Local Open Scope hs_scope.

Definition classify_handshake (ctx : xdp_md) (payload_off payload_len : Z) : hs_class :=
  if payload_len <? 1 then HS_NONE else
  try first <- load_byte ctx payload_off;
  if first =? MC_LEGACY_PING_BYTE then HS_STATUS else
  let off := 0 in
  try (pkt_len, k) <- load_varint ctx (u32 (payload_off + off)) (u32 (payload_len - off));
  if (pkt_len <? 3) || (MC_HANDSHAKE_MAX_LEN <? pkt_len) then HS_NONE else
  let off := u32 (off + k) in
  if u32 (payload_len - off) <? pkt_len then HS_NONE else
  let limit := u32 (off + pkt_len) in
  try id <- load_byte ctx (u32 (payload_off + off));
  if negb (id =? MC_HANDSHAKE_PACKET_ID) then HS_NONE else
  let off := u32 (off + 1) in
  if limit <=? off then HS_NONE else
  try (proto_ver, k) <- load_varint ctx (u32 (payload_off + off)) (u32 (limit - off));
  let off := u32 (off + k) in
  if limit <=? off then HS_NONE else
  try (addr_len, k) <- load_varint ctx (u32 (payload_off + off)) (u32 (limit - off));
  if MC_ADDR_MAX <? addr_len then HS_NONE else
  let off := u32 (off + k) in
  let ns_off := u32 (off + addr_len + 2) in
  if limit <=? ns_off then HS_NONE else
  try (next_state, k) <- load_varint ctx (u32 (payload_off + ns_off)) (u32 (limit - ns_off));
  if negb (u32 (ns_off + k) =? limit) then HS_NONE else
  if next_state =? MC_NEXT_STATE_STATUS then HS_STATUS else
  if (next_state =? MC_NEXT_STATE_LOGIN) || (next_state =? MC_NEXT_STATE_TRANSFER)
  then HS_LOGIN
  else HS_MALFORMED.

(** ** The wire format *)

(** [len] bytes of the frame from offset [off], as far as the frame goes. *)
Definition window (frame : list Z) (off len : Z) : list Z :=
  take (Z.to_nat len) (drop (Z.to_nat off) frame).

(** Little-endian groups of seven bits, the high bit marking continuation. *)
Fixpoint varint_value (bs : list Z) : Z :=
  match bs with [] => 0 | b :: bs => b mod 128 + 128 * varint_value bs end.
Fixpoint varint_wf (bs : list Z) : Prop :=
  match bs with
  | [] => False
  | [b] => 0 ≤ b < 128
  | b :: bs => 128 ≤ b < 256 ∧ varint_wf bs
  end.
(** [bs] is a VarInt of at most five bytes that a 32-bit reader takes for [v]. *)
Definition varint (bs : list Z) (v : Z) : Prop :=
  varint_wf bs ∧ (length bs ≤ 5)%nat ∧ v = u32 (varint_value bs).

(** The shortest encoding of a value. *)
Fixpoint varint_encode (n : nat) (v : Z) : list Z :=
  match n with
  | O => []
  | S n => if v <? 128 then [v] else (v mod 128 + 128) :: varint_encode n (v / 128)
  end.

(** The payload [p] opens with a handshake packet: its length, then the packet id,
    the protocol version, the server address with its length, the port, and the
    next_state, which ends the packet. *)
Definition handshake (p : list Z) (ns : Z) : Prop :=
  ∃ lenb pvb alb addr port nsb rest pv len,
    p = lenb ++ (MC_HANDSHAKE_PACKET_ID :: pvb ++ alb ++ addr ++ port ++ nsb) ++ rest ∧
    varint lenb len ∧
    len = Z.of_nat (length (MC_HANDSHAKE_PACKET_ID :: pvb ++ alb ++ addr ++ port ++ nsb)) ∧
    3 ≤ len ≤ MC_HANDSHAKE_MAX_LEN ∧
    varint pvb pv ∧ varint alb (Z.of_nat (length addr)) ∧
    Z.of_nat (length addr) ≤ MC_ADDR_MAX ∧ length port = 2%nat ∧ varint nsb ns.

(** ** Reading a VarInt from a list *)
Fixpoint varint_dec (n : nat) (l : list Z) : option (Z * nat) :=
  match n, l with
  | S n, c :: l =>
    if c <? 128 then Some (c, 1%nat)
    else match varint_dec n l with
         | Some (v, k) => Some (c - 128 + 128 * v, S k)
         | None => None
         end
  | _, _ => None
  end.

Section Varint.
Lemma varint_value_nonneg bs : 0 ≤ varint_value bs.
Proof.
  induction bs as [|b bs IH]; simpl; [lia|].
  pose proof (Z.mod_pos_bound b 128 ltac:(lia)). lia.
Qed.

Lemma varint_dec_sound n l v k : Forall is_byte l → varint_dec n l = Some (v, k) →
  ∃ bs rest, l = bs ++ rest ∧ k = length bs ∧ varint_wf bs ∧ (k ≤ n)%nat ∧
    v = varint_value bs.
Proof.
  revert l v k. induction n as [|n IH]; intros [|c l] v k Hb H; simplify_eq/=.
  apply Forall_cons_1 in Hb as [Hc Hb]. unfold is_byte in Hc. case_match; bool_hyps.
  - simplify_eq. exists [v], l. simpl. rewrite Z.mod_small by lia.
    repeat split; try lia.
  - destruct (varint_dec n l) as [[v' k']|] eqn:E; simplify_eq.
    destruct (IH _ _ _ Hb E) as (bs & rest & -> & -> & Hwf & Hk & ->).
    exists (c :: bs), rest. simpl. repeat split; try lia.
    + destruct bs; [done|]. split; [lia|done].
    + Z.div_mod_to_equations. lia.
Qed.

Lemma varint_dec_complete n bs rest : varint_wf bs → (length bs ≤ n)%nat →
  varint_dec n (bs ++ rest) = Some (varint_value bs, length bs).
Proof.
  revert n. induction bs as [|c bs IH]; intros [|n] Hwf Hn; simpl in *; try done; [lia|].
  destruct bs as [|c' bs].
  - rewrite (proj2 (Z.ltb_lt c 128)), Z.mod_small by lia. simpl. do 2 f_equal. lia.
  - destruct Hwf as [Hc Hwf]. rewrite (proj2 (Z.ltb_ge c 128)) by lia.
    rewrite (IH n) by (done || lia). do 2 f_equal. Z.div_mod_to_equations. lia.
Qed.

Lemma varint_encode_spec n v : 0 ≤ v < 2 ^ (7 * Z.of_nat (S n)) →
  varint_wf (varint_encode (S n) v) ∧ varint_value (varint_encode (S n) v) = v ∧
  (length (varint_encode (S n) v) ≤ S n)%nat.
Proof.
  revert v. induction n as [|n IH]; intros v Hv.
  - change (2 ^ _) with 128 in Hv. simpl. rewrite (proj2 (Z.ltb_lt v 128)) by lia.
    simpl. rewrite Z.mod_small by lia. lia.
  - change (varint_encode (S (S n)) v) with
      (if v <? 128 then [v] else (v mod 128 + 128) :: varint_encode (S n) (v / 128)).
    destruct (v <? 128) eqn:E; bool_hyps.
    + simpl. rewrite Z.mod_small by lia. lia.
    + destruct (IH (v / 128)) as (Hwf & Hval & Hlen).
      { replace (7 * Z.of_nat (S (S n))) with (7 + 7 * Z.of_nat (S n)) in Hv by lia.
        rewrite Z.pow_add_r in Hv by lia. change (2 ^ 7) with 128 in Hv.
        split; [apply Z.div_pos; lia|apply Z.div_lt_upper_bound; lia]. }
      pose proof (Z.mod_pos_bound v 128 ltac:(lia)).
      repeat split.
      * destruct (varint_encode (S n) (v / 128)) eqn:En; [done|].
        split; [lia|done].
      * cbn [varint_value]. rewrite Hval. Z.div_mod_to_equations. lia.
      * cbn [length] in *. lia.
Qed.

(** Every 32-bit value has an encoding. *)
Lemma varint_encode_varint v : is_u32 v → varint (varint_encode 5 v) v.
Proof.
  intros Hv. destruct (varint_encode_spec 4 v) as (Hwf & Hval & Hlen).
  { change (2 ^ _) with 34359738368. word_lia. }
  repeat split; [done|lia|]. by rewrite Hval, u32_id.
Qed.
End Varint.

(** ** The loop reads what the list reader reads *)
Section Loads.
Context (ctx : xdp_md) (frame : list Z) (Hctx : ctx_ok ctx frame).

Lemma load_byte_frame off : 0 ≤ off → load_byte ctx off = frame !! Z.to_nat off.
Proof. apply Hctx. Qed.

Lemma frame_byte i c : frame !! i = Some c → is_byte c.
Proof. destruct Hctx as (_ & _ & H). intros Hi. apply (Forall_lookup_1 _ _ _ _ H Hi). Qed.

Lemma window_bytes off len : Forall is_byte (window frame off len).
Proof. destruct Hctx as (_ & _ & H). by apply Forall_take, Forall_drop. Qed.

Lemma window_nil off len : len ≤ 0 → window frame off len = [].
Proof. intros H. unfold window. by rewrite (Z2Nat.nonpos len) by lia. Qed.

Lemma window_none off len : frame !! Z.to_nat off = None → window frame off len = [].
Proof.
  intros H%lookup_ge_None. unfold window. by rewrite drop_ge, take_nil by lia.
Qed.

Lemma window_cons off len c : 0 ≤ off → 0 < len → frame !! Z.to_nat off = Some c →
  window frame off len = c :: window frame (off + 1) (len - 1).
Proof.
  intros Ho Hl Hc. unfold window. rewrite (drop_S _ _ _ Hc).
  replace (Z.to_nat len) with (S (Z.to_nat (len - 1))) by lia. simpl.
  by replace (S (Z.to_nat off)) with (Z.to_nat (off + 1)) by lia.
Qed.

Lemma window_app off a b : 0 ≤ off → 0 ≤ a → 0 ≤ b →
  window frame off (a + b) = window frame off a ++ window frame (off + a) b.
Proof.
  intros Ho Ha Hb. unfold window. rewrite !Z2Nat.inj_add, <-drop_drop by lia.
  set (l := drop (Z.to_nat off) frame). clearbody l. generalize (Z.to_nat a) as n.
  generalize (Z.to_nat b) as m. intros m n. revert l.
  induction n as [|n IH]; intros [|x l]; simpl; rewrite ?take_nil; try done.
  by rewrite IH.
Qed.

Lemma window_length off len : 0 ≤ len → Z.of_nat (length (window frame off len)) ≤ len.
Proof. intros. unfold window. rewrite length_take. lia. Qed.

Lemma load_varint_loop_dec pkt_off avail n i acc :
  0 ≤ pkt_off < 2 ^ 31 → 0 ≤ i → i + Z.of_nat n = 5 → 0 ≤ acc < 2 ^ (7 * i) →
  load_varint_loop ctx pkt_off avail n i acc =
    match varint_dec n (window frame (pkt_off + i) (avail - i)) with
    | Some (v, k) => Some (u32 (acc + v * 2 ^ (7 * i)), i + Z.of_nat k)
    | None => None
    end.
Proof.
  revert i acc. induction n as [|n IH]; intros i acc Hp Hi Hn Hacc; [done|].
  cbn [load_varint_loop]. destruct (avail <=? i) eqn:Ea; bool_hyps.
  { by rewrite window_nil by lia. }
  rewrite u32_id, load_byte_frame by word_lia.
  destruct (frame !! Z.to_nat (pkt_off + i)) as [c|] eqn:Hc.
  2: { by rewrite window_none. }
  rewrite (window_cons _ _ c) by (done || lia). pose proof (frame_byte _ _ Hc) as Hcb.
  rewrite byte_land_128, byte_land_127, Z.shiftl_mul_pow2 by (done || lia).
  cbn [varint_dec]. unfold is_byte in Hcb.
  pose proof (Z.mod_pos_bound c 128 ltac:(lia)).
  rewrite u32_lor_high by lia. destruct (c <? 128) eqn:Ec; bool_hyps.
  - rewrite Z.mod_small by lia. by do 2 f_equal.
  - assert (Hcm : c mod 128 = c - 128) by (Z.div_mod_to_equations; lia).
    assert (H7 : 2 ^ (7 * (i + 1)) = 2 ^ (7 * i) * 128)
      by (rewrite Z.mul_add_distr_l, Z.pow_add_r by lia; done).
    assert (0 < 2 ^ (7 * i)) by (apply Z.pow_pos_nonneg; lia).
    rewrite IH, H7; [|lia..|].
    2: { rewrite H7. split; [apply u32_range|]. unfold u32, wrapZ.
         eapply Z.le_lt_trans; [apply Z.mod_le|]; nia. }
    replace (pkt_off + (i + 1)) with (pkt_off + i + 1) by lia.
    replace (avail - (i + 1)) with (avail - i - 1) by lia.
    destruct (varint_dec n _) as [[v k]|]; [|done].
    rewrite u32_add_idemp, Hcm. f_equal. f_equal; [f_equal; ring|lia].
Qed.

Lemma load_varint_dec pkt_off avail : 0 ≤ pkt_off < 2 ^ 31 →
  load_varint ctx pkt_off avail =
    match varint_dec 5 (window frame pkt_off avail) with
    | Some (v, k) => Some (u32 v, Z.of_nat k)
    | None => None
    end.
Proof.
  intros Hp. unfold load_varint. rewrite load_varint_loop_dec by lia.
  rewrite Z.add_0_r, Z.sub_0_r. destruct (varint_dec _ _) as [[v k]|]; [|done].
  change (2 ^ (7 * 0)) with 1. by rewrite Z.mul_1_r.
Qed.
End Loads.

(** ** The parser on lists

    The same decisions on the payload as a list: [rem] is what the packet length
    leaves, of which [b] holds what the frame has. *)
Definition class_of (ns : Z) : hs_class :=
  if ns =? MC_NEXT_STATE_STATUS then HS_STATUS else
  if (ns =? MC_NEXT_STATE_LOGIN) || (ns =? MC_NEXT_STATE_TRANSFER) then HS_LOGIN
  else HS_MALFORMED.

Definition parse_fields (b : list Z) (rem : Z) : option Z :=
  if rem <=? 0 then None else
  '(_, k1) ← varint_dec 5 b;
  let rem := rem - Z.of_nat k1 in let b := drop k1 b in
  if rem <=? 0 then None else
  '(al, k2) ← varint_dec 5 b;
  if MC_ADDR_MAX <? u32 al then None else
  let n := u32 al + 2 in
  let rem := rem - Z.of_nat k2 - n in let b := drop (Z.to_nat n) (drop k2 b) in
  if rem <=? 0 then None else
  '(ns, k3) ← varint_dec 5 b;
  if negb (Z.of_nat k3 =? rem) then None else Some (u32 ns).

Definition parse_packet (p : list Z) (plen : Z) : option Z :=
  '(len, k) ← varint_dec 5 p;
  if (u32 len <? 3) || (MC_HANDSHAKE_MAX_LEN <? u32 len) then None else
  if plen - Z.of_nat k <? u32 len then None else
  match take (Z.to_nat (u32 len)) (drop k p) with
  | [] => None
  | id :: b => if negb (id =? MC_HANDSHAKE_PACKET_ID) then None
               else parse_fields b (u32 len - 1)
  end.

Definition classify_list (p : list Z) (plen : Z) : hs_class :=
  match p with
  | [] => HS_NONE
  | first :: _ =>
    if first =? MC_LEGACY_PING_BYTE then HS_STATUS
    else match parse_packet p plen with Some ns => class_of ns | None => HS_NONE end
  end.

Lemma varint_dec_len n l v k : varint_dec n l = Some (v, k) →
  (1 ≤ k ≤ n)%nat ∧ (k ≤ length l)%nat.
Proof.
  revert l v k. induction n as [|n IH]; intros [|c l] v k H; simplify_eq/=.
  repeat case_match; simplify_eq; [lia|].
  match goal with H : varint_dec _ _ = _ |- _ => apply IH in H end. lia.
Qed.

Lemma leb_sub a b : (b - a <=? 0) = (b <=? a).
Proof. apply Bool.eq_iff_eq_true. rewrite !Z.leb_le. lia. Qed.

Section Classify.
Context (ctx : xdp_md) (frame : list Z) (Hctx : ctx_ok ctx frame).

Lemma window_drop po off len k : 0 ≤ po → 0 ≤ off →
  drop k (window frame (po + off) (len - off)) =
  window frame (po + (off + Z.of_nat k)) (len - (off + Z.of_nat k)).
Proof.
  intros Hp Ho. unfold window. rewrite skipn_firstn_comm, drop_drop.
  f_equal; [|f_equal]; lia.
Qed.
Lemma window_take off len n : 0 ≤ n ≤ len →
  take (Z.to_nat n) (window frame off len) = window frame off n.
Proof. intros Hn. unfold window. rewrite take_take. f_equal. lia. Qed.

(** A load at offset [off] of a payload that ends at [limit]. *)
Lemma load_varint_window po off limit :
  0 ≤ po < 2 ^ 17 → 0 ≤ off ≤ limit → limit < 2 ^ 17 →
  load_varint ctx (u32 (po + off)) (u32 (limit - off)) =
    match varint_dec 5 (window frame (po + off) (limit - off)) with
    | Some (v, k) => Some (u32 v, Z.of_nat k)
    | None => None
    end.
Proof.
  change (2 ^ 17) with 131072. intros Hp Ho Hl.
  rewrite (u32_id (po + off)), (u32_id (limit - off)) by word_lia.
  by rewrite (load_varint_dec _ _ Hctx) by lia.
Qed.

Lemma parse_fields_loads po off limit :
  0 ≤ po < 2 ^ 17 → 0 ≤ off → 0 ≤ limit < 2 ^ 17 → off ≤ limit →
  match parse_fields (window frame (po + off) (limit - off)) (limit - off) with
  | Some ns => class_of ns
  | None => HS_NONE
  end =
  (if limit <=? off then HS_NONE else
   try (proto_ver, k) <- load_varint ctx (u32 (po + off)) (u32 (limit - off));
   let off := u32 (off + k) in
   if limit <=? off then HS_NONE else
   try (addr_len, k) <- load_varint ctx (u32 (po + off)) (u32 (limit - off));
   if MC_ADDR_MAX <? addr_len then HS_NONE else
   let off := u32 (off + k) in
   let ns_off := u32 (off + addr_len + 2) in
   if limit <=? ns_off then HS_NONE else
   try (next_state, k) <- load_varint ctx (u32 (po + ns_off)) (u32 (limit - ns_off));
   if negb (u32 (ns_off + k) =? limit) then HS_NONE else class_of next_state).
Proof.
  intros Hpo Ho Hl Hle. unfold parse_fields. change (2 ^ 17) with 131072 in *.
  rewrite (leb_sub off limit), load_varint_window by lia.
  destruct (limit <=? off) eqn:H1; [done|]. bool_hyps.
  destruct (varint_dec 5 (window _ _ _)) as [[pv k1]|] eqn:E1; [|done].
  pose proof (varint_dec_len _ _ _ _ E1) as Hk1. cbn [mbind option_bind]. cbv zeta.
  rewrite (u32_id (off + Z.of_nat k1)) by word_lia.
  rewrite window_drop, <-(Z.sub_add_distr limit off), leb_sub by lia.
  set (off1 := off + Z.of_nat k1) in *.
  destruct (limit <=? off1) eqn:H2; [done|]. bool_hyps.
  rewrite load_varint_window by lia.
  destruct (varint_dec 5 (window _ (po + off1) _)) as [[al k2]|] eqn:E2; [|done].
  pose proof (varint_dec_len _ _ _ _ E2) as Hk2. pose proof (u32_range al) as [Hal _].
  cbn [mbind option_bind]. cbv zeta.
  destruct (MC_ADDR_MAX <? u32 al) eqn:H3; [done|]. bool_hyps. unfold MC_ADDR_MAX in *.
  rewrite (u32_id (off1 + Z.of_nat k2)) by word_lia.
  rewrite (u32_id (off1 + Z.of_nat k2 + u32 al + 2)) by word_lia.
  rewrite !window_drop by lia. rewrite Z2Nat.id by lia.
  replace (limit - off1 - Z.of_nat k2 - (u32 al + 2))
    with (limit - (off1 + Z.of_nat k2 + (u32 al + 2))) by lia.
  rewrite leb_sub, <-!(Z.add_assoc (off1 + Z.of_nat k2)).
  set (ns_off := off1 + Z.of_nat k2 + (u32 al + 2)) in *.
  destruct (limit <=? ns_off) eqn:H4; [done|]. bool_hyps.
  rewrite load_varint_window by lia.
  destruct (varint_dec 5 (window _ (po + ns_off) _)) as [[ns k3]|] eqn:E3; [|done].
  pose proof (varint_dec_len _ _ _ _ E3) as Hk3. cbn [mbind option_bind]. cbv zeta.
  rewrite (u32_id (ns_off + Z.of_nat k3)) by word_lia.
  replace (ns_off + Z.of_nat k3 =? limit) with (Z.of_nat k3 =? limit - ns_off).
  2: { apply Bool.eq_iff_eq_true. rewrite !Z.eqb_eq. lia. }
  by destruct (Z.of_nat k3 =? _).
Qed.

(** The parser of the datapath is the parser on the payload's bytes. *)
Lemma classify_handshake_list po plen : 0 ≤ po < 2 ^ 17 → 0 ≤ plen < 2 ^ 16 →
  classify_handshake ctx po plen = classify_list (window frame po plen) plen.
Proof.
  intros Hpo Hpl. unfold classify_handshake, classify_list.
  change (2 ^ 17) with 131072 in *. change (2 ^ 16) with 65536 in *.
  destruct (Z.ltb_spec plen 1); [by rewrite window_nil by lia|].
  rewrite (load_byte_frame _ _ Hctx) by lia.
  destruct (frame !! Z.to_nat po) as [c|] eqn:Hc; [|by rewrite window_none].
  rewrite (window_cons _ po plen c) by (done || lia).
  destruct (c =? MC_LEGACY_PING_BYTE); [done|]. cbv zeta.
  rewrite <-(window_cons _ po plen c) by (done || lia).
  unfold parse_packet. rewrite load_varint_window by lia.
  rewrite Z.add_0_r, Z.sub_0_r.
  destruct (varint_dec 5 (window frame po plen)) as [[len k]|] eqn:E; [|done].
  pose proof (varint_dec_len _ _ _ _ E). cbn [mbind option_bind].
  destruct ((u32 len <? 3) || (MC_HANDSHAKE_MAX_LEN <? u32 len)) eqn:Hlen; [done|].
  bool_hyps. unfold MC_HANDSHAKE_MAX_LEN in *.
  rewrite (u32_id (0 + Z.of_nat k)), Z.add_0_l by word_lia.
  assert (Z.of_nat k ≤ plen) by (pose proof (window_length frame po plen); lia).
  rewrite (u32_id (plen - Z.of_nat k)) by word_lia.
  destruct (plen - Z.of_nat k <? u32 len) eqn:Hfit; [done|]. bool_hyps.
  rewrite (u32_id (Z.of_nat k + u32 len)) by word_lia.
  replace (window frame po plen) with (window frame (po + 0) (plen - 0)) by (f_equal; lia).
  rewrite window_drop, window_take, Z.add_0_l by lia.
  rewrite u32_id, (load_byte_frame _ _ Hctx) by word_lia.
  destruct (frame !! Z.to_nat (po + Z.of_nat k)) as [id|] eqn:Hid;
    [|by rewrite window_none].
  rewrite (window_cons _ _ _ id) by (done || lia).
  destruct (id =? MC_HANDSHAKE_PACKET_ID); [|done]. cbn [negb].
  rewrite (u32_id (Z.of_nat k + 1)) by word_lia.
  rewrite <-Z.add_assoc.
  replace (u32 len - 1) with (Z.of_nat k + u32 len - (Z.of_nat k + 1)) by lia.
  rewrite parse_fields_loads by lia. done.
Qed.
End Classify.

(** ** The list parser decides the grammar *)
Section Grammar.
Lemma varint_dec_varint l v k : Forall is_byte l → varint_dec 5 l = Some (v, k) →
  ∃ bs rest, l = bs ++ rest ∧ k = length bs ∧ varint bs (u32 v) ∧ Forall is_byte rest.
Proof.
  intros Hb H. destruct (varint_dec_sound _ _ _ _ Hb H) as (bs & rest & -> & -> & ?&?& ->).
  exists bs, rest. apply Forall_app in Hb as [_ Hr]. repeat split; auto.
Qed.
Lemma varint_dec_app bs v rest : varint bs v →
  ∃ v', varint_dec 5 (bs ++ rest) = Some (v', length bs) ∧ u32 v' = v.
Proof.
  intros (Hwf & Hl & ->). exists (varint_value bs).
  by rewrite varint_dec_complete.
Qed.
Lemma varint_nonempty bs v : varint bs v → (1 ≤ length bs)%nat.
Proof. intros (Hwf & _). destruct bs; simpl in *; [done|lia]. Qed.

Definition fields (b : list Z) (ns : Z) : Prop :=
  ∃ pvb alb addr port nsb pv, b = pvb ++ alb ++ addr ++ port ++ nsb ∧
    varint pvb pv ∧ varint alb (Z.of_nat (length addr)) ∧
    Z.of_nat (length addr) ≤ MC_ADDR_MAX ∧ length port = 2%nat ∧ varint nsb ns.

Lemma parse_fields_sound b rem ns : Forall is_byte b → Z.of_nat (length b) ≤ rem →
  parse_fields b rem = Some ns → rem = Z.of_nat (length b) ∧ fields b ns.
Proof.
  intros Hb Hlen. unfold parse_fields. case_match; [done|].
  destruct (varint_dec 5 b) as [[pv k1]|] eqn:E1; [|done]. cbn [mbind option_bind].
  destruct (varint_dec_varint _ _ _ Hb E1) as (pvb & r1 & -> & -> & Hpv & Hb1).
  rewrite drop_app_length. case_match; [done|].
  destruct (varint_dec 5 r1) as [[al k2]|] eqn:E2; [|done]. cbn [mbind option_bind].
  destruct (varint_dec_varint _ _ _ Hb1 E2) as (alb & r2 & -> & -> & Hal & Hb2).
  rewrite drop_app_length. case_match; [done|]. case_match; [done|].
  pose proof (u32_range al) as [Hal0 _].
  destruct (varint_dec 5 (drop _ r2)) as [[v k3]|] eqn:E3; [|done]. cbn [mbind option_bind].
  pose proof (varint_dec_len _ _ _ _ E3) as [[Hk _] Hk3].
  destruct (varint_dec_varint _ _ _ (Forall_drop _ _ _ Hb2) E3) as (nsb & r3 & Hd & -> & Hns & _).
  case_match; [done|]. intros [= <-]. bool_hyps. rewrite length_drop in Hk3.
  assert (Hr3 : r3 = []).
  { apply length_zero_iff_nil. apply (f_equal length) in Hd.
    rewrite length_app, length_drop in Hd. rewrite !length_app in Hlen. lia. }
  subst r3. rewrite app_nil_r in Hd.
  rewrite <-(take_drop (Z.to_nat (u32 al + 2)) r2), Hd in Hlen |- *.
  set (ap := take (Z.to_nat (u32 al + 2)) r2) in *.
  assert (Hap : length ap = Z.to_nat (u32 al + 2)) by (unfold ap; rewrite length_take; lia).
  split; [rewrite !length_app in *; lia|].
  exists pvb, alb, (take (Z.to_nat (u32 al)) ap), (drop (Z.to_nat (u32 al)) ap), nsb, (u32 pv).
  assert (Z.of_nat (length (take (Z.to_nat (u32 al)) ap)) = u32 al) as Hta
    by (rewrite length_take; lia).
  rewrite Hta, length_drop, (app_assoc (take _ _) (drop _ _)), take_drop.
  repeat split; try done; lia || apply Hpv || apply Hal || apply Hns.
Qed.

Lemma parse_fields_complete b ns : fields b ns →
  parse_fields b (Z.of_nat (length b)) = Some ns.
Proof.
  intros (pvb & alb & addr & port & nsb & pv & -> & Hpv & Hal & Hmax & Hport & Hns).
  pose proof (varint_nonempty _ _ Hpv). pose proof (varint_nonempty _ _ Hal).
  pose proof (varint_nonempty _ _ Hns). unfold parse_fields. rewrite !length_app.
  rewrite (proj2 (Z.leb_gt _ 0)) by lia.
  destruct (varint_dec_app _ _ (alb ++ addr ++ port ++ nsb) Hpv) as (v1 & -> & _).
  cbn [mbind option_bind]. rewrite drop_app_length, (proj2 (Z.leb_gt _ 0)) by lia.
  destruct (varint_dec_app _ _ (addr ++ port ++ nsb) Hal) as (v2 & -> & Hv2).
  cbn [mbind option_bind]. cbv zeta. rewrite Hv2, (proj2 (Z.ltb_ge _ _)) by done.
  rewrite drop_app_length, (proj2 (Z.leb_gt _ 0)) by lia.
  rewrite app_assoc, drop_app_length' by (rewrite length_app; lia).
  destruct (varint_dec_app _ _ [] Hns) as (v3 & Hv3 & <-). rewrite app_nil_r in Hv3.
  rewrite Hv3. cbn [mbind option_bind].
  by rewrite (proj2 (Z.eqb_eq _ _)) by lia.
Qed.

Lemma handshake_fields p ns : handshake p ns ↔
  ∃ lenb b rest len, p = lenb ++ (MC_HANDSHAKE_PACKET_ID :: b) ++ rest ∧
    varint lenb len ∧ len = Z.of_nat (length (MC_HANDSHAKE_PACKET_ID :: b)) ∧
    3 ≤ len ≤ MC_HANDSHAKE_MAX_LEN ∧ fields b ns.
Proof.
  unfold handshake, fields. split.
  - intros (lenb & pvb & alb & addr & port & nsb & rest & pv & len & -> & ?&?&?&?).
    exists lenb, (pvb ++ alb ++ addr ++ port ++ nsb), rest, len.
    do 4 (split; [done|]). by exists pvb, alb, addr, port, nsb, pv.
  - intros (lenb & b & rest & len & -> & ?&?&?& (pvb & alb & addr & port & nsb & pv & -> & ?)).
    by exists lenb, pvb, alb, addr, port, nsb, rest, pv, len.
Qed.

Lemma parse_packet_sound p plen ns : Forall is_byte p →
  parse_packet p plen = Some ns → handshake p ns.
Proof.
  intros Hb. unfold parse_packet.
  destruct (varint_dec 5 p) as [[v k]|] eqn:E; [|done]. cbn [mbind option_bind].
  destruct (varint_dec_varint _ _ _ Hb E) as (lenb & r & -> & -> & Hlen & Hr).
  case_match; [done|]. case_match; [done|]. bool_hyps. rewrite drop_app_length.
  destruct (take _ r) as [|id b] eqn:Ht; [done|]. case_match; [done|]. bool_hyps. subst id.
  assert (Hbb : Forall is_byte (MC_HANDSHAKE_PACKET_ID :: b)) by (rewrite <-Ht; by apply Forall_take).
  apply Forall_cons_1 in Hbb as [_ Hbb].
  pose proof (length_take r (Z.to_nat (u32 v))) as Hl. rewrite Ht in Hl. simpl in Hl.
  intros Hp. destruct (parse_fields_sound b (u32 v - 1) ns Hbb ltac:(lia) Hp) as [Hrem Hf].
  apply handshake_fields. exists lenb, b, (drop (Z.to_nat (u32 v)) r), (u32 v).
  rewrite <-Ht at 1. rewrite take_drop. simpl length. repeat split; try done; try lia; apply Hlen.
Qed.

Lemma parse_packet_complete p plen ns : Z.of_nat (length p) ≤ plen →
  handshake p ns → parse_packet p plen = Some ns.
Proof.
  intros Hp (lenb & b & rest & len & -> & Hlen & Hl & Hb & Hf)%handshake_fields.
  unfold parse_packet.
  destruct (varint_dec_app _ _ ((MC_HANDSHAKE_PACKET_ID :: b) ++ rest) Hlen) as (v & -> & Hv).
  cbn [mbind option_bind]. rewrite Hv.
  rewrite (proj2 (orb_false_iff _ _)) by (rewrite !Z.ltb_ge; lia).
  rewrite !length_app in Hp. simpl length in *.
  rewrite (proj2 (Z.ltb_ge _ _)) by lia.
  rewrite drop_app_length, take_app_length' by (simpl; lia).
  rewrite Z.eqb_refl. cbn [negb].
  replace (len - 1) with (Z.of_nat (length b)) by lia. by apply parse_fields_complete.
Qed.
End Grammar.

(** ** What the classifier decides *)
Section ClassifyTheorems.
Context (ctx : xdp_md) (frame : list Z).
Implicit Types po plen : Z.

(** C21. The classifier decides the wire format.  For a payload whose first byte
    is not the legacy-ping byte 0xFE, it answers with the class of next_state when
    the payload opens with a well-formed handshake packet, and HS_NONE otherwise:
    no other payload is ever classified. *)
Theorem classify_handshake_grammar po plen :
  ctx_ok ctx frame → 0 ≤ po < 2 ^ 17 → 0 ≤ plen < 2 ^ 16 →
  head (window frame po plen) ≠ Some MC_LEGACY_PING_BYTE →
  (∃ ns, handshake (window frame po plen) ns ∧
         classify_handshake ctx po plen = class_of ns) ∨
  (classify_handshake ctx po plen = HS_NONE ∧
   ∀ ns, ¬ handshake (window frame po plen) ns).
Proof.
  intros Hctx Hpo Hpl Hfe. rewrite (classify_handshake_list _ _ Hctx) by done.
  pose proof (window_bytes _ _ Hctx po plen) as Hb.
  pose proof (window_length frame po plen ltac:(lia)) as Hlen.
  set (p := window frame po plen) in *.
  assert (Hc : classify_list p plen =
    match parse_packet p plen with Some ns => class_of ns | None => HS_NONE end).
  { destruct p as [|c p']; [done|]. simpl. case_match; [|done].
    bool_hyps. subst c. done. }
  rewrite Hc. destruct (parse_packet p plen) as [ns|] eqn:E.
  - left. exists ns. split; [by eapply parse_packet_sound|done].
  - right. split; [done|]. intros ns H.
    by rewrite (parse_packet_complete p plen ns) in E.
Qed.

(** The bytes a client sends for a handshake. *)
Definition encode_handshake (pv : Z) (addr port : list Z) (ns : Z) : list Z :=
  let body := MC_HANDSHAKE_PACKET_ID :: varint_encode 5 pv ++
    varint_encode 5 (Z.of_nat (length addr)) ++ addr ++ port ++ varint_encode 5 ns in
  varint_encode 5 (Z.of_nat (length body)) ++ body.

Lemma encode_handshake_ok pv addr port ns rest :
  is_u32 pv → is_u32 ns → (length addr ≤ 255)%nat → length port = 2%nat →
  handshake (encode_handshake pv addr port ns ++ rest) ns.
Proof.
  intros Hpv Hns Ha Hp.
  pose proof (varint_encode_varint _ Hpv) as Vpv.
  pose proof (varint_encode_varint _ Hns) as Vns.
  pose proof (varint_encode_varint (Z.of_nat (length addr)) ltac:(word_lia)) as Va.
  pose proof (varint_nonempty _ _ Vpv). pose proof (varint_nonempty _ _ Va).
  pose proof (proj1 (proj2 Vpv)). pose proof (proj1 (proj2 Va)). pose proof (proj1 (proj2 Vns)).
  unfold encode_handshake. set (body := _ :: _).
  assert (Hl : 3 ≤ Z.of_nat (length body) ≤ MC_HANDSHAKE_MAX_LEN).
  { unfold body, MC_HANDSHAKE_MAX_LEN. cbn [length]. rewrite !length_app. lia. }
  rewrite <-app_assoc. exists (varint_encode 5 (Z.of_nat (length body))).
  exists (varint_encode 5 pv), (varint_encode 5 (Z.of_nat (length addr))), addr, port,
    (varint_encode 5 ns), rest, pv, (Z.of_nat (length body)).
  unfold MC_ADDR_MAX, MC_HANDSHAKE_MAX_LEN in *. unfold body in *.
  split_and!; try done; [apply varint_encode_varint; clear -Hl; words; lia|lia..].
Qed.

Lemma encode_handshake_head pv addr port ns rest L :
  L = Z.of_nat (length (MC_HANDSHAKE_PACKET_ID :: varint_encode 5 pv ++
        varint_encode 5 (Z.of_nat (length addr)) ++ addr ++ port ++ varint_encode 5 ns)) →
  head (encode_handshake pv addr port ns ++ rest) =
    Some (if L <? 128 then L else L mod 128 + 128).
Proof.
  intros ->. unfold encode_handshake. set (body := MC_HANDSHAKE_PACKET_ID :: _).
  change (varint_encode 5 (Z.of_nat (length body))) with
    (if Z.of_nat (length body) <? 128 then [Z.of_nat (length body)] else
      (Z.of_nat (length body) mod 128 + 128) :: varint_encode 4 (Z.of_nat (length body) / 128)).
  by case_match.
Qed.

(** C22. Round trip with the client's encoder, for every protocol version, address
    of at most 255 bytes, port and next_state, and whatever follows the packet:
    the classifier answers the class of next_state, except when the packet is at
    least 128 bytes long and its length is 126 modulo 128.  The first length byte
    is then 0xFE, and the packet counts as a legacy ping, that is a Status
    request, even when it is a Login. *)
Theorem classify_encode_handshake po plen pv addr port ns rest :
  ctx_ok ctx frame → 0 ≤ po < 2 ^ 17 → 0 ≤ plen < 2 ^ 16 →
  is_u32 pv → is_u32 ns → (length addr ≤ 255)%nat → length port = 2%nat →
  window frame po plen = encode_handshake pv addr port ns ++ rest →
  classify_handshake ctx po plen =
    (let L := Z.of_nat (length (MC_HANDSHAKE_PACKET_ID :: varint_encode 5 pv ++
       varint_encode 5 (Z.of_nat (length addr)) ++ addr ++ port ++ varint_encode 5 ns)) in
     if (128 <=? L) && (L mod 128 =? 126) then HS_STATUS else class_of ns).
Proof.
  intros Hctx Hpo Hpl Hpv Hns Ha Hp Hw. cbv zeta. set (L := Z.of_nat _).
  pose proof (encode_handshake_ok pv addr port ns rest Hpv Hns Ha Hp) as Hh.
  pose proof (encode_handshake_head pv addr port ns rest L eq_refl) as Hhd.
  rewrite (classify_handshake_list _ _ Hctx) by done.
  pose proof (window_length frame po plen ltac:(lia)) as Hlen. rewrite Hw in *.
  set (p := encode_handshake _ _ _ _ ++ rest) in *.
  pose proof (parse_packet_complete p plen ns Hlen Hh) as Hparse.
  destruct p as [|c p]; [done|]. injection Hhd as ->. unfold classify_list.
  rewrite Hparse. unfold MC_LEGACY_PING_BYTE.
  assert (0 ≤ L) by (unfold L; lia).
  destruct (Z.ltb_spec L 128); destruct (Z.leb_spec 128 L); try lia; cbn [andb].
  - by rewrite (proj2 (Z.eqb_neq L _)) by lia.
  - destruct (Z.eqb_spec (L mod 128) 126) as [->|Hne]; [done|].
    by rewrite (proj2 (Z.eqb_neq _ _)) by lia.
Qed.
End ClassifyTheorems.

(** ** Concrete frames *)
Definition example_net : list Z := [101; 120; 97; 109; 112; 108; 101; 46; 110; 101; 116].
(** An address of 246 bytes makes a packet of 254 bytes. *)
Definition long_address : list Z := replicate 246 97.
Definition login_254 : list Z := encode_handshake 765 long_address [0x63; 0xDD] 2.

Lemma classify_handshake_grammar_witness :
  ctx_ok (linear_ctx (encode_handshake 765 example_net [0x63; 0xDD] 2))
    (encode_handshake 765 example_net [0x63; 0xDD] 2) ∧
  classify_handshake (linear_ctx (encode_handshake 765 example_net [0x63; 0xDD] 2)) 0 19 =
    HS_LOGIN ∧
  ((∃ ns, handshake (window (encode_handshake 765 example_net [0x63; 0xDD] 2) 0 19) ns ∧
     classify_handshake (linear_ctx (encode_handshake 765 example_net [0x63; 0xDD] 2)) 0 19 =
       class_of ns) ∨
   (classify_handshake (linear_ctx (encode_handshake 765 example_net [0x63; 0xDD] 2)) 0 19 =
      HS_NONE ∧
    ∀ ns, ¬ handshake (window (encode_handshake 765 example_net [0x63; 0xDD] 2) 0 19) ns)).
Proof.
  assert (H : ctx_ok (linear_ctx (encode_handshake 765 example_net [0x63; 0xDD] 2))
    (encode_handshake 765 example_net [0x63; 0xDD] 2)).
  { apply linear_ctx_ok. vm_compute. repeat constructor; discriminate. }
  split; [exact H|]. split; [vm_compute; reflexivity|].
  apply (classify_handshake_grammar _ _ 0 19 H); [split; reflexivity || discriminate..|].
  vm_compute. discriminate.
Defined.

Lemma classify_encode_handshake_witness :
  classify_handshake (linear_ctx login_254) 0 256 = HS_STATUS ∧ class_of 2 = HS_LOGIN.
Proof.
  split; [|reflexivity].
  etransitivity.
  - apply (classify_encode_handshake _ login_254 0 256 765 long_address [0x63; 0xDD] 2 []).
    + apply linear_ctx_ok. vm_compute. repeat constructor; discriminate.
    + split; reflexivity || discriminate.
    + split; reflexivity || discriminate.
    + split; reflexivity || discriminate.
    + split; reflexivity || discriminate.
    + vm_compute. repeat constructor.
    + reflexivity.
    + vm_compute. reflexivity.
  - vm_compute. reflexivity.
Defined.
