(* ===== verification/TokenBucket.v ===== *)
(** * Token buckets: the contract of the rate limiters

    What the limiters of the datapath promise, stated without machine words: a
    bucket of capacity [B] refills one token per whole period [P], a request of
    cost [c] is granted when the refilled bucket holds [c] tokens.  The window
    bound says how much any run of requests is granted; [Limits.v] proves that the
    C functions implement the contract. *)
From S2P Require Import Prelude Kernel.

Section Bucket.
Context (P B : Z).

Definition tb_refill (now : Z) (b : ratelimit) : Z :=
  if 0 <? P then (now - last_refill_ns b) / P else 0.

Definition tb_take (cost now : Z) (b : ratelimit) : option ratelimit :=
  let r := tb_refill now b in
  let t := Z.min B (tokens b + r) in
  if t <? cost then None
  else Some (Ratelimit (t - cost) (last_refill_ns b + r * P)).

(** Requests as (time, cost); the total cost granted, and the final bucket. *)
Fixpoint tb_run (b : ratelimit) (reqs : list (Z * Z)) : Z * ratelimit :=
  match reqs with
  | [] => (0, b)
  | (now, c) :: reqs =>
    match tb_take c now b with
    | Some b' => let '(g, b'') := tb_run b' reqs in (c + g, b'')
    | None => tb_run b reqs
    end
  end.

(** Well-formed at time [now]: within capacity, refilled in the past. *)
Definition tb_ok (now : Z) (b : ratelimit) : Prop :=
  0 ≤ tokens b ≤ B ∧ 0 ≤ last_refill_ns b ≤ now.

Lemma tb_ok_mono now now' b : now ≤ now' → tb_ok now b → tb_ok now' b.
Proof. unfold tb_ok. lia. Qed.

Context (HP : 0 ≤ P).

Lemma tb_refill_bounds now b : tb_ok now b →
  0 ≤ tb_refill now b ∧ last_refill_ns b + tb_refill now b * P ≤ now ∧
  (0 < P → now - P < last_refill_ns b + tb_refill now b * P) ∧
  tb_refill now b ≤ now.
Proof.
  unfold tb_ok, tb_refill. intros [_ Hl]. destruct (Z.ltb_spec 0 P); [|lia].
  pose proof (Z.div_mod (now - last_refill_ns b) P ltac:(lia)).
  pose proof (Z.mod_pos_bound (now - last_refill_ns b) P ltac:(lia)).
  pose proof (Z.div_pos (now - last_refill_ns b) P ltac:(lia) ltac:(lia)). nia.
Qed.

Lemma tb_take_ok c now b b' : 0 ≤ c → tb_ok now b → tb_take c now b = Some b' →
  tb_ok now b' ∧
  P * (c + tokens b' - tokens b) ≤ last_refill_ns b' - last_refill_ns b ∧
  (0 < P → now - P < last_refill_ns b') ∧ c + tokens b' ≤ B.
Proof.
  intros Hc Hok. unfold tb_take. pose proof (tb_refill_bounds _ _ Hok) as (?&?&?&?).
  case_match; [done|]. intros [= <-]. bool_hyps. unfold tb_ok in *. simpl in *. nia.
Qed.

(** Along a run, what is granted is paid from the tokens and the time elapsed. *)
Lemma tb_run_credit b reqs now : tb_ok now b → 
  Forall (λ r, now ≤ r.1 ∧ 0 ≤ r.2) reqs → StronglySorted (λ r s, r.1 ≤ s.1) reqs →
  let '(g, b') := tb_run b reqs in
  let fin := default now (fst <$> last reqs) in
  0 ≤ g ∧ tb_ok fin b' ∧
  P * (g + tokens b' - tokens b) ≤ last_refill_ns b' - last_refill_ns b.
Proof.
  revert b now. induction reqs as [|[t c] reqs IH]; intros b now Hok Hall Hs; simpl.
  { split_and!; [lia|done|lia]. }
  apply Forall_cons_1 in Hall as [[Ht Hc] Hall]. simpl in *.
  apply StronglySorted_inv in Hs as [Hs Hfor].
  assert (Hall' : Forall (λ r : Z * Z, t ≤ r.1 ∧ 0 ≤ r.2) reqs).
  { rewrite Forall_forall in *. intros r Hr. destruct (Hall r Hr). split; [by apply Hfor|done]. }
  assert (Hfin : default now (fst <$> last ((t, c) :: reqs)) = default t (fst <$> last reqs)).
  { destruct reqs using rev_ind; [done|]. by rewrite app_comm_cons, !last_snoc. }
  simpl in Hfin. rewrite Hfin.
  pose proof (tb_ok_mono _ t _ Ht Hok) as Hokt.
  destruct (tb_take c t b) as [b1|] eqn:E.
  - destruct (tb_take_ok _ _ _ _ Hc Hokt E) as (Hok1 & Hp & _ & _).
    specialize (IH b1 t Hok1 Hall' Hs). destruct (tb_run b1 reqs) as [g b2].
    destruct IH as (?&?&?). split_and!; [lia|done|nia].
  - specialize (IH b t Hokt Hall' Hs). by destruct (tb_run b reqs) as [g b2].
Qed.

(** In any window that starts at [now] and ends at the last request, at most
    [B + ⌈T / P⌉] is granted, [T] being the window's length. *)
Lemma tb_run_window b reqs now : 0 < P → tb_ok now b → 
  Forall (λ r, now ≤ r.1 ∧ 0 ≤ r.2) reqs → StronglySorted (λ r s, r.1 ≤ s.1) reqs →
  let fin := default now (fst <$> last reqs) in
  P * ((tb_run b reqs).1 - B) ≤ (fin - now) + (P - 1).
Proof.
  intros HP0. revert b. induction reqs as [|[t c] reqs IH]; intros b Hok Hall Hs; simpl.
  { unfold tb_ok in *. nia. }
  apply Forall_cons_1 in Hall as [[Ht Hc] Hall]. simpl in *.
  apply StronglySorted_inv in Hs as [Hs Hfor].
  assert (Hall' : Forall (λ r : Z * Z, t ≤ r.1 ∧ 0 ≤ r.2) reqs).
  { rewrite Forall_forall in *. intros r Hr. destruct (Hall r Hr). split; [by apply Hfor|done]. }
  assert (Hfin : default now (fst <$> last ((t, c) :: reqs)) = default t (fst <$> last reqs)).
  { destruct reqs using rev_ind; [done|]. by rewrite app_comm_cons, !last_snoc. }
  simpl in Hfin. rewrite Hfin.
  pose proof (tb_ok_mono _ t _ Ht Hok) as Hokt.
  assert (Hle : default now (fst <$> last reqs) ≤ default t (fst <$> last reqs))
    by (destruct reqs using rev_ind; [done|by rewrite last_snoc]).
  destruct (tb_take c t b) as [b1|] eqn:E.
  - destruct (tb_take_ok _ _ _ _ Hc Hokt E) as (Hok1 & _ & Hl & Hcap).
    pose proof (tb_run_credit b1 reqs t Hok1 Hall' Hs) as Hcr.
    destruct (tb_run b1 reqs) as [g b2]. destruct Hcr as (?&[? ?]&?). simpl.
    specialize (Hl HP0). nia.
  - specialize (IH b Hok Hall Hs). lia.
Qed.

Lemma tb_run_fin now fin reqs : now ≤ fin → Forall (λ r : Z * Z, r.1 ≤ fin) reqs →
  default now (fst <$> last reqs) ≤ fin.
Proof.
  intros Hn Hf. destruct reqs as [|r reqs _] using rev_ind; [done|].
  rewrite last_snoc. simpl. rewrite Forall_app in Hf. destruct Hf as [_ Hf].
  by apply Forall_cons_1 in Hf as [? _].
Qed.

(** With no refill period the bucket only drains. *)
Lemma tb_run_dead b reqs now : P = 0 → tb_ok now b → Forall (λ r, now ≤ r.1 ∧ 0 ≤ r.2) reqs →
  (tb_run b reqs).1 ≤ tokens b.
Proof.
  intros HP0. revert b. induction reqs as [|[t c] reqs IH]; intros b Hok Hall; simpl.
  { unfold tb_ok in Hok. lia. }
  apply Forall_cons_1 in Hall as [[Ht Hc] Hall]. simpl in *.
  destruct (tb_take c t b) as [b1|] eqn:E; [|by apply IH].
  unfold tb_take, tb_refill in E. rewrite HP0 in E. simpl in E. case_match; [done|].
  injection E as <-. bool_hyps. unfold tb_ok in Hok.
  specialize (IH (Ratelimit (Z.min B (tokens b + 0) - c) (last_refill_ns b + 0))).
  destruct (tb_run _ reqs) as [g b2]. simpl in *. unfold tb_ok in IH. simpl in IH.
  specialize (IH ltac:(lia) Hall). lia.
Qed.
End Bucket.
