(* ===== verification/Limits.v ===== *)
(** * The rate limiters of the datapath

    [ratelimit_take] (per IP), [tcp_global_ratelimit_take] (per CPU) and
    [conn_ratelimit_take] (packets and bytes of trusted traffic), with their 64-bit
    arithmetic, and the proof that each is the token bucket of [TokenBucket.v] as
    long as the clock does not run backwards. *)
From S2P Require Import Prelude Kernel World Frame TokenBucket.

Section Limits.
Context {M : Type → Type} `{!BpfMap M}.

Definition ratelimit_take (map : mapid ratelimit) (src_ip : ipkey)
    (refill_period_ns burst : Z) : prog M bool :=
  b ← bpf_map_lookup_elem map src_ip;
  now ← bpf_ktime_get_boot_ns;
  match b with
  | None =>
    bpf_map_update_elem map src_ip
      (Ratelimit (if 0 <? burst then u64 (burst - 1) else 0) now);;
    mret true
  | Some b =>
    let elapsed := u64 (now - last_refill_ns b) in
    let refill := if 0 <? refill_period_ns then elapsed / refill_period_ns else 0 in
    let t := u64 (tokens b + refill) in
    let t := if burst <? t then burst else t in
    if t =? 0 then mret false
    else
      map_store map src_ip
        (Ratelimit (u64 (t - 1)) (u64 (last_refill_ns b + u64 (refill * refill_period_ns))));;
      mret true
  end.

Definition tcp_global_ratelimit_take : prog M bool :=
  global_burst ← cfg tcp_global_burst;
  global_period ← cfg tcp_global_period_ns;
  if (global_burst =? 0) || (global_period =? 0) then mret true else
  b ← global_lookup;
  match b with
  | None => mret true
  | Some b =>
    now ← bpf_ktime_get_boot_ns;
    let elapsed := u64 (now - last_refill_ns b) in
    let refill := elapsed / global_period in
    let t := u64 (tokens b + refill) in
    let t := if global_burst <? t then global_burst else t in
    if t =? 0 then mret false
    else
      global_store
        (Ratelimit (u64 (t - 1)) (u64 (last_refill_ns b + u64 (refill * global_period))));;
      mret true
  end.

(** [pkt_on] and [byte_on] of conn_ratelimit_take. *)
Definition pkt_on (c : xdp_config) : bool :=
  (0 <? conn_pkt_period_ns c) && (0 <? conn_pkt_burst c).
Definition byte_on (c : xdp_config) : bool :=
  (0 <? conn_byte_period_ns c) && (0 <? conn_byte_burst c).

(** Its [if (pkt_on)] block: the entry it writes back, [None] for [return false]. *)
Definition conn_pkt_block (c : xdp_config) (now : Z) (b : conn_limit) : option conn_limit :=
  let elapsed := u64 (now - pkt_last_ns b) in
  let refill := elapsed / conn_pkt_period_ns c in
  let t := u64 (pkt_tokens b + refill) in
  let t := if conn_pkt_burst c <? t then conn_pkt_burst c else t in
  if t =? 0 then None
  else Some (ConnLimit (u64 (t - 1))
              (u64 (pkt_last_ns b + u64 (refill * conn_pkt_period_ns c)))
              (byte_tokens b) (byte_last_ns b)).
(** Its [if (byte_on)] block. *)
Definition conn_byte_block (c : xdp_config) (now pkt_bytes : Z) (b : conn_limit)
    : option conn_limit :=
  let elapsed := u64 (now - byte_last_ns b) in
  let refill := elapsed / conn_byte_period_ns c in
  let t := u64 (byte_tokens b + refill) in
  let t := if conn_byte_burst c <? t then conn_byte_burst c else t in
  if t <? pkt_bytes then None
  else Some (ConnLimit (pkt_tokens b) (pkt_last_ns b) (u64 (t - pkt_bytes))
              (u64 (byte_last_ns b + u64 (refill * conn_byte_period_ns c)))).

Definition conn_ratelimit_take (src_ip : ipkey) (pkt_bytes : Z) : prog M bool :=
  c ← reads conf;
  if negb (pkt_on c) && negb (byte_on c) then mret true else
  now ← bpf_ktime_get_boot_ns;
  b ← bpf_map_lookup_elem CONN_RL src_ip;
  match b with
  | None =>
    let init_bytes :=
      if byte_on c
      then (if pkt_bytes <? conn_byte_burst c then u64 (conn_byte_burst c - pkt_bytes) else 0)
      else conn_byte_burst c in
    bpf_map_update_elem CONN_RL src_ip
      (ConnLimit (if 0 <? conn_pkt_burst c then u64 (conn_pkt_burst c - 1) else 0) now
        init_bytes now);;
    mret true
  | Some b =>
    match (if pkt_on c then conn_pkt_block c now b else Some b) with
    | None => mret false
    | Some b =>
      (if pkt_on c then map_store CONN_RL src_ip b else mret tt);;
      if byte_on c then
        match conn_byte_block c now pkt_bytes b with
        | None => mret false
        | Some b => map_store CONN_RL src_ip b;; mret true
        end
      else mret true
    end
  end.
End Limits.

(** ** The word arithmetic is the contract's *)
Section Arithmetic.
Context (P B now : Z) (HP : 0 ≤ P < 2 ^ 64) (HB : B < 2 ^ 63) (Hnow : now < 2 ^ 63).

Definition word_refill (b : ratelimit) : Z :=
  if 0 <? P then u64 (now - last_refill_ns b) / P else 0.

Lemma word_refill_eq b : tb_ok B now b → word_refill b = tb_refill P now b.
Proof.
  intros [_ Hl]. unfold word_refill, tb_refill. case_match; [|done].
  rewrite u64_id; [done|]. change (2 ^ 63) with 9223372036854775808 in *. word_lia.
Qed.

Lemma word_tokens_eq b : tb_ok B now b →
  (if B <? u64 (tokens b + word_refill b) then B else u64 (tokens b + word_refill b)) =
  Z.min B (tokens b + tb_refill P now b).
Proof.
  intros Hok. rewrite word_refill_eq by done.
  pose proof (tb_refill_bounds P B ltac:(lia) now b Hok) as (?&_&_&?).
  destruct Hok as [Ht Hl]. change (2 ^ 63) with 9223372036854775808 in *.
  rewrite u64_id by word_lia. destruct (Z.ltb_spec B (tokens b + tb_refill P now b)); lia.
Qed.

Lemma word_last_eq b : tb_ok B now b →
  u64 (last_refill_ns b + u64 (word_refill b * P)) =
  last_refill_ns b + tb_refill P now b * P.
Proof.
  intros Hok. rewrite word_refill_eq by done.
  pose proof (tb_refill_bounds P B ltac:(lia) now b Hok) as (?&?&_&_).
  destruct Hok as [Ht Hl]. change (2 ^ 63) with 9223372036854775808 in *.
  assert (0 ≤ tb_refill P now b * P) by nia.
  rewrite (u64_id (tb_refill P now b * P)) by word_lia. apply u64_id. word_lia.
Qed.
End Arithmetic.

(** ** The map entry of one source *)

(** What one call does to the entry: a first call creates it, one token spent. *)
Definition rl_step (P B now : Z) (o : option ratelimit) : bool * option ratelimit :=
  match o with
  | None => (true, Some (Ratelimit (if 0 <? B then B - 1 else 0) now))
  | Some b => match tb_take P B 1 now b with
              | Some b' => (true, Some b')
              | None => (false, Some b)
              end
  end.
Definition entry_ok (B now : Z) (o : option ratelimit) : Prop :=
  match o with None => True | Some b => tb_ok B now b end.

Lemma rl_step_ok P B now o : 0 ≤ P → 0 ≤ B → 0 ≤ now → entry_ok B now o →
  entry_ok B now (rl_step P B now o).2.
Proof.
  intros HP HB Hn Ho. destruct o as [b|]; simpl in *.
  - destruct (tb_take P B 1 now b) eqn:E; [|done]. simpl.
    apply (tb_take_ok P B HP) in E; [apply E|lia|done].
  - unfold tb_ok. simpl. destruct (Z.ltb_spec 0 B); lia.
Qed.

Section Refinement.
Context {M : Type → Type} `{!BpfMap M, !BpfMapLaws M}.
Implicit Types (w : world M) (e : kenv).

Definition entry (map : mapid ratelimit) (k : ipkey) (w : world M) : option ratelimit :=
  bpf_lookup k (get_map map w).

Lemma ratelimit_take_frame map k P B src0 : k = src0 →
  Preserves (only_ip src0) (ratelimit_take map k P B : prog M bool).
Proof. intros ->. unfold ratelimit_take. preserve. Qed.
Lemma ratelimit_take_later map k P B : Preserves later (ratelimit_take map k P B : prog M bool).
Proof. unfold ratelimit_take. preserve. Qed.

Lemma ratelimit_take_spec map k P B e w :
  0 ≤ P < 2 ^ 64 → 0 ≤ B < 2 ^ 63 → clock_ok e →
  entry_ok B (boot_ns e (clock_reads w)) (entry map k w) →
  let now := boot_ns e (clock_reads w) in
  let '(r, w') := ratelimit_take map k P B e w in
  (r, entry map k w') = rl_step P B now (entry map k w) ∧
  clock_reads w' = S (clock_reads w).
Proof.
  intros HP HB [Hclk _] Hok. specialize (Hclk (clock_reads w)). cbv zeta.
  unfold ratelimit_take, entry, rl_step in *. unfold mbind, prog_bind. simpl.
  destruct (bpf_lookup k (get_map map w)) as [b|] eqn:Hb; simpl in *.
  - set (now := boot_ns e (clock_reads w)) in *.
    change (if 0 <? P then u64 (now - last_refill_ns b) / P else 0) with (word_refill P now b).
    rewrite (word_tokens_eq P B now HP (proj2 HB) (proj2 Hclk) b Hok).
    rewrite (word_last_eq P B now HP (proj2 Hclk) b Hok).
    pose proof (tb_refill_bounds P B (proj1 HP) now b Hok) as (?&_).
    unfold tb_take. destruct Hok as [Ht Hl]. change (2 ^ 63) with 9223372036854775808 in *.
    destruct (Z.eqb_spec (Z.min B (tokens b + tb_refill P now b)) 0) as [H0|H0].
    + rewrite H0. simpl. autorewrite with world. by rewrite Hb.
    + rewrite (proj2 (Z.ltb_ge _ 1)) by lia. simpl. autorewrite with world.
      rewrite bpf_lookup_store_eq by (autorewrite with world; eauto).
      by rewrite u64_id by word_lia.
  - autorewrite with world. rewrite bpf_lookup_update_eq.
    destruct (Z.ltb_spec 0 B); [|done].
    change (2 ^ 63) with 9223372036854775808 in *. by rewrite u64_id by word_lia.
Qed.

(** The per-IP limiter implements the token bucket: whatever the map holds for
    the source, one call answers and updates the entry as the contract says, and it
    reads the clock exactly once. *)
Theorem ratelimit_take_refines map k P B e w :
  0 ≤ P < 2 ^ 64 → 0 ≤ B < 2 ^ 63 → clock_ok e →
  entry_ok B (boot_ns e (clock_reads w)) (entry map k w) →
  let now := boot_ns e (clock_reads w) in
  let '(r, w') := ratelimit_take map k P B e w in
  (r, entry map k w') = rl_step P B now (entry map k w) ∧
  clock_reads w' = S (clock_reads w).
Proof. apply ratelimit_take_spec. Qed.
End Refinement.

(** ** Rate bounds over runs of calls *)
Section Window.
Context {M : Type → Type} `{!BpfMap M, !BpfMapLaws M}.
Implicit Types (w : world M) (e : kenv).

(** Calls for one source with arbitrary programs in between; counts the grants. *)
Fixpoint take_all (map : mapid ratelimit) (k : ipkey) (P B : Z)
    (between : list (prog M unit)) : prog M Z :=
  match between with
  | [] => mret 0
  | p :: ps =>
    p;;
    ok ← ratelimit_take map k P B;
    n ← take_all map k P B ps;
    mret ((if (ok : bool) then 1 else 0) + n)
  end.

(** The programs in between leave the source's bucket alone. *)
Definition keeps (map : mapid ratelimit) (k : ipkey) (e : kenv) (w w' : world M) : Prop :=
  entry map k w' = entry map k w.
Definition bystander (map : mapid ratelimit) (k : ipkey) (p : prog M unit) : Prop :=
  Preserves (keeps map k) p ∧ Preserves later p.

Definition now_of (e : kenv) (w : world M) : Z := boot_ns e (clock_reads w).

Lemma entry_ok_mono B now now' o : now ≤ now' → entry_ok B now o → entry_ok B now' o.
Proof. destruct o; simpl; [apply tb_ok_mono|done]. Qed.

Section Runs.
Context (map : mapid ratelimit) (k : ipkey) (P B : Z) (e : kenv).
Context (HP : 0 ≤ P < 2 ^ 64) (HB : 0 ≤ B < 2 ^ 63) (Hclk : clock_ok e).

Lemma bystander_run p w : bystander map k p →
  entry map k (p e w).2 = entry map k w ∧ now_of e w ≤ now_of e (p e w).2.
Proof. intros [Hk Hl]. split; [apply Hk|apply Hclk, Hl]. Qed.

(** Once the entry exists, a run of calls is a run of the contract's bucket. *)
Lemma take_all_run between w b : Forall (bystander map k) between →
  entry map k w = Some b → tb_ok B (now_of e w) b →
  ∃ reqs, (take_all map k P B between e w).1 = (tb_run P B b reqs).1 ∧
    Forall (λ r, now_of e w ≤ r.1 ∧ 0 ≤ r.2) reqs ∧
    StronglySorted (λ r s, r.1 ≤ s.1) reqs ∧
    Forall (λ r, r.1 ≤ now_of e (take_all map k P B between e w).2) reqs ∧
    now_of e w ≤ now_of e (take_all map k P B between e w).2.
Proof.
  revert w b. induction between as [|p ps IH]; intros w b Hall Hb Hok.
  { exists []. split_and!; try done; constructor. }
  apply Forall_cons_1 in Hall as [Hp Hall].
  destruct (bystander_run p w Hp) as [Hkeep Hle].
  simpl. unfold mbind, prog_bind. destruct (p e w) as [[] w1]. simpl in Hkeep, Hle.
  rewrite Hb in Hkeep. pose proof (tb_ok_mono _ _ _ _ Hle Hok) as Hok1.
  pose proof (ratelimit_take_spec map k P B e w1 HP HB Hclk) as Hstep.
  rewrite Hkeep in Hstep. specialize (Hstep Hok1). cbv zeta in Hstep.
  destruct (ratelimit_take map k P B e w1) as [ok w2]. destruct Hstep as [Hstep Hreads].
  assert (Hle2 : now_of e w1 ≤ now_of e w2) by (apply Hclk; lia).
  pose proof (rl_step_ok P B (now_of e w1) (Some b) ltac:(lia) ltac:(lia)
    (proj1 (proj1 Hclk _)) Hok1) as Hokb.
  fold (now_of e w1) in Hstep. rewrite <-Hstep in Hokb. simpl in Hokb.
  destruct (entry map k w2) as [b2|] eqn:Hb2;
    [|simpl in Hstep; destruct (tb_take P B 1 _ b); discriminate].
  destruct (IH w2 b2 Hall Hb2 (tb_ok_mono _ _ _ _ Hle2 Hokb)) as (reqs & Hrun & Hge & Hs & Hfin & Hend).
  destruct (take_all map k P B ps e w2) as [n w3]. simpl in *.
  exists ((now_of e w1, 1) :: reqs). simpl.
  split_and!; [| |constructor; [done|]|constructor; [simpl; lia|done]|lia].
  - destruct (tb_take P B 1 (now_of e w1) b) as [b'|]; simplify_eq; simpl.
    + destruct (tb_run P B b' reqs) as [g ?]. simpl in *. lia.
    + destruct (tb_run P B b reqs) as [g ?]. simpl in *. lia.
  - constructor; [simpl; lia|]. eapply Forall_impl; [exact Hge|]. simpl. lia.
  - eapply Forall_impl; [exact Hge|]. simpl. lia.
Qed.

(** The run as seen from the source's first grant. *)
Lemma take_all_first p ps w : bystander map k p → entry map k w = None →
  let w1 := (p e w).2 in
  ∃ w2, entry map k w2 = Some (Ratelimit (if 0 <? B then B - 1 else 0) (now_of e w1)) ∧
    now_of e w ≤ now_of e w1 ≤ now_of e w2 ∧
    (take_all map k P B (p :: ps) e w).1 = 1 + (take_all map k P B ps e w2).1 ∧
    (take_all map k P B (p :: ps) e w).2 = (take_all map k P B ps e w2).2.
Proof.
  intros Hp Hb. destruct (bystander_run p w Hp) as [Hkeep Hle]. cbv zeta.
  cbn [take_all]. unfold mbind, prog_bind. destruct (p e w) as [[] w1]. simpl in *.
  pose proof (ratelimit_take_spec map k P B e w1 HP HB Hclk) as Hstep.
  rewrite Hkeep, Hb in Hstep. specialize (Hstep I). cbv zeta in Hstep.
  destruct (ratelimit_take map k P B e w1) as [ok w2]. destruct Hstep as [Hstep Hreads].
  simpl in Hstep. injection Hstep as -> Hent. exists w2. rewrite Hent.
  destruct (take_all map k P B ps e w2) as [n w3].
  split_and!; try done. apply Hclk. lia.
Qed.
End Runs.

(** The bucket a first call leaves, at time [now]. *)
Lemma first_bucket_ok B now : 0 ≤ B → 0 ≤ now →
  tb_ok B now (Ratelimit (if 0 <? B then B - 1 else 0) now).
Proof. intros HB Hn. unfold tb_ok. simpl. destruct (Z.ltb_spec 0 B); lia. Qed.

(** Rate bound.  Over any run of calls for one source, with arbitrary other
    programs in between, the limiter grants at most [max(burst, 1)] requests plus
    one per refill period elapsed, rounded up. *)
Theorem ratelimit_take_window map k P B between e w :
  0 < P < 2 ^ 64 → 0 ≤ B < 2 ^ 63 → clock_ok e → Forall (bystander map k) between →
  entry_ok B (now_of e w) (entry map k w) →
  let '(granted, w') := take_all map k P B between e w in
  P * (granted - Z.max B 1) ≤ (now_of e w' - now_of e w) + (P - 1).
Proof.
  intros HP HB Hclk Hall Hok. assert (HP' : 0 ≤ P < 2 ^ 64) by lia.
  destruct (take_all map k P B between e w) as [g w'] eqn:Hrun.
  destruct (entry map k w) as [b|] eqn:Hb.
  - destruct (take_all_run map k P B e HP' HB Hclk between w b Hall Hb Hok)
      as (reqs & Hg & Hge & Hs & Hfin & Hend).
    rewrite Hrun in *. simpl in *.
    pose proof (tb_run_window P B ltac:(lia) b reqs _ ltac:(lia) Hok Hge Hs) as Hw.
    pose proof (tb_run_fin _ _ _ Hend Hfin). cbv zeta in Hw. rewrite <-Hg in Hw. nia.
  - destruct between as [|p ps]; [injection Hrun as <- <-; lia|].
    apply Forall_cons_1 in Hall as [Hp Hall].
    destruct (take_all_first map k P B e HP' HB Hclk p ps w Hp Hb)
      as (w2 & Hb2 & Hle & Hg & Hw'). rewrite Hrun in Hg, Hw'. simpl in Hg, Hw'. subst w'.
    pose proof (first_bucket_ok B (now_of e (p e w).2) ltac:(lia) (proj1 (proj1 Hclk _))) as Hok2.
    apply (tb_ok_mono _ _ (now_of e w2)) in Hok2; [|lia].
    destruct (take_all_run map k P B e HP' HB Hclk ps w2 _ Hall Hb2 Hok2)
      as (reqs & Hg2 & Hge & Hs & Hfin & Hend).
    pose proof (tb_run_credit P B ltac:(lia) _ reqs _ Hok2 Hge Hs) as Hc.
    destruct (tb_run P B _ reqs) as [g2 b2]. destruct Hc as (_ & [[? _] [_ ?]] & Hc).
    pose proof (tb_run_fin _ _ _ Hend Hfin). simpl in *.
    destruct (Z.ltb_spec 0 B); nia.
Qed.

(** A refill period of 0 does not disable the limiter, it starves the source:
    over any run of calls at most [max(burst, 1)] requests are ever granted. *)
Lemma ratelimit_take_period_zero map k B between e w :
  0 ≤ B < 2 ^ 63 → clock_ok e → Forall (bystander map k) between →
  entry_ok B (now_of e w) (entry map k w) →
  (take_all map k 0 B between e w).1 ≤ Z.max B 1.
Proof.
  intros HB Hclk Hall Hok. assert (HP : 0 ≤ 0 < 2 ^ 64) by lia.
  destruct (entry map k w) as [b|] eqn:Hb.
  - destruct (take_all_run map k 0 B e HP HB Hclk between w b Hall Hb Hok)
      as (reqs & -> & Hge & _).
    pose proof (tb_run_dead 0 B b reqs _ eq_refl Hok Hge). destruct Hok. lia.
  - destruct between as [|p ps]; [simpl; lia|]. apply Forall_cons_1 in Hall as [Hp Hall].
    destruct (take_all_first map k 0 B e HP HB Hclk p ps w Hp Hb) as (w2 & Hb2 & Hle & -> & _).
    pose proof (first_bucket_ok B (now_of e (p e w).2) ltac:(lia) (proj1 (proj1 Hclk _))) as Hok2.
    apply (tb_ok_mono _ _ (now_of e w2)) in Hok2; [|lia].
    destruct (take_all_run map k 0 B e HP HB Hclk ps w2 _ Hall Hb2 Hok2) as (reqs & -> & Hge & _).
    pose proof (tb_run_dead 0 B _ reqs _ eq_refl Hok2 Hge). simpl in *.
    destruct (Z.ltb_spec 0 B); lia.
Qed.
End Window.

(** ** The global circuit breaker *)
Definition global_step (c : xdp_config) (now : Z) (o : option ratelimit) : bool * option ratelimit :=
  if (tcp_global_burst c =? 0) || (tcp_global_period_ns c =? 0) then (true, o) else
  match o with
  | None => (true, None)
  | Some b => match tb_take (tcp_global_period_ns c) (tcp_global_burst c) 1 now b with
              | Some b' => (true, Some b')
              | None => (false, Some b)
              end
  end.

(** ** The limiter of trusted traffic *)
Definition pkt_part (b : conn_limit) : ratelimit := Ratelimit (pkt_tokens b) (pkt_last_ns b).
Definition byte_part (b : conn_limit) : ratelimit := Ratelimit (byte_tokens b) (byte_last_ns b).
Definition join_parts (p q : ratelimit) : conn_limit :=
  ConnLimit (tokens p) (last_refill_ns p) (tokens q) (last_refill_ns q).

(** A bucket that is switched off grants everything and does not change. *)
Definition opt_take (on : bool) (P B cost now : Z) (b : ratelimit) : option ratelimit :=
  if on then tb_take P B cost now b else Some b.
(** The packet bucket pays first; a packet the byte bucket then refuses has
    nevertheless spent its packet token. *)
Definition conn_step (c : xdp_config) (now bytes : Z) (o : option conn_limit)
    : bool * option conn_limit :=
  if negb (pkt_on c) && negb (byte_on c) then (true, o) else
  match o with
  | None => (true, Some (join_parts
      (Ratelimit (if 0 <? conn_pkt_burst c then conn_pkt_burst c - 1 else 0) now)
      (Ratelimit (if byte_on c then Z.max 0 (conn_byte_burst c - bytes) else conn_byte_burst c) now)))
  | Some b =>
    match opt_take (pkt_on c) (conn_pkt_period_ns c) (conn_pkt_burst c) 1 now (pkt_part b) with
    | None => (false, Some b)
    | Some p =>
      match opt_take (byte_on c) (conn_byte_period_ns c) (conn_byte_burst c) bytes now (byte_part b) with
      | None => (false, Some (join_parts p (byte_part b)))
      | Some q => (true, Some (join_parts p q))
      end
    end
  end.

(** Tunables the loader can write and a clock can serve. *)
Definition limits_ok (c : xdp_config) : Prop :=
  (0 ≤ tcp_global_period_ns c < 2 ^ 64 ∧ 0 ≤ tcp_global_burst c < 2 ^ 63) ∧
  (0 ≤ conn_pkt_period_ns c < 2 ^ 64 ∧ 0 ≤ conn_pkt_burst c < 2 ^ 63) ∧
  (0 ≤ conn_byte_period_ns c < 2 ^ 64 ∧ 0 ≤ conn_byte_burst c < 2 ^ 63).
Definition conn_ok (c : xdp_config) (now : Z) (o : option conn_limit) : Prop :=
  match o with
  | None => True
  | Some b => (pkt_on c = true → tb_ok (conn_pkt_burst c) now (pkt_part b)) ∧
              (byte_on c = true → tb_ok (conn_byte_burst c) now (byte_part b))
  end.

Lemma eqb_0_ltb_1 t : 0 ≤ t → (t =? 0) = (t <? 1).
Proof. intros Ht. apply Bool.eq_iff_eq_true. rewrite Z.eqb_eq, Z.ltb_lt. lia. Qed.

(** The words of one granted or refused take. *)
Lemma word_take P B cost now b : 0 < P < 2 ^ 64 → 0 ≤ B < 2 ^ 63 → 0 ≤ now < 2 ^ 63 →
  tb_ok B now b → 0 ≤ cost →
  let t := u64 (tokens b + u64 (now - last_refill_ns b) / P) in
  let t := if B <? t then B else t in
  match tb_take P B cost now b with
  | None => (t <? cost) = true
  | Some b' => (t <? cost) = false ∧ u64 (t - cost) = tokens b' ∧
      u64 (last_refill_ns b + u64 (u64 (now - last_refill_ns b) / P * P)) = last_refill_ns b'
  end.
Proof.
  intros HP HB Hn Hok Hc. cbv zeta.
  pose proof (word_tokens_eq P B now ltac:(lia) (proj2 HB) (proj2 Hn) b Hok) as Ht.
  pose proof (word_last_eq P B now ltac:(lia) (proj2 Hn) b Hok) as Hl.
  pose proof (tb_refill_bounds P B ltac:(lia) now b Hok) as (Hr&_).
  unfold word_refill in Ht, Hl. rewrite (proj2 (Z.ltb_lt 0 P)) in Ht, Hl by lia.
  rewrite Ht, Hl. unfold tb_take. destruct Hok as [Hb _].
  change (2 ^ 63) with 9223372036854775808 in *.
  destruct (Z.ltb_spec (Z.min B (tokens b + tb_refill P now b)) cost); [done|].
  simpl. split_and!; [done| |done]. apply u64_id. word_lia.
Qed.

(** The two blocks of conn_ratelimit_take are takes of the two buckets. *)
Lemma conn_pkt_words c now b :
  0 ≤ conn_pkt_period_ns c < 2 ^ 64 ∧ 0 ≤ conn_pkt_burst c < 2 ^ 63 → 0 ≤ now < 2 ^ 63 →
  (pkt_on c = true → tb_ok (conn_pkt_burst c) now (pkt_part b)) →
  (if pkt_on c then conn_pkt_block c now b else Some b) =
  (λ p, join_parts p (byte_part b)) <$>
    opt_take (pkt_on c) (conn_pkt_period_ns c) (conn_pkt_burst c) 1 now (pkt_part b).
Proof.
  intros [HP HB] Hn Hok. destruct (pkt_on c) eqn:Hon; simpl; [|by destruct b].
  specialize (Hok eq_refl). unfold pkt_on in Hon. bool_hyps.
  pose proof (word_take (conn_pkt_period_ns c) _ 1 now _ ltac:(lia) HB Hn Hok ltac:(lia)) as Hw.
  unfold conn_pkt_block. cbv zeta in *. simpl in Hw. rewrite eqb_0_ltb_1.
  2: { destruct (conn_pkt_burst c <? _); [lia|apply u64_range]. }
  destruct (tb_take _ _ 1 _ _) as [b'|]; simpl; [|by rewrite Hw].
  by destruct Hw as (-> & -> & ->).
Qed.
Lemma conn_byte_words c now n b :
  0 ≤ conn_byte_period_ns c < 2 ^ 64 ∧ 0 ≤ conn_byte_burst c < 2 ^ 63 → 0 ≤ now < 2 ^ 63 →
  0 ≤ n → byte_on c = true → tb_ok (conn_byte_burst c) now (byte_part b) →
  conn_byte_block c now n b =
  (λ q, join_parts (pkt_part b) q) <$>
    tb_take (conn_byte_period_ns c) (conn_byte_burst c) n now (byte_part b).
Proof.
  intros [HP HB] Hn Hnn Hon Hok. unfold byte_on in Hon. bool_hyps.
  pose proof (word_take (conn_byte_period_ns c) _ n now _ ltac:(lia) HB Hn Hok Hnn) as Hw.
  unfold conn_byte_block. cbv zeta in *. simpl in Hw.
  destruct (tb_take _ _ n _ _) as [b'|]; simpl; [|by rewrite Hw].
  by destruct Hw as (-> & -> & ->).
Qed.

Section OtherLimiters.
Context {M : Type → Type} `{!BpfMap M, !BpfMapLaws M}.
Implicit Types (w : world M) (e : kenv).

Lemma tcp_global_frame src0 : Preserves (only_ip src0) (tcp_global_ratelimit_take : prog M bool).
Proof. unfold tcp_global_ratelimit_take, cfg. preserve. Qed.
Lemma conn_ratelimit_frame src0 n :
  Preserves (only_ip src0) (conn_ratelimit_take src0 n : prog M bool).
Proof. unfold conn_ratelimit_take, cfg. cbv zeta. preserve. Qed.

Lemma tcp_global_ratelimit_take_spec e w :
  limits_ok (conf e) → clock_ok e → 
  (∀ b, tcp_global_ratelimit w !! cpu e = Some b →
    tb_ok (tcp_global_burst (conf e)) (now_of e w) b) →
  let '(r, w') := tcp_global_ratelimit_take e w in
  (r, tcp_global_ratelimit w' !! cpu e) =
    global_step (conf e) (now_of e w) (tcp_global_ratelimit w !! cpu e) ∧
  (∀ c, c ≠ cpu e → tcp_global_ratelimit w' !! c = tcp_global_ratelimit w !! c).
Proof.
  intros ((HP & HB) & _) [Hclk _] Hok. specialize (Hclk (clock_reads w)).
  unfold tcp_global_ratelimit_take, global_step, cfg, reads, mbind, prog_bind. simpl.
  destruct ((_ =? 0) || (_ =? 0)) eqn:Hoff; [done|]. bool_hyps.
  unfold global_lookup. destruct (tcp_global_ratelimit w !! cpu e) as [b|] eqn:Hb; simpl.
  2: { by rewrite Hb. }
  specialize (Hok b eq_refl). fold (now_of e w) in *.
  pose proof (word_take (tcp_global_period_ns (conf e)) (tcp_global_burst (conf e)) 1 _ b
    ltac:(lia) HB Hclk Hok ltac:(lia)) as Hw. cbv zeta in Hw.
  rewrite eqb_0_ltb_1.
  2: { destruct (tcp_global_burst (conf e) <? _); [lia|apply u64_range]. }
  destruct (tb_take _ _ 1 _ b) as [b'|].
  - destruct Hw as (-> & -> & ->). simpl. autorewrite with world.
    rewrite list_lookup_insert_eq by (by eapply lookup_lt_Some). destruct b'.
    split; [done|]. intros c Hc. by rewrite list_lookup_insert_ne.
  - rewrite Hw. simpl. autorewrite with world. by rewrite Hb.
Qed.

(** The circuit breaker implements the token bucket of its own CPU: it answers
    and updates that CPU's bucket as the contract says, leaves the other CPUs'
    buckets alone, and does nothing when its rate or burst is 0. *)
Theorem tcp_global_ratelimit_take_refines e w :
  limits_ok (conf e) → clock_ok e → 
  (∀ b, tcp_global_ratelimit w !! cpu e = Some b →
    tb_ok (tcp_global_burst (conf e)) (now_of e w) b) →
  let '(r, w') := tcp_global_ratelimit_take e w in
  (r, tcp_global_ratelimit w' !! cpu e) =
    global_step (conf e) (now_of e w) (tcp_global_ratelimit w !! cpu e) ∧
  (∀ c, c ≠ cpu e → tcp_global_ratelimit w' !! c = tcp_global_ratelimit w !! c).
Proof. apply tcp_global_ratelimit_take_spec. Qed.

Lemma join_split b : b = join_parts (pkt_part b) (byte_part b).
Proof. by destruct b. Qed.
Lemma pkt_part_join p q : pkt_part (join_parts p q) = p.
Proof. by destruct p. Qed.
Lemma byte_part_join p q : byte_part (join_parts p q) = q.
Proof. by destruct q. Qed.
(** After the packet block the entry is the block's result. *)
Lemma store_pkt_entry (on : bool) k (b' : conn_limit) e w b :
  bpf_lookup k (get_map CONN_RL w) = Some b → (on = false → b = b') →
  ∃ w1, (if on then map_store CONN_RL k b' else mret tt : prog M unit) e w = (tt, w1) ∧
    bpf_lookup k (get_map CONN_RL w1) = Some b'.
Proof.
  intros Hlk Hoff. destruct on.
  - eexists; split; [done|]. rewrite get_set_eq, bpf_lookup_store_eq; eauto.
  - exists w. by rewrite <-Hoff.
Qed.

Lemma conn_ratelimit_take_spec k n e w :
  limits_ok (conf e) → clock_ok e → 0 ≤ n < 2 ^ 16 →
  conn_ok (conf e) (now_of e w) (bpf_lookup k (get_map CONN_RL w)) →
  let '(r, w') := conn_ratelimit_take k n e w in
  (r, bpf_lookup k (get_map CONN_RL w')) =
    conn_step (conf e) (now_of e w) n (bpf_lookup k (get_map CONN_RL w)).
Proof.
  intros (_ & Hp & Hb) [Hclk _] Hn Hok. specialize (Hclk (clock_reads w)).
  fold (now_of e w) in Hclk. unfold conn_ratelimit_take, conn_step, mbind, prog_bind.
  cbn [reads fst snd]. cbn beta iota.
  destruct (negb (pkt_on (conf e)) && negb (byte_on (conf e))); [done|].
  unfold bpf_ktime_get_boot_ns, bpf_map_lookup_elem, bpf_map_update_elem.
  cbn beta iota. fold (now_of e w). rewrite get_tick.
  destruct (bpf_lookup k (get_map CONN_RL w)) as [b|] eqn:Hlk; cbn beta iota.
  - destruct Hok as [Hokp Hokb]. rewrite (conn_pkt_words _ _ _ Hp Hclk Hokp).
    destruct (opt_take (pkt_on (conf e)) _ _ 1 _ _) as [p|] eqn:Ep; cbn [fmap option_fmap option_map].
    2: { unfold mret, prog_ret. rewrite get_tick. by rewrite Hlk. }
    destruct (store_pkt_entry (pkt_on (conf e)) k (join_parts p (byte_part b)) e (tick w) b)
      as (w1 & -> & Hlk1).
    { by rewrite get_tick. }
    { intros Hoff. rewrite Hoff in Ep. injection Ep as <-. apply join_split. }
    cbn beta iota. destruct (byte_on (conf e)) eqn:Hon; cbn [opt_take].
    + rewrite conn_byte_words by (done || lia || by apply Hokb).
      rewrite pkt_part_join, byte_part_join.
      destruct (tb_take _ _ n _ _) as [q|]; cbn [fmap option_fmap option_map];
        unfold mret, prog_ret, map_store; [|by rewrite Hlk1].
      rewrite get_set_eq, bpf_lookup_store_eq by eauto. done.
    + unfold mret, prog_ret. by rewrite Hlk1.
  - unfold mret, prog_ret. rewrite get_set_eq, bpf_lookup_update_eq. f_equal.
    destruct Hp as [_ HBp], Hb as [_ HBb].
    change (2 ^ 63) with 9223372036854775808 in *.
    unfold join_parts; simpl. do 2 f_equal.
    + destruct (Z.ltb_spec 0 (conn_pkt_burst (conf e))); [by rewrite u64_id by word_lia|done].
    + destruct (byte_on (conf e)); [|done].
      destruct (Z.ltb_spec n (conn_byte_burst (conf e))); [rewrite u64_id by word_lia|]; lia.
Qed.

(** The limiter of trusted traffic implements its two buckets: for every entry,
    packet size and setting, one call answers and updates the entry as the
    contract says; in particular a packet that only the byte bucket refuses has
    still spent a packet token. *)
Theorem conn_ratelimit_take_refines k n e w :
  limits_ok (conf e) → clock_ok e → 0 ≤ n < 2 ^ 16 →
  conn_ok (conf e) (now_of e w) (bpf_lookup k (get_map CONN_RL w)) →
  let '(r, w') := conn_ratelimit_take k n e w in
  (r, bpf_lookup k (get_map CONN_RL w')) =
    conn_step (conf e) (now_of e w) n (bpf_lookup k (get_map CONN_RL w)).
Proof. apply conn_ratelimit_take_spec. Qed.
End OtherLimiters.
