(* ===== verification/Health.v ===== *)
(** * Anomaly health and drop history

    [health_is_blacklisted], [health_record_anomaly] and [record_drop]: the
    per-source anomaly window with its blacklist, and the cumulative drop counters
    the operator commands read. *)
From S2P Require Import Prelude Kernel World Frame.

Section Health.
Context {M : Type → Type} `{!BpfMap M}.

Definition health_is_blacklisted (src_ip : ipkey) : prog M bool :=
  h ← bpf_map_lookup_elem HEALTH src_ip;
  match h with
  | None => mret false
  | Some h => now ← bpf_ktime_get_boot_ns; mret (now <? blacklist_until_ns h)
  end.

(** [reason_idx] is a slot number: the guard of the source rejects the rest. *)
Definition record_drop_idx (src_ip : ipkey) (reason_idx : nat) : prog M unit :=
  if (NUM_DROP_REASONS <=? reason_idx)%nat then mret tt else
  now ← bpf_ktime_get_boot_ns;
  h ← bpf_map_lookup_elem DROP_HISTORY src_ip;
  match h with
  | None =>
    bpf_map_update_elem DROP_HISTORY src_ip
      (IpDropHistory now now (<[reason_idx := 1]> (replicate NUM_DROP_REASONS 0)))
  | Some h =>
    map_store DROP_HISTORY src_ip
      (IpDropHistory (first_drop_ns h) now
        (alter (λ c, u64 (c + 1)) reason_idx (counts h)))
  end.
Definition record_drop (src_ip : ipkey) (r : drop_reason) : prog M unit :=
  record_drop_idx src_ip (drop_reason_idx r).

Definition health_record_anomaly (src_ip : ipkey) : prog M unit :=
  window ← cfg health_window_ns;
  threshold ← cfg health_threshold;
  blacklist ← cfg health_blacklist_ns;
  now ← bpf_ktime_get_boot_ns;
  h ← bpf_map_lookup_elem HEALTH src_ip;
  match h with
  | None => bpf_map_update_elem HEALTH src_ip (IpHealth 1 now 0)
  | Some h =>
    let h := if window <? u64 (now - window_start_ns h)
             then IpHealth 0 now (blacklist_until_ns h) else h in
    let n := u32 (anomalies h + 1) in
    map_store HEALTH src_ip
      (IpHealth n (window_start_ns h)
        (if threshold <=? n then u64 (now + blacklist) else blacklist_until_ns h))
  end.

Lemma health_is_blacklisted_only S src :
  Preserves (only_maps S) (health_is_blacklisted src).
Proof. unfold health_is_blacklisted. preserve. Qed.
End Health.

(** ** The arithmetic of the anomaly window *)

(** The record [health_record_anomaly] leaves at time [now], without the wrap-around; what
    a history of anomalies amounts to is in [Bans]. *)
Definition next_health (c : xdp_config) (now : Z) (o : option ip_health) : ip_health :=
  match o with
  | None => IpHealth 1 now 0
  | Some h =>
    let over := health_window_ns c <? now - window_start_ns h in
    let n := if over then 1 else anomalies h + 1 in
    IpHealth n (if over then now else window_start_ns h)
      (if health_threshold c <=? n then now + health_blacklist_ns c else blacklist_until_ns h)
  end.

Definition health_cfg_ok (c : xdp_config) : Prop :=
  0 ≤ health_window_ns c < 2 ^ 63 ∧ 1 ≤ health_threshold c < 2 ^ 32 ∧
  0 ≤ health_blacklist_ns c < 2 ^ 63.
Definition health_ok (now : Z) (o : option ip_health) : Prop :=
  match o with
  | None => True
  | Some h => 0 ≤ anomalies h < 2 ^ 32 - 1 ∧ 0 ≤ window_start_ns h ≤ now
  end.

Section HealthTheorems.
Context {M : Type → Type} `{!BpfMap M, !BpfMapLaws M}.
Implicit Types (w : world M) (e : kenv).

Definition health_entry (k : ipkey) (w : world M) : option ip_health :=
  bpf_lookup k (get_map HEALTH w).

Lemma health_is_blacklisted_run k e w :
  health_is_blacklisted k e w =
    match health_entry k w with
    | None => (false, w)
    | Some h => (boot_ns e (clock_reads w) <? blacklist_until_ns h, tick w)
    end.
Proof.
  unfold health_is_blacklisted, health_entry, mbind, prog_bind, bpf_map_lookup_elem.
  by destruct (bpf_lookup k (get_map HEALTH w)).
Qed.

Lemma health_record_anomaly_spec k e w :
  health_cfg_ok (conf e) → clock_ok e →
  health_ok (boot_ns e (clock_reads w)) (health_entry k w) →
  health_entry k (health_record_anomaly k e w).2 =
    Some (next_health (conf e) (boot_ns e (clock_reads w)) (health_entry k w)).
Proof.
  intros (Hw & Ht & Hb) [Hclk _] Hok. specialize (Hclk (clock_reads w)).
  unfold health_record_anomaly, health_entry, next_health, cfg, reads, mbind, prog_bind in *.
  unfold bpf_ktime_get_boot_ns, bpf_map_lookup_elem, bpf_map_update_elem, map_store.
  cbn beta iota. rewrite get_tick.
  set (now := boot_ns e (clock_reads w)) in *.
  destruct (bpf_lookup k (get_map HEALTH w)) as [h|] eqn:Hlk; cbn [snd].
  2: { by rewrite get_set_eq, bpf_lookup_update_eq. }
  rewrite get_set_eq, bpf_lookup_store_eq by (rewrite get_tick, Hlk; eauto).
  destruct Hok as [Ha Hs]. change (2 ^ 63) with 9223372036854775808 in *.
  rewrite u64_id by word_lia. cbv zeta.
  destruct (Z.ltb_spec (health_window_ns (conf e)) (now - window_start_ns h)); simpl.
  - change (u32 1) with 1. by rewrite u64_id by word_lia.
  - rewrite u32_id by (words; lia). by rewrite u64_id by word_lia.
Qed.

(** Every clock reading of a run of anomalies is one more. *)
Lemma health_record_anomaly_reads k e w :
  clock_reads (health_record_anomaly k e w).2 = S (clock_reads w).
Proof.
  unfold health_record_anomaly, cfg, reads, mbind, prog_bind, bpf_ktime_get_boot_ns,
    bpf_map_lookup_elem, bpf_map_update_elem, map_store. cbn beta iota.
  case_match; simpl; by autorewrite with world.
Qed.

Fixpoint anomaly_run (k : ipkey) (n : nat) : prog M unit :=
  match n with O => mret tt | S n => anomaly_run k n;; health_record_anomaly k end.

Lemma anomaly_run_S k n e w :
  (anomaly_run k (S n) e w).2 = (health_record_anomaly k e (anomaly_run k n e w).2).2.
Proof.
  cbn [anomaly_run]. unfold mbind, prog_bind. by destruct (anomaly_run k n e w) as [[] w'].
Qed.

(** Counting to the blacklist: [n] anomalies of a source not yet on record,
    all within one window of the first, leave a count of [n], the window's start,
    and a blacklist exactly from the threshold on, to the configured duration after
    the latest anomaly.  The very first anomaly never blacklists, whatever the
    threshold. *)
Theorem anomaly_run_counts k n e w :
  health_cfg_ok (conf e) → clock_ok e → health_entry k w = None →
  (1 ≤ n)%nat → Z.of_nat n < 2 ^ 32 →
  let time (i : nat) := boot_ns e (clock_reads w + i) in
  time (n - 1)%nat - time 0%nat ≤ health_window_ns (conf e) →
  health_entry k (anomaly_run k n e w).2 =
    Some (IpHealth (Z.of_nat n) (time 0%nat)
      (if (health_threshold (conf e) <=? Z.of_nat n) && (2 <=? Z.of_nat n)
       then time (n - 1)%nat + health_blacklist_ns (conf e) else 0)) ∧
  clock_reads (anomaly_run k n e w).2 = (clock_reads w + n)%nat.
Proof.
  intros Hc Hclk Hnone Hn. cbv zeta. destruct n as [|n]; [lia|]. clear Hn.
  induction n as [|n IH]; intros Hb Hwin; rewrite anomaly_run_S.
  - change (anomaly_run k 0 e w).2 with w. change (1 - 1)%nat with 0%nat.
    rewrite health_record_anomaly_spec, health_record_anomaly_reads, Hnone
      by (done || (rewrite Hnone; exact I)). rewrite Nat.add_0_r, andb_false_r. split; [done|lia].
  - pose proof (proj2 Hclk) as Hmono. pose proof (proj1 Hclk) as Hpos.
    replace (S (S n) - 1)%nat with (S n) in * by lia.
    replace (S n - 1)%nat with n in IH by lia.
    pose proof (Hmono (clock_reads w + n) (clock_reads w + S n) ltac:(lia))%nat.
    destruct IH as [Hent Hreads]; [lia|lia|].
    set (w1 := (anomaly_run k (S n) e w).2) in *.
    rewrite health_record_anomaly_spec, health_record_anomaly_reads, Hreads, Hent; try done.
    2: { rewrite Hent, Hreads. simpl. split; [lia|]. split; [apply Hpos|apply Hmono; lia]. }
    split; [|lia]. f_equal. unfold next_health. cbn [window_start_ns anomalies blacklist_until_ns].
    rewrite (proj2 (Z.ltb_ge _ _)) by lia.
    replace (Z.of_nat (S n) + 1) with (Z.of_nat (S (S n))) by lia.
    rewrite (proj2 (Z.leb_le 2 (Z.of_nat (S (S n))))), andb_true_r by lia.
    f_equal. destruct (health_threshold (conf e) <=? Z.of_nat (S (S n))) eqn:?; [done|].
    rewrite (proj2 (Z.leb_gt _ (Z.of_nat (S n)))); [done|]. bool_hyps. lia.
Qed.
End HealthTheorems.

(** ** Drop history *)
Section DropHistory.
Context {M : Type → Type} `{!BpfMap M, !BpfMapLaws M}.
Implicit Types (w : world M) (e : kenv).

Definition history (k : ipkey) (w : world M) : option ip_drop_history :=
  bpf_lookup k (get_map DROP_HISTORY w).
Definition history_ok (o : option ip_drop_history) : Prop :=
  match o with
  | None => True
  | Some h => length (counts h) = NUM_DROP_REASONS ∧ Forall is_u64 (counts h)
  end.
(** How often a source was dropped for a reason, 0 when it has no record. *)
Definition drops_of (k : ipkey) (r : drop_reason) (w : world M) : Z :=
  match history k w with
  | None => 0
  | Some h => default 0 (counts h !! drop_reason_idx r)
  end.

Lemma drop_reason_idx_lt r : (drop_reason_idx r < NUM_DROP_REASONS)%nat.
Proof. destruct r; vm_compute; lia. Qed.
Lemma drop_reason_idx_inj r r' : drop_reason_idx r = drop_reason_idx r' → r = r'.
Proof. by destruct r, r'. Qed.

Lemma record_drop_run k r e w :
  history k (record_drop k r e w).2 = Some
    (let now := boot_ns e (clock_reads w) in
     match history k w with
     | None => IpDropHistory now now
                 (<[drop_reason_idx r := 1]> (replicate NUM_DROP_REASONS 0))
     | Some h => IpDropHistory (first_drop_ns h) now
                   (alter (λ c, u64 (c + 1)) (drop_reason_idx r) (counts h))
     end).
Proof.
  unfold record_drop, record_drop_idx, history. pose proof (drop_reason_idx_lt r).
  rewrite (proj2 (Nat.leb_gt _ _)) by done.
  unfold mbind, prog_bind, bpf_ktime_get_boot_ns, bpf_map_lookup_elem,
    bpf_map_update_elem, map_store. cbn beta iota. rewrite get_tick.
  destruct (bpf_lookup k (get_map DROP_HISTORY w)) as [h|] eqn:Hlk; cbn [snd]; rewrite get_set_eq.
  - rewrite bpf_lookup_store_eq; [done|]. rewrite get_tick, Hlk; eauto.
  - by rewrite bpf_lookup_update_eq.
Qed.
Lemma record_drop_spec k r r' e w :
  history_ok (history k w) →
  history_ok (history k (record_drop k r e w).2) ∧
  drops_of k r' (record_drop k r e w).2 =
    (if decide (r' = r) then u64 (drops_of k r w + 1) else drops_of k r' w) ∧
  (last_drop_ns <$> history k (record_drop k r e w).2) = Some (boot_ns e (clock_reads w)) ∧
  (first_drop_ns <$> history k (record_drop k r e w).2) =
    Some (default (boot_ns e (clock_reads w)) (first_drop_ns <$> history k w)).
Proof.
  intros Hok. unfold drops_of. rewrite record_drop_run. cbv zeta.
  destruct (history k w) as [h|]; simpl.
  - destruct Hok as [Hl Hc]. split_and!; [by rewrite length_alter| | |done|done].
    + apply Forall_alter; [done|]. intros x _ _. apply u64_range.
    + rewrite list_lookup_alter. case_decide as Hd; case_decide; subst; try done.
      * destruct (lookup_lt_is_Some_2 (counts h) (drop_reason_idx r)) as [c ->]; [|done].
        rewrite Hl. apply drop_reason_idx_lt.
      * by apply drop_reason_idx_inj in Hd.
  - split_and!; [by rewrite length_insert| | |done|done].
    + apply Forall_insert; [repeat constructor; words; lia|words; lia].
    + by destruct r, r'.
Qed.

(** Recording a drop counts it once: the counter of its reason goes up by one
    (modulo 2^64), every other counter of the source is as it was, the time of the
    first drop stays and that of the last is now, and the record stays well
    formed. *)
Theorem record_drop_counts k r r' e w :
  history_ok (history k w) →
  history_ok (history k (record_drop k r e w).2) ∧
  drops_of k r' (record_drop k r e w).2 =
    (if decide (r' = r) then u64 (drops_of k r w + 1) else drops_of k r' w) ∧
  (last_drop_ns <$> history k (record_drop k r e w).2) = Some (boot_ns e (clock_reads w)) ∧
  (first_drop_ns <$> history k (record_drop k r e w).2) =
    Some (default (boot_ns e (clock_reads w)) (first_drop_ns <$> history k w)).
Proof. apply record_drop_spec. Qed.
End DropHistory.
