(* ===== verification/Xdp.v ===== *)
(** * The XDP program

    [minecraft_xdp] in the order of the source: header checks, TCP flags, blacklist,
    trusted traffic, the SYN gate, and the first data segment of a connection.  A
    part that may return early answers [Some verdict]; [None] falls through. *)
From S2P Require Import Prelude Kernel World Frame Packet Handshake TokenBucket Limits Health.

Inductive xdp_action := XDP_DROP | XDP_PASS.
#[export] Instance xdp_action_eq_dec : EqDecision xdp_action.
Proof. solve_decision. Defined.

Section Xdp.
Context {M : Type → Type} `{!BpfMap M}.

(** The two statements before the return of a recorded drop. *)
Definition count_drop (src : ipkey) (r : drop_reason) (s : minecraft_stat) : prog M unit :=
  record_drop src r;; stat_bump s.

(** [open && *open >= tcp_max_open_per_ip] *)
Definition over_open_cap (src : ipkey) : prog M bool :=
  max ← cfg tcp_max_open_per_ip;
  open ← bpf_map_lookup_elem OPEN_COUNT src;
  mret (match open with Some o => max <=? o | None => false end).

(** The whitelist block. *)
Definition xdp_trusted (p : parsed) : prog M (option xdp_action) :=
  wl ← bpf_map_lookup_elem WHITELIST (src p);
  match wl with
  | None => mret None
  | Some t =>
    now ← bpf_ktime_get_boot_ns;
    ttl ← cfg whitelist_ttl_ns;
    if (0 <? ttl) && (ttl <? u64 (now - t)) then
      bpf_map_delete_elem WHITELIST (src p);; mret None
    else
      ok ← conn_ratelimit_take (src p) (ip_tot p);
      if negb ok then
        health_record_anomaly (src p);;
        bl ← health_is_blacklisted (src p);
        (if (bl : bool) then bpf_map_delete_elem WHITELIST (src p) else mret tt);;
        count_drop (src p) DROP_REASON_CONN_RATELIMIT STAT_DROP_CONN_RATELIMIT;; mret (Some XDP_DROP)
      else
        max ← cfg tcp_max_open_per_ip;
        over ← (if syn (flags p) && (0 <? max) then over_open_cap (src p) else mret false);
        if (over : bool) then
          count_drop (src p) DROP_REASON_TCP_TOO_MANY_OPEN STAT_DROP_TCP_TOO_MANY_OPEN;; mret (Some XDP_DROP)
        else
          map_store WHITELIST (src p) now;;
          stat_bump STAT_PASS_TCP;;
          mret (Some XDP_PASS)
  end.

(** [if (!tcp->syn) ... else ...] *)
Definition xdp_gate (p : parsed) : prog M (option xdp_action) :=
  if negb (syn (flags p)) then
    seen ← bpf_map_lookup_elem SYN_SEEN (src p);
    est ← bpf_map_lookup_elem ESTABLISHED (src p);
    match seen, est with
    | None, None => count_drop (src p) DROP_REASON_TCP_NO_SYN STAT_DROP_TCP_NO_SYN;; mret (Some XDP_DROP)
    | _, _ => mret None
    end
  else
    max ← cfg tcp_max_open_per_ip;
    over ← (if 0 <? max then over_open_cap (src p) else mret false);
    if (over : bool) then
      count_drop (src p) DROP_REASON_TCP_TOO_MANY_OPEN STAT_DROP_TCP_TOO_MANY_OPEN;; mret (Some XDP_DROP)
    else
      period ← cfg conn_new_period_ns;
      burst ← cfg conn_new_burst;
      ok ← (if (0 <? period) && (0 <? burst)
            then ratelimit_take SYN_RL (src p) period burst else mret true);
      if negb ok then
        count_drop (src p) DROP_REASON_TCP_CONN_RATE STAT_DROP_TCP_CONN_RATE;; mret (Some XDP_DROP)
      else
        ok ← tcp_global_ratelimit_take;
        if negb ok then
          count_drop (src p) DROP_REASON_TCP_GLOBAL_RATELIMIT STAT_DROP_TCP_GLOBAL_RATELIMIT;; mret (Some XDP_DROP)
        else
          now ← bpf_ktime_get_boot_ns;
          bpf_map_update_elem SYN_SEEN (src p) now;;
          mret None.

(** [first_segment], with the mark it leaves in tcp_first_data. *)
Definition xdp_first_segment (src : ipkey) (est : option Z) : prog M bool :=
  match est with
  | None => mret true
  | Some _ =>
    fd ← bpf_map_lookup_elem FIRST_DATA src;
    match fd with
    | Some _ =>
      open ← bpf_map_lookup_elem OPEN_COUNT src;
      mret (match open with Some o => 1 <? o | None => false end)
    | None =>
      seen ← bpf_ktime_get_boot_ns;
      bpf_map_update_elem FIRST_DATA src seen;;
      mret true
    end
  end.

(** The verdict on a classified segment. *)
Definition xdp_handshake (p : parsed) (est : option Z) (hs : hs_class) : prog M xdp_action :=
  match hs with
  | HS_NONE =>
    match est with
    | Some _ =>
      ok ← conn_ratelimit_take (src p) (ip_tot p);
      if negb ok then
        health_record_anomaly (src p);;
        count_drop (src p) DROP_REASON_CONN_RATELIMIT STAT_DROP_CONN_RATELIMIT;; mret XDP_DROP
      else mret XDP_PASS
    | None => mret XDP_PASS
    end
  | HS_MALFORMED => stat_bump STAT_DROP_MALFORMED_HANDSHAKE;; mret XDP_DROP
  | HS_STATUS =>
    stat_bump STAT_TCP_HANDSHAKE_STATUS_SEEN;;
    match est with
    | None => stat_bump STAT_TCP_L7_MATCH_NO_EST;; mret XDP_PASS
    | Some _ =>
      period ← cfg status_period_ns;
      burst ← cfg status_burst;
      ok ← ratelimit_take STATUS_RL (src p) period burst;
      if negb ok then
        count_drop (src p) DROP_REASON_STATUS_RATELIMIT STAT_DROP_STATUS_RATELIMIT;; mret XDP_DROP
      else mret XDP_PASS
    end
  | HS_LOGIN =>
    stat_bump STAT_TCP_HANDSHAKE_LOGIN_SEEN;;
    match est with
    | None => stat_bump STAT_TCP_L7_MATCH_NO_EST;; mret XDP_PASS
    | Some _ =>
      period ← cfg login_period_ns;
      burst ← cfg login_burst;
      ok ← ratelimit_take LOGIN_RL (src p) period burst;
      if negb ok then
        count_drop (src p) DROP_REASON_LOGIN_RATELIMIT STAT_DROP_LOGIN_RATELIMIT;; mret XDP_DROP
      else
        now ← bpf_ktime_get_boot_ns;
        bpf_map_update_elem WHITELIST (src p) now;;
        stat_bump STAT_TCP_L7_PROMOTED;;
        mret XDP_PASS
    end
  end.

(** From the TCP header length to the end. *)
Definition xdp_payload (ctx : xdp_md) (p : parsed) : prog M xdp_action :=
  let tcp_hlen := doff p * 4 in
  if tcp_hlen <? sizeof_tcphdr then mret XDP_PASS else
  if Z.of_nat (length (data ctx)) <? l4 p + tcp_hlen then mret XDP_PASS else
  stat_bump STAT_PASS_TCP;;
  let hdrs := ihl p + tcp_hlen in
  if ip_tot p <=? hdrs then mret XDP_PASS else
  let payload_off := 14 + hdrs in
  let payload_len := ip_tot p - hdrs in
  est ← bpf_map_lookup_elem ESTABLISHED (src p);
  first_segment ← xdp_first_segment (src p) est;
  let hs := if (first_segment : bool)
            then classify_handshake ctx payload_off payload_len else HS_NONE in
  let hs := match hs, est with HS_MALFORMED, Some _ => HS_NONE | _, _ => hs end in
  xdp_handshake p est hs.

(** From the flag check on: what happens to a TCP segment for the server. *)
Definition xdp_filter (ctx : xdp_md) (p : parsed) : prog M xdp_action :=
  if tcp_flags_bogus (flags p) then
    count_drop (src p) DROP_REASON_TCP_BAD_FLAGS STAT_DROP_TCP_BAD_FLAGS;; mret XDP_DROP
  else
    unhealthy ← health_is_blacklisted (src p);
    if (unhealthy : bool) then
      count_drop (src p) DROP_REASON_UNHEALTHY STAT_DROP_TCP_UNHEALTHY;; mret XDP_DROP
    else
      v ← xdp_trusted p;
      match v with
      | Some v => mret v
      | None =>
        v ← xdp_gate p;
        match v with
        | Some v => mret v
        | None => xdp_payload ctx p
        end
      end.

Definition minecraft_xdp (ctx : xdp_md) : prog M xdp_action :=
  port ← cfg target_port;
  match xdp_parse port (data ctx) with
  | None => mret XDP_PASS
  | Some p => xdp_filter ctx p
  end.

Lemma minecraft_xdp_run ctx e w :
  minecraft_xdp ctx e w = match xdp_parse (target_port (conf e)) (data ctx) with
                          | None => (XDP_PASS, w)
                          | Some p => xdp_filter ctx p e w
                          end.
Proof. unfold minecraft_xdp, cfg, reads, mbind, prog_bind. by case_match. Qed.
End Xdp.
