(* ===== verification/Locality.v ===== *)
(** * Locality: a source is judged by its own record

    [agree k e w1 w2]: two states of the maps, kept by possibly different map
    implementations, hold the same entries for the source [k], the same bucket of the
    circuit breaker on this CPU, and have read the clock equally often.  [Local k m1 m2]:
    a program run on both answers the same and leaves states that agree again. *)
From S2P Require Import Prelude Kernel World Frame Packet Handshake TokenBucket Limits Health Xdp.

Section Locality.
Context {M N : Type → Type} `{!BpfMap M, !BpfMapLaws M, !BpfMap N, !BpfMapLaws N}.

Definition same_entries (k : ipkey) (w1 : world M) (w2 : world N) : Prop :=
  ∀ V (i : mapid V), bpf_lookup k (get_map i w1) = bpf_lookup k (get_map i w2).
Definition agree (k : ipkey) (e : kenv) (w1 : world M) (w2 : world N) : Prop :=
  same_entries k w1 w2 ∧
  tcp_global_ratelimit w1 !! cpu e = tcp_global_ratelimit w2 !! cpu e ∧
  clock_reads w1 = clock_reads w2.

Definition Local (k : ipkey) {A} (m1 : prog M A) (m2 : prog N A) : Prop :=
  ∀ e w1 w2, agree k e w1 w2 →
    (m1 e w1).1 = (m2 e w2).1 ∧ agree k e (m1 e w1).2 (m2 e w2).2.

Context (k : ipkey).

Lemma local_ret {A} (a : A) : Local k (mret a) (mret a).
Proof. by intros e w1 w2 H. Qed.
Lemma local_reads {A} (f : kenv → A) : Local k (reads f) (reads f).
Proof. by intros e w1 w2 H. Qed.
Lemma local_bind {A B} (m1 : prog M A) (m2 : prog N A) (f1 : A → prog M B) (f2 : A → prog N B) :
  Local k m1 m2 → (∀ a, Local k (f1 a) (f2 a)) → Local k (m1 ≫= f1) (m2 ≫= f2).
Proof.
  intros Hm Hf e w1 w2 Ha. unfold mbind, prog_bind. specialize (Hm e w1 w2 Ha).
  destruct (m1 e w1) as [a w1'], (m2 e w2) as [a' w2']. destruct Hm as [Heq Ha'].
  cbn [fst snd] in *. subst a'. by apply Hf.
Qed.

(** An operation on one map that leaves the same entry of [k] on both sides. *)
Lemma agree_set e {V} (i : mapid V) m1 m2 w1 w2 :
  bpf_lookup k m1 = bpf_lookup k m2 → agree k e w1 w2 →
  agree k e (set_map i m1 w1) (set_map i m2 w2).
Proof.
  intros Hm (He & Hg & Hc). split_and!; [|by rewrite !global_set_map|by rewrite !clock_set_map].
  intros W j. specialize (He W j). destruct w1, w2, i, j; simpl in *; done.
Qed.
Lemma local_lookup {V} (i : mapid V) :
  Local k (bpf_map_lookup_elem i k) (bpf_map_lookup_elem i k).
Proof. intros e w1 w2 Ha. split; [apply Ha|done]. Qed.
Lemma local_update {V} (i : mapid V) v :
  Local k (bpf_map_update_elem i k v) (bpf_map_update_elem i k v).
Proof.
  intros e w1 w2 Ha. split; [done|]. apply agree_set; [|done]. by rewrite !bpf_lookup_update_eq.
Qed.
Lemma local_delete {V} (i : mapid V) :
  Local k (bpf_map_delete_elem i k) (bpf_map_delete_elem i k).
Proof.
  intros e w1 w2 Ha. split; [done|]. apply agree_set; [|done]. by rewrite !bpf_lookup_delete_eq.
Qed.
Lemma local_store {V} (i : mapid V) v : Local k (map_store i k v) (map_store i k v).
Proof.
  intros e w1 w2 Ha. split; [done|]. apply agree_set; [|done].
  pose proof (proj1 Ha V i) as Hi. destruct (bpf_lookup k (get_map i w1)) as [u|] eqn:Hu.
  - by rewrite !bpf_lookup_store_eq by eauto.
  - by rewrite !bpf_lookup_store_none by done.
Qed.
Lemma local_ktime : Local k bpf_ktime_get_boot_ns bpf_ktime_get_boot_ns.
Proof.
  intros e w1 w2 (He & Hg & Hc). split; [by simpl; rewrite Hc|].
  split_and!; simpl; [|by rewrite !global_tick|by rewrite !clock_tick, Hc].
  intros V i. by rewrite !get_tick.
Qed.
Lemma local_global_lookup : Local k global_lookup global_lookup.
Proof. intros e w1 w2 Ha. split; [apply Ha|done]. Qed.
Lemma local_global_store b : Local k (global_store b) (global_store b).
Proof.
  intros e w1 w2 (He & Hg & Hc). split; [done|].
  split_and!; simpl; [|rewrite !global_set_global|by rewrite !clock_set_global].
  - intros V i. by rewrite !get_set_global.
  - destruct (tcp_global_ratelimit w1 !! cpu e) eqn:H1; symmetry in Hg.
    + by rewrite !list_lookup_insert_eq by (by eapply lookup_lt_Some).
    + rewrite !list_insert_ge by (apply lookup_ge_None_1; assumption). congruence.
Qed.
Lemma local_stat s : Local k (stat_bump s) (stat_bump s).
Proof.
  intros e w1 w2 (He & Hg & Hc). split; [done|]. split_and!.
  - intros V i. by rewrite (only_maps_stat_bump [] s e w1), (only_maps_stat_bump [] s e w2)
      by apply not_elem_of_nil.
  - unfold stat_bump. repeat case_match; simpl; by autorewrite with world.
  - unfold stat_bump. repeat case_match; simpl; by autorewrite with world.
Qed.
End Locality.

Create HintDb local.
#[export] Hint Resolve local_ret local_reads local_lookup local_update local_delete local_store
  local_ktime local_global_lookup local_global_store local_stat : local.

(** Walks two runs of the same program side by side. *)
Ltac locally :=
  repeat match goal with
  | |- Local _ _ _ => solve [auto with local]
  | |- Local _ (_ ≫= _) (_ ≫= _) => apply local_bind; [|intros ?]
  | |- Local _ (if ?b then _ else _) (if ?b then _ else _) => destruct b
  | |- Local _ (match ?x with _ => _ end) (match ?x with _ => _ end) => destruct x
  | |- Local _ ((match ?x with _ => _ end) _) ((match ?x with _ => _ end) _) => destruct x
  end.

Section Parts.
Context {M N : Type → Type} `{!BpfMap M, !BpfMapLaws M, !BpfMap N, !BpfMapLaws N} (k : ipkey).
Notation Loc m1 m2 := (Local (M := M) (N := N) k m1 m2).

Lemma local_record_drop r : Loc (record_drop k r) (record_drop k r).
Proof. unfold record_drop, record_drop_idx. locally. Qed.
Lemma local_anomaly : Loc (health_record_anomaly k) (health_record_anomaly k).
Proof. unfold health_record_anomaly, cfg. locally. Qed.
Lemma local_blacklisted : Loc (health_is_blacklisted k) (health_is_blacklisted k).
Proof. unfold health_is_blacklisted. locally. Qed.
Lemma local_ratelimit map P B : Loc (ratelimit_take map k P B) (ratelimit_take map k P B).
Proof. unfold ratelimit_take. cbv zeta. locally. Qed.
Lemma local_global_take : Loc tcp_global_ratelimit_take tcp_global_ratelimit_take.
Proof. unfold tcp_global_ratelimit_take, cfg. cbv zeta. locally. Qed.
Lemma local_conn_take n : Loc (conn_ratelimit_take k n) (conn_ratelimit_take k n).
Proof. unfold conn_ratelimit_take. cbv zeta. locally. Qed.
Lemma local_cap : Loc (over_open_cap k) (over_open_cap k).
Proof. unfold over_open_cap, cfg. locally. Qed.
Lemma local_count_drop r s : Loc (count_drop k r s) (count_drop k r s).
Proof. unfold count_drop. locally. apply local_record_drop. Qed.
Lemma local_first est : Loc (xdp_first_segment k est) (xdp_first_segment k est).
Proof. unfold xdp_first_segment. locally. Qed.
End Parts.
#[export] Hint Resolve local_record_drop local_anomaly local_blacklisted local_ratelimit
  local_global_take local_conn_take local_cap local_count_drop local_first : local.

Section Programs.
Context {M N : Type → Type} `{!BpfMap M, !BpfMapLaws M, !BpfMap N, !BpfMapLaws N}.
Notation Loc p m1 m2 := (Local (M := M) (N := N) (src p) m1 m2).

Lemma local_trusted p : Loc p (xdp_trusted p) (xdp_trusted p).
Proof. unfold xdp_trusted, cfg. locally. Qed.
Lemma local_gate p : Loc p (xdp_gate p) (xdp_gate p).
Proof. unfold xdp_gate, cfg. locally. Qed.
Lemma local_handshake p est hs : Loc p (xdp_handshake p est hs) (xdp_handshake p est hs).
Proof. unfold xdp_handshake, cfg. locally. Qed.
Lemma local_filter ctx p : Loc p (xdp_filter ctx p) (xdp_filter ctx p).
Proof.
  unfold xdp_filter, xdp_payload. cbv zeta.
  locally; first [apply local_trusted|apply local_gate|apply local_handshake].
Qed.

(** C9. Non-interference: what happens to a segment depends on its own source alone.  In
    any two states that hold the same entries for the source (whatever they hold for
    all others, and however their maps evict), and whose clock and circuit breaker
    agree, the verdict is the same and the source's entries are the same again
    afterwards. *)
Theorem minecraft_xdp_local ctx p e (w1 : world M) (w2 : world N) :
  xdp_parse (target_port (conf e)) (data ctx) = Some p → agree (src p) e w1 w2 →
  (minecraft_xdp ctx e w1).1 = (minecraft_xdp ctx e w2).1 ∧
  agree (src p) e (minecraft_xdp ctx e w1).2 (minecraft_xdp ctx e w2).2.
Proof. intros Hp Ha. rewrite !minecraft_xdp_run, Hp. by apply local_filter. Qed.
End Programs.
