(* ===== verification/XdpAccounting.v ===== *)
(** * Every verdict is accounted for

    The counters and the drop history against the verdict: a passed packet moves no
    drop counter, a dropped packet moves exactly one, by one, and records its
    reason against the source.  [Accounts] is a small logic of the early returns of
    [minecraft_xdp]; [quiet] is what happens between them. *)
From S2P Require Import Prelude Kernel World Frame Packet Handshake TokenBucket Limits Health Xdp.

Definition is_drop_stat (s : minecraft_stat) : bool :=
  bool_decide (s ∈ [STAT_DROP_TCP_NO_SYN; STAT_DROP_TCP_TOO_MANY_OPEN;
    STAT_DROP_TCP_GLOBAL_RATELIMIT; STAT_DROP_STATUS_RATELIMIT;
    STAT_DROP_LOGIN_RATELIMIT; STAT_DROP_MALFORMED_HANDSHAKE; STAT_DROP_TCP_UNHEALTHY;
    STAT_DROP_TCP_BAD_FLAGS; STAT_DROP_CONN_RATELIMIT; STAT_DROP_TCP_CONN_RATE]).

(** The reason the program records with each drop counter. *)
Definition stat_of_reason (r : drop_reason) : minecraft_stat :=
  match r with
  | DROP_REASON_TCP_NO_SYN => STAT_DROP_TCP_NO_SYN
  | DROP_REASON_TCP_TOO_MANY_OPEN => STAT_DROP_TCP_TOO_MANY_OPEN
  | DROP_REASON_TCP_GLOBAL_RATELIMIT => STAT_DROP_TCP_GLOBAL_RATELIMIT
  | DROP_REASON_STATUS_RATELIMIT => STAT_DROP_STATUS_RATELIMIT
  | DROP_REASON_LOGIN_RATELIMIT => STAT_DROP_LOGIN_RATELIMIT
  | DROP_REASON_MALFORMED_HANDSHAKE => STAT_DROP_MALFORMED_HANDSHAKE
  | DROP_REASON_UNHEALTHY => STAT_DROP_TCP_UNHEALTHY
  | DROP_REASON_TCP_BAD_FLAGS => STAT_DROP_TCP_BAD_FLAGS
  | DROP_REASON_CONN_RATELIMIT => STAT_DROP_CONN_RATELIMIT
  | DROP_REASON_TCP_CONN_RATE => STAT_DROP_TCP_CONN_RATE
  end.

Lemma stat_slot_inj s s' : stat_slot s = stat_slot s' → s = s'.
Proof. by destruct s, s'. Qed.
Lemma stat_slot_lt s : (stat_slot s < STAT_MAX)%nat.
Proof. destruct s; vm_compute; lia. Qed.

Section Accounting.
Context {M : Type → Type} `{!BpfMap M, !BpfMapLaws M}.
Implicit Types (w : world M) (e : kenv).

(** A counter as the CPU of this run sees it. *)
Definition stat_of (e : kenv) (s : minecraft_stat) (w : world M) : Z :=
  default 0 (stats w !! cpu e ≫= (.!! stat_slot s)).
Definition stats_ok (e : kenv) (w : world M) : Prop :=
  ∃ row, stats w !! cpu e = Some row ∧ length row = STAT_MAX.

Lemma stat_bump_of e s w : stats_ok e w →
  stats_ok e (stat_bump s e w).2 ∧
  ∀ s', stat_of e s' (stat_bump s e w).2 =
    if decide (s' = s) then u64 (stat_of e s w + 1) else stat_of e s' w.
Proof.
  intros (row & Hrow & Hlen). unfold stats_ok, stat_of, stat_bump. simpl. rewrite Hrow.
  destruct (lookup_lt_is_Some_2 row (stat_slot s)) as [c Hc].
  { rewrite Hlen. apply stat_slot_lt. }
  rewrite Hc. autorewrite with world. simpl.
  rewrite list_lookup_insert_eq by (by eapply lookup_lt_Some). simpl. split.
  - eexists. split; [done|]. by rewrite length_insert.
  - intros s'. rewrite Hc. case_decide; subst.
    + by rewrite list_lookup_insert_eq by (by eapply lookup_lt_Some).
    + rewrite list_lookup_insert_ne; [done|]. by intros ?%stat_slot_inj.
Qed.

Context (k : ipkey).

Definition acct_ok (e : kenv) (w : world M) : Prop :=
  stats_ok e w ∧ history_ok (history k w).
Definition drops_same (e : kenv) (w w' : world M) : Prop :=
  ∀ s, is_drop_stat s = true → stat_of e s w' = stat_of e s w.
Definition drops_bumped (e : kenv) (s0 : minecraft_stat) (w w' : world M) : Prop :=
  ∀ s, is_drop_stat s = true → stat_of e s w' =
    if decide (s = s0) then u64 (stat_of e s w + 1) else stat_of e s w.

(** Neither a drop counter nor the history of the source moves. *)
Definition quiet (e : kenv) (w w' : world M) : Prop :=
  acct_ok e w → acct_ok e w' ∧ drops_same e w w' ∧ history k w' = history k w.

#[export] Instance quiet_preorder e : PreOrder (quiet e).
Proof.
  split; [by intros w H|]. intros x y z H1 H2 Hx.
  destruct (H1 Hx) as (Hy & Hs1 & Hh1), (H2 Hy) as (Hz & Hs2 & Hh2).
  split_and!; [done| |congruence]. intros s Hs. by rewrite Hs2, Hs1.
Qed.

Lemma quiet_same e w w' : stats w' = stats w →
  get_map DROP_HISTORY w' = get_map DROP_HISTORY w → quiet e w w'.
Proof.
  intros Hs Hh Hok. unfold acct_ok, stats_ok, drops_same, stat_of, history in *.
  by rewrite Hs, Hh.
Qed.
Lemma quiet_set e {V} (i : mapid V) m w : tag_of i ≠ THist → quiet e w (set_map i m w).
Proof. intros Hi. apply quiet_same; [apply stats_set_map|by apply get_set_ne]. Qed.
Lemma quiet_update {V} (i : mapid V) k' v : tag_of i ≠ THist →
  Preserves quiet (bpf_map_update_elem i k' v).
Proof. intros H e w. by apply quiet_set. Qed.
Lemma quiet_delete {V} (i : mapid V) k' : tag_of i ≠ THist →
  Preserves quiet (bpf_map_delete_elem i k').
Proof. intros H e w. by apply quiet_set. Qed.
Lemma quiet_store {V} (i : mapid V) k' v : tag_of i ≠ THist →
  Preserves quiet (map_store i k' v).
Proof. intros H e w. by apply quiet_set. Qed.
Lemma quiet_ktime : Preserves quiet bpf_ktime_get_boot_ns.
Proof. intros e w. apply quiet_same; [apply stats_tick|apply get_tick]. Qed.
Lemma quiet_global_store b : Preserves quiet (global_store b).
Proof. intros e w. apply quiet_same; [apply stats_set_global|apply get_set_global]. Qed.
Lemma history_stat_bump s e w : history k (stat_bump s e w).2 = history k w.
Proof.
  unfold history. by rewrite (only_maps_stat_bump [] s e w _ DROP_HISTORY) by set_solver.
Qed.
Lemma quiet_stat_bump s : is_drop_stat s = false → Preserves quiet (stat_bump s).
Proof.
  intros Hs e w [Hst Hh]. destruct (stat_bump_of e s w Hst) as [Hst' Hof].
  pose proof (history_stat_bump s e w) as Hh'.
  split_and!; [split; [done|by rewrite Hh']| |done].
  intros s' Hs'. rewrite Hof. case_decide; congruence.
Qed.

(** What a verdict means for the accounts. *)
Definition acct (e : kenv) (v : option xdp_action) (w w' : world M) : Prop :=
  match v with
  | Some XDP_DROP =>
    ∃ s, is_drop_stat s = true ∧ drops_bumped e s w w' ∧
      ((s = STAT_DROP_MALFORMED_HANDSHAKE ∧ history k w' = history k w) ∨
       ∃ r, stat_of_reason r = s ∧ ∀ r', drops_of k r' w' =
         if decide (r' = r) then u64 (drops_of k r w + 1) else drops_of k r' w)
  | _ => drops_same e w w' ∧ history k w' = history k w
  end.

Definition Accounts {A} (f : A → option xdp_action) (m : prog M A) : Prop :=
  ∀ e w, acct_ok e w → let '(a, w') := m e w in acct_ok e w' ∧ acct e (f a) w w'.

Section Rules.
Context {A : Type} (f : A → option xdp_action).

Lemma acct_quiet e v w w1 w2 : acct_ok e w → quiet e w w1 → acct e v w1 w2 → acct e v w w2.
Proof.
  intros Hok Hq. destruct (Hq Hok) as (_ & Hs & Hh). unfold drops_same in *.
  assert (Hd : ∀ r, drops_of k r w1 = drops_of k r w) by (intros; unfold drops_of; by rewrite Hh).
  destruct v as [[|]|]; simpl.
  - intros (s & Hds & Hb & H). exists s. split_and!; [done| |].
    + intros s' Hs'. rewrite (Hb s' Hs'). by rewrite Hs.
    + destruct H as [[-> H]|(r & <- & H)]; [left; by rewrite H, Hh|right].
      exists r. split; [done|]. intros r'. rewrite H. by rewrite !Hd.
  - intros [Hs2 Hh2]. split; [|congruence]. intros s Hd'. by rewrite Hs2, Hs.
  - intros [Hs2 Hh2]. split; [|congruence]. intros s Hd'. by rewrite Hs2, Hs.
Qed.

Lemma accounts_bind {B} (m : prog M B) (g : B → prog M A) :
  Preserves quiet m → (∀ b, Accounts f (g b)) → Accounts f (m ≫= g).
Proof.
  intros Hm Hg e w Hok. unfold mbind, prog_bind. specialize (Hm e w).
  destruct (m e w) as [b w1]. simpl in Hm. destruct (Hm Hok) as (Hok1 & _).
  specialize (Hg b e w1 Hok1). destruct (g b e w1) as [a w2]. destruct Hg as [Hok2 Ha].
  split; [done|]. by eapply acct_quiet.
Qed.
Lemma accounts_ret a : f a ≠ Some XDP_DROP → Accounts f (mret a).
Proof.
  intros Ha e w Hok. unfold mret, prog_ret. split; [done|].
  destruct (f a) as [[|]|]; try done; by split.
Qed.
Lemma accounts_malformed a : f a = Some XDP_DROP →
  Accounts f (stat_bump STAT_DROP_MALFORMED_HANDSHAKE;; mret a).
Proof.
  intros Ha e w [Hst Hh]. unfold mbind, prog_bind, mret, prog_ret.
  destruct (stat_bump_of e STAT_DROP_MALFORMED_HANDSHAKE w Hst) as [Hst' Hof].
  pose proof (history_stat_bump STAT_DROP_MALFORMED_HANDSHAKE e w) as Hh'.
  destruct (stat_bump _ e w) as [[] w']. simpl in *. rewrite Ha.
  split; [split; [done|by rewrite Hh']|]. eexists. split_and!; [| |by left].
  - done.
  - intros s _. rewrite Hof. case_decide; by subst.
Qed.
(** An early return of the first part is a return of the whole. *)
Lemma accounts_early (m : prog M (option xdp_action)) (c : xdp_action → A) (g : prog M A) :
  Accounts id m → (∀ v, f (c v) = Some v) → Accounts f g →
  Accounts f (v ← m; match v with Some v => mret (c v) | None => g end).
Proof.
  intros Hm Hc Hg e w Hok. unfold mbind, prog_bind. specialize (Hm e w Hok).
  destruct (m e w) as [[v|] w1]; destruct Hm as [Hok1 Ha].
  - unfold mret, prog_ret. split; [done|]. by rewrite Hc.
  - specialize (Hg e w1 Hok1). destruct (g e w1) as [a w2]. destruct Hg as [Hok2 Ha2].
    split; [done|]. eapply acct_quiet; [done| |done]. by intros _.
Qed.
Lemma record_drop_stats r e w : stats (record_drop k r e w).2 = stats w.
Proof.
  assert (H : Preserves same_stats (record_drop k r : prog M unit)).
  { unfold record_drop, record_drop_idx. preserve. }
  apply H.
Qed.
Lemma accounts_drop r s a : stat_of_reason r = s → f a = Some XDP_DROP →
  Accounts f (count_drop k r s;; mret a).
Proof.
  intros <- Ha e w [Hst Hh]. unfold count_drop, mbind, prog_bind, mret, prog_ret.
  pose proof (record_drop_stats r e w) as Hs.
  assert (Hd := λ r', record_drop_spec k r r' e w Hh).
  destruct (record_drop k r e w) as [[] w1]. simpl in Hs, Hd. cbv beta iota.
  assert (Hst1 : stats_ok e w1) by (unfold stats_ok; by rewrite Hs).
  destruct (stat_bump_of e (stat_of_reason r) w1 Hst1) as [Hst' Hof].
  pose proof (history_stat_bump (stat_of_reason r) e w1) as Hh'.
  destruct (stat_bump _ e w1) as [[] w2]. simpl in *. rewrite Ha.
  assert (Hs1 : ∀ s, stat_of e s w1 = stat_of e s w) by (intros; unfold stat_of; by rewrite Hs).
  split; [split; [done|rewrite Hh'; by destruct (Hd r)]|].
  exists (stat_of_reason r). split_and!; [by destruct r| |right].
  - intros s' _. rewrite Hof. rewrite !Hs1. case_decide; by subst.
  - exists r. split; [done|]. intros r'. destruct (Hd r') as (_ & H & _).
    unfold drops_of in *. by rewrite Hh'.
Qed.
End Rules.
End Accounting.
#[export] Hint Resolve quiet_ktime quiet_global_store : frame.
#[export] Hint Extern 1 (Preserves (quiet _) (bpf_map_update_elem _ _ _)) =>
  apply quiet_update; discriminate : frame.
#[export] Hint Extern 1 (Preserves (quiet _) (bpf_map_delete_elem _ _)) =>
  apply quiet_delete; discriminate : frame.
#[export] Hint Extern 1 (Preserves (quiet _) (map_store _ _ _)) =>
  apply quiet_store; discriminate : frame.
#[export] Hint Extern 1 (Preserves (quiet _) (stat_bump _)) =>
  apply quiet_stat_bump; reflexivity : frame.

Section QuietParts.
Context {M : Type → Type} `{!BpfMap M, !BpfMapLaws M} (k : ipkey).

Lemma quiet_ratelimit_take src P B map : map ∈ [STATUS_RL; LOGIN_RL; SYN_RL] →
  Preserves (quiet k) (ratelimit_take map src P B : prog M bool).
Proof.
  intros H. repeat (apply elem_of_cons in H as [-> | H]);
    [unfold ratelimit_take; preserve..|by apply not_elem_of_nil in H].
Qed.
Lemma quiet_global_take : Preserves (quiet k) (tcp_global_ratelimit_take : prog M bool).
Proof. unfold tcp_global_ratelimit_take, cfg. preserve. Qed.
Lemma quiet_conn_take src n : Preserves (quiet k) (conn_ratelimit_take src n : prog M bool).
Proof. unfold conn_ratelimit_take. preserve. Qed.
Lemma quiet_anomaly src : Preserves (quiet k) (health_record_anomaly src : prog M unit).
Proof. unfold health_record_anomaly, cfg. preserve. Qed.
Lemma quiet_blacklisted src : Preserves (quiet k) (health_is_blacklisted src : prog M bool).
Proof. unfold health_is_blacklisted. preserve. Qed.
Lemma quiet_cap src : Preserves (quiet k) (over_open_cap src : prog M bool).
Proof. unfold over_open_cap, cfg. preserve. Qed.
Lemma quiet_first src est : Preserves (quiet k) (xdp_first_segment src est : prog M bool).
Proof. unfold xdp_first_segment. preserve. Qed.
End QuietParts.
#[export] Hint Resolve quiet_global_take quiet_conn_take quiet_anomaly quiet_blacklisted
  quiet_cap quiet_first : frame.
#[export] Hint Extern 1 (Preserves (quiet _) (ratelimit_take _ _ _ _)) =>
  apply quiet_ratelimit_take; set_solver : frame.

(** ** What a ruling is charged to

    A segment is passed, or dropped for a reason; [charged] says what that does to the
    counters of this CPU and to the drop history of the source. *)
Inductive ruling := Pass | Drop (r : drop_reason).
Definition action (r : ruling) : xdp_action := match r with Pass => XDP_PASS | Drop _ => XDP_DROP end.

Section Charged.
Context {M : Type → Type} `{!BpfMap M, !BpfMapLaws M} (k : ipkey).
Implicit Types (w : world M) (e : kenv).

(** A malformed handshake is counted, but not held against its source. *)
Definition charged (r : ruling) (e : kenv) (w w' : world M) : Prop :=
  acct_ok k e w → acct_ok k e w' ∧
  match r with
  | Pass => drops_same e w w' ∧ history k w' = history k w
  | Drop q => drops_bumped e (stat_of_reason q) w w' ∧
      if decide (q = DROP_REASON_MALFORMED_HANDSHAKE) then history k w' = history k w
      else ∀ r', drops_of k r' w' =
             if decide (r' = q) then u64 (drops_of k q w + 1) else drops_of k r' w
  end.

Lemma charged_quiet r e w w1 w2 : quiet k e w w1 → charged r e w1 w2 → charged r e w w2.
Proof.
  intros Hq Hc Hok. destruct (Hq Hok) as (Hok1 & Hs & Hh). destruct (Hc Hok1) as [Hok2 H].
  assert (Hd : ∀ q, drops_of k q w1 = drops_of k q w) by (intros; unfold drops_of; by rewrite Hh).
  split; [done|]. destruct r as [|q].
  - destruct H as [H1 H2]. split; [|congruence]. intros s Hds. by rewrite H1, Hs.
  - destruct H as [H1 H2]. split.
    + intros s Hds. rewrite (H1 s Hds). by rewrite !Hs by (done || by destruct q).
    + case_decide; [congruence|]. intros r'. rewrite H2. by rewrite !Hd.
Qed.
Lemma charged_pass e w : charged Pass e w w.
Proof. by intros Hok. Qed.
Lemma charged_malformed e w :
  charged (Drop DROP_REASON_MALFORMED_HANDSHAKE) e w (stat_bump STAT_DROP_MALFORMED_HANDSHAKE e w).2.
Proof.
  intros [Hst Hh]. destruct (stat_bump_of e STAT_DROP_MALFORMED_HANDSHAKE w Hst) as [Hst' Hof].
  pose proof (history_stat_bump k STAT_DROP_MALFORMED_HANDSHAKE e w) as Hh'.
  destruct (stat_bump _ e w) as [[] w']. cbn [snd] in *.
  split; [split; [done|by rewrite Hh']|]. split; [|by rewrite decide_True by done].
  intros s _. cbn [stat_of_reason]. rewrite Hof. case_decide; by subst.
Qed.
Lemma charged_drop q e w : q ≠ DROP_REASON_MALFORMED_HANDSHAKE →
  charged (Drop q) e w (count_drop k q (stat_of_reason q) e w).2.
Proof.
  intros Hq [Hst Hh]. unfold count_drop, mbind, prog_bind.
  pose proof (record_drop_stats k q e w) as Hs.
  assert (Hd := λ r', record_drop_spec k q r' e w Hh).
  destruct (record_drop k q e w) as [[] w1]. cbn [snd] in *.
  assert (Hst1 : stats_ok e w1) by (unfold stats_ok; by rewrite Hs).
  destruct (stat_bump_of e (stat_of_reason q) w1 Hst1) as [Hst' Hof].
  pose proof (history_stat_bump k (stat_of_reason q) e w1) as Hh'.
  destruct (stat_bump _ e w1) as [[] w2]. cbn [snd] in *.
  split; [split; [done|rewrite Hh'; apply (Hd q)]|]. rewrite decide_False by done. split.
  - intros s _. rewrite Hof. unfold stat_of. rewrite Hs. case_decide; by subst.
  - intros r'. destruct (Hd r') as (_ & Hr & _). unfold drops_of in *. by rewrite Hh'.
Qed.
End Charged.

(** Walks the statements of a program up to its returns. *)
Ltac account :=
  repeat match goal with
  | |- Accounts _ _ (stat_bump STAT_DROP_MALFORMED_HANDSHAKE;; mret _) =>
    apply accounts_malformed; reflexivity
  | |- Accounts _ _ (count_drop _ _ _;; mret _) => apply accounts_drop; reflexivity
  | |- Accounts _ _ (mret _) => apply accounts_ret; discriminate
  | |- Accounts _ _ (_ ≫= _) => apply accounts_bind; [solve [preserve]|intros ?]
  | |- Accounts _ _ (if ?b then _ else _) => destruct b eqn:?
  | |- Accounts _ _ (match ?x with _ => _ end) => destruct x eqn:?
  | |- Accounts _ _ ((match ?x with _ => _ end) _) => destruct x eqn:?
  end.

Section XdpAccounts.
Context {M : Type → Type} `{!BpfMap M, !BpfMapLaws M}.

Lemma xdp_trusted_accounts p : Accounts (src p) id (xdp_trusted p : prog M _).
Proof. unfold xdp_trusted, cfg. account. Qed.
Lemma xdp_gate_accounts p : Accounts (src p) id (xdp_gate p : prog M _).
Proof. unfold xdp_gate, cfg. account. Qed.
Lemma xdp_payload_accounts ctx p : Accounts (src p) Some (xdp_payload ctx p : prog M _).
Proof. unfold xdp_payload. cbv zeta. account; unfold xdp_handshake, cfg; account. Qed.
Lemma xdp_filter_accounts ctx p : Accounts (src p) Some (xdp_filter ctx p : prog M _).
Proof.
  unfold xdp_filter. account.
  apply (accounts_early _ _ _ id); [apply xdp_trusted_accounts|done|].
  apply (accounts_early _ _ _ id); [apply xdp_gate_accounts|done|apply xdp_payload_accounts].
Qed.

(** C8. Every verdict on a TCP segment for the server is accounted for: when the
    program passes it, no drop counter and no drop history of the source moves;
    when it drops it, exactly one drop counter of this CPU goes up, by one, and,
    malformed handshakes apart, exactly the matching counter in the drop history of
    the source does too. *)
Theorem minecraft_xdp_accounted ctx p e (w : world M) :
  xdp_parse (target_port (conf e)) (data ctx) = Some p → acct_ok (src p) e w →
  let '(v, w') := minecraft_xdp ctx e w in
  acct_ok (src p) e w' ∧ acct (src p) e (Some v) w w'.
Proof. intros Hp. rewrite minecraft_xdp_run, Hp. apply xdp_filter_accounts. Qed.
End XdpAccounts.
