(* ===== verification/XdpProps.v ===== *)
(** * What the XDP program guarantees

    Isolation of sources, the sources that are always dropped, the maps an unverified
    source can write, and how a source comes to be on the whitelist. *)
From S2P Require Import Prelude Kernel World Frame Hoare Packet Handshake TokenBucket Limits Health Xdp.

Section Isolation.
Context {M : Type → Type} `{!BpfMap M, !BpfMapLaws M}.

Lemma record_drop_only_ip k r : Preserves (only_ip k) (record_drop k r : prog M unit).
Proof. unfold record_drop, record_drop_idx. preserve. Qed.
Lemma health_anomaly_only_ip k : Preserves (only_ip k) (health_record_anomaly k : prog M unit).
Proof. unfold health_record_anomaly, cfg. preserve. Qed.
Lemma health_blacklisted_only_ip k :
  Preserves (only_ip k) (health_is_blacklisted k : prog M bool).
Proof. unfold health_is_blacklisted. preserve. Qed.
Lemma over_open_cap_keeps R k `{!∀ e, PreOrder (R e)} :
  Preserves R (over_open_cap k : prog M bool).
Proof. unfold over_open_cap, cfg. preserve. Qed.
End Isolation.
#[export] Hint Resolve record_drop_only_ip health_anomaly_only_ip health_blacklisted_only_ip
  over_open_cap_keeps tcp_global_frame conn_ratelimit_frame health_is_blacklisted_only : frame.
#[export] Hint Extern 1 (Preserves (only_ip _) (ratelimit_take _ _ _ _)) =>
  by apply ratelimit_take_frame : frame.

Section Parts.
Context {M : Type → Type} `{!BpfMap M, !BpfMapLaws M}.
Implicit Types (w : world M) (e : kenv).

Lemma record_drop_maps S k r : bool_decide (THist ∈ S) = true →
  Preserves (only_maps S) (record_drop k r : prog M unit).
Proof.
  intros. unfold record_drop, record_drop_idx. preserve;
    first [by apply only_maps_update|by apply only_maps_store].
Qed.
Lemma count_drop_maps S k r s : bool_decide (THist ∈ S) = true →
  Preserves (only_maps S) (count_drop k r s : prog M unit).
Proof. intros. unfold count_drop. preserve. by apply record_drop_maps. Qed.
Lemma ratelimit_take_maps S map k P B : bool_decide (tag_of map ∈ S) = true →
  Preserves (only_maps S) (ratelimit_take map k P B : prog M bool).
Proof.
  intros. unfold ratelimit_take. preserve;
    first [by apply only_maps_update|by apply only_maps_store].
Qed.
Lemma conn_take_maps S k n : bool_decide (TConn ∈ S) = true →
  Preserves (only_maps S) (conn_ratelimit_take k n : prog M bool).
Proof.
  intros. unfold conn_ratelimit_take. preserve;
    first [by apply only_maps_update|by apply only_maps_store].
Qed.
Lemma global_take_maps S : Preserves (only_maps S) (tcp_global_ratelimit_take : prog M bool).
Proof. unfold tcp_global_ratelimit_take, cfg. preserve. Qed.
Lemma anomaly_maps S k : bool_decide (THealth ∈ S) = true →
  Preserves (only_maps S) (health_record_anomaly k : prog M unit).
Proof.
  intros. unfold health_record_anomaly, cfg. preserve;
    first [by apply only_maps_update|by apply only_maps_store].
Qed.
End Parts.
#[export] Hint Resolve global_take_maps : frame.
#[export] Hint Extern 1 (Preserves (only_maps _) (record_drop _ _)) =>
  apply record_drop_maps; vm_compute; reflexivity : frame.
#[export] Hint Extern 1 (Preserves (only_maps _) (count_drop _ _ _)) =>
  apply count_drop_maps; vm_compute; reflexivity : frame.
#[export] Hint Extern 1 (Preserves (only_maps _) (ratelimit_take _ _ _ _)) =>
  apply ratelimit_take_maps; vm_compute; reflexivity : frame.
#[export] Hint Extern 1 (Preserves (only_maps _) (conn_ratelimit_take _ _)) =>
  apply conn_take_maps; vm_compute; reflexivity : frame.
#[export] Hint Extern 1 (Preserves (only_maps _) (health_record_anomaly _)) =>
  apply anomaly_maps; vm_compute; reflexivity : frame.

Section XdpParts.
Context {M : Type → Type} `{!BpfMap M, !BpfMapLaws M}.

Lemma xdp_trusted_only_ip p : Preserves (only_ip (src p)) (xdp_trusted p : prog M _).
Proof. unfold xdp_trusted, cfg, count_drop. preserve. Qed.
Lemma xdp_gate_only_ip p : Preserves (only_ip (src p)) (xdp_gate p : prog M _).
Proof. unfold xdp_gate, cfg, count_drop. preserve. Qed.
Lemma xdp_first_only_ip k est : Preserves (only_ip k) (xdp_first_segment k est : prog M _).
Proof. unfold xdp_first_segment. preserve. Qed.
Lemma xdp_handshake_only_ip p est hs :
  Preserves (only_ip (src p)) (xdp_handshake p est hs : prog M _).
Proof. unfold xdp_handshake, cfg, count_drop. preserve. Qed.
Lemma xdp_payload_only_ip ctx p : Preserves (only_ip (src p)) (xdp_payload ctx p : prog M _).
Proof.
  unfold xdp_payload. cbv zeta. preserve; [apply xdp_first_only_ip|apply xdp_handshake_only_ip].
Qed.
Lemma xdp_filter_only_ip ctx p : Preserves (only_ip (src p)) (xdp_filter ctx p : prog M _).
Proof.
  unfold xdp_filter, count_drop. preserve;
    [apply xdp_trusted_only_ip|apply xdp_gate_only_ip|apply xdp_payload_only_ip].
Qed.

(** What the program never writes: the connections the kernel reports. *)
Definition xdp_writes : list tag :=
  [TSyn; TFirst; TWl; TStatus; TLogin; TSynRl; TConn; THealth; THist].
Lemma minecraft_xdp_maps ctx : Preserves (only_maps xdp_writes) (minecraft_xdp ctx : prog M _).
Proof.
  unfold minecraft_xdp, xdp_filter, xdp_trusted, xdp_gate, over_open_cap, xdp_payload,
    xdp_first_segment, xdp_handshake, cfg. cbv zeta. preserve.
Qed.

(** C10. Isolation of sources: the program passes every packet that is not a TCP
    segment for the server, without touching any map; and handling a segment changes
    no entry of another source in any of the per-IP maps, except that an insertion
    into a full LRU map may evict one. *)
Theorem minecraft_xdp_isolated ctx e (w : world M) :
  match xdp_parse (target_port (conf e)) (data ctx) with
  | None => minecraft_xdp ctx e w = (XDP_PASS, w)
  | Some p => only_ip (src p) e w (minecraft_xdp ctx e w).2
  end.
Proof. rewrite minecraft_xdp_run. case_match; [apply xdp_filter_only_ip|done]. Qed.
End XdpParts.

(** ** Sources that are always dropped *)
Section Dropped.
Context {M : Type → Type} `{!BpfMap M, !BpfMapLaws M}.
Implicit Types (w : world M) (e : kenv).

(** Only the maps in [S] change and the verdict is a drop. *)
Definition dropped (S : list tag) (e : kenv) (w : world M) (r : xdp_action * world M) : Prop :=
  r.1 = XDP_DROP ∧ only_maps S e w r.2.

Lemma dropped_triple S (m : prog M xdp_action) e w :
  triple (anchored (only_maps S) e w) m
    (λ v e' w', v = XDP_DROP ∧ anchored (only_maps S) e w e' w') →
  dropped S e w (m e w).
Proof.
  intros H. destruct (anchored_run _ _ _ _ _ H) as (Hv & _ & Hm). by split.
Qed.

Lemma count_drop_dropped S k r s e w : bool_decide (THist ∈ S) = true →
  dropped S e w ((count_drop k r s;; mret XDP_DROP) e w).
Proof.
  intros HS. apply dropped_triple, anchored_skip;
    [exact _|by apply count_drop_maps|intros []].
  by apply anchored_ret.
Qed.

Lemma blacklisted_spec ctx p h e w :
  xdp_parse (target_port (conf e)) (data ctx) = Some p →
  bpf_lookup (src p) (get_map HEALTH w) = Some h →
  boot_ns e (clock_reads w) < blacklist_until_ns h →
  dropped [THist] e w (minecraft_xdp ctx e w).
Proof.
  intros Hp Hh Hlt. rewrite minecraft_xdp_run, Hp. unfold xdp_filter.
  destruct (tcp_flags_bogus _); [by apply count_drop_dropped|].
  unfold mbind at 1, prog_bind at 1. rewrite health_is_blacklisted_run.
  unfold health_entry. rewrite Hh, (proj2 (Z.ltb_lt _ _)) by done.
  destruct (count_drop_dropped [THist] (src p) DROP_REASON_UNHEALTHY STAT_DROP_TCP_UNHEALTHY
    e (tick w) ltac:(done)) as [Hv Hm].
  split; [done|]. intros V i Hi. rewrite (Hm V i Hi). apply get_tick.
Qed.

(** A blacklisted source is cut off: every segment it sends for the server is
    dropped, and no bucket, whitelist, connection or health state moves; only its
    drop history does. *)
Theorem blacklisted_dropped ctx p h e w :
  xdp_parse (target_port (conf e)) (data ctx) = Some p →
  bpf_lookup (src p) (get_map HEALTH w) = Some h →
  boot_ns e (clock_reads w) < blacklist_until_ns h →
  dropped [THist] e w (minecraft_xdp ctx e w).
Proof. apply blacklisted_spec. Qed.

(** A segment without SYN from a source that has no recorded SYN, no established
    connection and no whitelist entry is dropped, and changes its drop history
    only. *)
Theorem no_syn_dropped ctx p e w :
  xdp_parse (target_port (conf e)) (data ctx) = Some p →
  syn (flags p) = false →
  bpf_lookup (src p) (get_map SYN_SEEN w) = None →
  bpf_lookup (src p) (get_map ESTABLISHED w) = None →
  bpf_lookup (src p) (get_map WHITELIST w) = None →
  dropped [THist] e w (minecraft_xdp ctx e w).
Proof.
  intros Hp Hs Hseen Hest Hwl. rewrite minecraft_xdp_run, Hp. apply dropped_triple.
  unfold xdp_filter, xdp_trusted, xdp_gate. rewrite Hs. simpl.
  sym; try done; congruence.
Qed.

Lemma over_cap_spec ctx p o e w :
  xdp_parse (target_port (conf e)) (data ctx) = Some p →
  syn (flags p) = true →
  bpf_lookup (src p) (get_map OPEN_COUNT w) = Some o →
  0 < tcp_max_open_per_ip (conf e) ≤ o →
  dropped [TWl; TConn; THealth; THist] e w (minecraft_xdp ctx e w).
Proof.
  intros Hp Hs Ho [Hpos%Z.ltb_lt Hle%Z.leb_le]. rewrite minecraft_xdp_run, Hp.
  apply dropped_triple.
  unfold xdp_filter, xdp_trusted, xdp_gate, over_open_cap. rewrite Hs. simpl.
  sym; try done; rewrite ?Hpos in *; sym; rewrite ?Hle in *; try done.
Qed.

End Dropped.

(** ** Verification of sources *)
Section Verification.
Context {M : Type → Type} `{!BpfMap M, !BpfMapLaws M}.
Implicit Types (w : world M) (e : kenv).

(** The payload window [minecraft_xdp] hands to the classifier. *)
Definition classified (ctx : xdp_md) (p : parsed) : hs_class :=
  let hdrs := ihl p + doff p * 4 in classify_handshake ctx (14 + hdrs) (ip_tot p - hdrs).

Lemma unverified_confined_spec ctx p e w :
  xdp_parse (target_port (conf e)) (data ctx) = Some p →
  bpf_lookup (src p) (get_map ESTABLISHED w) = None →
  bpf_lookup (src p) (get_map WHITELIST w) = None →
  only_maps [TSyn; TSynRl; THist] e w (minecraft_xdp ctx e w).2.
Proof.
  intros Hp Hest Hwl. rewrite minecraft_xdp_run, Hp.
  refine (proj2 (anchored_run (only_maps [TSyn; TSynRl; THist]) e w _ (λ _, anchored _ e w) _)).
  unfold xdp_filter, xdp_trusted, xdp_gate, over_open_cap, xdp_payload, xdp_first_segment,
    xdp_handshake. cbv zeta.
  sym; done.
Qed.

(** Everything the program can write while a source is not whitelisted. *)
Definition before_promotion : list tag :=
  [TSyn; TSynRl; TFirst; TStatus; TLogin; TConn; THealth; THist].

Definition promotes ctx p w (v : xdp_action) : Prop :=
  v = XDP_PASS ∧ is_Some (bpf_lookup (src p) (get_map ESTABLISHED w)) ∧
  classified ctx p = HS_LOGIN.

Lemma payload_promotes ctx p e w :
  triple (anchored (only_maps before_promotion) e w) (xdp_payload ctx p)
    (λ v e' w', anchored (only_maps before_promotion) e w e' w' ∨ promotes ctx p w v).
Proof.
  unfold xdp_payload, xdp_first_segment, xdp_handshake. cbv zeta.
  sym; try (by left); intros e' w' _; right; unfold promotes, classified; split_and!; try done;
    repeat case_match; by simplify_eq.
Qed.

(** C16. Where whitelist entries come from: a source that becomes whitelisted is the
    sender of the packet, has an established connection, and its payload classified
    as a Login (or Transfer) handshake; the packet is passed. *)
Theorem whitelist_origin ctx e w k :
  bpf_lookup k (get_map WHITELIST w) = None →
  is_Some (bpf_lookup k (get_map WHITELIST (minecraft_xdp ctx e w).2)) →
  ∃ p, xdp_parse (target_port (conf e)) (data ctx) = Some p ∧ src p = k ∧
    promotes ctx p w (minecraft_xdp ctx e w).1.
Proof.
  intros Hk Hk'. rewrite minecraft_xdp_run in *.
  destruct (xdp_parse _ _) as [p|] eqn:Hp; [|by cbn [snd] in Hk'; rewrite Hk in Hk'; destruct Hk'].
  exists p. split; [done|]. destruct (decide (k = src p)) as [->|Hne].
  2: { destruct (xdp_filter_only_ip ctx p e w Z WHITELIST k Hne) as [H|H];
       rewrite H, ?Hk in Hk'; by destruct Hk'. }
  split; [done|].
  pose proof (anchored_run (only_maps before_promotion) e w (xdp_filter ctx p)
    (λ v e' w', anchored (only_maps before_promotion) e w e' w' ∨ promotes ctx p w v)) as H.
  destruct H as [[_ H]|H]; [|exfalso|done].
  - unfold xdp_filter, xdp_trusted, xdp_gate, over_open_cap.
    sym; try (by left); apply payload_promotes.
  - rewrite (H Z WHITELIST), Hk in Hk' by new_tag. by destruct Hk'.
Qed.

(** The bucket of logins, when its answer is known. *)
Lemma login_take P B k e w :
  (∀ w', calm [TFirst] e w w' → (ratelimit_take LOGIN_RL k P B e w').1 = true) →
  triple (anchored (calm [TFirst]) e w) (ratelimit_take LOGIN_RL k P B)
    (λ a e' w', anchored (calm [TFirst; TLogin]) e w e' w' ∧ a = true).
Proof.
  intros Hgrant e' w' [-> Ho]. split; [|by apply Hgrant].
  split; [done|]. etrans; [by eapply calm_mono; [|exact Ho]; sub_tags|].
  split; [by apply ratelimit_take_maps|apply ratelimit_take_later].
Qed.

Lemma first_segment_calm k est :
  Preserves (calm [TFirst]) (xdp_first_segment k est : prog M bool).
Proof. apply calm_intro; unfold xdp_first_segment; preserve. Qed.
(** The first data of an established connection is looked at, once. *)
Lemma first_segment_fresh k t e w :
  bpf_lookup k (get_map FIRST_DATA w) = None →
  triple (anchored (calm []) e w) (xdp_first_segment k (Some t))
    (λ a e' w', anchored (calm [TFirst]) e w e' w' ∧ a = true).
Proof.
  intros Hnone e' w' [-> Ho]. split.
  - split; [done|]. etrans; [by eapply calm_mono; [|exact Ho]; sub_tags|].
    apply first_segment_calm.
  - unfold xdp_first_segment, bpf_map_lookup_elem, mbind, prog_bind.
    rewrite (proj1 Ho _ FIRST_DATA) by new_tag. by rewrite Hnone.
Qed.

(** A source the health check lets through, and the state it leaves. *)
Definition healthy (k : ipkey) e w : Prop :=
  match health_entry k w with
  | None => True
  | Some h => blacklist_until_ns h ≤ boot_ns e (clock_reads w)
  end.
Definition checked (k : ipkey) w : world M :=
  match health_entry k w with None => w | Some _ => tick w end.

Lemma checked_get {V} (i : mapid V) k w : get_map i (checked k w) = get_map i w.
Proof. unfold checked. case_match; [apply get_tick|done]. Qed.

Lemma xdp_filter_healthy ctx p e w :
  tcp_flags_bogus (flags p) = false → healthy (src p) e w →
  xdp_filter ctx p e w =
    (v ← xdp_trusted p;
     match v with
     | Some v => mret v
     | None => v ← xdp_gate p;
               match v with Some v => mret v | None => xdp_payload ctx p end
     end) e (checked (src p) w).
Proof.
  intros Hf Hh. unfold xdp_filter. rewrite Hf. unfold mbind at 1, prog_bind at 1.
  rewrite health_is_blacklisted_run. unfold healthy, checked in *.
  destruct (health_entry _ _) as [h|]; [|done]. by rewrite (proj2 (Z.ltb_ge _ _)).
Qed.

(** The statements that promote a source. *)
Lemma promotion_run k now e w :
  let r := (bpf_map_update_elem WHITELIST k now;; stat_bump STAT_TCP_L7_PROMOTED;;
            mret XDP_PASS) e w in
  r.1 = XDP_PASS ∧ is_Some (bpf_lookup k (get_map WHITELIST r.2)).
Proof.
  unfold mbind, prog_bind, mret, prog_ret, bpf_map_update_elem. cbv beta iota.
  set (w1 := set_map _ _ _).
  pose proof (only_maps_stat_bump [] STAT_TCP_L7_PROMOTED e w1 _ WHITELIST) as H.
  destruct (stat_bump _ e w1) as [[] w2]. cbn [snd fst] in *. split; [done|].
  rewrite H by new_tag. unfold w1. rewrite get_set_eq, bpf_lookup_update_eq. eauto.
Qed.

(** The segment carries data after well-formed headers. *)
Definition has_payload (ctx : xdp_md) (p : parsed) : Prop :=
  5 ≤ doff p ∧ l4 p + doff p * 4 ≤ Z.of_nat (length (data ctx)) ∧
  ihl p + doff p * 4 < ip_tot p.

Lemma login_whitelists_spec ctx p t e w :
  xdp_parse (target_port (conf e)) (data ctx) = Some p →
  tcp_flags_bogus (flags p) = false → syn (flags p) = false → healthy (src p) e w →
  has_payload ctx p → classified ctx p = HS_LOGIN →
  bpf_lookup (src p) (get_map WHITELIST w) = None →
  bpf_lookup (src p) (get_map ESTABLISHED w) = Some t →
  bpf_lookup (src p) (get_map FIRST_DATA w) = None →
  (∀ w', calm [TFirst] e (checked (src p) w) w' →
     (ratelimit_take LOGIN_RL (src p) (login_period_ns (conf e)) (login_burst (conf e)) e w').1 = true) →
  (minecraft_xdp ctx e w).1 = XDP_PASS ∧
  is_Some (bpf_lookup (src p) (get_map WHITELIST (minecraft_xdp ctx e w).2)).
Proof.
  intros Hp Hf Hs Hh (Hd & Hl & Hi) Hc Hwl Hest Hfd Hrl.
  rewrite minecraft_xdp_run, Hp, xdp_filter_healthy by done.
  rewrite <- (checked_get WHITELIST (src p)) in Hwl.
  rewrite <- (checked_get ESTABLISHED (src p)) in Hest.
  rewrite <- (checked_get FIRST_DATA (src p)) in Hfd.
  set (w1 := checked (src p) w) in *.
  apply (anchored_run (calm []) e w1 _ (λ v _ w',
    v = XDP_PASS ∧ is_Some (bpf_lookup (src p) (get_map WHITELIST w')))).
  unfold xdp_trusted, xdp_gate, xdp_payload, xdp_handshake, classified in *.
  rewrite Hs. cbv zeta in *. unfold sizeof_tcphdr.
  rewrite (proj2 (Z.ltb_ge _ 20)), (proj2 (Z.ltb_ge (Z.of_nat _) _)), (proj2 (Z.leb_gt _ _)),
    Hc by lia. cbn [negb].
  repeat (first [ match goal with
    | |- triple _ (xdp_first_segment _ _ ≫= _) _ =>
      eapply triple_bind; [by apply first_segment_fresh|intros ?; apply triple_pure; intros ->]
    | |- triple _ (ratelimit_take LOGIN_RL _ _ _ ≫= _) _ =>
      eapply triple_bind; [by apply login_take|intros ?; apply triple_pure; intros ->] end
    | sym_step]; cbn beta iota; simplify_eq).
  all: intros e' w' _; apply promotion_run.
Qed.

(** Players get in: the first data segment of an established connection that is
    a Login or Transfer handshake, from a healthy source whose login bucket is
    fresh, is passed and puts the source on the whitelist. *)
Theorem login_whitelists ctx p t e w :
  xdp_parse (target_port (conf e)) (data ctx) = Some p →
  tcp_flags_bogus (flags p) = false → syn (flags p) = false → healthy (src p) e w →
  has_payload ctx p → classified ctx p = HS_LOGIN →
  bpf_lookup (src p) (get_map WHITELIST w) = None →
  bpf_lookup (src p) (get_map ESTABLISHED w) = Some t →
  bpf_lookup (src p) (get_map FIRST_DATA w) = None →
  bpf_lookup (src p) (get_map LOGIN_RL w) = None →
  (minecraft_xdp ctx e w).1 = XDP_PASS ∧
  is_Some (bpf_lookup (src p) (get_map WHITELIST (minecraft_xdp ctx e w).2)).
Proof.
  intros. eapply login_whitelists_spec; try done. intros w' [Hm _].
  unfold ratelimit_take, bpf_map_lookup_elem, mbind, prog_bind.
  rewrite (Hm _ LOGIN_RL) by new_tag. rewrite checked_get.
  by match goal with H : bpf_lookup _ (get_map LOGIN_RL _) = None |- _ => rewrite H end.
Qed.

(** The open-connection cap does not apply to the segment. *)
Definition under_cap (p : parsed) e w : Prop :=
  syn (flags p) = false ∨ tcp_max_open_per_ip (conf e) ≤ 0 ∨
  match bpf_lookup (src p) (get_map OPEN_COUNT w) with
  | Some o => o < tcp_max_open_per_ip (conf e)
  | None => True
  end.

Lemma xdp_trusted_pass p t e w :
  let now := boot_ns e (clock_reads w) in
  bpf_lookup (src p) (get_map WHITELIST w) = Some t →
  0 ≤ now - t < 2 ^ 64 → (whitelist_ttl_ns (conf e) ≤ 0 ∨ now - t ≤ whitelist_ttl_ns (conf e)) →
  pkt_on (conf e) = false → byte_on (conf e) = false → under_cap p e w →
  xdp_trusted p e w = (Some XDP_PASS, (stat_bump STAT_PASS_TCP e
    (set_map WHITELIST (bpf_store (src p) now (get_map WHITELIST w)) (tick w))).2).
Proof.
  intros now Hwl Hage Httl Hpk Hby Hcap. unfold xdp_trusted, mbind, prog_bind.
  unfold bpf_map_lookup_elem at 1. rewrite Hwl. unfold bpf_ktime_get_boot_ns, cfg, reads.
  cbv beta iota. fold now. rewrite u64_id by (words; lia).
  replace ((0 <? whitelist_ttl_ns (conf e)) && (whitelist_ttl_ns (conf e) <? now - t))
    with false.
  2: { symmetry. destruct Httl; [by rewrite (proj2 (Z.ltb_ge _ _)) by done|].
       rewrite (proj2 (Z.ltb_ge _ (now - t))) by done. apply andb_false_r. }
  assert (Hover : (if syn (flags p) && (0 <? tcp_max_open_per_ip (conf e))
    then over_open_cap (src p) else mret false : prog M bool) e (tick w) = (false, tick w)).
  { unfold under_cap in Hcap. destruct (syn (flags p)); [|done].
    destruct Hcap as [? | Hcap]; [done|].
    destruct (Z.ltb_spec 0 (tcp_max_open_per_ip (conf e))) as [Hpos|]; [|done].
    destruct Hcap as [? | Hcap]; [lia|]. simpl.
    unfold over_open_cap, cfg, reads, mbind, prog_bind, bpf_map_lookup_elem. rewrite get_tick.
    cbv beta iota. destruct (bpf_lookup _ (get_map OPEN_COUNT w)) as [o|]; [|done].
    unfold mret, prog_ret. by rewrite (proj2 (Z.leb_gt _ _)). }
  unfold conn_ratelimit_take, mbind, prog_bind, reads. rewrite Hpk, Hby. cbn [negb andb].
  unfold mret, prog_ret in *. cbn [negb]. cbv beta iota.
  rewrite Hover. cbv beta iota. unfold map_store. rewrite get_tick.
  by destruct (stat_bump _ _ _) as [[] ?].
Qed.

(** Verified players are let through: with the traffic caps off, a segment of a
    healthy source on the whitelist, within its time to live, is passed whatever it
    carries, and the entry's time is renewed; nothing else about any source
    changes. *)
Theorem whitelisted_passes ctx p t e w :
  let now := boot_ns e (clock_reads (checked (src p) w)) in
  xdp_parse (target_port (conf e)) (data ctx) = Some p →
  tcp_flags_bogus (flags p) = false → healthy (src p) e w →
  bpf_lookup (src p) (get_map WHITELIST w) = Some t →
  0 ≤ now - t < 2 ^ 64 → (whitelist_ttl_ns (conf e) ≤ 0 ∨ now - t ≤ whitelist_ttl_ns (conf e)) →
  pkt_on (conf e) = false → byte_on (conf e) = false → under_cap p e w →
  (minecraft_xdp ctx e w).1 = XDP_PASS ∧
  bpf_lookup (src p) (get_map WHITELIST (minecraft_xdp ctx e w).2) = Some now ∧
  only_maps [TWl] e w (minecraft_xdp ctx e w).2.
Proof.
  intros now Hp Hf Hh Hwl Hage Httl Hpk Hby Hcap.
  rewrite minecraft_xdp_run, Hp, xdp_filter_healthy by done.
  assert (Hget : ∀ V (i : mapid V), get_map i (checked (src p) w) = get_map i w)
    by (intros; apply checked_get).
  subst now. rewrite <- (Hget Z WHITELIST) in Hwl.
  set (w1 := checked (src p) w) in *.
  assert (under_cap p e w1) by (unfold under_cap in *; by rewrite Hget).
  rewrite (bind_run _ _ _ _ _ _ (xdp_trusted_pass p t e w1 Hwl Hage Httl Hpk Hby ltac:(done))).
  unfold mret, prog_ret. cbn [fst snd]. split; [done|].
  set (w2 := set_map WHITELIST _ _).
  pose proof (only_maps_stat_bump [TWl] STAT_PASS_TCP e w2) as Hb.
  pose proof (only_maps_stat_bump [] STAT_PASS_TCP e w2 _ WHITELIST) as Hb'.
  rewrite Hb' by new_tag. unfold w2. rewrite get_set_eq. split.
  - rewrite bpf_lookup_store_eq; [done|]. rewrite Hwl. eauto.
  - intros V i Hi. rewrite Hb by done. unfold w2.
    rewrite get_set_ne, get_tick; [apply Hget|]. intros Heq. rewrite <- Heq in Hi.
    by apply Hi; constructor.
Qed.
End Verification.
