(* ===== verification/Policy.v ===== *)
(** * The policy the XDP program enforces

    A table of rulings: which segments of a source are dropped, and for what, in terms of
    the source's record, of token buckets (without machine words) and of instants of the
    run.  [minecraft_xdp_decides] shows that the program follows the table, with the
    counters and the drop history charged for the reason the table gives. *)
From S2P Require Import Prelude Kernel World Frame Hoare Packet Handshake TokenBucket Limits Health Xdp XdpAccounting XdpProps.

(** ** What the policy looks at *)

(** A segment: its flags, its size, and the class of its payload if it has one. *)
Record segment := Segment {
  g_bogus : bool; g_syn : bool; g_bytes : Z; g_data : option hs_class }.
Definition data_of (ctx : xdp_md) (p : parsed) : option hs_class :=
  if doff p * 4 <? sizeof_tcphdr then None
  else if Z.of_nat (length (data ctx)) <? l4 p + doff p * 4 then None
  else if ip_tot p <=? ihl p + doff p * 4 then None
  else Some (classified ctx p).
Definition segment_of (ctx : xdp_md) (p : parsed) : segment :=
  Segment (tcp_flags_bogus (flags p)) (syn (flags p)) (ip_tot p) (data_of ctx p).

(** All the maps hold of one source. *)
Definition record : Type := ∀ V, mapid V → option V.
Definition record_of {M : Type → Type} `{!BpfMap M} (k : ipkey) (w : world M) : record :=
  λ V i, bpf_lookup k (get_map i w).

Section Policy.
Context (c : xdp_config) (g : segment) (s : record) (breaker : option ratelimit).

Definition sick (t : Z) : bool :=
  match s _ HEALTH with Some h => t <? blacklist_until_ns h | None => false end.
(** On the whitelist, and its time to live is not over. *)
Definition trusted (t : Z) : bool :=
  match s _ WHITELIST with
  | Some since => (whitelist_ttl_ns c <=? 0) || (t - since <=? whitelist_ttl_ns c)
  | None => false
  end.
(** As many connections open as the cap allows. *)
Definition capped : bool :=
  (0 <? tcp_max_open_per_ip c) &&
  match s _ OPEN_COUNT with Some o => tcp_max_open_per_ip c <=? o | None => false end.
Definition known : bool :=
  match s _ SYN_SEEN, s _ ESTABLISHED with None, None => false | _, _ => true end.
Definition connected : bool := match s _ ESTABLISHED with Some _ => true | None => false end.

(** What the buckets answer at an instant. *)
Definition traffic_ok (t : Z) : bool := (conn_step c t (g_bytes g) (s _ CONN_RL)).1.
Definition new_ok (t : Z) : bool :=
  if (0 <? conn_new_period_ns c) && (0 <? conn_new_burst c)
  then (rl_step (conn_new_period_ns c) (conn_new_burst c) t (s _ SYN_RL)).1 else true.
Definition breaker_ok (t : Z) : bool := (global_step c t breaker).1.
Definition status_ok (t : Z) : bool :=
  (rl_step (status_period_ns c) (status_burst c) t (s _ STATUS_RL)).1.
Definition login_ok (t : Z) : bool :=
  (rl_step (login_period_ns c) (login_burst c) t (s _ LOGIN_RL)).1.

(** Payload is looked at before the connection is known to be past its handshake: without
    a connection, at its first data, and while the source has several. *)
Definition examined : bool :=
  match s _ ESTABLISHED, s _ FIRST_DATA with
  | Some _, Some _ => match s _ OPEN_COUNT with Some o => 1 <? o | None => false end
  | _, _ => true
  end.
Definition class_seen (hs : hs_class) : hs_class :=
  let hs := if examined then hs else HS_NONE in
  match hs with HS_MALFORMED => if connected then HS_NONE else HS_MALFORMED | _ => hs end.

(** [D t]: the instant [t] lies within the run. *)
Context (D : Z → Prop).

(** A trusted source is held to the caps, and to nothing else. *)
Inductive trusted_ruling : ruling → Prop :=
  | trusted_flood t : D t → traffic_ok t = false →
      trusted_ruling (Drop DROP_REASON_CONN_RATELIMIT)
  | trusted_capped t : D t → traffic_ok t = true → g_syn g = true → capped = true →
      trusted_ruling (Drop DROP_REASON_TCP_TOO_MANY_OPEN)
  | trusted_pass t : D t → traffic_ok t = true → g_syn g && capped = false →
      trusted_ruling Pass.

(** The payload of any other source. *)
Inductive data_ruling : ruling → Prop :=
  | data_empty : g_data g = None → data_ruling Pass
  | data_stranger hs : g_data g = Some hs → class_seen hs ≠ HS_MALFORMED → connected = false →
      data_ruling Pass
  | data_malformed hs : g_data g = Some hs → class_seen hs = HS_MALFORMED →
      data_ruling (Drop DROP_REASON_MALFORMED_HANDSHAKE)
  | data_play hs t r : D t → g_data g = Some hs → class_seen hs = HS_NONE → connected = true →
      r = (if traffic_ok t then Pass else Drop DROP_REASON_CONN_RATELIMIT) → data_ruling r
  | data_status hs t r : D t → g_data g = Some hs → class_seen hs = HS_STATUS → connected = true →
      r = (if status_ok t then Pass else Drop DROP_REASON_STATUS_RATELIMIT) → data_ruling r
  | data_login hs t r : D t → g_data g = Some hs → class_seen hs = HS_LOGIN → connected = true →
      r = (if login_ok t then Pass else Drop DROP_REASON_LOGIN_RATELIMIT) → data_ruling r.

(** A new connection passes the cap, then the source's own rate, then the breaker. *)
Inductive gate_ruling : ruling → Prop :=
  | gate_no_syn : g_syn g = false → known = false → gate_ruling (Drop DROP_REASON_TCP_NO_SYN)
  | gate_known r : g_syn g = false → known = true → data_ruling r → gate_ruling r
  | gate_capped : g_syn g = true → capped = true →
      gate_ruling (Drop DROP_REASON_TCP_TOO_MANY_OPEN)
  | gate_rate t : D t → g_syn g = true → capped = false → new_ok t = false →
      gate_ruling (Drop DROP_REASON_TCP_CONN_RATE)
  | gate_breaker t t' : D t → D t' → g_syn g = true → capped = false → new_ok t = true →
      breaker_ok t' = false → gate_ruling (Drop DROP_REASON_TCP_GLOBAL_RATELIMIT)
  | gate_new t t' r : D t → D t' → g_syn g = true → capped = false → new_ok t = true →
      breaker_ok t' = true → data_ruling r → gate_ruling r.

Inductive policy : ruling → Prop :=
  | policy_bogus : g_bogus g = true → policy (Drop DROP_REASON_TCP_BAD_FLAGS)
  | policy_sick t : g_bogus g = false → D t → sick t = true → policy (Drop DROP_REASON_UNHEALTHY)
  | policy_trusted t t' r : g_bogus g = false → D t → sick t = false → D t' → trusted t' = true →
      trusted_ruling r → policy r
  | policy_other t t' r : g_bogus g = false → D t → sick t = false → D t' → trusted t' = false →
      gate_ruling r → policy r.

(** Only a source that was sick during the run is dropped as unhealthy. *)
Lemma policy_not_sick : policy (Drop DROP_REASON_UNHEALTHY) → (∀ t, D t → sick t = false) → False.
Proof.
  assert (Hdata : ¬ data_ruling (Drop DROP_REASON_UNHEALTHY)).
  { inversion 1; repeat case_match; congruence. }
  intros Hp Hs. inversion Hp as [|t _ Ht Hsick| ? ? ? _ _ _ _ _ Hr| ? ? ? _ _ _ _ _ Hr].
  - by rewrite Hs in Hsick.
  - inversion Hr.
  - inversion Hr; by apply Hdata.
Qed.
End Policy.

(** ** Tunables and records the table is meant for *)
Definition bucket_cfg (P B : Z) : Prop := 0 ≤ P < 2 ^ 64 ∧ 0 ≤ B < 2 ^ 63.
Definition tunables_ok (c : xdp_config) : Prop :=
  limits_ok c ∧ 0 ≤ whitelist_ttl_ns c < 2 ^ 64 ∧
  bucket_cfg (status_period_ns c) (status_burst c) ∧
  bucket_cfg (login_period_ns c) (login_burst c) ∧
  bucket_cfg (conn_new_period_ns c) (conn_new_burst c).

(** What a map holds of a source at time [now]: times that have passed, buckets within
    their capacity, as many drop counters as there are reasons. *)
Definition entry_good (c : xdp_config) (now : Z) {V} (i : mapid V) : option V → Prop :=
  match i in mapid V return option V → Prop with
  | WHITELIST => λ o, match o with Some t => 0 ≤ t ≤ now | None => True end
  | STATUS_RL => entry_ok (status_burst c) now
  | LOGIN_RL => entry_ok (login_burst c) now
  | SYN_RL => λ o, (0 <? conn_new_period_ns c) && (0 <? conn_new_burst c) = true →
                   entry_ok (conn_new_burst c) now o
  | CONN_RL => conn_ok c now
  | DROP_HISTORY => history_ok
  | _ => λ _, True
  end.
Definition record_ok (c : xdp_config) (now : Z) (s : record) : Prop :=
  ∀ V (i : mapid V), entry_good c now i (s V i).
Definition breaker_ok_at (c : xdp_config) (now : Z) (o : option ratelimit) : Prop :=
  ∀ b, o = Some b → tb_ok (tcp_global_burst c) now b.

(** The instants of a run from the [n]-th reading of the clock to the [m]-th. *)
Definition during (e : kenv) (n m : nat) (t : Z) : Prop :=
  ∃ i, (n ≤ i ≤ m)%nat ∧ t = boot_ns e i.

(** ** Following a run

    [at_ S lb G]: the run that started in [w0] has changed at most the maps in [S] (and the
    breaker, unless [G]), has charged nothing yet, and has read the clock up to [lb] at
    least.  The lemmas step over one statement each. *)
Section Follow.
Context {M : Type → Type} `{!BpfMap M, !BpfMapLaws M}.
Context (k : ipkey) (e0 : kenv) (w0 : world M).
Context (Hcfg : tunables_ok (conf e0)) (Hclk : clock_ok e0).
Context (Hrec : record_ok (conf e0) (boot_ns e0 (clock_reads w0)) (record_of k w0)).
Context (Hbrk : breaker_ok_at (conf e0) (boot_ns e0 (clock_reads w0))
                  (tcp_global_ratelimit w0 !! cpu e0)).
Implicit Types (w : world M) (e : kenv) (S : list tag).

Definition at_ S (lb : nat) (G : bool) e w : Prop :=
  e = e0 ∧ only_maps S e0 w0 w ∧ quiet k e0 w0 w ∧
  (G = true → tcp_global_ratelimit w = tcp_global_ratelimit w0) ∧
  (clock_reads w0 ≤ lb ≤ clock_reads w)%nat.

(** The postcondition: a ruling, valid up to the last reading, charged. *)
Definition decided (R : ruling → nat → Prop) (v : xdp_action) e w : Prop :=
  ∃ r, R r (clock_reads w) ∧ v = action r ∧ charged k r e0 w0 w.

Context (R : ruling → nat → Prop).
Notation follows S lb G m := (triple (at_ S lb G) m (decided R)).

Lemma at_later S lb G e w n : at_ S lb G e w → (lb ≤ n ≤ clock_reads w)%nat → at_ S n G e w.
Proof. unfold at_. naive_solver lia. Qed.
Lemma at_run S S' lb G G' {A} (m : prog M A) e w :
  at_ S lb G e w → Preserves (only_maps S') m → Preserves (quiet k) m → Preserves later m →
  S ⊆ S' → (G' = true → G = true ∧ Preserves same_breaker m) →
  at_ S' lb G' e (m e w).2.
Proof.
  intros (-> & Ho & Hq & Hg & Hl) Ho' Hq' Hl' HS Hg'. specialize (Ho' e0 w).
  specialize (Hq' e0 w). specialize (Hl' e0 w). unfold later in Hl'. split_and!; [done|..|lia|lia].
  - etrans; [by eapply only_maps_mono|done].
  - by etrans.
  - intros HG. destruct (Hg' HG) as [? ->]. auto.
Qed.
(** Any statement with known frames; [Q] is what is learned from its answer, of an instant
    up to which the clock has been read. *)
Lemma follow_step S S' lb G G' {A} (m : prog M A) (kk : A → prog M xdp_action)
    (Q : nat → A → Prop) :
  Preserves (only_maps S') m → Preserves (quiet k) m → Preserves later m → S ⊆ S' →
  (G' = true → G = true ∧ Preserves same_breaker m) →
  (∀ e w, at_ S lb G e w → ∃ n, (lb ≤ n ≤ clock_reads (m e w).2)%nat ∧ Q n (m e w).1) →
  (∀ n a, (lb ≤ n)%nat → Q n a → follows S' n G' (kk a)) →
  follows S lb G (m ≫= kk).
Proof.
  intros Ho Hq Hl HS Hg HQ Hk e w Ha. destruct (HQ e w Ha) as (n & Hn & Ha').
  assert (H : at_ S' lb G' e (m e w).2).
  { by apply (at_run S S' lb G G'). }
  specialize (Hk n (m e w).1 (proj1 Hn) Ha' e (m e w).2 (at_later _ _ _ _ _ n H Hn)).
  unfold mbind, prog_bind. by destruct (m e w).
Qed.
Lemma follow_skip S S' lb G {A} (m : prog M A) (kk : A → prog M xdp_action) :
  Preserves (only_maps S') m → Preserves (quiet k) m → Preserves later m → S ⊆ S' →
  Preserves same_breaker m →
  (∀ a, follows S' lb G (kk a)) → follows S lb G (m ≫= kk).
Proof.
  intros Ho Hq Hl HS Hg Hk. apply (follow_step S S' lb G G m kk (λ n _, n = lb)); try done.
  - intros e w Ha. exists lb. split; [|done]. specialize (Hl e w). unfold later in Hl.
    destruct Ha as (_ & _ & _ & _ & ?). lia.
  - by intros n a _ ->.
Qed.

Lemma follow_cfg S lb G f (kk : Z → prog M xdp_action) :
  follows S lb G (kk (f (conf e0))) → follows S lb G (cfg f ≫= kk).
Proof. intros Hk e w Ha. pose proof (proj1 Ha) as ->. by apply (Hk e0 w). Qed.
Lemma follow_lookup S lb G {V} (i : mapid V) (kk : option V → prog M xdp_action) :
  bool_decide (tag_of i ∈ S) = false →
  follows S lb G (kk (record_of k w0 V i)) → follows S lb G (bpf_map_lookup_elem i k ≫= kk).
Proof.
  intros Hi%bool_decide_eq_false Hk e w Ha. unfold mbind, prog_bind, bpf_map_lookup_elem.
  destruct Ha as (-> & Ho & Ha). rewrite (Ho V i Hi). by apply (Hk e0 w).
Qed.
Lemma follow_ktime S lb G (kk : Z → prog M xdp_action) :
  (∀ n, (lb ≤ n)%nat → follows S n G (kk (boot_ns e0 n))) →
  follows S lb G (bpf_ktime_get_boot_ns ≫= kk).
Proof.
  intros Hk. apply (follow_step S S lb G G _ _ (λ n t, t = boot_ns e0 n)); try done.
  1-3: auto with frame.
  - intros HG. split; [done|]. apply same_breaker_ktime.
  - intros e w (-> & _ & _ & _ & Hl). exists (clock_reads w). simpl. rewrite clock_tick.
    split; [lia|done].
  - intros n a Hn ->. by apply Hk.
Qed.

(** *** The limiters, at the instant they read *)
Lemma at_now S lb G e w : at_ S lb G e w →
  boot_ns e0 (clock_reads w0) ≤ boot_ns e0 (clock_reads w).
Proof. intros (_ & _ & _ & _ & H). apply Hclk. lia. Qed.
Lemma at_entry S lb G e w {V} (i : mapid V) : at_ S lb G e w → tag_of i ∉ S →
  bpf_lookup k (get_map i w) = record_of k w0 V i.
Proof. intros (_ & Ho & _) Hi. by rewrite (Ho V i Hi). Qed.
Lemma conn_ok_mono c now now' o : now ≤ now' → conn_ok c now o → conn_ok c now' o.
Proof.
  destruct o as [b|]; [|done]. intros Hn [Hp Hb].
  split; intros Hon; (eapply tb_ok_mono; [exact Hn|auto]).
Qed.

Lemma quiet_take (map : mapid ratelimit) P B : tag_of map ≠ THist →
  Preserves (quiet k) (ratelimit_take map k P B : prog M bool).
Proof.
  intros Hi. unfold ratelimit_take. preserve;
    first [by apply quiet_update|by apply quiet_store].
Qed.
Lemma take_breaker (map : mapid ratelimit) P B :
  Preserves same_breaker (ratelimit_take map k P B : prog M bool).
Proof. unfold ratelimit_take. preserve. Qed.
Lemma follow_take S lb G (map : mapid ratelimit) P B (kk : bool → prog M xdp_action) :
  bool_decide (tag_of map ∈ S) = false → tag_of map ≠ THist → bucket_cfg P B →
  entry_ok B (boot_ns e0 (clock_reads w0)) (record_of k w0 _ map) →
  (∀ n, (lb ≤ n)%nat →
     follows (tag_of map :: S) n G (kk (rl_step P B (boot_ns e0 n) (record_of k w0 _ map)).1)) →
  follows S lb G (ratelimit_take map k P B ≫= kk).
Proof.
  intros Hi%bool_decide_eq_false Hh [HP HB] Hok Hk.
  apply (follow_step S (tag_of map :: S) lb G G _ _
    (λ n b, b = (rl_step P B (boot_ns e0 n) (record_of k w0 _ map)).1)).
  - apply ratelimit_take_maps. apply bool_decide_eq_true. by left.
  - by apply quiet_take.
  - apply ratelimit_take_later.
  - set_solver.
  - intros HG. split; [done|]. apply take_breaker.
  - intros e w Ha. pose proof (at_now _ _ _ _ _ Ha) as Hle. pose proof (proj1 Ha) as ->.
    pose proof (at_entry _ _ _ _ _ map Ha Hi) as He.
    pose proof (ratelimit_take_spec map k P B e0 w HP HB Hclk) as H. unfold entry in H.
    rewrite He in H. specialize (H (entry_ok_mono _ _ _ _ Hle Hok)). cbv zeta in H.
    destruct (ratelimit_take map k P B e0 w) as [b w']. destruct H as [H Hr].
    exists (clock_reads w). destruct Ha as (_ & _ & _ & _ & ?). simpl. split; [lia|].
    by rewrite <- H.
  - intros n b Hn ->. by apply Hk.
Qed.

Lemma conn_take_later n : Preserves later (conn_ratelimit_take k n : prog M bool).
Proof. unfold conn_ratelimit_take. preserve. Qed.
Lemma conn_take_breaker n : Preserves same_breaker (conn_ratelimit_take k n : prog M bool).
Proof. unfold conn_ratelimit_take. preserve. Qed.
Lemma follow_traffic S lb G n (kk : bool → prog M xdp_action) :
  bool_decide (TConn ∈ S) = false → 0 ≤ n < 2 ^ 16 →
  (∀ i, (lb ≤ i)%nat → follows (TConn :: S) i G
     (kk (conn_step (conf e0) (boot_ns e0 i) n (record_of k w0 _ CONN_RL)).1)) →
  follows S lb G (conn_ratelimit_take k n ≫= kk).
Proof.
  intros Hi%bool_decide_eq_false Hn Hk.
  apply (follow_step S (TConn :: S) lb G G _ _
    (λ i b, b = (conn_step (conf e0) (boot_ns e0 i) n (record_of k w0 _ CONN_RL)).1)).
  - apply conn_take_maps. apply bool_decide_eq_true. by left.
  - apply quiet_conn_take.
  - apply conn_take_later.
  - set_solver.
  - intros HG. split; [done|]. apply conn_take_breaker.
  - intros e w Ha. pose proof (at_now _ _ _ _ _ Ha) as Hle. pose proof (proj1 Ha) as ->.
    pose proof (at_entry _ _ _ _ _ CONN_RL Ha Hi) as He.
    pose proof (conn_ratelimit_take_spec k n e0 w (proj1 Hcfg) Hclk Hn) as H.
    rewrite He in H. specialize (H (conn_ok_mono _ _ _ _ Hle (Hrec _ CONN_RL))).
    exists (clock_reads w). pose proof (conn_take_later n e0 w) as Hl. unfold later in Hl.
    destruct (conn_ratelimit_take k n e0 w) as [b w']. simpl in *.
    destruct Ha as (_ & _ & _ & _ & ?). split; [lia|]. unfold now_of in H. by rewrite <- H.
  - intros i b Hi' ->. by apply Hk.
Qed.

Lemma global_take_later : Preserves later (tcp_global_ratelimit_take : prog M bool).
Proof. unfold tcp_global_ratelimit_take, cfg. preserve. Qed.
Lemma follow_breaker S lb (kk : bool → prog M xdp_action) :
  (∀ i, (lb ≤ i)%nat → follows S i false
     (kk (global_step (conf e0) (boot_ns e0 i) (tcp_global_ratelimit w0 !! cpu e0)).1)) →
  follows S lb true (tcp_global_ratelimit_take ≫= kk).
Proof.
  intros Hk.
  apply (follow_step S S lb true false _ _
    (λ i b, b = (global_step (conf e0) (boot_ns e0 i) (tcp_global_ratelimit w0 !! cpu e0)).1)).
  - apply global_take_maps.
  - apply quiet_global_take.
  - apply global_take_later.
  - done.
  - done.
  - intros e w Ha. pose proof (at_now _ _ _ _ _ Ha) as Hle. pose proof (proj1 Ha) as ->.
    destruct Ha as (_ & _ & _ & Hg & Hl). specialize (Hg eq_refl).
    pose proof (tcp_global_ratelimit_take_spec e0 w (proj1 Hcfg) Hclk) as H. rewrite Hg in H.
    exists (clock_reads w). pose proof (global_take_later e0 w) as Hl'. unfold later in Hl'.
    destruct (tcp_global_ratelimit_take e0 w) as [b w']. simpl in *. split; [lia|].
    destruct H as [H _].
    { intros b' Hb. eapply tb_ok_mono; [exact Hle|by apply Hbrk]. }
    unfold now_of in H. by rewrite <- H.
  - intros i b Hi' ->. by apply Hk.
Qed.

(** *** Health, writes and counters *)
Lemma follow_health S lb G (kk : bool → prog M xdp_action) :
  bool_decide (THealth ∈ S) = false →
  (∀ i, (lb ≤ i)%nat → follows S i G (kk (sick (record_of k w0) (boot_ns e0 i)))) →
  follows S lb G (health_is_blacklisted k ≫= kk).
Proof.
  intros Hi%bool_decide_eq_false Hk.
  apply (follow_step S S lb G G _ _ (λ i b, b = sick (record_of k w0) (boot_ns e0 i))).
  - apply health_is_blacklisted_only.
  - apply quiet_blacklisted.
  - unfold health_is_blacklisted. preserve.
  - done.
  - intros HG. split; [done|]. unfold health_is_blacklisted. preserve.
  - intros e w Ha. pose proof (at_entry _ _ _ _ _ HEALTH Ha Hi) as He.
    destruct Ha as (-> & _ & _ & _ & Hl). exists (clock_reads w).
    rewrite health_is_blacklisted_run. unfold health_entry, sick. rewrite He.
    case_match; simpl; rewrite ?clock_tick; split; lia || done.
  - intros i b Hb ->. by apply Hk.
Qed.
(** After an anomaly the record of [HEALTH] is not the initial one any more. *)
Lemma follow_anomaly S lb G (kk : unit → prog M xdp_action) :
  follows (THealth :: S) lb G (kk tt) → follows S lb G (health_record_anomaly k ≫= kk).
Proof.
  intros Hk. apply (follow_skip S (THealth :: S)); [..|by intros []].
  - apply anomaly_maps. apply bool_decide_eq_true. by left.
  - apply quiet_anomaly.
  - unfold health_record_anomaly, cfg. preserve.
  - set_solver.
  - unfold health_record_anomaly, cfg. preserve.
Qed.
Lemma follow_sick_again S lb G (kk : bool → prog M xdp_action) :
  (∀ b, follows S lb G (kk b)) → follows S lb G (health_is_blacklisted k ≫= kk).
Proof.
  intros Hk. apply (follow_skip S S); [apply health_is_blacklisted_only|apply quiet_blacklisted
    |unfold health_is_blacklisted; preserve|done|unfold health_is_blacklisted; preserve|done].
Qed.

Section Writes.
Context {V : Type} (i : mapid V) (v : V) (S : list tag) (lb : nat) (G : bool).
Context (kk : unit → prog M xdp_action) (Hi : tag_of i ≠ THist).
Context (Hk : follows (tag_of i :: S) lb G (kk tt)).
Lemma follow_write (m : prog M unit) :
  (∀ e w, ∃ m', (m e w).2 = set_map i m' w) → follows S lb G (m ≫= kk).
Proof.
  intros Hm. apply (follow_skip S (tag_of i :: S)); [..|by intros []].
  - intros e w. destruct (Hm e w) as (m' & ->). apply only_maps_set.
    apply bool_decide_eq_true. by left.
  - intros e w. destruct (Hm e w) as (m' & ->). by apply quiet_set.
  - intros e w. destruct (Hm e w) as (m' & ->). unfold later. by rewrite clock_set_map.
  - set_solver.
  - intros e w. destruct (Hm e w) as (m' & ->). apply global_set_map.
Qed.
Lemma follow_update : follows S lb G (bpf_map_update_elem i k v ≫= kk).
Proof. apply follow_write. intros e w. by eexists. Qed.
Lemma follow_delete : follows S lb G (bpf_map_delete_elem i k ≫= kk).
Proof. apply follow_write. intros e w. by eexists. Qed.
Lemma follow_store : follows S lb G (map_store i k v ≫= kk).
Proof. apply follow_write. intros e w. by eexists. Qed.
End Writes.
Lemma follow_stat S lb G s (kk : unit → prog M xdp_action) :
  is_drop_stat s = false → follows S lb G (kk tt) → follows S lb G (stat_bump s ≫= kk).
Proof.
  intros Hs Hk. apply (follow_skip S S); [apply only_maps_stat_bump|by apply quiet_stat_bump
    |apply later_stat_bump|done|apply same_breaker_stat_bump|by intros []].
Qed.

(** *** Verdicts *)
Lemma follow_pass S lb G : (∀ m, (lb ≤ m)%nat → R Pass m) → follows S lb G (mret XDP_PASS).
Proof.
  intros HR. apply triple_ret. intros e w (-> & _ & Hq & _ & Hl). exists Pass.
  split; [apply HR; lia|]. split; [done|]. eapply charged_quiet; [exact Hq|apply charged_pass].
Qed.
Lemma decided_drop S lb G q (m : prog M unit) :
  (∀ n, (lb ≤ n)%nat → R (Drop q) n) → Preserves later m →
  (∀ e w, charged k (Drop q) e w (m e w).2) →
  follows S lb G (m ≫= λ _, mret XDP_DROP).
Proof.
  intros HR Hlater Hm e w (-> & _ & Hq & _ & Hl). specialize (Hm e0 w). specialize (Hlater e0 w).
  unfold mbind, prog_bind, mret, prog_ret, later in *. destruct (m e0 w) as [[] w'].
  cbn [fst snd] in *. exists (Drop q). split; [apply HR; lia|]. split; [done|].
  by eapply charged_quiet.
Qed.
Lemma follow_drop S lb G q st (kk : unit → prog M xdp_action) :
  st = stat_of_reason q → q ≠ DROP_REASON_MALFORMED_HANDSHAKE → kk = (λ _, mret XDP_DROP) →
  (∀ m, (lb ≤ m)%nat → R (Drop q) m) → follows S lb G (count_drop k q st ≫= kk).
Proof.
  intros -> Hq -> HR. apply (decided_drop S lb G q); [done| |intros e w; by apply charged_drop].
  unfold count_drop, record_drop, record_drop_idx. preserve.
Qed.
Lemma follow_malformed S lb G (kk : unit → prog M xdp_action) :
  kk = (λ _, mret XDP_DROP) →
  (∀ m, (lb ≤ m)%nat → R (Drop DROP_REASON_MALFORMED_HANDSHAKE) m) →
  follows S lb G (stat_bump STAT_DROP_MALFORMED_HANDSHAKE ≫= kk).
Proof.
  intros -> HR. apply (decided_drop S lb G DROP_REASON_MALFORMED_HANDSHAKE); [done| |].
  - apply later_stat_bump.
  - intros e w. apply charged_malformed.
Qed.
End Follow.

(** Steps over the statements of a part of the program. *)
Ltac not_in := vm_compute; reflexivity.
Ltac follow_one :=
  match goal with
  | |- triple ?P (mret ?a ≫= ?k) ?Q => change (triple P (k a) Q)
  | |- triple _ ((_ ≫= _) ≫= _) _ => apply triple_assoc
  | |- triple _ (mret XDP_PASS) _ => apply follow_pass; [assumption..|intros ? ?]
  | |- triple _ (count_drop _ _ _ ≫= _) _ =>
    apply follow_drop; [assumption..|reflexivity|discriminate|reflexivity|intros ? ?]
  | |- triple _ (stat_bump STAT_DROP_MALFORMED_HANDSHAKE ≫= _) _ =>
    apply follow_malformed; [assumption..|reflexivity|intros ? ?]
  | |- triple _ (stat_bump _ ≫= _) _ => apply follow_stat; [assumption..|reflexivity|]
  | |- triple _ (cfg _ ≫= _) _ => apply follow_cfg; [assumption..|]
  | |- triple _ (bpf_map_lookup_elem _ _ ≫= _) _ => apply follow_lookup; [assumption..|not_in|]
  | |- triple _ (bpf_map_update_elem _ _ _ ≫= _) _ => apply follow_update; [assumption..|discriminate|]
  | |- triple _ (bpf_map_delete_elem _ _ ≫= _) _ => apply follow_delete; [assumption..|discriminate|]
  | |- triple _ (map_store _ _ _ ≫= _) _ => apply follow_store; [assumption..|discriminate|]
  | |- triple _ (bpf_ktime_get_boot_ns ≫= _) _ => apply follow_ktime; [assumption..|intros ? ?]
  | |- triple _ (conn_ratelimit_take _ _ ≫= _) _ =>
    apply follow_traffic; [assumption..|not_in|assumption|intros ? ?]
  | |- triple _ (tcp_global_ratelimit_take ≫= _) _ =>
    apply follow_breaker; [assumption..|intros ? ?]
  | |- triple _ (health_record_anomaly _ ≫= _) _ => apply follow_anomaly; [assumption..|]
  | |- triple _ (health_is_blacklisted _ ≫= _) _ => apply follow_sick_again; [assumption..|intros ?]
  | |- triple _ ((if ?b then _ else _) ≫= _) _ => destruct b eqn:?
  | |- triple _ (if ?b then _ else _) _ => destruct b eqn:?
  | |- triple _ (match ?x with _ => _ end) _ => destruct x eqn:?
  | |- triple _ ((match ?x with _ => _ end) ≫= _) _ => destruct x eqn:?
  | |- triple _ ((match ?x with _ => _ end) _ ≫= _) _ => destruct x eqn:?
  end.
Ltac follow := repeat (follow_one; cbn beta iota).
Ltac fold_record s :=
  repeat match goal with H : context [record_of _ _] |- _ => progress fold s in H end; fold s.
(** The instant of a reading that has happened. *)
Ltac instant := match goal with
  | |- during _ _ _ (boot_ns _ ?i) => exists i; split; [lia|reflexivity]
  end.

Section Decides.
Context {M : Type → Type} `{!BpfMap M, !BpfMapLaws M}.
Context (ctx : xdp_md) (p : parsed) (e0 : kenv) (w0 : world M).
Let c := conf e0.
Let g := segment_of ctx p.
Let s := record_of (src p) w0.
Let brk := tcp_global_ratelimit w0 !! cpu e0.
Let n0 := clock_reads w0.
Context (Hcfg : tunables_ok c) (Hclk : clock_ok e0) (Hlen : 0 ≤ ip_tot p < 2 ^ 16).
Context (Hrec : record_ok c (boot_ns e0 n0) s) (Hbrk : breaker_ok_at c (boot_ns e0 n0) brk).
Context (R : ruling → nat → Prop).
Notation follows S lb G m := (triple (at_ (src p) e0 w0 S lb G) m (decided (src p) e0 w0 R)).

(** The maps that may have changed before the payload is looked at, and after. *)
Definition gated : list tag := [TWl; TSyn; TSynRl].

Lemma follow_weaken S S' lb G G' (m : prog M xdp_action) :
  S ⊆ S' → (G' = true → G = true) → follows S' lb G' m → follows S lb G m.
Proof.
  intros HS HG Hm e w (He & Ho & Hq & Hg & Hl). apply Hm.
  split_and!; [done|by eapply only_maps_mono|done|auto|lia|lia].
Qed.

Section Payload.
Context (lb : nat) (HR : ∀ r m, (lb ≤ m)%nat → data_ruling c g s (during e0 n0 m) r → R r m).
Context (Hlb : (n0 ≤ lb)%nat).

Lemma follow_handshake n hs : (lb ≤ n)%nat → g_data g = Some hs →
  follows (TFirst :: gated) n false (xdp_handshake p (s _ ESTABLISHED) (class_seen s hs)).
Proof.
  intros Hn Hg. destruct Hcfg as (Hl & Httl & Hst & Hlo & Hnew).
  assert (Hcon : connected s = match s _ ESTABLISHED with Some _ => true | None => false end) by done.
  destruct (class_seen s hs) eqn:Hcls; unfold xdp_handshake; destruct (s Z ESTABLISHED) as [t|].
  all: repeat match goal with
    | |- triple _ (ratelimit_take STATUS_RL _ _ _ ≫= _) _ =>
      apply follow_take; [done..|not_in|discriminate|exact Hst|apply (Hrec _ STATUS_RL)|intros ? ?]
    | |- triple _ (ratelimit_take LOGIN_RL _ _ _ ≫= _) _ =>
      apply follow_take; [done..|not_in|discriminate|exact Hlo|apply (Hrec _ LOGIN_RL)|intros ? ?]
    | _ => follow_one; cbn beta iota end.
  all: apply HR; [lia|].
  all: try match goal with Hb : negb (conn_step _ ?t _ _).1 = _ |- _ =>
    eapply (data_play _ _ _ _ hs t); [instant|done..|]; unfold traffic_ok; by destruct (conn_step _ _ _ _).1 end.
  all: try match goal with Hb : negb (rl_step _ _ ?t _).1 = _, Hc : _ = HS_STATUS |- _ =>
    eapply (data_status _ _ _ _ hs t); [instant|done..|]; unfold status_ok; by destruct (rl_step _ _ _ _).1 end.
  all: try match goal with Hb : negb (rl_step _ _ ?t _).1 = _, Hc : _ = HS_LOGIN |- _ =>
    eapply (data_login _ _ _ _ hs t); [instant|done..|]; unfold login_ok; by destruct (rl_step _ _ _ _).1 end.
  all: first [by eapply data_malformed|by eapply data_stranger; [done|rewrite Hcls|]].
Qed.

Lemma follow_payload G S : S ⊆ gated → follows S lb G (xdp_payload ctx p).
Proof.
  intros HS. apply (follow_weaken S gated _ _ false); [done|done|].
  assert (Hdata : g_data g = data_of ctx p) by done. unfold data_of in Hdata.
  pose proof (λ n, follow_handshake n (classified ctx p)) as Hhs.
  unfold class_seen, examined, connected, classified in Hhs, Hdata.
  unfold xdp_payload, xdp_first_segment. cbv zeta in *.
  destruct (doff p * 4 <? sizeof_tcphdr); [follow; apply HR, data_empty; [lia|done]|].
  destruct (Z.of_nat (length (data ctx)) <? _); [follow; apply HR, data_empty; [lia|done]|].
  apply follow_stat; [done..|].
  destruct (ip_tot p <=? _); [follow; apply HR, data_empty; [lia|done]|].
  set (cl := classify_handshake _ _ _) in *.
  apply follow_lookup; [not_in|]. fold s. destruct (s Z ESTABLISHED) as [t|].
  - apply triple_assoc, follow_lookup; [not_in|]. fold s. destruct (s Z FIRST_DATA) as [f|].
    + apply triple_assoc, follow_lookup; [not_in|]. fold s. follow_one.
      apply (follow_weaken _ (TFirst :: gated) _ _ false); [sub_tags|done|].
      destruct (match s Z OPEN_COUNT with Some _ => _ | _ => _ end), cl; by apply Hhs.
    + apply triple_assoc, follow_ktime; [done..|intros n Hn].
      apply triple_assoc, follow_update; [done..|discriminate|]. follow_one.
      apply (follow_weaken _ (TFirst :: gated) _ _ false); [sub_tags|done|]. destruct cl; by apply Hhs.
  - follow_one. apply (follow_weaken _ (TFirst :: gated) _ _ false); [sub_tags|done|].
    destruct cl; by apply Hhs.
Qed.
End Payload.

(** Two tests as units: the open-connection cap and the bucket of new connections. *)
Lemma follow_capped S lb G (b : bool) (kk : bool → prog M xdp_action) :
  bool_decide (TOpen ∈ S) = false → follows S lb G (kk (b && capped c s)) →
  follows S lb G ((if b && (0 <? tcp_max_open_per_ip c) then over_open_cap (src p)
                   else mret false) ≫= kk).
Proof.
  intros HS Hk. unfold capped in Hk. destruct b; cbn [andb] in *; [|by follow_one].
  destruct (0 <? tcp_max_open_per_ip c) eqn:Hon; cbn [andb] in Hk; [|by follow_one].
  unfold over_open_cap. follow_one. apply follow_cfg, triple_assoc, follow_lookup; [done|].
  by follow_one.
Qed.
Lemma follow_new S lb G (kk : bool → prog M xdp_action) :
  bool_decide (TSynRl ∈ S) = false → (n0 ≤ lb)%nat →
  (∀ i, (lb ≤ i)%nat → follows (TSynRl :: S) i G (kk (new_ok c s (boot_ns e0 i)))) →
  follows S lb G ((if (0 <? conn_new_period_ns c) && (0 <? conn_new_burst c)
    then ratelimit_take SYN_RL (src p) (conn_new_period_ns c) (conn_new_burst c)
    else mret true) ≫= kk).
Proof.
  intros HS Hlb Hk. unfold new_ok in Hk. destruct Hcfg as (_ & _ & _ & _ & Hnew).
  destruct ((0 <? conn_new_period_ns c) && _) eqn:Hon.
  - apply follow_take; [done..|discriminate|exact Hnew|by apply (Hrec _ SYN_RL)|done].
  - follow_one. apply (follow_weaken _ (TSynRl :: S) _ _ G); [sub_tags|done|]. by apply Hk.
Qed.

(** The gate: new connections, and segments of connections that are known. *)
Section Gate.
Context (lb : nat) (HR : ∀ r m, (lb ≤ m)%nat → gate_ruling c g s brk (during e0 n0 m) r → R r m).
Context (Hlb : (n0 ≤ lb)%nat).

Lemma follow_gate :
  follows [TWl] lb true (v ← xdp_gate p;
    match v with Some v => mret v | None => xdp_payload ctx p end).
Proof.
  destruct Hcfg as (Hl & Httl & Hst & Hlo & Hnew).
  assert (Hsyn : g_syn g = syn (flags p)) by done.
  unfold xdp_gate, over_open_cap. destruct (syn (flags p)) eqn:Hs; cbn [negb].
  2: { follow; fold_record s.
       3: apply HR, gate_no_syn; [lia|done|unfold known; by rewrite Heqo, Heqo0].
       all: apply (follow_payload lb); [|done|unfold gated; sub_tags]; intros r m Hm Hr; apply HR; [done|];
         apply gate_known; [done| |done]; unfold known; by rewrite ?Heqo, ?Heqo0. }
  apply triple_assoc, follow_cfg, triple_assoc, (follow_capped _ _ _ true); [done|].
  cbn [andb]. destruct (capped c s) eqn:Hcap.
  { follow. apply HR, gate_capped; [lia|done..]. }
  apply triple_assoc, follow_cfg, triple_assoc, follow_cfg, triple_assoc, follow_new; [done..|].
  intros i Hi. destruct (new_ok c s _) eqn:Hnok; cbn [negb].
  2: { follow. apply HR; [lia|]. by apply (gate_rate _ _ _ _ _ (boot_ns e0 i)); [instant|..]. }
  apply triple_assoc, follow_breaker; [done..|]. intros j Hj.
  destruct (global_step _ _ _).1 eqn:Hg; cbn [negb].
  2: { follow. apply HR; [lia|]. by apply (gate_breaker _ _ _ _ _ (boot_ns e0 i) (boot_ns e0 j)); [instant|instant|..]. }
  apply triple_assoc, follow_ktime; [done..|]. intros n Hn. follow.
  apply (follow_payload n); [|lia|unfold gated; sub_tags].
  intros r m Hm Hr. apply HR; [lia|].
  by apply (gate_new _ _ _ _ _ (boot_ns e0 i) (boot_ns e0 j)); [instant|instant|..].
Qed.
End Gate.

(** The whole program behind the header checks. *)
Context (HR : ∀ r m, (n0 ≤ m)%nat → policy c g s brk (during e0 n0 m) r → R r m).

Lemma expired_trusted t now : s _ WHITELIST = Some t → 0 ≤ t ≤ now → now < 2 ^ 63 →
  (0 <? whitelist_ttl_ns c) && (whitelist_ttl_ns c <? u64 (now - t)) = negb (trusted c s now).
Proof.
  intros Hwl Ht Hnow. unfold trusted. rewrite Hwl.
  change (2 ^ 63) with 9223372036854775808 in *. rewrite u64_id by word_lia.
  apply Bool.eq_iff_eq_true. rewrite andb_true_iff, negb_true_iff, orb_false_iff.
  rewrite !Z.ltb_lt, !Z.leb_gt. done.
Qed.

Lemma follow_filter : follows [] n0 true (xdp_filter ctx p).
Proof.
  assert (Hbog : g_bogus g = tcp_flags_bogus (flags p)) by done.
  assert (Hsyn : g_syn g = syn (flags p)) by done.
  unfold xdp_filter. destruct (tcp_flags_bogus (flags p)).
  { follow. apply HR; [lia|]. by apply policy_bogus. }
  apply follow_health; [done..|]. intros i Hi. fold s. destruct (sick s _) eqn:Hsick.
  { follow. apply HR; [lia|]. by apply (policy_sick _ _ _ _ _ (boot_ns e0 i)); [|instant|]. }
  unfold xdp_trusted. apply triple_assoc, follow_lookup; [done|]. fold s.
  destruct (s Z WHITELIST) as [t|] eqn:Hwl.
  2: { follow_one. apply (follow_weaken _ [TWl] _ _ true); [sub_tags|done|].
       apply follow_gate; [|done]. intros r m Hm Hr. apply HR; [lia|].
       apply (policy_other _ _ _ _ _ (boot_ns e0 i) (boot_ns e0 i)); [done|instant|done|instant| |done].
       unfold trusted. by rewrite Hwl. }
  pose proof (Hrec _ WHITELIST) as Ht. simpl in Ht. rewrite Hwl in Ht.
  apply triple_assoc, follow_ktime; [done..|]. intros j Hj.
  apply triple_assoc, follow_cfg. rewrite (expired_trusted t); [|done|..].
  2: { split; [lia|]. etrans; [apply Ht|]. apply Hclk. lia. }
  2: apply Hclk.
  destruct (trusted c s _) eqn:Htr; cbn [negb].
  2: { apply triple_assoc, follow_delete; [done..|]. follow_one.
       apply follow_gate; [|lia]. intros r m Hm Hr. apply HR; [lia|].
       by apply (policy_other _ _ _ _ _ (boot_ns e0 i) (boot_ns e0 j)); [|instant| |instant|..]. }
  assert (HT : ∀ r m, (j ≤ m)%nat → trusted_ruling c g s (during e0 n0 m) r → R r m).
  { intros r m Hm Hr. apply HR; [lia|].
    by apply (policy_trusted _ _ _ _ _ (boot_ns e0 i) (boot_ns e0 j)); [|instant| |instant|..]. }
  apply triple_assoc, follow_traffic; [done..|]. intros n Hn. fold s.
  destruct (conn_step _ _ _ _).1 eqn:Hconn; cbn [negb].
  2: { follow; apply HT; [lia| |lia|]; by apply (trusted_flood _ _ _ _ (boot_ns e0 n)); [instant|]. }
  apply triple_assoc, follow_cfg, triple_assoc, follow_capped; [done|].
  destruct (syn (flags p) && capped c s) eqn:Hcap.
  { apply andb_true_iff in Hcap as [Hs Hcap]. follow. apply HT; [lia|].
    by apply (trusted_capped _ _ _ _ (boot_ns e0 n)); [instant|..]. }
  follow. apply HT; [lia|]. by apply (trusted_pass _ _ _ _ (boot_ns e0 n)); [instant|..].
Qed.
End Decides.
