(* ===== verification/Sockops.v ===== *)
(** * The sockops program ([bpf/minecraft_sockops.bpf.c])

    Called by the kernel when a socket of the cgroup is established or changes state:
    it keeps tcp_established and the count of open connections per source.  The
    decrement is a compare-and-swap loop; [race] is what the other CPUs make of the
    counter between the read and the swap of each attempt. *)
From S2P Require Import Prelude Kernel World Frame Hoare.

(** ** The context of a call *)
Record bpf_sock_ops := SockOps {
  local_port : Z; family : Z; remote_ip4 : ipkey; sk_op : Z; arg0 : Z; arg1 : Z }.
Definition AF_INET : Z := 2.
Definition AF_INET6 : Z := 10.
Definition BPF_SOCK_OPS_PASSIVE_ESTABLISHED_CB : Z := 5.
Definition BPF_SOCK_OPS_STATE_CB : Z := 10.
(** The TCP states, by their numbers in the kernel. *)
Definition BPF_TCP_ESTABLISHED : Z := 1.
Definition BPF_TCP_FIN_WAIT1 : Z := 4.
Definition BPF_TCP_FIN_WAIT2 : Z := 5.
Definition BPF_TCP_TIME_WAIT : Z := 6.
Definition BPF_TCP_CLOSE : Z := 7.
Definition BPF_TCP_CLOSE_WAIT : Z := 8.
Definition BPF_TCP_LAST_ACK : Z := 9.
Definition BPF_TCP_CLOSING : Z := 11.
Definition no_ip : ipkey := IPKey 0 0 0 0.

(** The states an open connection is in when it goes to CLOSE. *)
Definition was_open (old_state : Z) : bool :=
  (old_state =? BPF_TCP_ESTABLISHED) || (old_state =? BPF_TCP_FIN_WAIT1) ||
  (old_state =? BPF_TCP_FIN_WAIT2) || (old_state =? BPF_TCP_CLOSE_WAIT) ||
  (old_state =? BPF_TCP_LAST_ACK) || (old_state =? BPF_TCP_TIME_WAIT) ||
  (old_state =? BPF_TCP_CLOSING).

Section Sockops.
Context {M : Type → Type} `{!BpfMap M}.

(** [BPF_NOEXIST]: an entry that is there is kept. *)
Definition update_noexist {V} (i : mapid V) (k : ipkey) (v : V) : prog M unit :=
  o ← bpf_map_lookup_elem i k;
  match o with Some _ => mret tt | None => bpf_map_update_elem i k v end.

Definition open_count_inc (src : ipkey) : prog M unit :=
  update_noexist OPEN_COUNT src 0;;
  count ← bpf_map_lookup_elem OPEN_COUNT src;
  match count with
  | Some c => map_store OPEN_COUNT src (u64 (c + 1))
  | None => mret tt
  end.

Section Dec.
(** [race i v]: the counter when attempt [i] swaps, [v] when it read it. *)
Context (race : nat → Z → Z).

(** [__sync_val_compare_and_swap(count, cur, new)] of attempt [i]. *)
Definition sync_val_compare_and_swap (i : nat) (src : ipkey) (cur new : Z) : prog M Z :=
  let v := race i cur in
  map_store OPEN_COUNT src (if v =? cur then new else v);; mret v.

(** The deletions when the last connection closes. *)
Definition forget_source (src : ipkey) : prog M unit :=
  bpf_map_delete_elem ESTABLISHED src;;
  bpf_map_delete_elem WHITELIST src;;
  bpf_map_delete_elem FIRST_DATA src.

(** The unrolled loop, [n] attempts left of 8. *)
Fixpoint dec_loop (n : nat) (src : ipkey) : prog M unit :=
  match n with
  | O => mret tt
  | S n =>
    count ← bpf_map_lookup_elem OPEN_COUNT src;
    match count with
    | None => mret tt
    | Some cur =>
      if cur =? 0 then mret tt
      else
        seen ← sync_val_compare_and_swap (7 - n) src cur (u64 (cur - 1));
        if negb (seen =? cur) then dec_loop n src
        else if cur =? 1 then forget_source src
        else mret tt
    end
  end.
Definition open_count_dec (src : ipkey) : prog M unit := dec_loop 8 src.

(** Returns the value of the program and whether it asks for state callbacks. *)
Definition minecraft_sockops (skops : bpf_sock_ops) : prog M (Z * bool) :=
  port ← cfg target_port;
  if negb (local_port skops =? port) then mret (1, false)
  else if negb (family skops =? AF_INET) && negb (family skops =? AF_INET6)
  then mret (1, false)
  else if bool_decide (remote_ip4 skops = no_ip) then mret (1, false)
  else if sk_op skops =? BPF_SOCK_OPS_PASSIVE_ESTABLISHED_CB then
    now ← bpf_ktime_get_boot_ns;
    bpf_map_update_elem ESTABLISHED (remote_ip4 skops) now;;
    stat_bump STAT_TCP_ESTABLISHED_INSERTS;;
    open_count_inc (remote_ip4 skops);;
    mret (1, true)
  else if sk_op skops =? BPF_SOCK_OPS_STATE_CB then
    (if (arg1 skops =? BPF_TCP_CLOSE) && was_open (arg0 skops)
     then open_count_dec (remote_ip4 skops) else mret tt);;
    mret (1, false)
  else mret (1, false).
End Dec.
End Sockops.
(** No other CPU touches the counter. *)
Definition no_race (i : nat) (v : Z) : Z := v.

(** ** The counter *)
Section Counter.
Context {M : Type → Type} `{!BpfMap M, !BpfMapLaws M}.
Implicit Types (w : world M) (e : kenv).

(** Only entries of the source in the four maps of the program change. *)
Definition sock_tags : list tag := [TEst; TWl; TFirst; TOpen].

Lemma inc_only k : Preserves (only_ip k) (open_count_inc k : prog M unit).
Proof. unfold open_count_inc, update_noexist. preserve. Qed.
Lemma inc_maps k : Preserves (only_maps [TOpen]) (open_count_inc k : prog M unit).
Proof. unfold open_count_inc, update_noexist. preserve. Qed.
Lemma inc_counts k e w :
  bpf_lookup k (get_map OPEN_COUNT (open_count_inc k e w).2) =
    Some (u64 (default 0 (bpf_lookup k (get_map OPEN_COUNT w)) + 1)).
Proof.
  unfold open_count_inc, update_noexist, bpf_map_lookup_elem, bpf_map_update_elem, map_store,
    mbind, prog_bind.
  destruct (bpf_lookup k (get_map OPEN_COUNT w)) as [c|] eqn:Hc; cbn [mret prog_ret].
  - rewrite Hc. cbn [snd default]. rewrite get_set_eq, bpf_lookup_store_eq; [done|]. by rewrite Hc.
  - rewrite get_set_eq, bpf_lookup_update_eq. cbn [snd default]. rewrite !get_set_eq.
    by rewrite bpf_lookup_store_eq by (by rewrite bpf_lookup_update_eq).
Qed.

(** One attempt at a time. *)
Lemma dec_loop_step race n k e w cur : bpf_lookup k (get_map OPEN_COUNT w) = Some cur →
  let v := race (7 - n)%nat cur in
  let w' := set_map OPEN_COUNT
    (bpf_store k (if v =? cur then u64 (cur - 1) else v) (get_map OPEN_COUNT w)) w in
  dec_loop race (S n) k e w =
    if cur =? 0 then (tt, w)
    else if v =? cur then (if cur =? 1 then forget_source k e w' else (tt, w'))
    else dec_loop race n k e w'.
Proof.
  intros Hc v w'. cbn [dec_loop].
  unfold mbind at 1, prog_bind at 1. unfold bpf_map_lookup_elem at 1. rewrite Hc.
  destruct (cur =? 0); [done|]. unfold mbind at 1, prog_bind at 1.
  unfold sync_val_compare_and_swap, map_store at 1. unfold mbind at 1, prog_bind at 1.
  fold v. fold w'. unfold mret at 1, prog_ret at 1. destruct (v =? cur); [|done].
  by destruct (cur =? 1).
Qed.

Lemma forget_maps k : Preserves (only_maps [TEst; TWl; TFirst]) (forget_source k : prog M unit).
Proof. unfold forget_source. preserve. Qed.
Lemma forget_only k : Preserves (only_ip k) (forget_source k : prog M unit).
Proof. unfold forget_source. preserve. Qed.
Lemma forget_forgets k e w :
  let w' := (forget_source k e w).2 in
  bpf_lookup k (get_map ESTABLISHED w') = None ∧ bpf_lookup k (get_map WHITELIST w') = None ∧
  bpf_lookup k (get_map FIRST_DATA w') = None.
Proof.
  unfold forget_source, bpf_map_delete_elem, mbind, prog_bind. cbv beta iota zeta. cbn [snd].
  repeat first [rewrite get_set_eq|rewrite get_set_ne by done].
  by rewrite !bpf_lookup_delete_eq.
Qed.
End Counter.

(** ** The compare-and-swap loop under interference *)
Section Race.
Context {M : Type → Type} `{!BpfMap M, !BpfMapLaws M}.
Implicit Types (w : world M) (e : kenv).
Context (race : nat → Z → Z).

(** The counter before attempt [j], as long as every attempt is disturbed. *)
Fixpoint counter_at (c : Z) (j : nat) : Z :=
  match j with O => c | S j => race j (counter_at c j) end.
Definition disturbed (c : Z) (j : nat) : Prop :=
  ∀ i, (i < j)%nat → counter_at c i ≠ 0 ∧ race i (counter_at c i) ≠ counter_at c i.

Lemma store_count k e w (c v : Z) : bpf_lookup k (get_map OPEN_COUNT w) = Some c →
  let w' := set_map OPEN_COUNT (bpf_store k v (get_map OPEN_COUNT w)) w in
  bpf_lookup k (get_map OPEN_COUNT w') = Some v ∧ only_maps [TOpen] e w w'.
Proof.
  intros Hc w'. unfold w'. split.
  - rewrite get_set_eq, bpf_lookup_store_eq; [done|by rewrite Hc].
  - by apply only_maps_set.
Qed.

Lemma dec_disturbed k e w c j : bpf_lookup k (get_map OPEN_COUNT w) = Some c →
  (j ≤ 8)%nat → disturbed c j → ∃ w',
    dec_loop race 8 k e w = dec_loop race (8 - j) k e w' ∧
    bpf_lookup k (get_map OPEN_COUNT w') = Some (counter_at c j) ∧ only_maps [TOpen] e w w'.
Proof.
  intros Hc. induction j as [|j IH]; intros Hj Hd.
  { exists w. split; [done|]. split; [done|reflexivity]. }
  destruct IH as (w1 & Hrun & Hv & Ho); [lia|intros i Hi; apply Hd; lia|].
  destruct (Hd j ltac:(lia)) as [Hz Hne].
  pose proof (store_count k e w1 _ (counter_at c (S j)) Hv) as [Hc' Ho'].
  eexists. split; [|split; [exact Hc'|by etrans]]. rewrite Hrun.
  replace (8 - j)%nat with (S (8 - S j)) by lia.
  rewrite (dec_loop_step race (8 - S j) k e w1 _ Hv).
  replace (7 - (8 - S j))%nat with j by lia.
  by rewrite (proj2 (Z.eqb_neq _ _) Hz), (proj2 (Z.eqb_neq _ _) Hne).
Qed.

(** An attempt that nobody disturbs, [n] attempts before the last. *)
Lemma dec_swap n k e w v : bpf_lookup k (get_map OPEN_COUNT w) = Some v →
  0 < v < 2 ^ 64 → race (7 - n)%nat v = v →
  let w' := (dec_loop race (S n) k e w).2 in
  bpf_lookup k (get_map OPEN_COUNT w') = Some (v - 1) ∧
  (v = 1 → bpf_lookup k (get_map ESTABLISHED w') = None ∧
           bpf_lookup k (get_map WHITELIST w') = None ∧
           bpf_lookup k (get_map FIRST_DATA w') = None) ∧
  (v ≠ 1 → only_maps [TOpen] e w w').
Proof.
  intros Hv Hpos Hr w'. unfold w'. rewrite (dec_loop_step race n k e w _ Hv).
  rewrite (proj2 (Z.eqb_neq v 0)) by lia. rewrite Hr, Z.eqb_refl.
  rewrite (u64_id (v - 1)) by (words; lia).
  pose proof (store_count k e w _ (v - 1) Hv) as [Hc' Ho'].
  set (w2 := set_map _ _ w) in *. destruct (Z.eqb_spec v 1) as [Heq|Hne].
  - pose proof (forget_maps k e w2) as Hm. split_and!; [|intros _; apply forget_forgets|done].
    by rewrite (Hm _ OPEN_COUNT) by new_tag.
  - cbn [snd]. by split_and!.
Qed.

(** C20. The decrement under interference: after [j] attempts that other CPUs
    disturbed, an undisturbed attempt takes exactly one off the counter, and clears
    the source's entries exactly when it was the last one; a counter found at zero is
    left alone; and when all eight attempts are disturbed the decrement is lost: the
    counter is what the others made it. *)
Theorem open_count_dec_races k e w c j :
  bpf_lookup k (get_map OPEN_COUNT w) = Some c → (j ≤ 8)%nat → disturbed c j →
  let v := counter_at c j in
  let w' := (open_count_dec race k e w).2 in
  ((j < 8)%nat → v = 0 →
     bpf_lookup k (get_map OPEN_COUNT w') = Some 0 ∧ only_maps [TOpen] e w w') ∧
  ((j < 8)%nat → 0 < v < 2 ^ 64 → race j v = v →
     bpf_lookup k (get_map OPEN_COUNT w') = Some (v - 1) ∧
     (v = 1 → bpf_lookup k (get_map ESTABLISHED w') = None ∧
              bpf_lookup k (get_map WHITELIST w') = None ∧
              bpf_lookup k (get_map FIRST_DATA w') = None) ∧
     (v ≠ 1 → only_maps [TOpen] e w w')) ∧
  (j = 8%nat → bpf_lookup k (get_map OPEN_COUNT w') = Some v ∧ only_maps [TOpen] e w w').
Proof.
  intros Hc Hj Hd v w'. destruct (dec_disturbed k e w c j Hc Hj Hd) as (w1 & Hrun & Hv & Ho).
  fold v in Hv. unfold w', open_count_dec. rewrite Hrun. split_and!; intros Hj8.
  1, 2: replace (8 - j)%nat with (S (7 - j)) by lia.
  - intros Hz. rewrite (dec_loop_step race (7 - j) k e w1 _ Hv).
    rewrite (proj2 (Z.eqb_eq v 0) Hz). cbn [snd]. split; [by rewrite Hv, Hz|done].
  - intros Hpos Hr. destruct (dec_swap (7 - j) k e w1 v Hv Hpos) as (H1 & H2 & H3).
    { by replace (7 - (7 - j))%nat with j by lia. }
    split_and!; [done|done|]. intros Hne. etrans; [done|by apply H3].
  - subst j. simpl. by split.
Qed.
End Race.
