(* ===== verification/Datapath.v ===== *)
(** * The datapath over time

    Both programs on all CPUs, over one boot clock: [reach] holds of the states that
    packets and socket callbacks lead to, in any order and number, with any interference
    in the counter of open connections.  [world_ok] is the invariant of the limiters, the
    whitelist, the drop histories and the counters; with it the policy of [Policy] holds
    in every reachable state. *)
From S2P Require Import Prelude Kernel World Frame Hoare Packet Handshake TokenBucket Limits Health Xdp XdpAccounting XdpProps Policy Sockops.

(** ** Entries age well *)
Section Entries.
Context (c : xdp_config) {V : Type} (i : mapid V).
Lemma entry_good_none now : entry_good c now i None.
Proof. by destruct i; simpl. Qed.
Lemma entry_good_mono now now' o : now ≤ now' → entry_good c now i o → entry_good c now' i o.
Proof.
  intros Hn. destruct i; simpl; try done.
  - destruct o; lia.
  - by apply entry_ok_mono.
  - by apply entry_ok_mono.
  - intros Ho Hon. eapply entry_ok_mono; [exact Hn|auto].
  - by apply conn_ok_mono.
Qed.
End Entries.
Lemma tag_of_eq (P : ∀ W, mapid W → Prop) {V W} (i : mapid V) (j : mapid W) :
  tag_of i = tag_of j → P V i → P W j.
Proof. by destruct i, j. Qed.

Section Invariant.
Context {M : Type → Type} `{!BpfMap M, !BpfMapLaws M}.
Implicit Types (w : world M) (e : kenv).

Record world_ok (c : xdp_config) (now : Z) w : Prop := {
  ok_records k : record_ok c now (record_of k w);
  ok_breakers n : breaker_ok_at c now (tcp_global_ratelimit w !! n);
  ok_counters n row : stats w !! n = Some row → length row = STAT_MAX;
}.

Lemma world_ok_mono c now now' w : now ≤ now' → world_ok c now w → world_ok c now' w.
Proof.
  intros Hn [Hr Hb Hs]. split; [|intros n b Hbn|done].
  - intros k V i. eapply entry_good_mono; [exact Hn|apply Hr].
  - eapply tb_ok_mono; [exact Hn|by apply (Hb n)].
Qed.

Context (c : xdp_config) (Hcfg : tunables_ok c).
Definition good e w : Prop := conf e = c ∧ clock_ok e ∧ world_ok c (now_of e w) w.
(** [t] is a time that has passed. *)
Definition past (t : Z) e w : Prop := good e w ∧ 0 ≤ t ≤ now_of e w.
Notation Keeps t m := (triple (past t) m (λ _, past t)).

Lemma now_later e w w' : clock_ok e → later e w w' → now_of e w ≤ now_of e w'.
Proof. intros [_ H] Hl. apply H, Hl. Qed.

Lemma keep_ret t {A} (a : A) : Keeps t (mret a).
Proof. by intros e w. Qed.
Lemma keep_bind t {A B} (m : prog M A) (f : A → prog M B) :
  Keeps t m → (∀ a, Keeps t (f a)) → Keeps t (m ≫= f).
Proof. intros Hm Hf. by eapply triple_bind. Qed.
Lemma keep_cfg t f {B} (m : Z → prog M B) : Keeps t (m (f c)) → Keeps t (cfg f ≫= m).
Proof.
  intros Hm e w Hp. pose proof (proj1 (proj1 Hp)) as He.
  unfold mbind, prog_bind, cfg, reads. rewrite He. by apply (Hm e w).
Qed.
Lemma keep_lookup t {V} (i : mapid V) k : Keeps t (bpf_map_lookup_elem i k).
Proof. by intros e w. Qed.
(** A statement about [k] that writes one map, keeps the counters and the breaker, and
    leaves a good entry. *)
Lemma keep_map t k {V} (i : mapid V) {A} (m : prog M A) :
  Preserves (only_ip k) m → Preserves (only_maps [tag_of i]) m → Preserves later m →
  Preserves same_stats m → Preserves same_breaker m →
  (∀ e w, past t e w → let w' := (m e w).2 in
     entry_good c (now_of e w') i (bpf_lookup k (get_map i w'))) →
  Keeps t m.
Proof.
  intros Hip Hmaps Hlater Hst Hg Hi e w Hpast. pose proof Hpast as ((Hc & Hclk & Hw) & Ht).
  specialize (Hip e w). specialize (Hmaps e w). specialize (Hst e w). specialize (Hg e w).
  pose proof (now_later e w _ Hclk (Hlater e w)) as Hn. specialize (Hi e w Hpast). cbv zeta in Hi.
  apply (world_ok_mono _ _ _ _ Hn) in Hw. destruct Hw as [Hr Hb Hs].
  split; [|lia]. split_and!; [done..|]. split.
  - intros k' W j. unfold record_of.
    destruct (decide (tag_of i = tag_of j)) as [Htag|Hne].
    + destruct (decide (k' = k)) as [->|Hk]; [by apply (tag_of_eq (λ W j, entry_good c _ j (bpf_lookup k (get_map j _))) i j)|].
      destruct (Hip W j k' Hk) as [-> | ->]; [apply Hr|apply entry_good_none].
    + rewrite (Hmaps W j) by (rewrite list_elem_of_singleton; congruence). apply Hr.
  - intros n. rewrite Hg. apply Hb.
  - intros n row. rewrite Hst. apply Hs.
Qed.

Section Write.
Context (t : Z) (k : ipkey) {V : Type} (i : mapid V) (v : V).
Context (Hv : ∀ now, t ≤ now → 0 ≤ t → entry_good c now i (Some v)).
Lemma keep_set (m : prog M unit) (f : M V → M V) :
  (∀ e w, (m e w).2 = set_map i (f (get_map i w)) w) → (∀ x, map_only k x (f x)) →
  (∀ x, bpf_lookup k (f x) = Some v ∨ bpf_lookup k (f x) = None) → Keeps t m.
Proof.
  intros Hm Hf Hl. apply (keep_map t k i); try (intros e w; rewrite Hm).
  - by apply only_ip_set.
  - apply only_maps_set. apply bool_decide_eq_true. by left.
  - unfold later. by rewrite clock_set_map.
  - apply stats_set_map.
  - apply global_set_map.
  - cbv zeta. intros [_ Ht]. rewrite get_set_eq. unfold now_of. rewrite clock_set_map.
    destruct (Hl (get_map i w)) as [-> | ->]; [apply Hv; [apply Ht|lia]|apply entry_good_none].
Qed.
Lemma keep_update : Keeps t (bpf_map_update_elem i k v).
Proof.
  apply (keep_set _ (bpf_update k v)); [done|intros x; apply map_only_update|].
  intros x. left. apply bpf_lookup_update_eq.
Qed.
Lemma keep_store : Keeps t (map_store i k v).
Proof.
  apply (keep_set _ (bpf_store k v)); [done|intros x; apply map_only_store|].
  intros x. destruct (bpf_lookup k x) eqn:Hx.
  - left. by apply bpf_lookup_store_eq; eauto.
  - right. by apply bpf_lookup_store_none.
Qed.
End Write.
Lemma keep_delete t k {V} (i : mapid V) : Keeps t (bpf_map_delete_elem i k).
Proof.
  apply (keep_map t k i); try (intros e w; simpl).
  - apply only_ip_set, map_only_delete.
  - apply only_maps_set. apply bool_decide_eq_true. by left.
  - unfold later. simpl. by rewrite clock_set_map.
  - apply stats_set_map.
  - apply global_set_map.
  - intros _. rewrite get_set_eq, bpf_lookup_delete_eq. apply entry_good_none.
Qed.

Lemma keep_ktime t {B} (f : Z → prog M B) :
  (∀ t', t ≤ t' → Keeps t' (f t')) → Keeps t (bpf_ktime_get_boot_ns ≫= f).
Proof.
  intros Hf e w [(Hc & Hclk & Hw) Ht]. unfold mbind, prog_bind, bpf_ktime_get_boot_ns.
  set (t' := boot_ns e (clock_reads w)).
  assert (Hn : now_of e w ≤ now_of e (tick w)) by (apply Hclk; rewrite clock_tick; lia).
  assert (Hp : past t' e (tick w)).
  { split; [split_and!; [done..|]|].
    - apply (world_ok_mono _ _ _ _ Hn) in Hw. destruct Hw as [Hr Hb Hs]. split.
      + intros k V i. unfold record_of. rewrite get_tick. apply Hr.
      + intros n. rewrite global_tick. apply Hb.
      + intros n row. rewrite stats_tick. apply Hs.
    - split; [apply Hclk|exact Hn]. }
  destruct (Hf t' (proj2 Ht) e (tick w) Hp) as [Hg' Ht']. split; [done|].
  unfold now_of in Ht at 1. fold t' in Ht. lia.
Qed.

Lemma keep_stat t s : Keeps t (stat_bump s).
Proof.
  intros e w [(Hc & Hclk & [Hr Hb Hs]) Ht].
  assert (Hn : clock_reads (stat_bump s e w).2 = clock_reads w)
    by (unfold stat_bump; repeat case_match; simpl; by autorewrite with world).
  split; [split_and!; [done..|]|]; unfold now_of in *; rewrite ?Hn; [|done]. split.
  - intros k V i. unfold record_of.
    rewrite (only_maps_stat_bump [] s e w _ i) by apply not_elem_of_nil. apply Hr.
  - intros n. rewrite (same_breaker_stat_bump s e w). apply Hb.
  - intros n row. unfold stat_bump. destruct (stats w !! cpu e) as [row'|] eqn:Hrow; [|apply Hs].
    destruct (row' !! stat_slot s); [|apply Hs]. simpl. rewrite stats_set_stats.
    destruct (decide (n = cpu e)) as [->|Hne].
    + rewrite list_lookup_insert_eq by (by eapply lookup_lt_Some). intros [= <-].
      rewrite length_insert. by eapply Hs.
    + rewrite list_lookup_insert_ne by done. apply Hs.
Qed.

(** The helpers keep the invariant. *)
Lemma keep_record_drop t k r : Keeps t (record_drop k r : prog M unit).
Proof.
  apply (keep_map t k DROP_HISTORY); try (unfold record_drop, record_drop_idx; by preserve).
  intros e w [(_ & _ & [Hr _ _]) _]. apply (record_drop_spec k r r e w), (Hr k _ DROP_HISTORY).
Qed.
Lemma keep_anomaly t k : Keeps t (health_record_anomaly k : prog M unit).
Proof. by apply (keep_map t k HEALTH); try (unfold health_record_anomaly, cfg; by preserve). Qed.
(** A take of a limiter whose entries the invariant bounds by [B]. *)
Lemma keep_take t k (map : mapid ratelimit) P B : bucket_cfg P B →
  (∀ now o, entry_good c now map o ↔ entry_ok B now o) →
  Keeps t (ratelimit_take map k P B : prog M bool).
Proof.
  intros [HP HB] Hmap. apply (keep_map t k map).
  - by apply ratelimit_take_frame.
  - apply ratelimit_take_maps. apply bool_decide_eq_true. by left.
  - apply ratelimit_take_later.
  - unfold ratelimit_take. preserve.
  - apply take_breaker.
  - intros e w [(Hc & Hclk & [Hr _ _]) _]. cbv zeta. apply Hmap.
    pose proof (proj1 (Hmap _ _) (Hr k _ map)) as Hok.
    pose proof (ratelimit_take_spec map k P B e w HP HB Hclk Hok) as H. cbv zeta in H.
    pose proof (ratelimit_take_later map k P B e w) as Hl.
    apply (now_later _ _ _ Hclk) in Hl. destruct (ratelimit_take map k P B e w) as [b w'].
    destruct H as [H _]. unfold entry in H. simpl in *.
    eapply entry_ok_mono; [exact Hl|].
    replace (bpf_lookup k (get_map map w')) with (rl_step P B (now_of e w) (record_of k w _ map)).2
      by (unfold record_of, now_of; by rewrite <- H).
    apply rl_step_ok; [lia|lia|apply Hclk|done].
Qed.
Lemma conn_step_ok now n o : 0 ≤ now → 0 ≤ n → conn_ok c now o → conn_ok c now (conn_step c now n o).2.
Proof.
  intros Hnow Hn Ho. destruct Hcfg as ((_ & [HPp HBp] & [HPb HBb]) & _). unfold conn_step.
  destruct (negb (pkt_on c) && negb (byte_on c)); [done|]. destruct o as [b|]; simpl.
  - destruct Ho as [Hp Hb].
    destruct (opt_take (pkt_on c) _ _ 1 now _) as [p|] eqn:Ep; [|done].
    assert (Hp' : pkt_on c = true → tb_ok (conn_pkt_burst c) now p).
    { intros Hon. rewrite Hon in Ep. simpl in Ep. specialize (Hp Hon).
      by eapply (tb_take_ok (conn_pkt_period_ns c)) in Ep as (? & _); [|lia|lia|]. }
    destruct (opt_take (byte_on c) _ _ n now _) as [q|] eqn:Eq; simpl.
    + split; rewrite ?pkt_part_join, ?byte_part_join; [done|]. intros Hon. rewrite Hon in Eq.
      simpl in Eq. specialize (Hb Hon).
      by eapply (tb_take_ok (conn_byte_period_ns c)) in Eq as (? & _); [|lia|lia|].
    + split; rewrite ?pkt_part_join, ?byte_part_join; [done|]. auto.
  - unfold conn_ok, pkt_part, byte_part, tb_ok. simpl. split; intros Hon; rewrite ?Hon;
      repeat case_match; bool_hyps; lia.
Qed.
Lemma keep_conn_take t k n : 0 ≤ n < 2 ^ 16 → Keeps t (conn_ratelimit_take k n : prog M bool).
Proof.
  intros Hn. apply (keep_map t k CONN_RL).
  - apply conn_ratelimit_frame.
  - apply conn_take_maps. reflexivity.
  - apply conn_take_later.
  - unfold conn_ratelimit_take. preserve.
  - apply conn_take_breaker.
  - intros e w [(Hc & Hclk & [Hr _ _]) _]. cbv zeta.
    pose proof (conn_ratelimit_take_spec k n e w) as H. rewrite Hc in H.
    specialize (H (proj1 Hcfg) Hclk Hn (Hr k _ CONN_RL)).
    pose proof (now_later _ _ _ Hclk (conn_take_later k n e w)) as Hl.
    destruct (conn_ratelimit_take k n e w) as [b w']. cbn [snd] in *.
    cbn [entry_good]. eapply conn_ok_mono; [exact Hl|].
    replace (bpf_lookup k (get_map CONN_RL w')) with
      (conn_step c (now_of e w) n (record_of k w _ CONN_RL)).2
      by (unfold record_of; by rewrite <- H).
    apply conn_step_ok; [apply Hclk|lia|apply (Hr k _ CONN_RL)].
Qed.
Lemma keep_global_take t : Keeps t (tcp_global_ratelimit_take : prog M bool).
Proof.
  intros e w [(Hc & Hclk & [Hr Hb Hs]) Ht].
  pose proof (tcp_global_ratelimit_take_spec e w) as H. rewrite Hc in H.
  specialize (H (proj1 Hcfg) Hclk (Hb (cpu e))).
  pose proof (now_later _ _ _ Hclk (global_take_later e w)) as Hl.
  pose proof (global_take_maps [] e w) as Hm.
  assert (Hst : Preserves same_stats (tcp_global_ratelimit_take : prog M bool))
    by (unfold tcp_global_ratelimit_take, cfg; preserve). specialize (Hst e w).
  destruct (tcp_global_ratelimit_take e w) as [b w']. cbn [snd] in *. destruct H as [H Hne].
  split; [|lia]. split_and!; [done..|]. split.
  - intros k V i. unfold record_of. rewrite (Hm V i) by apply not_elem_of_nil.
    eapply entry_good_mono; [exact Hl|apply Hr].
  - intros n b' Hb'. destruct (decide (n = cpu e)) as [->|Hn].
    2: { rewrite Hne in Hb' by done. eapply tb_ok_mono; [exact Hl|by apply (Hb n)]. }
    eapply tb_ok_mono; [exact Hl|]. unfold global_step in H.
    specialize (Hb (cpu e)). destruct (_ || _); [apply Hb; congruence|].
    destruct (tcp_global_ratelimit w !! cpu e) as [b0|]; [|congruence].
    destruct Hcfg as (([HP HB] & _) & _).
    destruct (tb_take _ _ 1 _ b0) as [b1|] eqn:E; [|apply Hb; congruence].
    eapply (tb_take_ok (tcp_global_period_ns c)) in E as (? & _); [|lia|lia|by apply Hb].
    congruence.
  - intros n row. rewrite Hst. apply Hs.
Qed.
End Invariant.
Arguments good {M _} c. Arguments past {M _} c.

(** Walks a program that keeps the invariant. *)
Ltac keep_write := intros ? ? ?; simpl; (lia || done).
Ltac keep_one :=
  match goal with
  | |- triple ?P (mret ?a ≫= ?k) ?Q => change (triple P (k a) Q)
  | |- triple _ ((_ ≫= _) ≫= _) _ => apply triple_assoc
  | |- triple _ (mret _) _ => apply keep_ret
  | |- triple _ (cfg _ ≫= _) _ => apply keep_cfg
  | |- triple _ (bpf_ktime_get_boot_ns ≫= _) _ => apply keep_ktime; intros ? ?
  | |- triple _ (bpf_map_lookup_elem _ _) _ => apply keep_lookup
  | |- triple _ (bpf_map_update_elem _ _ _) _ => apply keep_update; keep_write
  | |- triple _ (map_store _ _ _) _ => apply keep_store; keep_write
  | |- triple _ (bpf_map_delete_elem _ _) _ => apply keep_delete
  | |- triple _ (stat_bump _) _ => apply keep_stat
  | |- triple _ (record_drop _ _) _ => apply keep_record_drop
  | |- triple _ (health_record_anomaly _) _ => apply keep_anomaly
  | |- triple _ (conn_ratelimit_take _ _) _ => apply keep_conn_take; assumption
  | |- triple _ tcp_global_ratelimit_take _ => apply keep_global_take; assumption
  | |- triple _ (_ ≫= _) _ => apply keep_bind; [|intros ?]
  | |- triple _ (if ?b then _ else _) _ => destruct b eqn:?
  | |- triple _ (match ?x with _ => _ end) _ => destruct x eqn:?
  | |- triple _ ((match ?x with _ => _ end) _) _ => destruct x eqn:?
  end.
Ltac keep := repeat (keep_one; cbn beta iota).

(** ** The two programs *)
Section Programs.
Context {M : Type → Type} `{!BpfMap M, !BpfMapLaws M}.
Context (c : xdp_config) (Hcfg : tunables_ok c) (t : Z).
Implicit Types (w : world M) (e : kenv).
Notation Keeps m := (triple (past (M := M) c t) m (λ _, past c t)).

Lemma keep_blacklisted t' k : triple (past c t') (health_is_blacklisted k : prog M bool) (λ _, past c t').
Proof. unfold health_is_blacklisted. keep. Qed.
Lemma keep_filter ctx p : 0 ≤ ip_tot p < 2 ^ 16 → Keeps (xdp_filter ctx p).
Proof.
  intros Hlen. pose proof Hcfg as (_ & _ & Hst & Hlo & Hnew).
  unfold xdp_filter, xdp_trusted, xdp_gate, over_open_cap, xdp_payload, xdp_first_segment,
    xdp_handshake, count_drop. cbv zeta. keep.
  1-2: apply keep_blacklisted.
  - apply keep_take; [done|]. intros now o. simpl. split; [auto|done].
  - by apply keep_take.
  - by apply keep_take.
Qed.
Lemma keep_dec_loop race n k : Keeps (dec_loop race n k).
Proof.
  induction n as [|n IH]; cbn [dec_loop]; unfold sync_val_compare_and_swap, forget_source;
    cbv zeta; keep. apply IH.
Qed.
Lemma keep_sockops race skops : Keeps (minecraft_sockops race skops).
Proof.
  unfold minecraft_sockops, open_count_inc, update_noexist, open_count_dec. keep.
  apply keep_dec_loop.
Qed.
End Programs.

(** What a run of either program leaves alone. *)
Section Frames.
Context {M : Type → Type} `{!BpfMap M, !BpfMapLaws M}.

Lemma minecraft_xdp_later ctx : Preserves later (minecraft_xdp ctx : prog M _).
Proof.
  unfold minecraft_xdp, xdp_filter, xdp_trusted, xdp_gate, over_open_cap, xdp_payload,
    xdp_first_segment, xdp_handshake, count_drop, record_drop, record_drop_idx,
    health_is_blacklisted, health_record_anomaly, cfg. cbv zeta. preserve.
  all: first [apply conn_take_later|apply ratelimit_take_later|apply global_take_later].
Qed.
Lemma dec_loop_frame R n race k `{!∀ e, PreOrder (R e)} :
  (∀ (v : Z), Preserves R (map_store OPEN_COUNT k v : prog M unit)) →
  (∀ V (i : mapid V), tag_of i ∈ sock_tags → Preserves R (bpf_map_delete_elem i k : prog M unit)) →
  Preserves R (dec_loop race n k : prog M unit).
Proof.
  intros Hs Hd. induction n as [|n IH]; cbn [dec_loop];
    unfold sync_val_compare_and_swap, forget_source; preserve; auto; apply Hd; set_solver.
Qed.
Lemma sockops_maps race skops :
  Preserves (only_maps sock_tags) (minecraft_sockops race skops : prog M _).
Proof.
  unfold minecraft_sockops, open_count_inc, update_noexist, open_count_dec, cfg. preserve.
  apply dec_loop_frame; [exact _|auto with frame|]. intros V i Hi e w. simpl.
  apply only_maps_set. by apply bool_decide_eq_true.
Qed.
Lemma sockops_later race skops : Preserves later (minecraft_sockops race skops : prog M _).
Proof.
  unfold minecraft_sockops, open_count_inc, update_noexist, open_count_dec, cfg. preserve.
  apply dec_loop_frame; auto with frame typeclass_instances.
Qed.
End Frames.

(** ** Runs *)
Section Runs.
Context {M : Type → Type} `{!BpfMap M, !BpfMapLaws M}.
Context (c : xdp_config) (clock : nat → Z).
Implicit Types (w : world M).

(** What the kernel hands to the programs: a frame of bytes, or a callback (with what the
    other CPUs do to the counter meanwhile), on some CPU. *)
Inductive event := Frame (cpu : nat) (ctx : xdp_md)
                 | Callback (cpu : nat) (race : nat → Z → Z) (skops : bpf_sock_ops).
Definition on_cpu (n : nat) : kenv := Kenv c n clock.
Definition handle (ev : event) w : world M :=
  match ev with
  | Frame n ctx => (minecraft_xdp ctx (on_cpu n) w).2
  | Callback n race skops => (minecraft_sockops race skops (on_cpu n) w).2
  end.
Definition well_formed (ev : event) : Prop :=
  match ev with Frame _ ctx => Forall is_byte (data ctx) | Callback _ _ _ => True end.

(** Freshly created maps: no entries, all per-CPU values zero. *)
Record fresh w : Prop := {
  fresh_maps V (i : mapid V) k : bpf_lookup k (get_map i w) = None;
  fresh_breakers n b : tcp_global_ratelimit w !! n = Some b → b = Ratelimit 0 0;
  fresh_counters n row : stats w !! n = Some row → row = replicate STAT_MAX 0;
}.
Inductive reach : world M → Prop :=
  | reach_fresh w : fresh w → reach w
  | reach_event ev w : well_formed ev → reach w → reach (handle ev w).

Context (Hcfg : tunables_ok c) (Hclk : ∀ n, 0 ≤ clock n < 2 ^ 63)
        (Hmono : ∀ n m, (n ≤ m)%nat → clock n ≤ clock m).

Lemma on_cpu_clock n : clock_ok (on_cpu n).
Proof. by split. Qed.
Lemma reach_good w : reach w → ∀ n, good c (on_cpu n) w.
Proof.
  intros H n. assert (Hw : world_ok c (clock (clock_reads w)) w).
  2: { split_and!; [done|apply on_cpu_clock|exact Hw]. }
  clear n. induction H as [w Hf|ev w Hev Hr IH].
  - destruct Hf as [Hm Hb Hs]. split.
    + intros k V i. unfold record_of. rewrite Hm. apply entry_good_none.
    + intros n b ->%Hb. destruct Hcfg as (([_ ?] & _) & _). pose proof (Hclk (clock_reads w)).
      unfold tb_ok. simpl. lia.
    + by intros n row ->%Hs.
  - assert (Hp : ∀ n, past c 0 (on_cpu n) w).
    { intros n. split; [split_and!; [done|apply on_cpu_clock|exact IH]|].
      split; [done|apply Hclk]. }
    destruct ev as [n ctx|n race skops]; simpl.
    + specialize (Hp n). rewrite minecraft_xdp_run. destruct (xdp_parse _ _) as [p|] eqn:Hparse; [|done].
      apply xdp_parse_bounds in Hparse as (_ & _ & _ & Hlen & _); [|done].
      by apply (keep_filter c Hcfg 0 ctx p Hlen (on_cpu n) w Hp).
    + by apply (keep_sockops c 0 race skops (on_cpu n) w (Hp n)).
Qed.

(** C11. The state of the datapath stays well formed, whatever packets and callbacks arrive
    in whatever order on whatever CPUs: no bucket ever exceeds its burst or was refilled in
    the future, no whitelist entry is from the future, every drop history has one counter
    per reason, and no counter row changes its size. *)
Theorem datapath_wellformed w : reach w → world_ok c (clock (clock_reads w)) w.
Proof. intros Hw. apply (reach_good w Hw 0%nat). Qed.

Lemma decides_spec n ctx p w :
  reach w → Forall is_byte (data ctx) → xdp_parse (target_port c) (data ctx) = Some p →
  let '(v, w') := minecraft_xdp ctx (on_cpu n) w in
  (∃ r, policy c (segment_of ctx p) (record_of (src p) w) (tcp_global_ratelimit w !! n)
          (during (on_cpu n) (clock_reads w) (clock_reads w')) r ∧
        v = action r ∧ charged (src p) r (on_cpu n) w w') ∧
  (is_Some (stats w !! n) → acct_ok (src p) (on_cpu n) w).
Proof.
  intros Hw Hd Hp. destruct (reach_good w Hw n) as (_ & Hk & [Hr Hb Hs]).
  rewrite minecraft_xdp_run. cbn [on_cpu conf]. rewrite Hp.
  destruct (xdp_parse_bounds _ _ _ Hd Hp) as (_ & _ & _ & Hlen & _).
  pose proof (follow_filter ctx p (on_cpu n) w Hcfg Hk Hlen (Hr (src p)) (Hb n)
    (λ r m, policy c (segment_of ctx p) (record_of (src p) w) (tcp_global_ratelimit w !! n)
       (during (on_cpu n) (clock_reads w) m) r) (λ r m _ H, H) (on_cpu n) w) as H.
  destruct (xdp_filter ctx p (on_cpu n) w) as [v w']. split.
  - apply H. by split_and!.
  - intros [row Hrow]. split; [exists row; split; [done|by eapply Hs]|apply (Hr _ _ DROP_HISTORY)].
Qed.

(** C1. The datapath enforces the policy: in every reachable state, a segment for the
    server gets a ruling of the policy table at instants of its run, the verdict is that
    ruling, and the drop counters and the drop history are charged for it and for nothing
    else. *)
Theorem datapath_decides n ctx p w :
  reach w → Forall is_byte (data ctx) → xdp_parse (target_port c) (data ctx) = Some p →
  let '(v, w') := minecraft_xdp ctx (on_cpu n) w in
  (∃ r, policy c (segment_of ctx p) (record_of (src p) w) (tcp_global_ratelimit w !! n)
          (during (on_cpu n) (clock_reads w) (clock_reads w')) r ∧
        v = action r ∧ charged (src p) r (on_cpu n) w w') ∧
  (is_Some (stats w !! n) → acct_ok (src p) (on_cpu n) w).
Proof. apply decides_spec. Qed.
End Runs.
