(* ===== verification/Served.v ===== *)
(** * Players are served

    The converse of the drops: what the datapath owes to players, in every reachable state.
    A player who has waited a login period gets in; a verified player who stays within the
    traffic caps is passed, whatever the packet carries; a blacklist ends by itself. *)
From S2P Require Import Prelude Kernel World Frame Hoare Packet Handshake TokenBucket Limits Health Xdp XdpAccounting XdpProps Policy Sockops Datapath.

(** ** Buckets that will grant *)

(** A bucket that is fresh, has a token left, or was refilled a period ago. *)
Definition ready (P B now : Z) (o : option ratelimit) : Prop :=
  match o with
  | None => True
  | Some b => 1 ≤ B ∧ (1 ≤ tokens b ∨ (0 < P ∧ P ≤ now - last_refill_ns b))
  end.
Lemma ready_granted P B now t o : 0 ≤ P → now ≤ t → entry_ok B now o → ready P B now o →
  (rl_step P B t o).1 = true.
Proof.
  intros HP Ht Hok Hr. destruct o as [b|]; [|done]. simpl. destruct Hr as [HB Hr].
  assert (Hokt : tb_ok B t b) by (by eapply tb_ok_mono).
  pose proof (tb_refill_bounds P B HP t b Hokt) as (Hge & _).
  unfold tb_take. destruct (Z.ltb_spec (Z.min B (tokens b + tb_refill P t b)) 1) as [Hlt|]; [|done].
  exfalso. destruct Hok as [Htok _]. destruct Hr as [?|[HP0 Hage]]; [lia|].
  assert (1 ≤ tb_refill P t b); [|lia].
  unfold tb_refill. rewrite (proj2 (Z.ltb_lt 0 P)) by done.
  apply Z.div_le_lower_bound; lia.
Qed.


Section Served.
Context {M : Type → Type} `{!BpfMap M, !BpfMapLaws M}.
Context (c : xdp_config) (clock : nat → Z) (Hcfg : tunables_ok c).
Context (Hclk : ∀ n, 0 ≤ clock n < 2 ^ 63) (Hmono : ∀ n m, (n ≤ m)%nat → clock n ≤ clock m).
Implicit Types (w : world M).
Notation now w := (clock (clock_reads w)).

(** C12. Players get in: in every reachable state, a Login (or Transfer) handshake that is the
    first data of an established connection of a healthy source is passed and whitelists
    the source, provided the source has a login token left or has waited one login period
    since its bucket was last refilled. *)
Theorem login_served n ctx p t w :
  reach c clock w → Forall is_byte (data ctx) → xdp_parse (target_port c) (data ctx) = Some p →
  tcp_flags_bogus (flags p) = false → syn (flags p) = false →
  sick (record_of (src p) w) (now w) = false →
  has_payload ctx p → classified ctx p = HS_LOGIN →
  bpf_lookup (src p) (get_map WHITELIST w) = None →
  bpf_lookup (src p) (get_map ESTABLISHED w) = Some t →
  bpf_lookup (src p) (get_map FIRST_DATA w) = None →
  ready (login_period_ns c) (login_burst c) (now w) (bpf_lookup (src p) (get_map LOGIN_RL w)) →
  let '(v, w') := minecraft_xdp ctx (on_cpu c clock n) w in
  v = XDP_PASS ∧ is_Some (bpf_lookup (src p) (get_map WHITELIST w')).
Proof.
  intros Hw Hd Hp Hf Hs Hsick Hpay Hcl Hwl Hest Hfd Hready.
  destruct (reach_good c clock Hcfg Hclk Hmono w Hw n) as (_ & Hk & [Hr _ _]).
  destruct Hcfg as (_ & _ & _ & [HP HB] & _).
  pose proof (Hr (src p) _ LOGIN_RL) as Hok. cbn [entry_good record_of] in Hok.
  set (e := on_cpu c clock n) in *.
  assert (Hh : healthy (src p) e w).
  { unfold healthy, health_entry, sick, record_of in *.
    destruct (bpf_lookup (src p) (get_map HEALTH w)); [by apply Z.ltb_ge|done]. }
  pose proof (login_whitelists_spec ctx p t e w) as H. cbv zeta in H.
  destruct (minecraft_xdp ctx e w) as [v w']. apply H; try done.
  intros w1 [Hm Hl].
  assert (Hentry : entry LOGIN_RL (src p) w1 = bpf_lookup (src p) (get_map LOGIN_RL w)).
  { unfold entry. rewrite (Hm _ LOGIN_RL) by new_tag. by rewrite checked_get. }
  assert (Hle : now w ≤ boot_ns e (clock_reads w1)).
  { apply Hmono. etrans; [|exact Hl]. unfold checked. case_match; rewrite ?clock_tick; lia. }
  pose proof (ratelimit_take_spec LOGIN_RL (src p) _ _ e w1 HP HB Hk) as Hsp.
  rewrite Hentry in Hsp. specialize (Hsp (entry_ok_mono _ _ _ _ Hle Hok)). cbv zeta in Hsp.
  change (conf e) with c.
  destruct (ratelimit_take LOGIN_RL _ _ _ e w1) as [b w2]. destruct Hsp as [Hsp _].
  cbn [fst]. pose proof (ready_granted _ _ _ _ _ (proj1 HP) Hle Hok Hready) as Hg.
  apply (f_equal fst) in Hsp. cbn [fst] in Hsp. rewrite Hsp. exact Hg.
Qed.



(** ** A ban ends *)
Definition handle_all (evs : list event) (w : world M) : world M :=
  foldl (λ w ev, handle c clock ev w) w evs.

Lemma sockops_keeps_health race skops e w :
  get_map HEALTH (minecraft_sockops race skops e w).2 = get_map HEALTH w.
Proof. apply (sockops_maps race skops e w). new_tag. Qed.
Lemma handle_later ev w : (clock_reads w ≤ clock_reads (handle c clock ev w))%nat.
Proof.
  destruct ev as [n ctx|n race skops]; simpl.
  - apply (minecraft_xdp_later ctx (on_cpu c clock n) w).
  - apply (sockops_later race skops (on_cpu c clock n) w).
Qed.

Lemma frame_keeps_ban n ctx k h w :
  bpf_lookup k (get_map HEALTH w) = Some h → now w < blacklist_until_ns h →
  let o := bpf_lookup k (get_map HEALTH (handle c clock (Frame n ctx) w)) in
  o = Some h ∨ o = None.
Proof.
  intros Hh Hlt. cbv zeta. cbn [handle]. set (e := on_cpu c clock n).
  destruct (xdp_parse (target_port c) (data ctx)) as [p|] eqn:Hp.
  2: { left. rewrite minecraft_xdp_run. change (conf e) with c. by rewrite Hp. }
  destruct (decide (k = src p)) as [->|Hne].
  - left. destruct (blacklisted_spec ctx p h e w Hp Hh Hlt) as [_ Hm].
    by rewrite (Hm _ HEALTH) by new_tag.
  - rewrite <- Hh. rewrite minecraft_xdp_run. change (conf e) with c. rewrite Hp.
    by apply (xdp_filter_only_ip ctx p e w _ HEALTH).
Qed.
Lemma handle_keeps_ban ev k h w :
  bpf_lookup k (get_map HEALTH w) = Some h → now w < blacklist_until_ns h →
  let o := bpf_lookup k (get_map HEALTH (handle c clock ev w)) in o = Some h ∨ o = None.
Proof.
  destruct ev as [n ctx|n race skops]; [apply frame_keeps_ban|].
  intros Hh _. left. cbv zeta. cbn [handle]. by rewrite sockops_keeps_health.
Qed.
Lemma handle_all_keeps_ban k h evs w :
  bpf_lookup k (get_map HEALTH w) = Some h →
  (∀ i, (i < length evs)%nat → now (handle_all (take i evs) w) < blacklist_until_ns h) →
  bpf_lookup k (get_map HEALTH (handle_all evs w)) = Some h ∨
  ∃ i, bpf_lookup k (get_map HEALTH (handle_all (take i evs) w)) = None.
Proof.
  intros Hh. induction evs as [|ev evs IH] using rev_ind; intros Hlt; [by left|].
  rewrite length_app in Hlt. simpl in Hlt.
  assert (Htake : ∀ i, (i ≤ length evs)%nat → take i (evs ++ [ev]) = take i evs)
    by (intros i Hi; by rewrite take_app_le).
  destruct IH as [Hl|[i Hi]].
  - intros i Hi. rewrite <- (Htake i) by lia. apply Hlt. lia.
  - unfold handle_all. rewrite foldl_app. simpl. fold (handle_all evs w).
    destruct (handle_keeps_ban ev k h (handle_all evs w) Hl) as [H|H]; [|by left|right].
    + specialize (Hlt (length evs)). rewrite Htake, take_ge in Hlt by lia. apply Hlt. lia.
    + exists (S (length evs)). rewrite take_ge by (rewrite length_app; simpl; lia).
      unfold handle_all. by rewrite foldl_app.
  - right. exists (Nat.min i (length evs)). rewrite Htake by lia.
    destruct (decide (i ≤ length evs)%nat).
    + by rewrite Nat.min_l.
    + rewrite Nat.min_r by lia. rewrite take_ge in Hi |- *; [done|lia..].
Qed.
Lemma reach_handle_all evs w : reach c clock w → Forall well_formed evs → reach c clock (handle_all evs w).
Proof.
  intros Hw Hevs. revert w Hw. induction Hevs as [|ev evs Hev _ IH]; intros w Hw; [done|].
  apply IH. by apply reach_event.
Qed.

(** C14. A ban has a fixed end: from a reachable state in which a source is blacklisted until
    some time, whatever packets and callbacks follow before that time, the source's own
    included, its record stays exactly as it is (unless the LRU map evicts it), so the ban
    is never prolonged.  Until that time every segment of the source is dropped and moves
    nothing but its drop history and the drop counters; from that time on none is dropped for the ban. *)
Theorem ban_ends k h evs w :
  let w' := handle_all evs w in
  reach c clock w → Forall well_formed evs → bpf_lookup k (get_map HEALTH w) = Some h →
  (∀ i, (i < length evs)%nat → now (handle_all (take i evs) w) < blacklist_until_ns h) →
  (bpf_lookup k (get_map HEALTH w') = Some h ∨
   ∃ i, bpf_lookup k (get_map HEALTH (handle_all (take i evs) w)) = None) ∧
  (bpf_lookup k (get_map HEALTH w') = Some h →
   ∀ n ctx p, Forall is_byte (data ctx) → xdp_parse (target_port c) (data ctx) = Some p →
     src p = k →
     let e := on_cpu c clock n in
     let '(v, w'') := minecraft_xdp ctx e w' in
     (now w' < blacklist_until_ns h → v = XDP_DROP ∧ only_maps [THist] e w' w'') ∧
     (blacklist_until_ns h ≤ now w' →
        ∃ r, r ≠ Drop DROP_REASON_UNHEALTHY ∧ v = action r ∧ charged k r e w' w'')).
Proof.
  intros w' Hw Hevs Hh Hlt. split; [by apply handle_all_keeps_ban|].
  intros Hh' n ctx p Hd Hp <- e. pose proof (reach_handle_all evs w Hw Hevs) as Hw'.
  pose proof (decides_spec c clock Hcfg Hclk Hmono n ctx p w' Hw' Hd Hp) as H.
  pose proof (blacklisted_spec ctx p h e w' Hp Hh') as Hban.
  fold e in H. destruct (minecraft_xdp ctx e w') as [v w'']. split; [exact Hban|].
  intros Hend. destruct H as [(r & Hr & Hv & Hch) _].
  exists r. split_and!; [|done..]. intros ->.
  apply (policy_not_sick _ _ _ _ _ Hr). intros t (i & Hi & ->). unfold sick, record_of.
  rewrite Hh'. apply Z.ltb_ge. etrans; [exact Hend|]. apply Hmono. lia.
Qed.
End Served.
