(* ===== verification/Ledger.v ===== *)
(** * A ledger of what limiters grant

    The books kept along a program and over runs of programs: what a limiter has granted
    is bounded by its burst and the time that has passed ([within]), and the statements of
    the datapath keep a ledger or enter a grant in it ([spent], [spend]). *)
From S2P Require Import Prelude Kernel World Frame Hoare Packet Handshake TokenBucket Limits Health Xdp XdpAccounting XdpProps Policy Sockops Datapath Served.

(** ** A ledger of grants

    [within P B C t0 now g o]: of a bucket that was well formed at [t0], requests that
    cost at least [g] together, and at most [C] each, have been granted up to [now], and
    [o] is what is left.  [g] may be less than was granted, so a ledger can be kept of the
    grants of interest only. *)
Class Ledger {V} (L : Z → Z → option V → Prop) : Prop := {
  ledger_later now now' g o : now ≤ now' → L now g o → L now' g o;
  ledger_fewer now g g' o : 0 ≤ g' ≤ g → L now g o → L now g' o;
}.

Section Within.
Context (P B C t0 : Z).

Definition within (now g : Z) (o : option ratelimit) : Prop :=
  0 < P ∧ entry_ok B now o ∧ 0 ≤ g ∧
  (g = 0 ∨ ∃ b, o = Some b ∧
     P * (g + tokens b - Z.max B C) ≤ last_refill_ns b - t0 + (P - 1)).

Lemma within_start o : 0 < P → entry_ok B t0 o → within t0 0 o.
Proof. intros HP Ho. split_and!; [done|done|lia|by left]. Qed.
#[export] Instance within_ledger : Ledger within.
Proof.
  split.
  - intros now now' g o Hn (HP & Ho & Hg). split_and!; [done|by eapply entry_ok_mono|apply Hg..].
  - intros now g g' o Hg (HP & Ho & _ & Hb). split_and!; [done|done|lia|].
    destruct Hb as [->|(b & -> & Hb)]; [left; lia|right].
    exists b. split; [done|]. nia.
Qed.
(** A grant, of a bucket that exists and of one that is made for it. *)
Lemma within_take now g cost b b' : 0 ≤ cost → t0 ≤ now → tb_take P B cost now b = Some b' →
  within now g (Some b) → within now (g + cost) (Some b').
Proof.
  intros Hcost Ht E (HP & Ho & Hg & Hb).
  apply (tb_take_ok P B ltac:(lia)) in E as (Hok' & Hpay & Hlast & Hcap); [|lia|done].
  split_and!; [done|done|lia|]. right. exists b'. split; [done|]. specialize (Hlast HP).
  destruct Hb as [->|(b0 & [= <-] & Hb)]; nia.
Qed.
Lemma within_first now g cost b : 0 ≤ cost ≤ C → t0 ≤ now → tb_ok B now b →
  tokens b = Z.max 0 (B - cost) → last_refill_ns b = now →
  within now g None → within now (g + cost) (Some b).
Proof.
  intros Hcost Ht Hok Htok Hlast (HP & _ & Hg & [->|(? & ? & _)]); [|done].
  split_and!; [done|done|lia|]. right. exists b. split; [done|]. rewrite Hlast, Htok.
  assert (0 + cost + Z.max 0 (B - cost) - Z.max B C ≤ 0) by lia. nia.
Qed.
(** The bound: a burst, and one unit per refill period begun. *)
Lemma within_bound now g o : 0 ≤ C → t0 ≤ now → within now g o →
  P * (g - Z.max B C) ≤ now - t0 + (P - 1).
Proof.
  intros HC Hn (HP & Ho & _ & [->|(b & -> & Hb)]); [nia|].
  destruct Ho as [? ?]. nia.
Qed.
End Within.
Lemma within_step P B t0 now g o : 0 ≤ B → t0 ≤ now → 0 ≤ now → within P B 1 t0 now g o →
  within P B 1 t0 now (g + Z.b2z (rl_step P B now o).1) (rl_step P B now o).2.
Proof.
  intros HB Ht Hn Hw. destruct o as [b|]; simpl.
  - destruct (tb_take P B 1 now b) as [b'|] eqn:E; simpl; [|by rewrite Z.add_0_r].
    by eapply within_take.
  - apply within_first; simpl; [lia|lia| |destruct (Z.ltb_spec 0 B); lia|done|done].
    unfold tb_ok. simpl. destruct (Z.ltb_spec 0 B); lia.
Qed.

(** ** The parts of the program, as frames *)
Section Frames.
Context {M : Type → Type} `{!BpfMap M, !BpfMapLaws M}.
Lemma record_drop_later k r : Preserves later (record_drop k r : prog M unit).
Proof. unfold record_drop, record_drop_idx. preserve. Qed.
Lemma anomaly_later k : Preserves later (health_record_anomaly k : prog M unit).
Proof. unfold health_record_anomaly, cfg. preserve. Qed.
Lemma blacklisted_later k : Preserves later (health_is_blacklisted k : prog M bool).
Proof. unfold health_is_blacklisted. preserve. Qed.
Lemma blacklisted_maps S k : Preserves (only_maps S) (health_is_blacklisted k : prog M bool).
Proof. unfold health_is_blacklisted. preserve. Qed.
End Frames.
#[export] Hint Resolve record_drop_later anomaly_later blacklisted_later blacklisted_maps
  ratelimit_take_later conn_take_later global_take_later : frame.

Section Parts.
Context {M : Type → Type} `{!BpfMap M, !BpfMapLaws M}.
Lemma count_drop_calm k r s : Preserves (calm [THist]) (count_drop k r s : prog M unit).
Proof. unfold count_drop. preserve. Qed.
Lemma blacklisted_calm k : Preserves (calm []) (health_is_blacklisted k : prog M bool).
Proof. preserve. Qed.
Lemma trusted_calm p :
  Preserves (calm [TWl; TConn; THealth; THist]) (xdp_trusted p : prog M _).
Proof. unfold xdp_trusted, count_drop, over_open_cap, cfg. preserve. Qed.
Lemma gate_calm p : Preserves (calm [TSyn; TSynRl; THist]) (xdp_gate p : prog M _).
Proof. unfold xdp_gate, count_drop, over_open_cap, cfg. preserve. Qed.
Lemma payload_calm ctx p :
  Preserves (calm [TFirst; TWl; TStatus; TLogin; TConn; THealth; THist]) (xdp_payload ctx p : prog M _).
Proof. unfold xdp_payload, xdp_first_segment, xdp_handshake, count_drop, cfg. cbv zeta. preserve. Qed.
End Parts.

(** The periods of length [P] begun within a time [T]. *)
Definition periods_begun (T P : Z) : Z := (T + (P - 1)) / P.
Lemma periods_bound P T n B : 0 < P → P * (n - B) ≤ T + (P - 1) → n ≤ B + periods_begun T P.
Proof. intros HP H. enough (n - B ≤ periods_begun T P) by lia. by apply Z.div_le_lower_bound. Qed.

(** ** The ledger of one source's bucket along a program *)
Definition anything {M : Type → Type} (w : world M) : Prop := True.
Section Account.
Context {M : Type → Type} `{!BpfMap M, !BpfMapLaws M}.
Context (c : xdp_config) {V : Type} (map : mapid V) (k : ipkey).
Context (L : Z → Z → option V → Prop) `{!Ledger L} (t0 : Z).
Implicit Types (w : world M) (e : kenv) (X : world M → Prop).

(** [X] is what else is known of the state. *)
Definition spent X (g : Z) e w : Prop :=
  conf e = c ∧ clock_ok e ∧ t0 ≤ now_of e w ∧
  L (now_of e w) g (bpf_lookup k (get_map map w)) ∧ X w.
Definition steady (S : list tag) X : Prop := ∀ e w w', calm S e w w' → X w → X w'.

Lemma spent_fewer X (X' : world M → Prop) g g' e w :
  0 ≤ g' ≤ g → (X w → X' w) → spent X g e w → spent X' g' e w.
Proof. intros Hg HX (?&?&?&?&?). split_and!; [done..| |auto]. by eapply ledger_fewer. Qed.
Lemma spent_stable S X g : bool_decide (tag_of map ∈ S) = false → steady S X →
  Stable (@calm M S) (spent X g).
Proof.
  intros HS%bool_decide_eq_false HX e w w' Hcalm (Hc & Hk & Ht & Hw & Hx).
  pose proof Hcalm as [Hm Hl]. pose proof (now_later _ _ _ Hk Hl). split_and!; [done..|lia| |by eapply HX].
  rewrite (Hm _ map HS). by eapply ledger_later.
Qed.
Lemma spent_cfg X g f {A} (m : Z → prog M A) Q :
  triple (spent X g) (m (f c)) Q → triple (spent X g) (cfg f ≫= m) Q.
Proof.
  intros Hm e w Hp. pose proof (proj1 Hp) as He.
  unfold mbind, prog_bind, cfg, reads. rewrite He. by apply (Hm e w).
Qed.
Lemma spent_skip S X g {A C} (m : prog M A) (f : A → prog M C) Q :
  bool_decide (tag_of map ∈ S) = false → steady S X → Preserves (calm S) m →
  (∀ a, triple (spent X g) (f a) Q) → triple (spent X g) (m ≫= f) Q.
Proof. intros HS HX Hm Hf. by apply (triple_skip (calm S)); [|apply spent_stable|]. Qed.
Lemma spent_lookup X g {W} (i : mapid W) key o {A} (f : option W → prog M A) Q :
  (∀ w, X w → bpf_lookup key (get_map i w) = o) →
  triple (spent X g) (f o) Q → triple (spent X g) (bpf_map_lookup_elem i key ≫= f) Q.
Proof.
  intros HX Hf e w Hs. pose proof Hs as (_ & _ & _ & _ & Hx%HX).
  unfold mbind, prog_bind, bpf_map_lookup_elem. rewrite Hx. by apply (Hf e w).
Qed.
Lemma spent_forget X g {A} (m : prog M A) Q :
  triple (spent anything g) m Q → triple (spent X g) m Q.
Proof.
  intros Hm. eapply triple_conseq; [exact Hm| |done]. intros e w (Hc&Hk&Ht&Hw&_). done.
Qed.
Lemma spent_ret X g g' {A} (a : A) (h : A → Z) :
  h a = g' → 0 ≤ g' ≤ g → triple (spent X g) (mret a) (λ v, spent anything (h v)).
Proof. intros <- Hg. apply triple_ret. intros e w. by apply spent_fewer. Qed.
(** A statement that spends: it changes only its map and answers as the ledger says. *)
Lemma spent_on X g {A D} (m : prog M A) (f : A → prog M D) (pay : A → Z) Q :
  steady [tag_of map] X → Preserves (only_maps [tag_of map]) m → Preserves later m →
  (∀ e w, spent X g e w →
     let r := m e w in L (now_of e w) (g + pay r.1) (bpf_lookup k (get_map map r.2))) →
  (∀ a, triple (spent X (g + pay a)) (f a) Q) → triple (spent X g) (m ≫= f) Q.
Proof.
  intros HX Hm Hl Hpay Hf. eapply triple_bind; [|exact Hf]. intros e w Hs.
  pose proof (Hpay e w Hs) as Hw. destruct Hs as (Hc & Hk & Ht & _ & Hx).
  pose proof (now_later _ _ _ Hk (Hl e w)).
  split_and!; [done..|lia|by eapply ledger_later|]. exact (HX e w _ (conj (Hm e w) (Hl e w)) Hx).
Qed.
End Account.
Arguments spent {M _} c {V} map k L t0 X g.

(** The per-IP limiters. *)
Lemma spent_take {M : Type → Type} `{!BpfMap M, !BpfMapLaws M} c (map : mapid ratelimit) k P B t0
    (X : world M → Prop) g {A} (f : bool → prog M A) Q :
  P < 2 ^ 64 → 0 ≤ B < 2 ^ 63 → steady [tag_of map] X →
  (∀ ok, triple (spent c map k (within P B 1 t0) t0 X (g + Z.b2z ok)) (f ok) Q) →
  triple (spent c map k (within P B 1 t0) t0 X g) (ratelimit_take map k P B ≫= f) Q.
Proof.
  intros HP HB HX Hf. apply (spent_on _ _ _ _ _ _ _ _ _ Z.b2z _ HX); [..|done].
  - apply ratelimit_take_maps. apply bool_decide_eq_true. by left.
  - apply ratelimit_take_later.
  - intros e w (_ & Hk & Ht & Hw & _). pose proof Hw as (HP0 & Hok & _).
    pose proof (ratelimit_take_spec map k P B e w ltac:(lia) HB Hk Hok) as H. cbv zeta in *.
    apply within_step in Hw; [|lia|lia|apply Hk]. unfold now_of, entry in *.
    destruct (ratelimit_take map k P B e w) as [ok w']. destruct H as [H _].
    by rewrite <- H in Hw.
Qed.

(** The source is not on the whitelist. *)
Definition stranger {M : Type → Type} `{!BpfMap M} (k : ipkey) (w : world M) : Prop :=
  bpf_lookup k (get_map WHITELIST w) = None.
Lemma steady_anything {M : Type → Type} S : steady S (@anything M).
Proof. done. Qed.
Lemma steady_stranger {M : Type → Type} `{!BpfMap M} S k :
  bool_decide (TWl ∈ S) = false → steady (M := M) S (stranger k).
Proof. intros HS%bool_decide_eq_false e w w' [Hm _]. unfold stranger. by rewrite (Hm _ WHITELIST). Qed.
Create HintDb steady.
#[export] Hint Resolve steady_anything : steady.
#[export] Hint Extern 1 (steady _ (stranger _)) =>
  apply steady_stranger; vm_compute; reflexivity : steady.

(** Walks a program that may take from the bucket; other statements change maps of [S]. *)
Ltac spend_skip S :=
  apply (spent_skip _ _ _ _ _ S); [vm_compute; reflexivity|auto with steady|solve [preserve]|intros ?].
Ltac spend_one S :=
  match goal with
  | |- triple ?P (mret ?a ≫= ?k) ?Q => change (triple P (k a) Q)
  | |- triple _ ((_ ≫= _) ≫= _) _ => apply triple_assoc
  | |- triple _ (cfg _ ≫= _) _ => apply spent_cfg
  | |- triple (spent _ ?map _ _ _ _ _) (ratelimit_take ?map _ _ _ ≫= _) _ =>
    apply spent_take; [lia|assumption|solve [auto with steady]|intros []]
  | |- triple _ ((if ?b then _ else _) ≫= _) _ => destruct b eqn:?
  | |- triple _ ((match ?x with _ => _ end) ≫= _) _ => destruct x eqn:?
  | |- triple _ ((match ?x with _ => _ end) _ ≫= _) _ => destruct x eqn:?
  | |- triple _ (_ ≫= _) _ => spend_skip S
  | |- triple _ (if ?b then _ else _) _ => destruct b eqn:?
  | |- triple _ (match ?x with _ => _ end) _ => destruct x eqn:?
  | |- triple _ ((match ?x with _ => _ end) _) _ => destruct x eqn:?
  end.
Ltac spend S := repeat (spend_one S; cbn beta iota).
