(* ===== verification/Rates.v ===== *)
(** * Rates over whole runs

    What the per-IP limiters add up to over any traffic: however frames and callbacks of
    any sources interleave on whatever CPUs, an unverified source opens new connections,
    and is promoted to the whitelist, no faster than its bucket refills.  The bounds of
    [Limits] count calls of one function; those here count packets the program passes. *)
From S2P Require Import Prelude Kernel World Frame Hoare Packet Handshake TokenBucket Limits Health Xdp XdpAccounting XdpProps Policy Sockops Datapath Served Ledger.

(** A stranger whose connection is established and has sent nothing yet. *)
Definition newly_open {M : Type → Type} `{!BpfMap M} (k : ipkey) (t : Z) (w : world M) : Prop :=
  stranger k w ∧ bpf_lookup k (get_map ESTABLISHED w) = Some t ∧
  bpf_lookup k (get_map FIRST_DATA w) = None.
Lemma steady_newly_open {M : Type → Type} `{!BpfMap M} S k t :
  bool_decide (TWl ∈ S) || bool_decide (TEst ∈ S) || bool_decide (TFirst ∈ S) = false →
  steady (M := M) S (newly_open k t).
Proof.
  rewrite !orb_false_iff, !bool_decide_eq_false. intros [[H1 H2] H3] e w w' [Hm _].
  unfold newly_open, stranger.
  by rewrite (Hm _ WHITELIST H1), (Hm _ ESTABLISHED H2), (Hm _ FIRST_DATA H3).
Qed.
#[export] Hint Extern 1 (steady _ (newly_open _ _)) =>
  apply steady_newly_open; vm_compute; reflexivity : steady.

(** ** The program and the bucket *)
Section Program.
Context {M : Type → Type} `{!BpfMap M, !BpfMapLaws M}.
Context (c : xdp_config) (t0 : Z) (ctx : xdp_md) (p : parsed).
Implicit Types (w : world M) (e : kenv).

(** The blocks before the gate. *)
Definition after_trusted : prog M xdp_action :=
  v ← xdp_gate p; match v with Some v => mret v | None => xdp_payload ctx p end.

Section Filter.
Context {V : Type} (map : mapid V) (L : Z → Z → option V → Prop) `{!Ledger L}.
Context (Hmap : bool_decide (tag_of map ∈ [TWl; TConn; THealth; THist]) = false).
Context (g : Z) (Q : xdp_action → kenv → world M → Prop).
Notation ledger := (spent (M := M) c map (src p) L t0).

Lemma map_not_in S : S ⊆ [TWl; TConn; THealth; THist] → bool_decide (tag_of map ∈ S) = false.
Proof.
  intros HS. apply bool_decide_eq_false. apply bool_decide_eq_false in Hmap. set_solver.
Qed.
Lemma spent_drop X r s : steady (M := M) [THist] X →
  (∀ e w, ledger X g e w → Q XDP_DROP e w) →
  triple (ledger X g) (count_drop (src p) r s ≫= λ _, mret XDP_DROP) Q.
Proof.
  intros HX HQ. apply (spent_skip _ _ _ _ _ [THist]); [|done|apply count_drop_calm|].
  - apply map_not_in. sub_tags.
  - intros _. by apply triple_ret.
Qed.
Lemma filter_any :
  (∀ v e w, ledger anything g e w → Q v e w) →
  triple (ledger anything g) after_trusted Q → triple (ledger anything g) (xdp_filter ctx p) Q.
Proof.
  intros HQ Hafter. unfold xdp_filter. destruct (tcp_flags_bogus (flags p)).
  { apply spent_drop; auto with steady. }
  apply (spent_skip _ _ _ _ _ []); [apply map_not_in; sub_tags|done|apply blacklisted_calm|].
  intros []; [apply spent_drop; auto with steady|].
  apply (spent_skip _ _ _ _ _ [TWl; TConn; THealth; THist]); [done..|apply trusted_calm|].
  intros [v|]; [|done]. apply triple_ret. auto.
Qed.
(** A stranger falls through the whitelist block. *)
Lemma filter_stranger X :
  (∀ w, X w → stranger (src p) w) → steady (M := M) [] X → steady (M := M) [THist] X →
  (∀ e w, ledger X g e w → Q XDP_DROP e w) →
  triple (ledger X g) after_trusted Q → triple (ledger X g) (xdp_filter ctx p) Q.
Proof.
  intros HX HX0 HX1 HQ Hafter. unfold xdp_filter. destruct (tcp_flags_bogus (flags p)).
  { by apply spent_drop. }
  apply (spent_skip _ _ _ _ _ []); [apply map_not_in; sub_tags|done|apply blacklisted_calm|].
  intros []; [by apply spent_drop|].
  intros e w Hs. pose proof Hs as (_ & _ & _ & _ & Hw%HX). specialize (Hafter e w Hs).
  unfold xdp_trusted, mbind, prog_bind, bpf_map_lookup_elem in *. unfold stranger in Hw.
  by rewrite Hw.
Qed.
End Filter.

Section Syn.
Let P := conn_new_period_ns c.
Let B := conn_new_burst c.
Context (HP : 0 < P < 2 ^ 64) (HB : 0 < B < 2 ^ 63) (g : Z) (Hg : 0 ≤ g).
Let ledger := spent (M := M) c SYN_RL (src p) (within P B 1 t0) t0.

(** Whatever the gate decides, the ledger stays; a SYN it lets through is paid for. *)
Lemma gate_pays X :
  triple (ledger X g) (xdp_gate p) (λ v, ledger anything
    (g + Z.b2z (syn (flags p) && bool_decide (v ≠ Some XDP_DROP)))).
Proof.
  apply spent_forget. assert (HB' : 0 ≤ B < 2 ^ 63) by lia.
  assert (Hon : (0 <? P) && (0 <? B) = true) by lia.
  unfold xdp_gate, over_open_cap, count_drop. destruct (syn (flags p)); cbn [negb].
  all: unfold ledger, P, B in *; spend [TSyn; THist].
  all: try congruence.
  all: eapply spent_ret; [exact _|reflexivity|]; simpl; lia.
Qed.
Lemma payload_keeps g' :
  triple (ledger anything g') (xdp_payload ctx p) (λ _, ledger anything g').
Proof. eapply triple_keep; [apply payload_calm|]. by apply spent_stable; [exact _|..]. Qed.
Lemma gate_payload_pays X :
  triple (ledger X g) after_trusted
    (λ v, ledger anything (g + Z.b2z (syn (flags p) && bool_decide (v = XDP_PASS)))).
Proof.
  eapply triple_bind; [apply gate_pays|]. intros [v|].
  - eapply spent_ret; [exact _|reflexivity|]. destruct v, (syn (flags p)); simpl; lia.
  - eapply triple_conseq; [apply payload_keeps|intros e w H; exact H|].
    intros v e w. apply spent_fewer; [exact _| |done]. destruct v, (syn (flags p)); simpl; lia.
Qed.

(** The whole program: the ledger stays, and gains the connection a stranger opens. *)
Lemma filter_keeps_syn :
  triple (ledger anything g) (xdp_filter ctx p) (λ _, ledger anything g).
Proof.
  apply filter_any; [exact _|done|done|]. eapply triple_conseq; [apply gate_payload_pays|done|].
  intros v e w. apply spent_fewer; [exact _| |done].
  destruct (syn _ && _); simpl; lia.
Qed.
Lemma filter_opens : syn (flags p) = true →
  triple (ledger (stranger (src p)) g) (xdp_filter ctx p)
    (λ v, ledger anything (g + Z.b2z (bool_decide (v = XDP_PASS)))).
Proof.
  intros Hs. apply filter_stranger; [exact _|done|done|auto with steady..| |].
  - intros e w. apply spent_fewer; [exact _|simpl; lia|done].
  - eapply triple_conseq; [apply gate_payload_pays|done|]. by rewrite Hs.
Qed.
End Syn.

Section Login.
Let P := login_period_ns c.
Let B := login_burst c.
Context (HP : 0 < P < 2 ^ 64) (HB : 0 ≤ B < 2 ^ 63) (g : Z) (Hg : 0 ≤ g).
Let ledger := spent (M := M) c LOGIN_RL (src p) (within P B 1 t0) t0.
Let promoted (e : kenv) w : Prop :=
  ledger (stranger (src p)) g e w ∨ ledger anything (g + 1) e w.

Lemma payload_login_any : triple (ledger anything g) (xdp_payload ctx p) (λ _, ledger anything g).
Proof.
  unfold xdp_payload, xdp_first_segment, xdp_handshake, count_drop, ledger, P, B in *. cbv zeta.
  spend [TFirst; TWl; TStatus; TConn; THealth; THist].
  all: eapply spent_ret; [exact _|reflexivity|]; simpl; lia.
Qed.
Lemma payload_promotes_pays :
  triple (ledger (stranger (src p)) g) (xdp_payload ctx p) (λ _, promoted).
Proof.
  unfold xdp_payload, xdp_first_segment, xdp_handshake, count_drop, promoted, ledger, P, B in *. cbv zeta.
  spend [TFirst; TStatus; TConn; THealth; THist].
  all: try match goal with |- triple _ (_ ≫= _) _ => apply spent_forget; spend [TWl] end.
  all: apply triple_ret; intros e w H; first
    [left; eapply spent_fewer; [..|exact H]; [exact _|simpl; lia|done]
    |right; exact H].
Qed.
Lemma after_login_any : triple (ledger anything g) after_trusted (λ _, ledger anything g).
Proof.
  unfold after_trusted. apply (spent_skip _ _ _ _ _ [TSyn; TSynRl; THist]);
    [done|done|apply gate_calm|]. intros [v|]; [by apply triple_ret|apply payload_login_any].
Qed.
Lemma filter_keeps_login :
  triple (ledger anything g) (xdp_filter ctx p) (λ _, ledger anything g).
Proof. apply filter_any; [exact _|done|done|apply after_login_any]. Qed.
(** A stranger that is promoted has paid a login token. *)
Lemma filter_promotes :
  triple (ledger (stranger (src p)) g) (xdp_filter ctx p) (λ _, promoted).
Proof.
  apply filter_stranger; [exact _|done|done|auto with steady..|by left|].
  unfold after_trusted. apply (spent_skip _ _ _ _ _ [TSyn; TSynRl; THist]);
    [done|auto with steady|apply gate_calm|].
  intros [v|]; [apply triple_ret; by left|apply payload_promotes_pays].
Qed.
End Login.

Section Status.
Let P := status_period_ns c.
Let B := status_burst c.
Context (HP : 0 < P < 2 ^ 64) (HB : 0 ≤ B < 2 ^ 63) (g : Z) (Hg : 0 ≤ g).
Let ledger := spent (M := M) c STATUS_RL (src p) (within P B 1 t0) t0.

Lemma payload_status_any : triple (ledger anything g) (xdp_payload ctx p) (λ _, ledger anything g).
Proof.
  unfold xdp_payload, xdp_first_segment, xdp_handshake, count_drop, ledger, P, B in *. cbv zeta.
  spend [TFirst; TWl; TLogin; TConn; THealth; THist].
  all: eapply spent_ret; [exact _|reflexivity|]; simpl; lia.
Qed.
Lemma filter_keeps_status :
  triple (ledger anything g) (xdp_filter ctx p) (λ _, ledger anything g).
Proof.
  apply filter_any; [exact _|done|done|].
  unfold after_trusted. apply (spent_skip _ _ _ _ _ [TSyn; TSynRl; THist]);
    [done|done|apply gate_calm|]. intros [v|]; [by apply triple_ret|apply payload_status_any].
Qed.
(** The first data of a stranger's connection, asking for the status, is paid for. *)
Lemma payload_answers te : data_of ctx p = Some HS_STATUS →
  triple (ledger (newly_open (src p) te) g) (xdp_payload ctx p)
    (λ v, ledger anything (g + Z.b2z (bool_decide (v = XDP_PASS)))).
Proof.
  unfold data_of, xdp_payload. cbv zeta. destruct (doff p * 4 <? sizeof_tcphdr); [done|].
  destruct (Z.of_nat (length (data ctx)) <? _); [done|]. destruct (ip_tot p <=? _); [done|].
  intros [= Hcl]. unfold classified in Hcl. unfold ledger, P, B in *. spend_skip (@nil tag).
  apply (spent_lookup _ _ _ _ _ _ _ _ _ (Some te)); [by intros w (_ & ? & _)|].
  unfold xdp_first_segment. apply triple_assoc.
  apply (spent_lookup _ _ _ _ _ _ _ _ _ None); [by intros w (_ & _ & ?)|].
  apply spent_forget. spend_one [TFirst]. spend [TFirst]. rewrite Hcl.
  unfold xdp_handshake, count_drop. spend [THist].
  all: eapply spent_ret; [exact _|reflexivity|]; simpl; lia.
Qed.
Lemma gate_never_passes e w : (xdp_gate p e w).1 ≠ Some XDP_PASS.
Proof.
  enough (H : triple (λ _ _, True) (xdp_gate p : prog M _) (λ v _ _, v ≠ Some XDP_PASS)) by (by apply H).
  unfold xdp_gate, over_open_cap.
  repeat match goal with
  | |- triple _ (mret _) _ => by apply triple_ret
  | |- triple _ (if ?b then _ else _) _ => destruct b
  | |- triple _ (match ?x with _ => _ end) _ => destruct x
  | |- triple _ ((match ?x with _ => _ end) _) _ => destruct x
  | |- triple _ (_ ≫= _) _ => apply (triple_bind _ _ _ (λ _ _ _, True)); [done|intros ?; cbn beta iota]
  end.
Qed.
Lemma filter_answers te : data_of ctx p = Some HS_STATUS →
  triple (ledger (newly_open (src p) te) g) (xdp_filter ctx p)
    (λ v, ledger anything (g + Z.b2z (bool_decide (v = XDP_PASS)))).
Proof.
  intros Hd. apply filter_stranger; [exact _|done|by intros w [? _]|auto with steady..| |].
  - intros e w. apply spent_fewer; [exact _|simpl; lia|done].
  - apply (triple_bind _ _ _ (λ v e w, ledger (newly_open (src p) te) g e w ∧ v ≠ Some XDP_PASS)).
    + intros e w Hs. split; [|apply gate_never_passes].
      eapply (spent_stable _ _ _ _ _ [TSyn; TSynRl; THist]); [done|auto with steady|apply gate_calm|done].
    + intros [v|]; apply triple_pure; intros Hv; [|by apply payload_answers].
      eapply spent_ret; [exact _|reflexivity|]. destruct v; simpl; [lia|done].
Qed.
End Status.
End Program.

(** ** Whole runs *)
Section Runs.
Context {M : Type → Type} `{!BpfMap M, !BpfMapLaws M}.
Context (c : xdp_config) (clock : nat → Z) (Hcfg : tunables_ok c).
Context (Hclk : ∀ n, 0 ≤ clock n < 2 ^ 63) (Hmono : ∀ n m, (n ≤ m)%nat → clock n ≤ clock m).
Implicit Types (w : world M) (ev : event).
Notation now w := (clock (clock_reads w)).

(** What the events of a run weigh, each judged in the state it meets; how many count. *)
Fixpoint weigh (f : world M → event → Z) (evs : list event) w : Z :=
  match evs with
  | [] => 0
  | ev :: evs => f w ev + weigh f evs (handle c clock ev w)
  end.
Definition tally (counts : world M → event → bool) : list event → world M → Z :=
  weigh (λ w ev, Z.b2z (counts w ev)).

(** A new connection of [k], not on the whitelist, that the program lets through. *)
Definition opens (k : ipkey) w ev : bool :=
  match ev with
  | Frame n ctx =>
    match xdp_parse (target_port c) (data ctx) with
    | Some p => bool_decide (src p = k) && syn (flags p) &&
                bool_decide (bpf_lookup k (get_map WHITELIST w) = None) &&
                bool_decide ((minecraft_xdp ctx (on_cpu c clock n) w).1 = XDP_PASS)
    | None => false
    end
  | Callback _ _ _ => false
  end.
(** An event that puts [k] on the whitelist. *)
Definition joins (k : ipkey) w ev : bool :=
  bool_decide (bpf_lookup k (get_map WHITELIST w) = None) &&
  bool_decide (is_Some (bpf_lookup k (get_map WHITELIST (handle c clock ev w)))).

(** The first data of a connection of [k], not on the whitelist, that asks for the status
    and is passed. *)
Definition talks_first (k : ipkey) w : bool :=
  bool_decide (bpf_lookup k (get_map WHITELIST w) = None) &&
  bool_decide (is_Some (bpf_lookup k (get_map ESTABLISHED w))) &&
  bool_decide (bpf_lookup k (get_map FIRST_DATA w) = None).
Definition answers (k : ipkey) w ev : bool :=
  match ev with
  | Frame n ctx =>
    match xdp_parse (target_port c) (data ctx) with
    | Some p => bool_decide (src p = k) && bool_decide (data_of ctx p = Some HS_STATUS) &&
                talks_first k w &&
                bool_decide ((minecraft_xdp ctx (on_cpu c clock n) w).1 = XDP_PASS)
    | None => false
    end
  | Callback _ _ _ => false
  end.
Lemma talks_first_true k w : talks_first k w = true → ∃ t, newly_open k t w.
Proof.
  unfold talks_first. rewrite !andb_true_iff, !bool_decide_eq_true. intros [[? [t ?]] ?].
  by exists t.
Qed.

(** The LRU map does not evict the source's bucket during the run. *)
Fixpoint unevicted {V} (map : mapid V) (k : ipkey) (evs : list event) w : Prop :=
  match evs with
  | [] => True
  | ev :: evs => let w' := handle c clock ev w in
    (is_Some (bpf_lookup k (get_map map w)) → is_Some (bpf_lookup k (get_map map w'))) ∧
    unevicted map k evs w'
  end.

Section Weigh.
Context {V : Type} (map : mapid V) (k : ipkey) (L : Z → Z → option V → Prop) `{!Ledger L} (t0 : Z).
Context (f : world M → event → Z) (Hf : ∀ w ev, well_formed ev → 0 ≤ f w ev).
Notation ledger := (spent (M := M) c map k L t0 anything).
(** What has to be known of the source's own packets, and of what does not concern it. *)
Context (Hown : ∀ n ctx p w g, src p = k → xdp_parse (target_port c) (data ctx) = Some p →
  0 ≤ ip_tot p < 2 ^ 16 → 0 ≤ g → ledger g (on_cpu c clock n) w →
  ledger (g + f w (Frame n ctx)) (on_cpu c clock n) (handle c clock (Frame n ctx) w)).
Context (Hother : ∀ ev w, f w ev ≠ 0 →
  ∃ n ctx p, ev = Frame n ctx ∧ xdp_parse (target_port c) (data ctx) = Some p ∧ src p = k).
Context (Hsock : bool_decide (tag_of map ∈ sock_tags) = false).

Lemma foreign_frame n ctx p w : src p ≠ k → xdp_parse (target_port c) (data ctx) = Some p →
  (is_Some (bpf_lookup k (get_map map w)) →
   is_Some (bpf_lookup k (get_map map (handle c clock (Frame n ctx) w)))) →
  bpf_lookup k (get_map map (handle c clock (Frame n ctx) w)) = bpf_lookup k (get_map map w).
Proof.
  intros Hne Hp. cbn [handle]. rewrite minecraft_xdp_run. cbn [on_cpu conf]. rewrite Hp.
  destruct (xdp_filter_only_ip ctx p (on_cpu c clock n) w _ map k (not_eq_sym Hne)) as [->|H]; [done|].
  rewrite H. destruct (bpf_lookup k (get_map map w)); [|done].
  intros Hx. by destruct (Hx (mk_is_Some _ _ eq_refl)).
Qed.
Lemma ledger_event n ev w g : well_formed ev → 0 ≤ g →
  (is_Some (bpf_lookup k (get_map map w)) → is_Some (bpf_lookup k (get_map map (handle c clock ev w)))) →
  ledger g (on_cpu c clock n) w →
  ledger (g + f w ev) (on_cpu c clock n) (handle c clock ev w).
Proof.
  intros Hwf Hg Hkept Hs.
  assert (Hforeign : ¬ (∃ n ctx p, ev = Frame n ctx ∧
      xdp_parse (target_port c) (data ctx) = Some p ∧ src p = k) →
    bpf_lookup k (get_map map (handle c clock ev w)) = bpf_lookup k (get_map map w) →
    ledger (g + f w ev) (on_cpu c clock n) (handle c clock ev w)).
  { intros Hno He. destruct (Z.eq_dec (f w ev) 0) as [->|Hnz]; [|by destruct Hno; apply (Hother _ w)].
    destruct Hs as (Hc & Hk & Ht & Hw & _). rewrite Z.add_0_r.
    pose proof (handle_later c clock ev w) as Hl. apply Hmono in Hl.
    unfold now_of in *. split_and!; unfold now_of; cbn [on_cpu boot_ns] in *;
      [done..|lia| |done]. rewrite He. by eapply ledger_later. }
  destruct ev as [m ctx|m race skops].
  - destruct (xdp_parse (target_port c) (data ctx)) as [p|] eqn:Hp.
    + destruct (decide (src p = k)) as [Hk|Hne].
      * destruct (xdp_parse_bounds _ _ _ Hwf Hp) as (_ & _ & _ & Hlen & _).
        exact (Hown m ctx p w g Hk Hp Hlen Hg Hs).
      * apply Hforeign; [|by apply (foreign_frame m ctx p)].
        intros (?&?&?&[= <- <-]&?&?). by simplify_eq.
    + apply Hforeign; [intros (?&?&?&[= <- <-]&?&?); by simplify_eq|].
      cbn [handle]. rewrite minecraft_xdp_run. cbn [on_cpu conf]. by rewrite Hp.
  - apply Hforeign; [by intros (?&?&?&?&_)|]. cbn [handle].
    by rewrite (sockops_maps race skops _ w _ map (proj1 (bool_decide_eq_false _) Hsock)).
Qed.
Lemma ledger_run n evs w g : Forall well_formed evs → 0 ≤ g → unevicted map k evs w →
  ledger g (on_cpu c clock n) w →
  ledger (g + weigh f evs w) (on_cpu c clock n) (handle_all c clock evs w).
Proof.
  intros Hwf. revert w g. induction Hwf as [|ev evs Hev _ IH]; intros w g Hg Hun Hs; simpl.
  { by rewrite Z.add_0_r. }
  destruct Hun as [Hkept Hun]. rewrite Z.add_assoc. apply IH; [|done|by apply ledger_event].
  specialize (Hf w ev Hev). lia.
Qed.
(** What counts, in the books at the end of the run. *)
Lemma weigh_ledger evs w : reach c clock w → Forall well_formed evs → t0 = now w →
  L (now w) 0 (bpf_lookup k (get_map map w)) → unevicted map k evs w →
  let w' := handle_all c clock evs w in
  now w ≤ now w' ∧ L (now w') (weigh f evs w) (bpf_lookup k (get_map map w')).
Proof.
  intros Hw Hwf Ht Hstart Hev.
  assert (Hs : ledger 0 (on_cpu c clock 0) w).
  { split_and!; [done|by apply on_cpu_clock|by rewrite Ht|done|done]. }
  apply (ledger_run 0 evs) in Hs as (_ & _ & Ht' & Hw' & _); [|done..].
  unfold now_of in *. cbn [on_cpu boot_ns] in *. rewrite <- Ht. by split.
Qed.
End Weigh.

(** The bound on what counts, for a per-IP limiter. *)
Lemma tally_bound (map : mapid ratelimit) k P B counts evs w :
  reach c clock w → Forall well_formed evs → 0 < P →
  (∀ o, entry_good c (now w) map o → entry_ok B (now w) o) →
  bool_decide (tag_of map ∈ sock_tags) = false →
  (∀ ev w, counts w ev = true →
    ∃ n ctx p, ev = Frame n ctx ∧ xdp_parse (target_port c) (data ctx) = Some p ∧ src p = k) →
  (∀ n ctx p w' g, src p = k → xdp_parse (target_port c) (data ctx) = Some p →
    0 ≤ ip_tot p < 2 ^ 16 → 0 ≤ g →
    spent c map k (within P B 1 (now w)) (now w) anything g (on_cpu c clock n) w' →
    spent c map k (within P B 1 (now w)) (now w) anything (g + Z.b2z (counts w' (Frame n ctx)))
      (on_cpu c clock n) (handle c clock (Frame n ctx) w')) →
  unevicted map k evs w →
  let w' := handle_all c clock evs w in
  tally counts evs w ≤ Z.max B 1 + periods_begun (now w' - now w) P.
Proof.
  intros Hw Hwf HP Hmap Hsock Hcounts Hown Hev w'.
  destruct (reach_good c clock Hcfg Hclk Hmono w Hw 0%nat) as (_ & _ & [Hr _ _]).
  destruct (weigh_ledger map k (within P B 1 (now w)) (now w) (λ w ev, Z.b2z (counts w ev)))
    with (evs := evs) (w := w) as [Ht Hin]; try done.
  - intros w1 ev _. destruct (counts w1 ev); simpl; lia.
  - intros ev w1 Hnz. apply (Hcounts ev w1). by destruct (counts w1 ev).
  - apply within_start; [done|]. apply Hmap, (Hr k _ map).
  - apply within_bound in Hin; [|lia|done]. by apply periods_bound.
Qed.

Lemma opens_frame k ev w : opens k w ev = true →
  ∃ n ctx p, ev = Frame n ctx ∧ xdp_parse (target_port c) (data ctx) = Some p ∧ src p = k.
Proof.
  unfold opens. destruct ev as [n ctx|]; [|done]. destruct (xdp_parse _ _) as [p|] eqn:Hp; [|done].
  rewrite !andb_true_iff, bool_decide_eq_true. intros [[[? _] _] _]. by exists n, ctx, p.
Qed.
Lemma answers_frame k ev w : answers k w ev = true →
  ∃ n ctx p, ev = Frame n ctx ∧ xdp_parse (target_port c) (data ctx) = Some p ∧ src p = k.
Proof.
  unfold answers. destruct ev as [n ctx|]; [|done]. destruct (xdp_parse _ _) as [p|] eqn:Hp; [|done].
  rewrite !andb_true_iff, !bool_decide_eq_true. intros [[[? _] _] _]. by exists n, ctx, p.
Qed.
(** The callbacks take sources off the whitelist, and put none on it. *)
Definition no_join (k : ipkey) (e : kenv) w w' : Prop := stranger k w → stranger k w'.
#[local] Instance no_join_preorder k e : PreOrder (no_join k e).
Proof. split; [by intros w ?|]. intros x y z H1 H2 ?. auto. Qed.
Lemma no_join_maps k S {A} (m : prog M A) : bool_decide (TWl ∈ S) = false →
  Preserves (only_maps S) m → Preserves (no_join k) m.
Proof.
  intros HS%bool_decide_eq_false Hm e w. unfold no_join, stranger.
  by rewrite (Hm e w _ WHITELIST HS).
Qed.
Lemma no_join_delete k k' {V} (i : mapid V) : Preserves (no_join k) (bpf_map_delete_elem i k').
Proof.
  intros e w. refine (set_map_rel (λ W _ m m', bpf_lookup k m = None → bpf_lookup k m' = None)
    i _ w _ _ _ WHITELIST); [done|]. intros Hk. destruct (decide (k = k')) as [->|Hne].
  - apply bpf_lookup_delete_eq.
  - by rewrite bpf_lookup_delete_ne.
Qed.
Lemma sockops_no_join k race skops : Preserves (no_join k) (minecraft_sockops race skops : prog M _).
Proof.
  assert (Hdec : ∀ n k', Preserves (no_join k) (dec_loop race n k' : prog M unit)).
  { intros n k'. apply dec_loop_frame; [exact _| |intros; apply no_join_delete].
    intros v. apply (no_join_maps k [TOpen]); [done|]. auto with frame. }
  unfold minecraft_sockops, open_count_dec, cfg. preserve; try apply Hdec.
  all: apply (no_join_maps k [TOpen; TEst]); [done|].
  all: unfold open_count_inc, update_noexist; preserve.
Qed.
Lemma joins_frame k ev w : joins k w ev = true →
  ∃ n ctx p, ev = Frame n ctx ∧ xdp_parse (target_port c) (data ctx) = Some p ∧ src p = k.
Proof.
  unfold joins. rewrite andb_true_iff, !bool_decide_eq_true. intros [Hn [t Ht]].
  destruct ev as [n ctx|n race skops]; cbn [handle] in Ht.
  - rewrite minecraft_xdp_run in Ht. cbn [on_cpu conf] in Ht.
    destruct (xdp_parse _ _) as [p|] eqn:Hp; [|cbn [snd] in Ht; congruence].
    exists n, ctx, p. split_and!; [done..|]. destruct (decide (src p = k)) as [|Hne]; [done|].
    destruct (xdp_filter_only_ip ctx p (on_cpu c clock n) w _ WHITELIST k (not_eq_sym Hne)); congruence.
  - pose proof (sockops_no_join k race skops (on_cpu c clock n) w Hn). congruence.
Qed.

(** The run of a frame for the server. *)
Lemma handle_frame n ctx p w : xdp_parse (target_port c) (data ctx) = Some p →
  minecraft_xdp ctx (on_cpu c clock n) w = xdp_filter ctx p (on_cpu c clock n) w.
Proof. intros Hp. rewrite minecraft_xdp_run. cbn [on_cpu conf]. by rewrite Hp. Qed.
(** More known of the state. *)
Lemma spent_know {V} (map : mapid V) k L t0 (X : world M → Prop) g e w :
  X w → spent c map k L t0 anything g e w → spent c map k L t0 X g e w.
Proof. intros HX (?&?&?&?&_). by split_and!. Qed.

Lemma opens_spec k evs w :
  reach c clock w → Forall well_formed evs → 0 < conn_new_period_ns c → 0 < conn_new_burst c →
  unevicted SYN_RL k evs w →
  let w' := handle_all c clock evs w in
  tally (opens k) evs w ≤ conn_new_burst c + periods_begun (now w' - now w) (conn_new_period_ns c).
Proof.
  intros Hw Hwf HP HB Hev. pose proof Hcfg as (_ & _ & _ & _ & [HP' HB']).
  pose proof (tally_bound SYN_RL k (conn_new_period_ns c) (conn_new_burst c)) as H.
  rewrite Z.max_l in H by lia. apply H; [done|done|done| |done|apply opens_frame| |done].
  { intros o Ho. apply Ho. lia. }
  clear H. intros n ctx p w1 g <- Hp _ Hg Hs. simpl. rewrite (handle_frame n ctx p), Hp by done.
  rewrite bool_decide_eq_true_2 by done. cbn [andb].
  destruct (syn (flags p)) eqn:Hsyn; cbn [andb]; [destruct (bool_decide _) eqn:Hwl; cbn [andb]|].
  1: { apply (filter_opens c (now w) ctx p); [lia|lia|done..|].
       apply bool_decide_eq_true in Hwl. by apply spent_know. }
  all: rewrite Z.add_0_r; by apply (filter_keeps_syn c (now w) ctx p); [lia|lia|..].
Qed.
(** C4. New connections come at the configured rate: over any run of frames and callbacks
    of any sources, on any CPUs, the connections that a source not on the whitelist opens
    (SYNs the program passes) number at most the burst, plus one for every period begun
    since the start of the run, unless the LRU map evicts the source's bucket meanwhile. *)
Theorem opens_bounded k evs w :
  reach c clock w → Forall well_formed evs → 0 < conn_new_period_ns c → 0 < conn_new_burst c →
  unevicted SYN_RL k evs w →
  let w' := handle_all c clock evs w in
  tally (opens k) evs w ≤ conn_new_burst c + periods_begun (now w' - now w) (conn_new_period_ns c).
Proof. apply opens_spec. Qed.

Lemma joins_spec k evs w :
  reach c clock w → Forall well_formed evs → 0 < login_period_ns c → unevicted LOGIN_RL k evs w →
  let w' := handle_all c clock evs w in
  tally (joins k) evs w ≤
    Z.max (login_burst c) 1 + periods_begun (now w' - now w) (login_period_ns c).
Proof.
  intros Hw Hwf HP Hev. pose proof Hcfg as (_ & _ & _ & [HP' HB] & _).
  apply (tally_bound LOGIN_RL k); [done..|apply joins_frame| |done].
  intros n ctx p w1 g <- Hp _ Hg Hs. unfold joins. cbn [handle]. rewrite (handle_frame n ctx p) by done.
  destruct (bool_decide _) eqn:Hwl; cbn [andb].
  2: { rewrite Z.add_0_r. apply (filter_keeps_login c (now w) ctx p); [lia|done..]. }
  apply bool_decide_eq_true in Hwl. apply (spent_know _ _ _ _ (stranger (src p))) in Hs; [|done].
  destruct (filter_promotes c (now w) ctx p ltac:(lia) HB g Hg _ _ Hs) as [Hno|Hyes].
  - pose proof Hno as (_ & _ & _ & _ & Hx). unfold stranger in Hx. rewrite Hx.
    rewrite bool_decide_eq_false_2 by (by intros [? ?]). rewrite Z.add_0_r.
    eapply spent_fewer; [exact _|..|exact Hno]; [lia|done].
  - eapply spent_fewer; [exact _|..|exact Hyes]; [|done]. case_bool_decide; simpl; lia.
Qed.
(** C5. Promotion comes at the configured rate: over any run of frames and callbacks of any
    sources, on any CPUs, a source enters the whitelist at most as often as the login burst
    (once, if that is 0), plus once for every login period begun since the start of the
    run, unless the LRU map evicts the source's bucket meanwhile. *)
Theorem joins_bounded k evs w :
  reach c clock w → Forall well_formed evs → 0 < login_period_ns c → unevicted LOGIN_RL k evs w →
  let w' := handle_all c clock evs w in
  tally (joins k) evs w ≤
    Z.max (login_burst c) 1 + periods_begun (now w' - now w) (login_period_ns c).
Proof. apply joins_spec. Qed.

Lemma answers_spec k evs w :
  reach c clock w → Forall well_formed evs → 0 < status_period_ns c → unevicted STATUS_RL k evs w →
  let w' := handle_all c clock evs w in
  tally (answers k) evs w ≤
    Z.max (status_burst c) 1 + periods_begun (now w' - now w) (status_period_ns c).
Proof.
  intros Hw Hwf HP Hev. pose proof Hcfg as (_ & _ & [HP' HB] & _).
  apply (tally_bound STATUS_RL k); [done..|apply answers_frame| |done].
  intros n ctx p w1 g <- Hp _ Hg Hs. cbn [handle answers]. rewrite (handle_frame n ctx p), Hp by done.
  rewrite bool_decide_eq_true_2 by done. cbn [andb].
  destruct (bool_decide (data_of ctx p = _)) eqn:Hd; cbn [andb].
  2: { rewrite Z.add_0_r. apply (filter_keeps_status c (now w) ctx p); [lia|done..]. }
  destruct (talks_first (src p) w1) eqn:Ht; cbn [andb].
  2: { rewrite Z.add_0_r. apply (filter_keeps_status c (now w) ctx p); [lia|done..]. }
  apply bool_decide_eq_true in Hd. apply talks_first_true in Ht as [te Ht].
  apply (spent_know _ _ _ _ (newly_open (src p) te)) in Hs; [|done].
  by apply (filter_answers c (now w) ctx p ltac:(lia) HB g Hg te).
Qed.
(** C7. Pings are answered at the configured rate: over any run of frames and callbacks of
    any sources, on any CPUs, the Status requests that open a conversation of a source not
    on the whitelist and are passed number at most the burst (one, if that is 0), plus one
    for every period begun since the start of the run, unless the LRU map evicts the
    source's bucket meanwhile. *)
Theorem answers_bounded k evs w :
  reach c clock w → Forall well_formed evs → 0 < status_period_ns c → unevicted STATUS_RL k evs w →
  let w' := handle_all c clock evs w in
  tally (answers k) evs w ≤
    Z.max (status_burst c) 1 + periods_begun (now w' - now w) (status_period_ns c).
Proof. apply answers_spec. Qed.
End Runs.
