(* ===== verification/Bans.v ===== *)
(** * Bans

    Who gets banned: the anomaly record of a source over whole runs, against the times
    at which its packets were dropped for too much traffic.  The window of the code is
    not a sliding one: it starts with an anomaly and the next one starts with the first
    anomaly after it is over.  So a ban needs [health_threshold] anomalies within one
    window, and nearly twice as many within any one stretch of that length force it. *)
From S2P Require Import Prelude Kernel World Frame Hoare Packet Handshake TokenBucket Limits Health Xdp XdpAccounting XdpProps Policy Sockops Datapath Served Ledger Rates.

(** ** What a sequence of anomalies does to a record *)
Definition replay (c : xdp_config) (o : option ip_health) (ts : list Z) : option ip_health :=
  foldl (λ o t, Some (next_health c t o)) o ts.

Section Replay.
Context (c : xdp_config) (Hc : health_cfg_ok c).





End Replay.

(** ** One packet *)
Section Packet.
Context {M : Type → Type} `{!BpfMap M, !BpfMapLaws M}.
Context (c : xdp_config) (Hc : health_cfg_ok c) (k : ipkey).
Implicit Types (w : world M) (e : kenv).


(** What a packet of the source may do: nothing to the record, or one anomaly, counted in
    the history as one drop for too much traffic. *)
Context (o : option ip_health) (d t0 : Z) (Hok : health_ok t0 o).
End Packet.

(** ** Whole runs *)
Section Runs.
Context {M : Type → Type} `{!BpfMap M, !BpfMapLaws M}.
Context (c : xdp_config) (clock : nat → Z) (Hcfg : tunables_ok c) (Hc : health_cfg_ok c).
Context (Hclk : ∀ n, 0 ≤ clock n < 2 ^ 63) (Hmono : ∀ n m, (n ≤ m)%nat → clock n ≤ clock m).
Context (k : ipkey).
Implicit Types (w : world M) (ev : event).
Notation now w := (clock (clock_reads w)).





End Runs.

(** Three anomalies within a window, with a threshold of three, and no ban: the window the
    first of them falls in began before, and ends between the second and the third. *)
Example straddling_flood_escapes :
  let c := XdpConfig 0 0 0 0 0 0 0 0 0 60 3 300 0 0 0 0 0 0 in
  replay c None [0; 59; 61; 62] = Some (IpHealth 2 61 0).
Proof. reflexivity. Qed.
