(* ===== verification/Traffic.v ===== *)
(** * Trusted traffic over whole runs

    Verified players are passed whatever they send, but only so much of it: over any run
    the packets and the bytes of a source that pass on the strength of the whitelist stay
    within the two buckets of its traffic limiter. *)
From S2P Require Import Prelude Kernel World Frame Hoare Packet Handshake TokenBucket Limits Health Xdp XdpAccounting XdpProps Policy Sockops Datapath Served Ledger Rates.

(** ** The two buckets of an entry *)
Section Buckets.
Context (c : xdp_config) (Hcfg : tunables_ok c) (t0 : Z).

(** A ledger of one of the buckets; the other only has to stay well formed. *)
Definition conn_within (part : conn_limit → ratelimit) (P B C now g : Z) (o : option conn_limit) : Prop :=
  conn_ok c now o ∧ within P B C t0 now g (part <$> o).
#[export] Instance conn_within_ledger part P B C : Ledger (conn_within part P B C).
Proof.
  split.
  - intros now now' g o Hn [Hok Hw]. split; [by eapply conn_ok_mono|by eapply ledger_later].
  - intros now g g' o Hg [Hok Hw]. split; [done|by eapply ledger_fewer].
Qed.
Definition bytes_within : Z → Z → option conn_limit → Prop :=
  conn_within byte_part (conn_byte_period_ns c) (conn_byte_burst c) 65535.
Definition packets_within : Z → Z → option conn_limit → Prop :=
  conn_within pkt_part (conn_pkt_period_ns c) (conn_pkt_burst c) 1.

Lemma step_bytes now g n o : byte_on c = true → 0 ≤ n < 2 ^ 16 → t0 ≤ now → 0 ≤ now →
  bytes_within now g o →
  bytes_within now (g + if (conn_step c now n o).1 then n else 0) (conn_step c now n o).2.
Proof.
  intros Hon Hn Ht Hnow [Hok Hw]. split; [apply conn_step_ok; [done|done|lia|done]|].
  unfold conn_step. rewrite Hon, andb_false_r. destruct o as [b|].
  - destruct (opt_take (pkt_on c) _ _ _ _ _) as [q|]; simpl; [|by rewrite Z.add_0_r].
    destruct (tb_take _ _ n now (byte_part b)) as [r|] eqn:E; cbn [fst snd fmap option_fmap option_map];
      rewrite byte_part_join; [|by rewrite Z.add_0_r].
    eapply within_take; [..|exact E|exact Hw]; lia.
  - cbn [fst snd fmap option_fmap option_map]. rewrite byte_part_join.
    destruct Hcfg as ((_ & _ & [_ HB]) & _).
    apply within_first; [lia|done| |simpl; lia|done|exact Hw]. unfold tb_ok. simpl. lia.
Qed.
Lemma step_packets now g n o : pkt_on c = true → 0 ≤ n < 2 ^ 16 → t0 ≤ now → 0 ≤ now →
  packets_within now g o →
  packets_within now (g + if (conn_step c now n o).1 then 1 else 0) (conn_step c now n o).2.
Proof.
  intros Hon Hn Ht Hnow [Hok Hw]. split; [apply conn_step_ok; [done|done|lia|done]|].
  unfold conn_step. rewrite Hon. cbn [negb andb opt_take]. destruct o as [b|].
  - destruct (tb_take _ _ 1 now (pkt_part b)) as [q|] eqn:E; simpl; [|by rewrite Z.add_0_r].
    assert (Hq : within (conn_pkt_period_ns c) (conn_pkt_burst c) 1 t0 now (g + 1) (Some q))
      by (by eapply within_take; [lia| |exact E|exact Hw]).
    destruct (opt_take _ _ _ _ _ _) as [r|]; cbn [fst snd fmap option_fmap option_map];
      rewrite pkt_part_join; [done|]. pose proof (proj1 (proj2 (proj2 Hw))).
    by eapply ledger_fewer; [|exact Hq]; lia.
  - cbn [fst snd fmap option_fmap option_map]. rewrite pkt_part_join.
    destruct Hcfg as ((_ & [_ HB] & _) & _).
    apply within_first; [lia|done| |simpl; destruct (Z.ltb_spec 0 (conn_pkt_burst c)); lia|done|exact Hw].
    unfold tb_ok. simpl. destruct (Z.ltb_spec 0 (conn_pkt_burst c)); lia.
Qed.
End Buckets.

(** ** The program and the entry *)

(** On the whitelist at the instant [now], as the program sees it. *)
Definition listed {M : Type → Type} `{!BpfMap M} (c : xdp_config) (k : ipkey) (w : world M)
    (now : Z) : bool :=
  match bpf_lookup k (get_map WHITELIST w) with
  | Some t => negb ((0 <? whitelist_ttl_ns c) && (whitelist_ttl_ns c <? u64 (now - t)))
  | None => false
  end.
Section Program.
Context {M : Type → Type} `{!BpfMap M, !BpfMapLaws M}.
Context (c : xdp_config) (Hcfg : tunables_ok c) (t0 : Z) (ctx : xdp_md) (p : parsed).
Context (Hlen : 0 ≤ ip_tot p < 2 ^ 16).
Implicit Types (w : world M) (e : kenv).
(** A ledger in which an admitted packet of the size of this one counts [pay]. *)
Context (L : Z → Z → option conn_limit → Prop) `{!Ledger L} (pay : Z) (Hpay : 0 ≤ pay).
Context (HLok : ∀ now g o, L now g o → conn_ok c now o).
Context (HLstep : ∀ now g o, t0 ≤ now → 0 ≤ now → L now g o →
  L now (g + if (conn_step c now (ip_tot p) o).1 then pay else 0) (conn_step c now (ip_tot p) o).2).
Notation ledger := (spent (M := M) c CONN_RL (src p) L t0 anything).

Lemma traffic_take g {A} (f : bool → prog M A) Q :
  (∀ ok, triple (ledger (g + if (ok : bool) then pay else 0)) (f ok) Q) →
  triple (ledger g) (conn_ratelimit_take (src p) (ip_tot p) ≫= f) Q.
Proof.
  intros Hf. apply (spent_on _ _ _ _ _ _ _ _ _ (λ ok : bool, if ok then pay else 0)); [done|..|done].
  - by apply conn_take_maps.
  - apply conn_take_later.
  - intros e w (Hc & Hk & Ht & Hw & _). cbv zeta.
    pose proof (conn_ratelimit_take_spec (src p) (ip_tot p) e w) as H. rewrite Hc in H.
    specialize (H (proj1 Hcfg) Hk Hlen (HLok _ _ _ Hw)).
    apply HLstep in Hw; [|done|apply Hk].
    destruct (conn_ratelimit_take (src p) (ip_tot p) e w) as [ok w']. by rewrite <- H in Hw.
Qed.
(** Walks a program that may take from the entry. *)
Ltac traffic_one S :=
  match goal with
  | |- triple _ (conn_ratelimit_take _ _ ≫= _) _ => apply traffic_take; intros []
  | _ => spend_one S
  end.
Ltac traffic S := repeat (traffic_one S; cbn beta iota).

Lemma trusted_keeps g : 0 ≤ g → triple (ledger g) (xdp_trusted p) (λ _, ledger g).
Proof.
  intros Hg. unfold xdp_trusted, over_open_cap, count_drop. traffic [TWl; THealth; THist].
  all: eapply spent_ret; [exact _|reflexivity|]; lia.
Qed.
Lemma payload_traffic g : 0 ≤ g → triple (ledger g) (xdp_payload ctx p) (λ _, ledger g).
Proof.
  intros Hg. unfold xdp_payload, xdp_first_segment, xdp_handshake, count_drop. cbv zeta.
  traffic [TFirst; TWl; TStatus; TLogin; THealth; THist].
  all: eapply spent_ret; [exact _|reflexivity|]; lia.
Qed.
Lemma filter_keeps_traffic g : 0 ≤ g → triple (ledger g) (xdp_filter ctx p) (λ _, ledger g).
Proof.
  intros Hg. unfold xdp_filter, count_drop.
  destruct (tcp_flags_bogus (flags p)); [traffic [THist]; by apply triple_ret|].
  spend_skip (@nil tag). destruct a; [traffic [THist]; by apply triple_ret|].
  eapply triple_bind; [by apply trusted_keeps|]. intros [v|]; [by apply triple_ret|].
  apply (spent_skip _ _ _ _ _ [TSyn; TSynRl; THist]); [done|done|apply gate_calm|].
  intros [v|]; [by apply triple_ret|by apply payload_traffic].
Qed.
Definition streamed (v : xdp_action) : Z := if bool_decide (v = XDP_PASS) then pay else 0.
Lemma trusted_pays g e w : 0 ≤ g → ledger g e w →
  listed c (src p) w (boot_ns e (clock_reads w)) = true →
  let r := xdp_trusted p e w in
  ∃ v, r.1 = Some v ∧ ledger (g + streamed v) e r.2.
Proof.
  intros Hg Hs Hl. unfold listed in Hl. destruct (bpf_lookup _ _) as [t|] eqn:Hwl; [|done].
  pose proof Hs as (Hc & _). unfold xdp_trusted.
  rewrite (bind_run _ _ e w (Some t) w) by (unfold bpf_map_lookup_elem; by rewrite Hwl).
  rewrite (bind_run _ _ e w (boot_ns e (clock_reads w)) (tick w)) by done.
  rewrite (bind_run _ _ e (tick w) (whitelist_ttl_ns c) (tick w)) by (unfold cfg, reads; by rewrite Hc).
  apply negb_true_iff in Hl. rewrite Hl.
  assert (Ht : ledger g e (tick w)).
  { assert (Hk : Preserves (calm []) (bpf_ktime_get_boot_ns : prog M Z)) by preserve.
    eapply (spent_stable c CONN_RL _ _ _ []); [done|apply steady_anything|apply (Hk e w)|exact Hs]. }
  match goal with |- ∃ v, (?m e (tick w)).1 = Some v ∧ _ =>
    enough (H : triple (ledger g) m (λ v e' w', ∃ a, v = Some a ∧ ledger (g + streamed a) e' w'))
      by exact (H e (tick w) Ht) end.
  unfold over_open_cap, count_drop. traffic [TWl; THealth; THist].
  all: apply triple_ret; intros e' w' H; eexists; (split; [reflexivity|]).
  all: eapply spent_fewer; [exact _|..|exact H]; [unfold streamed; simpl; lia|done].
Qed.
Lemma filter_pays g e w : 0 ≤ g → ledger g e w →
  listed c (src p) w (boot_ns e (clock_reads (checked (src p) w))) = true →
  let r := xdp_filter ctx p e w in ledger (g + streamed r.1) e r.2.
Proof.
  intros Hg Hs Hl. unfold xdp_filter.
  assert (Hdrop : ∀ r s, triple (ledger g) (count_drop (src p) r s ≫= λ _, mret XDP_DROP)
    (λ v, ledger (g + streamed v))).
  { intros r s. unfold count_drop. traffic [THist]. eapply spent_ret; [exact _|reflexivity|].
    unfold streamed. simpl. lia. }
  destruct (tcp_flags_bogus (flags p)); [by apply (Hdrop _ _ e w)|].
  set (sick := match health_entry (src p) w with
    | None => false | Some h => boot_ns e (clock_reads w) <? blacklist_until_ns h end).
  assert (Hrun : health_is_blacklisted (src p) e w = (sick, checked (src p) w)).
  { rewrite health_is_blacklisted_run. unfold sick, checked. by case_match. }
  cbv zeta. rewrite (bind_run _ _ e w _ _ Hrun).
  assert (Hs' : ledger g e (checked (src p) w)).
  { pose proof (blacklisted_calm (src p) e w) as Hb. rewrite Hrun in Hb.
    eapply (spent_stable c CONN_RL _ _ _ []); [done|apply steady_anything|exact Hb|exact Hs]. }
  destruct sick; [by apply (Hdrop _ _ e)|].
  destruct (trusted_pays g e (checked (src p) w)) as (v & Hv & Hv'); [done|done| |].
  { unfold listed in *. by rewrite checked_get. }
  unfold mbind, prog_bind. destruct (xdp_trusted p e _) as [v' w']. cbn [fst snd] in *. by subst v'.
Qed.
End Program.

(** ** Whole runs *)
Section Runs.
Context {M : Type → Type} `{!BpfMap M, !BpfMapLaws M}.
Context (c : xdp_config) (clock : nat → Z) (Hcfg : tunables_ok c).
Context (Hclk : ∀ n, 0 ≤ clock n < 2 ^ 63) (Hmono : ∀ n m, (n ≤ m)%nat → clock n ≤ clock m).
Implicit Types (w : world M) (ev : event).
Notation now w := (clock (clock_reads w)).

(** A packet of [k] that passes because [k] is on the whitelist, weighed by [pay] of its size. *)
Definition streams (pay : Z → Z) (k : ipkey) w ev : Z :=
  match ev with
  | Frame n ctx =>
    match xdp_parse (target_port c) (data ctx) with
    | Some p => if bool_decide (src p = k) && listed c k w (now (checked k w)) &&
                   bool_decide ((minecraft_xdp ctx (on_cpu c clock n) w).1 = XDP_PASS)
                then pay (ip_tot p) else 0
    | None => 0
    end
  | Callback _ _ _ => 0
  end.
Lemma streams_frame pay k ev w : streams pay k w ev ≠ 0 →
  ∃ n ctx p, ev = Frame n ctx ∧ xdp_parse (target_port c) (data ctx) = Some p ∧ src p = k.
Proof.
  unfold streams. destruct ev as [n ctx|]; [|done]. destruct (xdp_parse _ _) as [p|] eqn:Hp; [|done].
  destruct (bool_decide (src p = k)) eqn:Hk; [|done]. apply bool_decide_eq_true in Hk.
  intros _. by exists n, ctx, p.
Qed.
Lemma streams_nonneg pay k ev w : (∀ n, 0 ≤ n < 2 ^ 16 → 0 ≤ pay n) → well_formed ev →
  0 ≤ streams pay k w ev.
Proof.
  intros Hpay Hwf. unfold streams. destruct ev as [n ctx|]; [|done].
  destruct (xdp_parse _ _) as [p|] eqn:Hp; [|done].
  destruct (xdp_parse_bounds _ _ _ Hwf Hp) as (_ & _ & _ & Hlen & _).
  specialize (Hpay _ Hlen). case_match; lia.
Qed.

Section Ledgers.
Context (L : Z → Z → option conn_limit → Prop) `{!Ledger L} (pay : Z → Z) (t0 : Z).
Context (Hpay : ∀ n, 0 ≤ n < 2 ^ 16 → 0 ≤ pay n).
Context (HLok : ∀ now g o, L now g o → conn_ok c now o).
Context (HLstep : ∀ now g n o, 0 ≤ n < 2 ^ 16 → t0 ≤ now → 0 ≤ now → L now g o →
  L now (g + if (conn_step c now n o).1 then pay n else 0) (conn_step c now n o).2).

Lemma streams_ledger k evs w : reach c clock w → Forall well_formed evs → t0 = now w →
  L (now w) 0 (bpf_lookup k (get_map CONN_RL w)) → unevicted c clock CONN_RL k evs w →
  let w' := handle_all c clock evs w in
  now w ≤ now w' ∧ L (now w') (weigh c clock (streams pay k) evs w) (bpf_lookup k (get_map CONN_RL w')).
Proof.
  intros Hw Hwf Ht Hstart Hev.
  apply (weigh_ledger c clock Hclk Hmono CONN_RL k L t0); try done.
  - intros w1 ev. by apply streams_nonneg.
  - intros n ctx p w1 g <- Hp Hlen Hg Hs. cbn [handle streams].
    rewrite (handle_frame c clock n ctx p), Hp by done. rewrite bool_decide_eq_true_2 by done.
    assert (HLstep' : ∀ now g o, t0 ≤ now → 0 ≤ now → L now g o →
      L now (g + if (conn_step c now (ip_tot p) o).1 then pay (ip_tot p) else 0)
        (conn_step c now (ip_tot p) o).2) by auto.
    cbn [andb]. destruct (listed c (src p) w1 _) eqn:Hl; cbn [andb].
    + pose proof (filter_pays c Hcfg t0 ctx p Hlen L (pay (ip_tot p)) (Hpay _ Hlen) HLok HLstep'
        g (on_cpu c clock n) w1 Hg Hs Hl) as H. exact H.
    + rewrite Z.add_0_r.
      by apply (filter_keeps_traffic c Hcfg t0 ctx p Hlen L (pay (ip_tot p)) (Hpay _ Hlen) HLok HLstep').
  - intros ev w1. apply streams_frame.
Qed.
End Ledgers.

Lemma streams_spec k evs w :
  reach c clock w → Forall well_formed evs → unevicted c clock CONN_RL k evs w →
  let w' := handle_all c clock evs w in
  let T := now w' - now w in
  (byte_on c = true → weigh c clock (streams (λ n, n) k) evs w ≤
     Z.max (conn_byte_burst c) 65535 + periods_begun T (conn_byte_period_ns c)) ∧
  (pkt_on c = true → weigh c clock (streams (λ _, 1) k) evs w ≤
     Z.max (conn_pkt_burst c) 1 + periods_begun T (conn_pkt_period_ns c)).
Proof.
  intros Hw Hwf Hev w' T.
  destruct (reach_good c clock Hcfg Hclk Hmono w Hw 0%nat) as (_ & _ & [Hr _ _]).
  specialize (Hr k _ CONN_RL). cbn [entry_good record_of] in Hr. unfold record_of in Hr.
  split; intros Hon.
  - assert (HP : 0 < conn_byte_period_ns c) by (unfold byte_on in Hon; lia).
    destruct (streams_ledger (bytes_within c (now w)) (λ n, n) (now w)) with k evs w as [Ht [_ Hin]];
      try done.
    + lia.
    + by intros ? ? ? [? _].
    + intros t g n o. by apply step_bytes.
    + split; [done|]. apply within_start; [done|].
      destruct (bpf_lookup k (get_map CONN_RL w)) as [b|]; [|done]. by apply Hr.
    + apply within_bound in Hin; [|lia|done]. by apply periods_bound.
  - assert (HP : 0 < conn_pkt_period_ns c) by (unfold pkt_on in Hon; lia).
    destruct (streams_ledger (packets_within c (now w)) (λ _, 1) (now w)) with k evs w as [Ht [_ Hin]];
      try done.
    + by intros ? ? ? [? _].
    + intros t g n o. by apply step_packets.
    + split; [done|]. apply within_start; [done|].
      destruct (bpf_lookup k (get_map CONN_RL w)) as [b|]; [|done]. by apply Hr.
    + apply within_bound in Hin; [|lia|done]. by apply periods_bound.
Qed.

(** C6. Verified players are held to their share: over any run of frames and callbacks of
    any sources, on any CPUs, what a source sends on the strength of its whitelist entry
    passes only up to the byte burst (at least one packet), plus one byte for every byte
    period begun since the start of the run, and up to the packet burst, plus one packet
    for every packet period begun, as far as these caps are switched on, and unless the
    LRU map evicts the source's entry meanwhile. *)
Theorem streams_bounded k evs w :
  reach c clock w → Forall well_formed evs → unevicted c clock CONN_RL k evs w →
  let w' := handle_all c clock evs w in
  let T := now w' - now w in
  (byte_on c = true → weigh c clock (streams (λ n, n) k) evs w ≤
     Z.max (conn_byte_burst c) 65535 + periods_begun T (conn_byte_period_ns c)) ∧
  (pkt_on c = true → weigh c clock (streams (λ _, 1) k) evs w ≤
     Z.max (conn_pkt_burst c) 1 + periods_begun T (conn_pkt_period_ns c)).
Proof. apply streams_spec. Qed.
End Runs.
