(* ===== verification/Breaker.v ===== *)
(** * The circuit breaker over whole runs

    The rate of all new connections together: the breaker has one bucket per CPU, in a
    map without eviction, so its bound holds without exception.  However many sources
    take part, the new connections of unverified sources that a CPU lets through number
    at most its burst plus one per refill period; the bound of the machine is the sum. *)
From S2P Require Import Prelude Kernel World Frame Hoare Packet Handshake TokenBucket Limits Health Xdp XdpAccounting XdpProps Policy Sockops Datapath Served Ledger Rates.

(** ** Statements that leave the breaker alone *)
Section Frames.
Context {M : Type → Type} `{!BpfMap M, !BpfMapLaws M}.
Implicit Types (w : world M) (e : kenv).

(** The buckets stay, up to that of the running CPU. *)
Definition other_breakers (e : kenv) w w' : Prop :=
  ∀ n, n ≠ cpu e → tcp_global_ratelimit w' !! n = tcp_global_ratelimit w !! n.
#[export] Instance other_breakers_preorder e : PreOrder (other_breakers e).
Proof. split; [by intros w n|]. intros x y z H1 H2 n Hn. by rewrite H2, H1. Qed.
Lemma same_other {A} (m : prog M A) : Preserves same_breaker m → Preserves other_breakers m.
Proof. intros Hm e w n _. by rewrite (Hm e w). Qed.

(** The buckets stay, and the clock moves on. *)
Definition apart (e : kenv) w w' : Prop := same_breaker e w w' ∧ later e w w'.
#[export] Instance apart_preorder e : PreOrder (apart e).
Proof.
  split; [intros w; split; reflexivity|].
  intros x y z [H1 H2] [H3 H4]. split; by etrans.
Qed.
Lemma apart_intro {A} (m : prog M A) :
  Preserves same_breaker m → Preserves later m → Preserves apart m.
Proof. intros Hm Hl e w. by split. Qed.

Lemma record_drop_breaker k r : Preserves same_breaker (record_drop k r : prog M unit).
Proof. unfold record_drop, record_drop_idx. preserve. Qed.
Lemma anomaly_breaker k : Preserves same_breaker (health_record_anomaly k : prog M unit).
Proof. unfold health_record_anomaly, cfg. preserve. Qed.
Lemma blacklisted_breaker k : Preserves same_breaker (health_is_blacklisted k : prog M bool).
Proof. unfold health_is_blacklisted. preserve. Qed.
End Frames.
#[export] Hint Resolve record_drop_breaker anomaly_breaker blacklisted_breaker take_breaker
  conn_take_breaker : frame.
#[export] Hint Extern 1 (Preserves apart _) => apply apart_intro : frame.

Section Parts.
Context {M : Type → Type} `{!BpfMap M, !BpfMapLaws M}.
Lemma count_drop_apart k r s : Preserves apart (count_drop k r s : prog M unit).
Proof. unfold count_drop. preserve. Qed.
Lemma trusted_apart p : Preserves apart (xdp_trusted p : prog M _).
Proof. unfold xdp_trusted, count_drop, over_open_cap, cfg. preserve. Qed.
Lemma payload_apart ctx p : Preserves apart (xdp_payload ctx p : prog M _).
Proof.
  unfold xdp_payload, xdp_first_segment, xdp_handshake, count_drop, cfg. cbv zeta. preserve.
Qed.
Lemma sockops_apart race skops : Preserves apart (minecraft_sockops race skops : prog M _).
Proof.
  apply apart_intro; [|apply sockops_later].
  unfold minecraft_sockops, open_count_inc, update_noexist, open_count_dec, cfg. preserve.
  apply dec_loop_frame; auto with frame typeclass_instances.
Qed.
End Parts.

Section Others.
Context {M : Type → Type} `{!BpfMap M, !BpfMapLaws M}.
Lemma apart_same {A} (m : prog M A) : Preserves apart m → Preserves same_breaker m.
Proof. intros Hm e w. apply Hm. Qed.
Lemma global_take_others : Preserves other_breakers (tcp_global_ratelimit_take : prog M bool).
Proof.
  unfold tcp_global_ratelimit_take, cfg. preserve; [by apply same_other; auto with frame|].
  intros e w n Hn. unfold global_store. simpl. autorewrite with world.
  by rewrite list_lookup_insert_ne.
Qed.
Lemma filter_others ctx p : Preserves other_breakers (xdp_filter ctx p : prog M _).
Proof.
  assert (Hdrop : ∀ k r s, Preserves other_breakers (count_drop k r s : prog M unit)).
  { intros. apply same_other, apart_same, count_drop_apart. }
  unfold xdp_filter, xdp_gate, over_open_cap, cfg. preserve; try apply Hdrop.
  all: first [apply global_take_others|apply same_other].
  all: first [by auto with frame|apply apart_same; first [apply trusted_apart|apply payload_apart]].
Qed.
End Others.

(** ** The ledger of one CPU *)
Section Account.
Context {M : Type → Type} `{!BpfMap M, !BpfMapLaws M}.
Context (c : xdp_config) (t0 : Z).
Let P := tcp_global_period_ns c.
Let B := tcp_global_burst c.
Context (HP : 0 < P < 2 ^ 64) (HB : 0 < B < 2 ^ 63) (Hl : limits_ok c).
Implicit Types (w : world M) (e : kenv).

Definition paid (n : nat) (g : Z) e w : Prop :=
  conf e = c ∧ clock_ok e ∧ t0 ≤ now_of e w ∧
  ∃ b, tcp_global_ratelimit w !! n = Some b ∧ within P B 1 t0 (now_of e w) g (Some b).
Definition here (g : Z) e w : Prop := paid (cpu e) g e w.

Lemma paid_fewer n g g' e w : 0 ≤ g' ≤ g → paid n g e w → paid n g' e w.
Proof.
  intros Hg (?&?&?&b&?&?). split_and!; [done..|]. exists b. split; [done|].
  by eapply ledger_fewer.
Qed.
Lemma paid_stays n g e w w' : later e w w' →
  tcp_global_ratelimit w' !! n = tcp_global_ratelimit w !! n → paid n g e w → paid n g e w'.
Proof.
  intros Hlater Hn (Hc & Hk & Ht & b & Hb & Hw). pose proof (now_later _ _ _ Hk Hlater).
  split_and!; [done..|lia|]. exists b. rewrite Hn. split; [done|]. by eapply ledger_later.
Qed.
Lemma here_stable g : Stable (@apart M) (here g).
Proof. intros e w w' [Hs Hlater]. apply paid_stays; [done|]. by rewrite Hs. Qed.
Lemma here_skip g {A C} (m : prog M A) (f : A → prog M C) Q :
  Preserves apart m → (∀ a, triple (here g) (f a) Q) → triple (here g) (m ≫= f) Q.
Proof. intros Hm Hf. by apply (triple_skip apart); [|apply here_stable|]. Qed.
Lemma here_cfg g f {A} (m : Z → prog M A) Q :
  triple (here g) (m (f c)) Q → triple (here g) (cfg f ≫= m) Q.
Proof.
  intros Hm e w Hp. pose proof (proj1 Hp) as He.
  unfold mbind, prog_bind, cfg, reads. rewrite He. by apply (Hm e w).
Qed.
Lemma here_ret g g' {A} (a : A) (h : A → Z) :
  h a = g' → 0 ≤ g' ≤ g → triple (here g) (mret a) (λ v, here (h v)).
Proof. intros <- Hg. apply triple_ret. intros e w. by apply paid_fewer. Qed.
Lemma here_take g {A} (f : bool → prog M A) Q :
  (∀ ok, triple (here (g + Z.b2z ok)) (f ok) Q) →
  triple (here g) (tcp_global_ratelimit_take ≫= f) Q.
Proof.
  intros Hf. eapply triple_bind; [|exact Hf]. intros e w (Hc & Hk & Ht & b & Hb & Hw).
  pose proof (tcp_global_ratelimit_take_spec e w) as H. rewrite Hc, Hb in H.
  specialize (H Hl Hk ltac:(intros ? [= <-]; apply Hw)).
  pose proof (now_later _ _ _ Hk (global_take_later e w)) as Hlater.
  pose proof (within_step P B t0 (now_of e w) g (Some b)) as Hstep.
  specialize (Hstep ltac:(lia) Ht (proj1 (proj1 Hk _)) Hw). simpl in Hstep.
  destruct (tcp_global_ratelimit_take e w) as [ok w']. destruct H as [H _]. unfold global_step in H.
  fold P B in H. rewrite (proj2 (Z.eqb_neq B 0)), (proj2 (Z.eqb_neq P 0)) in H by lia. cbn [orb] in H.
  cbn [fst snd] in *. split_and!; [done..|lia|].
  destruct (tb_take P B 1 (now_of e w) b) as [b'|]; injection H as -> ->;
    eexists; (split; [done|]); by eapply ledger_later.
Qed.

(** The gate lets no new connection through unpaid. *)
Ltac here_one :=
  match goal with
  | |- triple ?P (mret ?a ≫= ?k) ?Q => change (triple P (k a) Q)
  | |- triple _ ((_ ≫= _) ≫= _) _ => apply triple_assoc
  | |- triple _ (cfg _ ≫= _) _ => apply here_cfg
  | |- triple _ (tcp_global_ratelimit_take ≫= _) _ => apply here_take; intros []
  | |- triple _ ((if ?b then _ else _) ≫= _) _ => destruct b eqn:?
  | |- triple _ ((match ?x with _ => _ end) ≫= _) _ => destruct x eqn:?
  | |- triple _ (_ ≫= _) _ => apply here_skip; [solve [preserve]|intros ?]
  | |- triple _ (if ?b then _ else _) _ => destruct b eqn:?
  | |- triple _ (match ?x with _ => _ end) _ => destruct x eqn:?
  | |- triple _ ((match ?x with _ => _ end) _) _ => destruct x eqn:?
  end.
Lemma gate_paid p g : 0 ≤ g →
  triple (here g) (xdp_gate p) (λ v, here (g + Z.b2z (syn (flags p) && bool_decide (v ≠ Some XDP_DROP)))).
Proof.
  intros Hg. unfold xdp_gate, over_open_cap, count_drop.
  destruct (syn (flags p)); cbn [negb]; repeat (here_one; cbn beta iota).
  all: eapply here_ret; [reflexivity|]; simpl; lia.
Qed.
Lemma after_trusted_paid ctx p g : 0 ≤ g →
  triple (here g) (after_trusted ctx p) (λ v, here (g + Z.b2z (syn (flags p) && bool_decide (v = XDP_PASS)))).
Proof.
  intros Hg. unfold after_trusted. eapply triple_bind; [by apply gate_paid|]. intros [v|].
  - eapply here_ret; [reflexivity|]. destruct v, (syn (flags p)); simpl; lia.
  - eapply triple_conseq; [eapply triple_keep; [apply payload_apart|apply here_stable]|intros e w H; exact H|].
    intros v e w. apply paid_fewer. destruct v, (syn (flags p)); simpl; lia.
Qed.
Lemma filter_paid ctx p g : 0 ≤ g → triple (here g) (xdp_filter ctx p) (λ _, here g).
Proof.
  intros Hg. unfold xdp_filter, count_drop.
  destruct (tcp_flags_bogus (flags p)); [repeat (here_one; cbn beta iota); by apply triple_ret|].
  apply here_skip; [preserve|]. intros []; [repeat (here_one; cbn beta iota); by apply triple_ret|].
  apply here_skip; [apply trusted_apart|]. intros [v|]; [by apply triple_ret|].
  eapply triple_conseq; [by apply after_trusted_paid|done|]. intros v e w. apply paid_fewer.
  destruct (_ && _); simpl; lia.
Qed.
(** A stranger that opens a connection has paid the breaker. *)
Lemma filter_newcomer ctx p g e w : 0 ≤ g → syn (flags p) = true → stranger (src p) w →
  here g e w →
  here (g + Z.b2z (bool_decide ((xdp_filter ctx p e w).1 = XDP_PASS))) e (xdp_filter ctx p e w).2.
Proof.
  intros Hg Hs Hw Hh.
  enough (H : triple (λ e w, here g e w ∧ stranger (src p) w) (xdp_filter ctx p)
    (λ v, here (g + Z.b2z (bool_decide (v = XDP_PASS))))) by (by apply (H e w)).
  assert (Hdrop : ∀ r s, triple (λ e w, here g e w ∧ stranger (src p) w)
    (count_drop (src p) r s ≫= λ _, mret XDP_DROP) (λ v, here (g + Z.b2z (bool_decide (v = XDP_PASS))))).
  { intros r s e1 w1 [H1 _]. revert e1 w1 H1. change (triple (here g)
      (count_drop (src p) r s ≫= λ _, mret XDP_DROP) (λ v, here (g + Z.b2z (bool_decide (v = XDP_PASS))))).
    apply here_skip; [apply count_drop_apart|intros _]. eapply here_ret; [reflexivity|simpl; lia]. }
  unfold xdp_filter. destruct (tcp_flags_bogus (flags p)); [apply Hdrop|].
  eapply triple_bind with (Q := λ _ e w, here g e w ∧ stranger (src p) w).
  { intros e1 w1 [H1 H2]. split; [by eapply here_stable; [split; [apply blacklisted_breaker|apply blacklisted_later]|]|].
    unfold stranger. by rewrite (blacklisted_maps [] _ e1 w1 _ WHITELIST) by apply not_elem_of_nil. }
  intros []; [apply Hdrop|]. intros e1 w1 [H1 H2].
  unfold xdp_trusted, mbind, prog_bind, bpf_map_lookup_elem. unfold stranger in H2. rewrite H2.
  pose proof (after_trusted_paid ctx p g Hg e1 w1 H1) as H. by rewrite Hs in H.
Qed.
End Account.

(** ** Whole runs *)
Fixpoint total (f : nat → Z) (n : nat) : Z :=
  match n with O => 0 | S n => total f n + f n end.
Lemma total_add f g n : total (λ i, f i + g i) n = total f n + total g n.
Proof. induction n; simpl; lia. Qed.
Lemma total_pick (b : bool) m n : (m < n)%nat → total (λ i, Z.b2z (bool_decide (m = i) && b)) n = Z.b2z b.
Proof.
  assert (Hz : ∀ n', (n' ≤ m)%nat → total (λ i, Z.b2z (bool_decide (m = i) && b)) n' = 0).
  { induction n' as [|n' IH]; intros Hn'; simpl; [done|]. rewrite IH by lia.
    by rewrite bool_decide_eq_false_2 by lia. }
  induction n as [|n IH]; intros Hm; [lia|]. simpl. destruct (decide (m = n)) as [->|Hne].
  - by rewrite Hz, bool_decide_eq_true_2.
  - rewrite IH, bool_decide_eq_false_2 by lia. simpl. lia.
Qed.
Lemma total_zero n : total (λ _, 0) n = 0.
Proof. induction n; simpl; lia. Qed.
Lemma total_le f (b : Z) n : (∀ i, (i < n)%nat → f i ≤ b) → total f n ≤ Z.of_nat n * b.
Proof.
  induction n as [|n IH]; intros H; simpl; [lia|]. specialize (IH ltac:(intros; apply H; lia)).
  pose proof (H n ltac:(lia)). lia.
Qed.

Section Runs.
Context {M : Type → Type} `{!BpfMap M, !BpfMapLaws M}.
Context (c : xdp_config) (clock : nat → Z) (Hcfg : tunables_ok c).
Context (Hclk : ∀ n, 0 ≤ clock n < 2 ^ 63) (Hmono : ∀ n m, (n ≤ m)%nat → clock n ≤ clock m).
Implicit Types (w : world M) (ev : event).
Notation now w := (clock (clock_reads w)).

(** Any source that is not on the whitelist opens a connection. *)
Definition newcomer w ev : bool :=
  match ev with
  | Frame _ ctx => match xdp_parse (target_port c) (data ctx) with
                   | Some p => opens c clock (src p) w ev
                   | None => false
                   end
  | Callback _ _ _ => false
  end.
Definition cpu_of ev : nat := match ev with Frame n _ | Callback n _ _ => n end.
Definition newcomer_on (n : nat) w ev : bool := bool_decide (cpu_of ev = n) && newcomer w ev.

Lemma tally_cpus N evs w : Forall (λ ev, (cpu_of ev < N)%nat) evs →
  tally c clock newcomer evs w = total (λ n, tally c clock (newcomer_on n) evs w) N.
Proof.
  intros Hevs. unfold tally. revert w. induction Hevs as [|ev evs Hev _ IH]; intros w; simpl.
  { by rewrite total_zero. }
  rewrite IH, total_add. f_equal. unfold newcomer_on. by rewrite total_pick.
Qed.

Section OneCpu.
Context (t0 : Z) (n : nat).
Context (HP : 0 < tcp_global_period_ns c < 2 ^ 64) (HB : 0 < tcp_global_burst c < 2 ^ 63).
Notation ledger g := (paid (M := M) c t0 n g (on_cpu c clock n)).

Lemma ledger_frame ctx w g : 0 ≤ g → ledger g w →
  ledger (g + Z.b2z (newcomer w (Frame n ctx))) (handle c clock (Frame n ctx) w).
Proof.
  intros Hg Hs. cbn [handle]. rewrite minecraft_xdp_run. cbn [on_cpu conf].
  destruct (xdp_parse _ _) as [p|] eqn:Hp; simpl; rewrite ?Hp; [|by rewrite Z.add_0_r].
  rewrite bool_decide_eq_true_2 by done. cbn [andb].
  rewrite minecraft_xdp_run. cbn [on_cpu conf]. rewrite Hp.
  pose proof (filter_paid c t0 HP HB (proj1 Hcfg) ctx p g Hg _ _ Hs) as Hkeep.
  destruct (syn (flags p)) eqn:Hsyn; cbn [andb]; [|by rewrite Z.add_0_r].
  destruct (bool_decide _) eqn:Hwl; cbn [andb]; [|by rewrite Z.add_0_r].
  apply bool_decide_eq_true in Hwl. by apply (filter_newcomer c t0 HP HB (proj1 Hcfg)).
Qed.
Lemma ledger_ev ev w g : 0 ≤ g → ledger g w →
  ledger (g + Z.b2z (newcomer_on n w ev)) (handle c clock ev w).
Proof.
  intros Hg Hs. unfold newcomer_on. destruct (decide (cpu_of ev = n)) as [Heq|Hne].
  - rewrite bool_decide_eq_true_2 by done.
    destruct ev as [m ctx|m race skops]; cbn [cpu_of] in Heq; rewrite Heq; [by apply ledger_frame|].
    simpl. rewrite Z.add_0_r. eapply here_stable; [apply sockops_apart|exact Hs].
  - rewrite bool_decide_eq_false_2, Z.add_0_r by done.
    apply (paid_stays _ _ _ _ _ _ _ (handle_later c clock ev w)); [|done].
    destruct ev as [m ctx|m race skops]; simpl in *.
    + rewrite minecraft_xdp_run. destruct (xdp_parse _ _) as [p|]; [|done].
      by apply (filter_others ctx p (on_cpu c clock m) w).
    + by rewrite (proj1 (sockops_apart race skops (on_cpu c clock m) w)).
Qed.
Lemma ledger_evs evs w g : 0 ≤ g → ledger g w →
  ledger (g + tally c clock (newcomer_on n) evs w) (handle_all c clock evs w).
Proof.
  unfold tally. revert w g. induction evs as [|ev evs IH]; intros w g Hg Hs; simpl.
  { by rewrite Z.add_0_r. }
  rewrite Z.add_assoc. apply IH; [|by apply ledger_ev]. destruct (newcomer_on n w ev); simpl; lia.
Qed.
End OneCpu.

Lemma cpu_bound n evs w :
  reach c clock w → 0 < tcp_global_period_ns c → 0 < tcp_global_burst c →
  is_Some (tcp_global_ratelimit w !! n) →
  tally c clock (newcomer_on n) evs w ≤ tcp_global_burst c +
    periods_begun (now (handle_all c clock evs w) - now w) (tcp_global_period_ns c).
Proof.
  intros Hw HP HB [b Hb]. pose proof Hcfg as ((HPB & _) & _). destruct HPB as [HP' HB'].
  destruct (reach_good c clock Hcfg Hclk Hmono w Hw n) as (_ & Hk & [_ Hbr _]).
  assert (Hs : paid c (now w) n 0 (on_cpu c clock n) w).
  { split_and!; [done|done|done|]. exists b. split; [done|]. by apply within_start; [|apply (Hbr n)]. }
  apply (ledger_evs (now w) n ltac:(lia) ltac:(lia) evs) in Hs; [|done].
  destruct Hs as (_ & _ & Ht & b' & _ & Hin). unfold now_of in *. cbn [on_cpu boot_ns] in *.
  apply within_bound in Hin; [|lia..]. rewrite Z.max_l in Hin by lia. by apply periods_bound.
Qed.

Lemma newcomers_spec N evs w :
  reach c clock w → 0 < tcp_global_period_ns c → 0 < tcp_global_burst c →
  (∀ n, (n < N)%nat → is_Some (tcp_global_ratelimit w !! n)) →
  Forall (λ ev, (cpu_of ev < N)%nat) evs →
  let w' := handle_all c clock evs w in
  tally c clock newcomer evs w ≤
    Z.of_nat N * (tcp_global_burst c + periods_begun (now w' - now w) (tcp_global_period_ns c)).
Proof.
  intros Hw HP HB Hrows Hevs w'. rewrite (tally_cpus N) by done.
  apply total_le. intros i Hi. by apply cpu_bound, Hrows.
Qed.
(** C3. The circuit breaker holds the machine: over any run of frames and callbacks on [N]
    CPUs, from however many sources, the connections that sources not on the whitelist open
    number at most one burst per CPU, plus one per CPU for every refill period begun. *)
Theorem newcomers_bounded N evs w :
  reach c clock w → 0 < tcp_global_period_ns c → 0 < tcp_global_burst c →
  (∀ n, (n < N)%nat → is_Some (tcp_global_ratelimit w !! n)) →
  Forall (λ ev, (cpu_of ev < N)%nat) evs →
  let w' := handle_all c clock evs w in
  tally c clock newcomer evs w ≤
    Z.of_nat N * (tcp_global_burst c + periods_begun (now w' - now w) (tcp_global_period_ns c)).
Proof. apply newcomers_spec. Qed.
End Runs.
