(* ===== verification/Confined.v ===== *)
(** * What an unverified source can touch

    A source is unverified while it has neither an established connection nor a
    whitelist entry.  Its packets can change three maps, for that source only, one bucket of
    the circuit breaker and one row of the counters; and without SYN only its drop history
    and the row. *)
From S2P Require Import Prelude Kernel World Frame Hoare Packet TokenBucket Limits Health Xdp XdpAccounting XdpProps Policy Datapath Breaker.

Section Rows.
Context {M : Type → Type} `{!BpfMap M, !BpfMapLaws M}.
Implicit Types (w : world M) (e : kenv).

(** The counters stay, up to those of the running CPU. *)
Definition other_rows (e : kenv) w w' : Prop :=
  ∀ n, n ≠ cpu e → stats w' !! n = stats w !! n.
#[export] Instance other_rows_preorder e : PreOrder (other_rows e).
Proof. split; [by intros w n|]. intros x y z H1 H2 n Hn. by rewrite H2, H1. Qed.
Lemma same_rows {A} (m : prog M A) : Preserves same_stats m → Preserves other_rows m.
Proof. intros Hm e w n _. by rewrite (Hm e w). Qed.
Lemma stat_bump_rows s : Preserves other_rows (stat_bump s : prog M unit).
Proof.
  intros e w n Hn. simpl. repeat case_match; simpl; autorewrite with world; [|done..].
  by rewrite list_lookup_insert_ne.
Qed.
End Rows.
#[export] Hint Resolve stat_bump_rows : frame.
#[export] Hint Extern 2 (Preserves other_rows (bpf_map_update_elem _ _ _)) => apply same_rows : frame.
#[export] Hint Extern 2 (Preserves other_rows (bpf_map_delete_elem _ _)) => apply same_rows : frame.
#[export] Hint Extern 2 (Preserves other_rows (map_store _ _ _)) => apply same_rows : frame.
#[export] Hint Extern 2 (Preserves other_rows bpf_ktime_get_boot_ns) => apply same_rows : frame.
#[export] Hint Extern 2 (Preserves other_rows (global_store _)) => apply same_rows : frame.

Section Confined.
Context {M : Type → Type} `{!BpfMap M, !BpfMapLaws M}.
Implicit Types (w : world M) (e : kenv).

Lemma filter_rows ctx p : Preserves other_rows (xdp_filter ctx p : prog M _).
Proof.
  unfold xdp_filter, xdp_trusted, xdp_gate, over_open_cap, xdp_payload, xdp_first_segment,
    xdp_handshake, count_drop, record_drop, record_drop_idx, health_record_anomaly,
    health_is_blacklisted, ratelimit_take, conn_ratelimit_take, tcp_global_ratelimit_take, cfg.
  cbv zeta. preserve.
Qed.
(** Only a SYN reaches the breaker. *)
Lemma filter_breaker ctx p : syn (flags p) = false →
  Preserves same_breaker (xdp_filter ctx p : prog M _).
Proof.
  intros Hs. unfold xdp_filter, xdp_gate. rewrite Hs. cbn [negb].
  preserve; apply apart_same; auto using count_drop_apart, trusted_apart, payload_apart.
Qed.
Lemma no_syn_maps ctx p e w : syn (flags p) = false →
  bpf_lookup (src p) (get_map ESTABLISHED w) = None →
  bpf_lookup (src p) (get_map WHITELIST w) = None →
  only_maps [THist] e w (xdp_filter ctx p e w).2.
Proof.
  intros Hs Hest Hwl.
  refine (proj2 (anchored_run (only_maps [THist]) e w _ (λ _, anchored _ e w) _)).
  unfold xdp_filter, xdp_trusted, xdp_gate, over_open_cap, xdp_payload, xdp_first_segment,
    xdp_handshake. rewrite Hs. cbv zeta. cbn [negb].
  sym; done.
Qed.

(** C15. An unverified source is confined: while it has neither an established connection nor a
    whitelist entry, no segment it sends can change, in the per-source maps, anything but its
    own SYN record, SYN bucket and drop history (other sources can lose theirs by
    eviction, and no more); of the shared state it can change the circuit breaker's bucket
    and the counters of the CPU it arrives on, and nothing of the other CPUs. Without
    SYN it changes only its drop history and those counters. In particular it takes
    no status, login or traffic token, gains no whitelist entry and marks no health or
    connection state. *)
Theorem unverified_confined ctx p e w :
  xdp_parse (target_port (conf e)) (data ctx) = Some p →
  bpf_lookup (src p) (get_map ESTABLISHED w) = None →
  bpf_lookup (src p) (get_map WHITELIST w) = None →
  let w' := (minecraft_xdp ctx e w).2 in
  only_maps [TSyn; TSynRl; THist] e w w' ∧ only_ip (src p) e w w' ∧
  (∀ n, n ≠ cpu e → tcp_global_ratelimit w' !! n = tcp_global_ratelimit w !! n) ∧
  (∀ n, n ≠ cpu e → stats w' !! n = stats w !! n) ∧
  (syn (flags p) = false →
   only_maps [THist] e w w' ∧ tcp_global_ratelimit w' = tcp_global_ratelimit w).
Proof.
  intros Hp Hest Hwl w'. split; [by apply (unverified_confined_spec ctx p)|].
  unfold w'. rewrite minecraft_xdp_run, Hp.
  split; [apply xdp_filter_only_ip|]. split; [apply filter_others|].
  split; [apply filter_rows|]. intros Hs. split; [by apply no_syn_maps|by apply filter_breaker].
Qed.
End Confined.
