(* ===== verification/Sessions.v ===== *)
(** * The two programs together: connections as a state machine

    The kernel calls [minecraft_sockops] for the sockets of the server and
    [minecraft_xdp] for the packets, in any order.  [step] runs one of them to its end;
    the state is the list of open sockets (what the kernel knows) and the maps (what
    the programs know).  The invariant [sessions_ok] ties the two for as long as the maps
    hold fewer sources than their capacity ([BpfMapNoEvict]); what is left of it when
    the LRU maps evict is [cap_spares_others].  Calls are atomic here and the programs are
    loaded before the first connection; [close_open_race_forgets] and
    [Sockops.open_count_dec_races] show what two CPUs can do to each other. *)
From S2P Require Import Prelude Kernel World Frame Hoare Packet Handshake TokenBucket Limits Health Xdp XdpAccounting XdpProps Policy Sockops Datapath.

Section Sessions.
Context {M : Type → Type} `{!BpfMap M, !BpfMapLaws M, !BpfMapNoEvict M}.
Implicit Types (w : world M) (e : kenv).

(** An open socket: its identity and the address of its peer. *)
Definition socket : Type := nat * ipkey.
Definition conns (k : ipkey) (open : list socket) : list socket :=
  filter (λ s : socket, s.2 = k) open.
Definition conn_count (k : ipkey) (open : list socket) : Z := Z.of_nat (length (conns k open)).

(** Calls of the sockops program that report neither an established connection of the
    server nor the end of one. *)
Definition idle_call (port : Z) (c : bpf_sock_ops) : Prop :=
  local_port c ≠ port ∨ (family c ≠ AF_INET ∧ family c ≠ AF_INET6) ∨ remote_ip4 c = no_ip ∨
  (sk_op c ≠ BPF_SOCK_OPS_PASSIVE_ESTABLISHED_CB ∧
   (sk_op c ≠ BPF_SOCK_OPS_STATE_CB ∨ arg1 c ≠ BPF_TCP_CLOSE ∨ was_open (arg0 c) = false)).

Inductive step (port : Z) : list socket * world M → list socket * world M → Prop :=
  | step_open open w e id k fam a0 a1 :
      target_port (conf e) = port → id ∉ open.*1 → k ≠ no_ip →
      fam = AF_INET ∨ fam = AF_INET6 → Z.of_nat (length open) < 2 ^ 64 - 1 →
      step port (open, w) ((id, k) :: open,
        (minecraft_sockops no_race
           (SockOps port fam k BPF_SOCK_OPS_PASSIVE_ESTABLISHED_CB a0 a1) e w).2)
  | step_close open w e id k fam old :
      target_port (conf e) = port → (id, k) ∈ open → fam = AF_INET ∨ fam = AF_INET6 →
      was_open old = true →
      step port (open, w) (filter (λ s : socket, s.1 ≠ id) open,
        (minecraft_sockops no_race
           (SockOps port fam k BPF_SOCK_OPS_STATE_CB old BPF_TCP_CLOSE) e w).2)
  | step_call open w e c :
      target_port (conf e) = port → idle_call port c →
      step port (open, w) (open, (minecraft_sockops no_race c e w).2)
  | step_packet open w e ctx :
      target_port (conf e) = port →
      step port (open, w) (open, (minecraft_xdp ctx e w).2).

Definition blank w : Prop := ∀ V (i : mapid V) k, bpf_lookup k (get_map i w) = None.
Inductive reachable (port : Z) : list socket * world M → Prop :=
  | reach_init w : blank w → reachable port ([], w)
  | reach_step s s' : reachable port s → step port s s' → reachable port s'.

(** ** The invariant *)
Record sessions_ok (s : list socket * world M) : Prop := {
  ok_ids : NoDup s.1.*1;
  ok_small : Z.of_nat (length s.1) < 2 ^ 64;
  ok_peers : ∀ x, x ∈ s.1 → x.2 ≠ no_ip;
  ok_count k : default 0 (bpf_lookup k (get_map OPEN_COUNT s.2)) = conn_count k s.1;
  ok_est k : is_Some (bpf_lookup k (get_map ESTABLISHED s.2)) ↔ 0 < conn_count k s.1;
  ok_wl k : is_Some (bpf_lookup k (get_map WHITELIST s.2)) → 0 < conn_count k s.1;
  ok_fd k : is_Some (bpf_lookup k (get_map FIRST_DATA s.2)) → 0 < conn_count k s.1;
}.

(** ** Other sources, exactly *)
Definition others_same (k : ipkey) e w w' : Prop :=
  ∀ V (i : mapid V) j, j ≠ k → bpf_lookup j (get_map i w') = bpf_lookup j (get_map i w).
#[export] Instance others_same_preorder k e : PreOrder (others_same k e).
Proof.
  split; [by intros w V i j|]. intros x y z H1 H2 V i j Hj. by rewrite H2, H1.
Qed.
Lemma others_same_set k e {V} (i : mapid V) m w :
  (∀ j, j ≠ k → bpf_lookup j m = bpf_lookup j (get_map i w)) →
  others_same k e w (set_map i m w).
Proof.
  intros H W j x Hx.
  refine (set_map_rel (λ W _ a b, ∀ y, y ≠ k → bpf_lookup y b = bpf_lookup y a)
    i m w _ H W j x Hx). done.
Qed.
Lemma others_update k {V} (i : mapid V) v : Preserves (others_same k) (bpf_map_update_elem i k v).
Proof. intros e w. apply others_same_set. intros j Hj. by apply bpf_no_evict. Qed.
Lemma others_delete k {V} (i : mapid V) : Preserves (others_same k) (bpf_map_delete_elem i k).
Proof. intros e w. apply others_same_set. intros j Hj. by apply bpf_lookup_delete_ne. Qed.
Lemma others_store k {V} (i : mapid V) v : Preserves (others_same k) (map_store i k v).
Proof. intros e w. apply others_same_set. intros j Hj. by apply bpf_lookup_store_ne. Qed.
Lemma others_ktime k : Preserves (others_same k) bpf_ktime_get_boot_ns.
Proof. intros e w V i j _. simpl. by rewrite get_tick. Qed.
Lemma others_stat k s : Preserves (others_same k) (stat_bump s).
Proof. intros e w V i j _. by rewrite (only_maps_stat_bump [] s e w _ i) by apply not_elem_of_nil. Qed.
End Sessions.
#[export] Hint Resolve others_update others_delete others_store others_ktime others_stat : frame.

Section Effects.
Context {M : Type → Type} `{!BpfMap M, !BpfMapLaws M, !BpfMapNoEvict M}.
Implicit Types (w : world M) (e : kenv).

Lemma inc_others k : Preserves (others_same k) (open_count_inc k : prog M unit).
Proof. unfold open_count_inc, update_noexist. preserve. Qed.
Lemma forget_others k : Preserves (others_same k) (forget_source k : prog M unit).
Proof. unfold forget_source. preserve. Qed.
Lemma dec_loop_others race n k : Preserves (others_same k) (dec_loop race n k : prog M unit).
Proof.
  induction n as [|n IH]; cbn [dec_loop]; unfold sync_val_compare_and_swap; preserve.
  all: first [apply IH|apply forget_others].
Qed.

(** What an established connection does to the maps. *)
Definition opened (k : ipkey) (w w' : world M) : Prop :=
  (∀ e, others_same k e w w') ∧
  bpf_lookup k (get_map OPEN_COUNT w') =
    Some (u64 (default 0 (bpf_lookup k (get_map OPEN_COUNT w)) + 1)) ∧
  is_Some (bpf_lookup k (get_map ESTABLISHED w')) ∧
  get_map WHITELIST w' = get_map WHITELIST w ∧ get_map FIRST_DATA w' = get_map FIRST_DATA w.
(** What the end of a connection does, [v] being open before. *)
Definition closed (k : ipkey) (v : Z) (w w' : world M) : Prop :=
  (∀ e, others_same k e w w') ∧
  bpf_lookup k (get_map OPEN_COUNT w') = Some (v - 1) ∧
  (v = 1 → bpf_lookup k (get_map ESTABLISHED w') = None ∧
           bpf_lookup k (get_map WHITELIST w') = None ∧
           bpf_lookup k (get_map FIRST_DATA w') = None) ∧
  (v ≠ 1 → ∀ e, only_maps [TOpen] e w w').

Lemma sockops_guard race c e w port :
  target_port (conf e) = port → local_port c = port → family c = AF_INET ∨ family c = AF_INET6 →
  remote_ip4 c ≠ no_ip →
  minecraft_sockops race c e w =
    (if sk_op c =? BPF_SOCK_OPS_PASSIVE_ESTABLISHED_CB then
      now ← bpf_ktime_get_boot_ns;
      bpf_map_update_elem ESTABLISHED (remote_ip4 c) now;;
      stat_bump STAT_TCP_ESTABLISHED_INSERTS;;
      open_count_inc (remote_ip4 c);;
      mret (1, true)
    else if sk_op c =? BPF_SOCK_OPS_STATE_CB then
      (if (arg1 c =? BPF_TCP_CLOSE) && was_open (arg0 c)
       then open_count_dec race (remote_ip4 c) else mret tt);;
      mret (1, false)
    else mret (1, false)) e w.
Proof.
  intros Hp Hl Hf Hk. unfold minecraft_sockops, cfg, reads. unfold mbind at 1, prog_bind at 1.
  rewrite Hl, Hp, Z.eqb_refl, bool_decide_eq_false_2 by done. cbn [negb].
  replace (negb (family c =? AF_INET) && negb (family c =? AF_INET6)) with false; [done|].
  destruct Hf as [-> | ->]; reflexivity.
Qed.
Lemma sockops_opens race port fam k a0 a1 e w :
  target_port (conf e) = port → fam = AF_INET ∨ fam = AF_INET6 → k ≠ no_ip →
  opened k w (minecraft_sockops race
    (SockOps port fam k BPF_SOCK_OPS_PASSIVE_ESTABLISHED_CB a0 a1) e w).2.
Proof.
  intros Hp Hf Hk. rewrite (sockops_guard race _ e w port) by done. cbn [sk_op remote_ip4].
  rewrite Z.eqb_refl. unfold mbind, prog_bind, bpf_ktime_get_boot_ns, bpf_map_update_elem.
  cbv beta iota. set (now := boot_ns e (clock_reads w)). set (w1 := set_map ESTABLISHED _ _).
  assert (H1 : others_same k e w w1).
  { etrans; [apply (others_ktime k e w)|]. apply (others_update k ESTABLISHED now). }
  assert (Hm1 : only_maps [TEst] e w w1).
  { etrans; [apply (only_maps_ktime _ e w)|]. by apply only_maps_set. }
  assert (He1 : bpf_lookup k (get_map ESTABLISHED w1) = Some now)
    by (unfold w1; by rewrite get_set_eq, bpf_lookup_update_eq).
  clearbody w1. pose proof (others_stat k STAT_TCP_ESTABLISHED_INSERTS e w1) as H2.
  pose proof (only_maps_stat_bump [] STAT_TCP_ESTABLISHED_INSERTS e w1) as Hm2.
  destruct (stat_bump _ e w1) as [[] w2]. cbn [snd] in *.
  pose proof (inc_others k e w2) as H3. pose proof (inc_maps k e w2) as Hm3.
  pose proof (inc_counts k e w2) as Hc.
  destruct (open_count_inc k e w2) as [[] w3]. cbn [snd mret prog_ret] in *.
  split_and!.
  - intros e'. by etrans; [apply H1|]; etrans; [apply H2|].
  - by rewrite Hc, (Hm2 _ OPEN_COUNT), (Hm1 _ OPEN_COUNT) by new_tag.
  - rewrite (Hm3 _ ESTABLISHED), (Hm2 _ ESTABLISHED) by new_tag. by rewrite He1.
  - by rewrite (Hm3 _ WHITELIST), (Hm2 _ WHITELIST), (Hm1 _ WHITELIST) by new_tag.
  - by rewrite (Hm3 _ FIRST_DATA), (Hm2 _ FIRST_DATA), (Hm1 _ FIRST_DATA) by new_tag.
Qed.

Lemma sockops_closes port fam k old v e w :
  target_port (conf e) = port → fam = AF_INET ∨ fam = AF_INET6 → k ≠ no_ip →
  was_open old = true → bpf_lookup k (get_map OPEN_COUNT w) = Some v → 0 < v < 2 ^ 64 →
  closed k v w (minecraft_sockops no_race
    (SockOps port fam k BPF_SOCK_OPS_STATE_CB old BPF_TCP_CLOSE) e w).2.
Proof.
  intros Hp Hf Hk Hold Hv Hpos. rewrite (sockops_guard no_race _ e w port) by done.
  cbn [sk_op remote_ip4 arg0 arg1]. rewrite Z.eqb_refl, Hold.
  change (BPF_SOCK_OPS_STATE_CB =? BPF_SOCK_OPS_PASSIVE_ESTABLISHED_CB) with false.
  cbn [Z.eqb andb]. unfold mbind, prog_bind, open_count_dec.
  change (BPF_TCP_CLOSE =? BPF_TCP_CLOSE) with true. cbn [andb].
  pose proof (dec_swap no_race 7 k e w v Hv Hpos eq_refl) as (H1 & H2 & H3).
  pose proof (dec_loop_others no_race 8 k e w) as H4.
  destruct (dec_loop no_race 8 k e w) as [[] w']. cbn [snd mret prog_ret] in *.
  split_and!; [exact (λ _, H4)|done|done|exact (λ Hne _, H3 Hne)].
Qed.

Lemma sockops_idle race port c e w : target_port (conf e) = port → idle_call port c →
  (minecraft_sockops race c e w).2 = w.
Proof.
  intros Hp Hidle. unfold minecraft_sockops, cfg, reads. unfold mbind at 1, prog_bind at 1.
  rewrite Hp. destruct (Z.eqb_spec (local_port c) port); [|done]. cbn [negb].
  destruct (negb (family c =? AF_INET) && negb (family c =? AF_INET6)) eqn:Hf; [done|].
  case_bool_decide; [done|]. apply andb_false_iff in Hf.
  rewrite !negb_false_iff, !Z.eqb_eq in Hf.
  destruct Hidle as [?|[[? ?]|[?|[Hne Hst]]]]; [done|destruct Hf; by congruence|done|].
  rewrite (proj2 (Z.eqb_neq _ _) Hne).
  destruct (Z.eqb_spec (sk_op c) BPF_SOCK_OPS_STATE_CB); [|done].
  replace ((arg1 c =? BPF_TCP_CLOSE) && was_open (arg0 c)) with false; [done|].
  symmetry. apply andb_false_iff. destruct Hst as [?|[?|?]]; [done| |by right].
  left. by apply Z.eqb_neq.
Qed.
End Effects.

(** ** The invariant holds *)
Section Counting.
Implicit Types (open : list socket) (k : ipkey).

Lemma conn_count_nonneg k open : 0 ≤ conn_count k open.
Proof. unfold conn_count. lia. Qed.
Lemma conn_count_le k open : conn_count k open ≤ Z.of_nat (length open).
Proof. unfold conn_count, conns. pose proof (length_filter (λ s : socket, s.2 = k) open). lia. Qed.
Lemma conn_count_cons k id k' open :
  conn_count k ((id, k') :: open) = conn_count k open + (if decide (k' = k) then 1 else 0).
Proof.
  unfold conn_count, conns. rewrite filter_cons. simpl. case_decide; cbn [length]; lia.
Qed.
Lemma conn_count_mem id k open : (id, k) ∈ open → 0 < conn_count k open.
Proof.
  intros Hin. unfold conn_count, conns.
  assert (H : (id, k) ∈ filter (λ s : socket, s.2 = k) open) by (by apply list_elem_of_filter).
  destruct (filter _ open); [by apply not_elem_of_nil in H|]. cbn [length]. lia.
Qed.
Lemma remove_absent id open : id ∉ open.*1 → filter (λ s : socket, s.1 ≠ id) open = open.
Proof.
  induction open as [|[i j] open IH]; [done|]. cbn [fmap list_fmap fst].
  rewrite not_elem_of_cons. intros [Hne Hin]. rewrite filter_cons, decide_True by done.
  by rewrite IH.
Qed.
(** Closing a socket takes one off the count of its peer, and none off the others. *)
Lemma conn_count_remove id k open j : NoDup open.*1 → (id, k) ∈ open →
  conn_count j (filter (λ s : socket, s.1 ≠ id) open) =
    conn_count j open - (if decide (k = j) then 1 else 0).
Proof.
  induction open as [|[i p] open IH]; [by intros _ ?%not_elem_of_nil|].
  cbn [fmap list_fmap fst]. intros [Hi Hnd]%NoDup_cons Hin. rewrite filter_cons. cbn [fst].
  apply elem_of_cons in Hin as [[= -> ->]|Hin].
  - rewrite decide_False by naive_solver. rewrite remove_absent by done.
    rewrite conn_count_cons. case_decide; lia.
  - rewrite decide_True.
    + rewrite !conn_count_cons, IH by done. lia.
    + intros ->. by apply Hi, (list_elem_of_fmap_2 fst _ (id, k)).
Qed.
End Counting.

Section Invariant.
Context {M : Type → Type} `{!BpfMap M, !BpfMapLaws M, !BpfMapNoEvict M}.
Implicit Types (w : world M) (e : kenv) (s : list socket * world M).

Lemma sessions_init w : blank w → sessions_ok ([], w).
Proof.
  intros Hb. split; cbn [fst snd].
  - constructor.
  - simpl. lia.
  - by intros x ?%not_elem_of_nil.
  - intros k. by rewrite Hb.
  - intros k. rewrite Hb. split; [by intros []|]. unfold conn_count; simpl; lia.
  - intros k. rewrite Hb. by intros [].
  - intros k. rewrite Hb. by intros [].
Qed.

Lemma open_ok open w w' id k : sessions_ok (open, w) → id ∉ open.*1 → k ≠ no_ip →
  Z.of_nat (length open) < 2 ^ 64 - 1 → opened k w w' → sessions_ok ((id, k) :: open, w').
Proof.
  intros [Hids Hsm Hpeer Hcount Hest Hwl Hfd] Hid Hk Hlen (Ho & Hc & He & Hw & Hf).
  cbn [fst snd] in *. specialize (Ho (Kenv default_config 0 (λ _, 0))).
  split; cbn [fst snd].
  - by apply NoDup_cons.
  - simpl length. lia.
  - intros x [->|Hx]%elem_of_cons; [done|by apply Hpeer].
  - intros j. rewrite conn_count_cons. case_decide as Hj; subst.
    + rewrite Hc, Hcount. simpl. apply u64_id.
      pose proof (conn_count_nonneg j open). pose proof (conn_count_le j open). words; lia.
    + rewrite (Ho _ OPEN_COUNT) by done. by rewrite Hcount, Z.add_0_r.
  - intros j. rewrite conn_count_cons. case_decide as Hj; subst.
    + pose proof (conn_count_nonneg j open). split; [lia|done].
    + rewrite (Ho _ ESTABLISHED) by done. by rewrite Hest, Z.add_0_r.
  - intros j. rewrite Hw, conn_count_cons. intros Hj%Hwl. case_decide; lia.
  - intros j. rewrite Hf, conn_count_cons. intros Hj%Hfd. case_decide; lia.
Qed.

Lemma close_ok open w w' id k : sessions_ok (open, w) → (id, k) ∈ open →
  closed k (conn_count k open) w w' →
  sessions_ok (filter (λ x : socket, x.1 ≠ id) open, w').
Proof.
  intros [Hids Hsm Hpeer Hcount Hest Hwl Hfd] Hin (Ho & Hc & Hlast & Hmore).
  cbn [fst snd] in *. set (e := Kenv default_config 0 (λ _, 0)).
  specialize (Ho e). specialize (λ H, Hmore H e).
  pose proof (conn_count_mem id k open Hin) as Hpos.
  pose proof (λ j, conn_count_remove id k open j Hids Hin) as Hrem.
  split; cbn [fst snd].
  - eapply sublist_NoDup; [exact Hids|]. apply fmap_sublist, sublist_filter.
  - pose proof (length_filter (λ x : socket, x.1 ≠ id) open). lia.
  - intros x [_ Hx]%list_elem_of_filter. by apply Hpeer.
  - intros j. rewrite Hrem. case_decide as Hj; subst.
    + by rewrite Hc.
    + rewrite (Ho _ OPEN_COUNT) by done. by rewrite Hcount, Z.sub_0_r.
  - intros j. rewrite Hrem. case_decide as Hj; subst.
    + destruct (decide (conn_count j open = 1)) as [H1|H1].
      * destruct (Hlast H1) as (-> & _). split; [by intros []|lia].
      * rewrite (Hmore H1 _ ESTABLISHED) by new_tag. rewrite Hest. lia.
    + rewrite (Ho _ ESTABLISHED) by done. by rewrite Hest, Z.sub_0_r.
  - intros j. rewrite Hrem. case_decide as Hj; subst.
    + destruct (decide (conn_count j open = 1)) as [H1|H1]; [|lia].
      destruct (Hlast H1) as (_ & -> & _). by intros [].
    + rewrite (Ho _ WHITELIST) by done. intros Hj'%Hwl. lia.
  - intros j. rewrite Hrem. case_decide as Hj; subst.
    + destruct (decide (conn_count j open = 1)) as [H1|H1]; [|lia].
      destruct (Hlast H1) as (_ & _ & ->). by intros [].
    + rewrite (Ho _ FIRST_DATA) by done. intros Hj'%Hfd. lia.
Qed.

(** A source without connections gains nothing from its packets. *)
Lemma packet_no_gain {V} (i : mapid V) ctx e w k :
  tag_of i ∉ [TSyn; TSynRl; THist] →
  bpf_lookup k (get_map ESTABLISHED w) = None → bpf_lookup k (get_map WHITELIST w) = None →
  bpf_lookup k (get_map i w) = None →
  bpf_lookup k (get_map i (minecraft_xdp ctx e w).2) = None.
Proof.
  intros Hi Hest Hwl Hnone. destruct (xdp_parse (target_port (conf e)) (data ctx)) as [p|] eqn:Hp.
  - destruct (decide (k = src p)) as [->|Hne].
    + by rewrite (unverified_confined_spec ctx p e w Hp Hest Hwl V i Hi).
    + rewrite minecraft_xdp_run, Hp.
      destruct (xdp_filter_only_ip ctx p e w V i k Hne) as [->| ->]; done.
  - by rewrite minecraft_xdp_run, Hp.
Qed.
Lemma packet_ok open w e ctx : sessions_ok (open, w) →
  sessions_ok (open, (minecraft_xdp ctx e w).2).
Proof.
  intros [Hids Hsm Hpeer Hcount Hest Hwl Hfd]. cbn [fst snd] in *.
  pose proof (minecraft_xdp_maps ctx e w) as Hm.
  assert (Hnone : ∀ {V} (i : mapid V) k, tag_of i ∉ [TSyn; TSynRl; THist] →
    (is_Some (bpf_lookup k (get_map i w)) → 0 < conn_count k open) →
    is_Some (bpf_lookup k (get_map i (minecraft_xdp ctx e w).2)) → 0 < conn_count k open).
  { intros V i k Hi Hw Hs. destruct (Z.lt_decidable 0 (conn_count k open)) as [|Hz]; [done|].
    exfalso. rewrite (packet_no_gain i) in Hs; [by destruct Hs|done|..].
    all: apply eq_None_not_Some; auto. intros He. by apply Hz, Hest. }
  split; cbn [fst snd]; [done|done|done|..].
  - intros k. by rewrite (Hm _ OPEN_COUNT) by new_tag.
  - intros k. by rewrite (Hm _ ESTABLISHED) by new_tag.
  - intros k. apply Hnone; [by new_tag|apply Hwl].
  - intros k. apply Hnone; [by new_tag|apply Hfd].
Qed.

Lemma step_ok port s s' : sessions_ok s → step port s s' → sessions_ok s'.
Proof.
  intros Hok Hstep. destruct Hstep as
    [open w e id k fam a0 a1 Hp Hid Hk Hf Hlen|open w e id k fam old Hp Hin Hf Hold
    |open w e c Hp Hidle|open w e ctx Hp].
  - apply (open_ok open w); try done. by apply sockops_opens.
  - pose proof (conn_count_mem id k open Hin). pose proof (conn_count_le k open).
    pose proof (ok_small _ Hok) as Hsm. pose proof (ok_count _ Hok k) as Hc. cbn [fst snd] in *.
    apply (close_ok open w _ id k); [done|done|]. apply sockops_closes; [done|done| |done| |lia].
    + by apply (ok_peers _ Hok (id, k) Hin).
    + destruct (bpf_lookup k _); simpl in Hc; [by rewrite Hc|lia].
  - by rewrite (sockops_idle _ port).
  - by apply packet_ok.
Qed.
Lemma reachable_ok port s : reachable port s → sessions_ok s.
Proof. induction 1; [by apply sessions_init|by eapply step_ok]. Qed.

(** C17. The maps know the connections, as long as no map evicts an entry, the calls of the
    programs come one at a time, and both were loaded, on empty maps, before the first
    connection: then, however packets, new connections, closing connections and other
    socket callbacks follow one another, for every source the count the maps hold is the
    number of its open connections, it is in tcp_established exactly when it has one, and it
    can be on the whitelist, or have its first data marked, only while it has one. *)
Theorem sessions_tracked port open w k :
  reachable port (open, w) →
  default 0 (bpf_lookup k (get_map OPEN_COUNT w)) = conn_count k open ∧
  (is_Some (bpf_lookup k (get_map ESTABLISHED w)) ↔ ∃ id, (id, k) ∈ open) ∧
  (is_Some (bpf_lookup k (get_map WHITELIST w)) → ∃ id, (id, k) ∈ open) ∧
  (is_Some (bpf_lookup k (get_map FIRST_DATA w)) → ∃ id, (id, k) ∈ open).
Proof.
  intros Hr%reachable_ok.
  assert (H : 0 < conn_count k open ↔ ∃ id, (id, k) ∈ open).
  { split; [|by intros [id ?%conn_count_mem]]. unfold conn_count.
    destruct (conns k open) as [|[id k'] l] eqn:E; [by cbn|]. intros _. exists id.
    assert (Hin : (id, k') ∈ conns k open) by (rewrite E; constructor).
    by apply list_elem_of_filter in Hin as [<- Hin]. }
  rewrite <- H. split_and!.
  - apply (ok_count _ Hr).
  - apply (ok_est _ Hr).
  - apply (ok_wl _ Hr).
  - apply (ok_fd _ Hr).
Qed.

(** C18. The cap on open connections works, as long as no map evicts an entry, the calls of the
    programs come one at a time, and both were loaded, on empty maps, before the first
    connection: then a SYN from a source that has as many connections open as the cap allows
    is dropped. *)
Theorem open_cap_enforced port open w ctx p e :
  reachable port (open, w) →
  xdp_parse (target_port (conf e)) (data ctx) = Some p → syn (flags p) = true →
  0 < tcp_max_open_per_ip (conf e) ≤ conn_count (src p) open →
  (minecraft_xdp ctx e w).1 = XDP_DROP.
Proof.
  intros Hr%reachable_ok Hp Hs Hcap. pose proof (ok_count _ Hr (src p)) as Hc. cbn [fst snd] in *.
  destruct (bpf_lookup (src p) (get_map OPEN_COUNT w)) as [o|] eqn:Ho; simpl in Hc; [|lia].
  subst o. by apply (over_cap_spec ctx p _ e w Hp Hs Ho Hcap).
Qed.
End Invariant.

(** ** When the maps evict *)
Section Evicting.
Context {M : Type → Type} `{!BpfMap M, !BpfMapLaws M}.
Implicit Types (w : world M) (e : kenv) (s : list socket * world M).

Definition held (k : ipkey) w : Z := default 0 (bpf_lookup k (get_map OPEN_COUNT w)).
Lemma sockops_only race c : Preserves (only_ip (remote_ip4 c)) (minecraft_sockops race c : prog M _).
Proof.
  unfold minecraft_sockops, open_count_inc, update_noexist, open_count_dec, cfg. preserve.
  apply dec_loop_frame; [exact _|auto with frame..].
Qed.
Lemma held_other k c race e w : k ≠ remote_ip4 c →
  held k (minecraft_sockops race c e w).2 = held k w ∨ held k (minecraft_sockops race c e w).2 = 0.
Proof.
  intros Hk. unfold held. destruct (sockops_only race c e w _ OPEN_COUNT k Hk) as [-> | ->]; auto.
Qed.
Lemma bounded_other k c race e w n : k ≠ remote_ip4 c →
  0 ≤ held k w ≤ n → 0 ≤ held k (minecraft_sockops race c e w).2 ≤ n.
Proof. intros Hk Hn. destruct (held_other k c race e w Hk) as [-> | ->]; lia. Qed.
Lemma held_opens port fam k a0 a1 e w :
  target_port (conf e) = port → fam = AF_INET ∨ fam = AF_INET6 → k ≠ no_ip →
  held k (minecraft_sockops no_race
    (SockOps port fam k BPF_SOCK_OPS_PASSIVE_ESTABLISHED_CB a0 a1) e w).2 = u64 (held k w + 1).
Proof.
  intros Hp Hf Hk. rewrite (sockops_guard no_race _ e w port) by done. cbn [sk_op remote_ip4].
  rewrite Z.eqb_refl. unfold mbind, prog_bind, bpf_ktime_get_boot_ns, bpf_map_update_elem.
  cbv beta iota. set (w1 := set_map ESTABLISHED _ _).
  assert (Hm1 : only_maps [TEst] e w w1).
  { etrans; [apply (only_maps_ktime _ e w)|]. by apply only_maps_set. }
  clearbody w1. pose proof (only_maps_stat_bump [] STAT_TCP_ESTABLISHED_INSERTS e w1) as Hm2.
  destruct (stat_bump _ e w1) as [[] w2]. pose proof (inc_counts k e w2) as Hc.
  destruct (open_count_inc k e w2) as [[] w3]. cbn [snd mret prog_ret] in *. unfold held.
  by rewrite Hc, (Hm2 _ OPEN_COUNT), (Hm1 _ OPEN_COUNT) by new_tag.
Qed.
Lemma held_closes port fam k old e w :
  target_port (conf e) = port → fam = AF_INET ∨ fam = AF_INET6 → k ≠ no_ip →
  was_open old = true → 0 ≤ held k w < 2 ^ 64 →
  held k (minecraft_sockops no_race
    (SockOps port fam k BPF_SOCK_OPS_STATE_CB old BPF_TCP_CLOSE) e w).2 = Z.max 0 (held k w - 1).
Proof.
  intros Hp Hf Hk Hold Hr. rewrite (sockops_guard no_race _ e w port) by done.
  cbn [sk_op remote_ip4 arg0 arg1]. rewrite Z.eqb_refl, Hold.
  change (BPF_SOCK_OPS_STATE_CB =? BPF_SOCK_OPS_PASSIVE_ESTABLISHED_CB) with false.
  change ((BPF_TCP_CLOSE =? BPF_TCP_CLOSE) && true) with true. cbv iota.
  unfold mbind, prog_bind, open_count_dec. unfold held in *.
  destruct (bpf_lookup k (get_map OPEN_COUNT w)) as [v|] eqn:Hv; simpl in Hr.
  2: { replace (dec_loop no_race 8 k e w) with (tt, w); [cbn [snd mret prog_ret]; by rewrite Hv|].
       cbn [dec_loop]. unfold mbind at 1, prog_bind at 1, bpf_map_lookup_elem at 1. by rewrite Hv. }
  destruct (decide (v = 0)) as [->|Hnz].
  - rewrite (dec_loop_step no_race 7 k e w 0 Hv). cbn [Z.eqb snd mret prog_ret]. by rewrite Hv.
  - pose proof (dec_swap no_race 7 k e w v Hv ltac:(lia) eq_refl) as (H1 & _).
    destruct (dec_loop no_race 8 k e w) as [[] w']. cbn [snd mret prog_ret] in *. rewrite H1. simpl. lia.
Qed.

(** What survives evictions: the count of a source is at most its open connections. *)
Record counts_ok s : Prop := {
  few : Z.of_nat (length s.1) < 2 ^ 64; distinct : NoDup s.1.*1;
  peers x : x ∈ s.1 → x.2 ≠ no_ip;
  counted k : 0 ≤ held k s.2 ≤ conn_count k s.1 }.

Lemma step_counts port s s' : counts_ok s → step port s s' → counts_ok s'.
Proof.
  intros [Hfew Hnd Hpeer Hc] Hstep. destruct Hstep as
    [open w e id k fam a0 a1 Hp Hid Hk Hf Hlen|open w e id k fam old Hp Hin Hf Hold
    |open w e c Hp Hidle|open w e ctx Hp]; cbn [fst snd] in *;
    change (nat * ipkey)%type with socket in *.
  - pose proof (conn_count_le k open). split; cbn [fst snd].
    + cbn [length]. lia.
    + by apply NoDup_cons.
    + intros x [->|Hx]%elem_of_cons; [done|by apply Hpeer].
    + intros j. rewrite conn_count_cons. specialize (Hc j). case_decide as Hj; [subst j|].
      * rewrite (held_opens port) by done. rewrite u64_id by (words; lia). lia.
      * rewrite Z.add_0_r. eapply bounded_other; [by apply not_eq_sym|done].
  - pose proof (conn_count_le k open). pose proof (conn_count_mem id k open Hin).
    assert (Hk : k ≠ no_ip) by (by apply (Hpeer (id, k) Hin)).
    pose proof (length_filter (λ x : socket, x.1 ≠ id) open). split; cbn [fst snd].
    + lia.
    + eapply sublist_NoDup; [exact Hnd|]. apply fmap_sublist, sublist_filter.
    + intros x [_ Hx]%list_elem_of_filter. by apply Hpeer.
    + intros j. rewrite (conn_count_remove id k) by done.
      pose proof (conn_count_nonneg j open). specialize (Hc j). case_decide as Hj; [subst j|].
      * rewrite (held_closes port) by (done || lia). lia.
      * rewrite Z.sub_0_r. eapply bounded_other; [by apply not_eq_sym|done].
  - by rewrite (sockops_idle _ port).
  - split; cbn [fst snd]; [done..|]. intros k. unfold held.
    rewrite (minecraft_xdp_maps ctx e w _ OPEN_COUNT) by new_tag. apply Hc.
Qed.
Lemma reachable_counts port s : reachable port s → counts_ok s.
Proof.
  induction 1 as [w Hb|]; [|by eapply step_counts]. split; cbn [fst snd].
  - simpl. lia.
  - constructor.
  - by intros x ?%not_elem_of_nil.
  - intros k. unfold held. rewrite Hb. unfold conn_count. simpl. lia.
Qed.

(** C19. Whatever the maps evict, the cap on open connections refuses no source that is
    below it: on runs of the two programs whose calls come one at a time, loaded on empty maps
    before the first connection, the count held for a source is never more than the
    connections it has open, and where the datapath's check of a set cap refuses a source, the
    source has at least that many open. *)
Theorem cap_spares_others port open w k e :
  reachable port (open, w) →
  default 0 (bpf_lookup k (get_map OPEN_COUNT w)) ≤ conn_count k open ∧
  (0 < tcp_max_open_per_ip (conf e) → (over_open_cap k e w).1 = true →
   tcp_max_open_per_ip (conf e) ≤ conn_count k open).
Proof.
  intros [_ _ _ Hc]%reachable_counts. specialize (Hc k). cbn [fst snd] in Hc. unfold held in Hc.
  split; [lia|]. unfold over_open_cap, cfg, reads, mbind, prog_bind, bpf_map_lookup_elem.
  destruct (bpf_lookup k (get_map OPEN_COUNT w)); simpl in *; [|done].
  intros _ H%Z.leb_le. lia.
Qed.
End Evicting.

(** ** Two CPUs at once

    Between the swap that takes the counter to zero and the deletions, another CPU may
    report a new connection of the same source. *)
Section CloseOpenRace.
Context {M : Type → Type} `{!BpfMap M, !BpfMapLaws M, !BpfMapNoEvict M}.
Implicit Types (w : world M) (e : kenv).

(** The closing CPU up to its swap, the whole call of the other CPU, and the deletions. *)
Definition close_open_race (port fam : Z) (k : ipkey) : prog M unit :=
  count ← bpf_map_lookup_elem OPEN_COUNT k;
  match count with
  | Some cur =>
    seen ← sync_val_compare_and_swap no_race 0 k cur (u64 (cur - 1));
    minecraft_sockops no_race (SockOps port fam k BPF_SOCK_OPS_PASSIVE_ESTABLISHED_CB 0 0);;
    (if (seen =? cur) && (cur =? 1) then forget_source k else mret tt)
  | None => mret tt
  end.

(** The sockops program is not atomic: when a source's last connection closes on
    one CPU while a new one is established on another, the source can end up with one
    open connection and no entry in tcp_established. *)
Lemma close_open_race_forgets port fam k e w :
  target_port (conf e) = port → fam = AF_INET ∨ fam = AF_INET6 → k ≠ no_ip →
  bpf_lookup k (get_map OPEN_COUNT w) = Some 1 →
  let w' := (close_open_race port fam k e w).2 in
  bpf_lookup k (get_map OPEN_COUNT w') = Some 1 ∧
  bpf_lookup k (get_map ESTABLISHED w') = None.
Proof.
  intros Hp Hf Hk Hone w'. unfold w', close_open_race, sync_val_compare_and_swap, map_store, no_race.
  unfold mbind, prog_bind. unfold bpf_map_lookup_elem. rewrite Hone, Z.eqb_refl.
  cbn [mret prog_ret]. set (w1 := set_map OPEN_COUNT _ w).
  assert (H1 : bpf_lookup k (get_map OPEN_COUNT w1) = Some 0).
  { unfold w1. by rewrite get_set_eq, bpf_lookup_store_eq by (by rewrite Hone). }
  clearbody w1.
  pose proof (sockops_opens (λ _ v, v) port fam k 0 0 e w1 Hp Hf Hk) as (_ & Hc & _).
  destruct (minecraft_sockops _ _ e w1) as [r w2]. cbn [snd] in *.
  change (1 =? 1) with true. cbn [andb].
  pose proof (forget_maps k e w2) as Hm. pose proof (forget_forgets k e w2) as (He & _).
  split; [|exact He]. rewrite (Hm _ OPEN_COUNT) by new_tag. by rewrite Hc, H1.
Qed.
End CloseOpenRace.
