(* ===== verification/Races.v ===== *)
(** * Two packets of one source on two CPUs

    The per-source buckets are shared by all CPUs, and a take is not atomic: it reads the
    clock, then the two fields of the bucket, and writes them back one by one.  [micro] is
    a take in these steps, one access of memory each; [run] interleaves any number of
    takes under a schedule that also lets time pass.  Alone a take is the one of [Limits];
    together they keep the tokens within the burst, but can fill an empty bucket. *)
From S2P Require Import Prelude Kernel World TokenBucket Limits.

(** ** A take, access by access *)
Inductive take_pc :=
  | Start
  | Timed (now : Z)                              (* bpf_ktime_get_boot_ns() *)
  | GotLast (now last : Z)                       (* now - b->last_refill_ns *)
  | GotTokens (t last refill : Z)                (* b->tokens + refill, at most burst *)
  | WroteTokens (last refill : Z)                (* b->tokens = t - cost *)
  | Finished (granted : bool).
#[export] Instance take_pc_eq_dec : EqDecision take_pc.
Proof. solve_decision. Defined.

Section Races.
(** The period, the burst and the cost of the take; and whether the compiled [+=] adds to
    the [last_refill_ns] the take has read already, or reads it again. *)
Context (P B cost : Z) (reuse : bool).

Definition micro (clock : Z) (b : ratelimit) (pc : take_pc) : ratelimit * take_pc :=
  match pc with
  | Start => (b, Timed clock)
  | Timed now => (b, GotLast now (last_refill_ns b))
  | GotLast now last =>
    let elapsed := u64 (now - last) in
    let refill := if 0 <? P then elapsed / P else 0 in
    let t := u64 (tokens b + refill) in
    let t := if B <? t then B else t in
    if t <? cost then (b, Finished false) else (b, GotTokens t last refill)
  | GotTokens t last refill => (Ratelimit (u64 (t - cost)) (last_refill_ns b), WroteTokens last refill)
  | WroteTokens last refill =>
    let base := if reuse then last else last_refill_ns b in
    (Ratelimit (tokens b) (u64 (base + u64 (refill * P))), Finished true)
  | Finished granted => (b, Finished granted)
  end.
(** A take by itself, at one instant. *)
Fixpoint micros (n : nat) (clock : Z) (b : ratelimit) (pc : take_pc) : ratelimit * take_pc :=
  match n with
  | O => (b, pc)
  | S n => let '(b, pc) := micro clock b pc in micros n clock b pc
  end.
Definition alone (clock : Z) (b : ratelimit) : ratelimit * take_pc := micros 5 clock b Start.

(** ** Interleavings *)
Record shared := Shared { bucket : ratelimit; takes : nat → take_pc; time : Z }.
Inductive act := Pass (d : Z) | Run (i : nat).
Definition perform (a : act) (s : shared) : shared :=
  match a with
  | Pass d => Shared (bucket s) (takes s) (time s + Z.max 0 d)
  | Run i =>
    let '(b, pc) := micro (time s) (bucket s) (takes s i) in
    Shared b (λ j, if decide (j = i) then pc else takes s j) (time s)
  end.
Definition run (sched : list act) (s : shared) : shared := foldl (λ s a, perform a s) s sched.
Definition idle (b : ratelimit) (t : Z) : shared := Shared b (λ _, Start) t.

(** *** The tokens stay within the burst *)
Definition pc_ok (pc : take_pc) : Prop :=
  match pc with GotTokens t _ _ => cost ≤ t ≤ B | _ => True end.
Definition shared_ok (s : shared) : Prop :=
  0 ≤ tokens (bucket s) ≤ B ∧ ∀ i, pc_ok (takes s i).
Context (Hcost : 0 ≤ cost) (HB : B < 2 ^ 64).
Lemma micro_ok clock b pc : 0 ≤ tokens b ≤ B → pc_ok pc →
  let '(b', pc') := micro clock b pc in 0 ≤ tokens b' ≤ B ∧ pc_ok pc'.
Proof.
  intros Hb Hpc. destruct pc as [|now|now last|t last refill|last refill|granted]; simpl in *; try done.
  - set (t := u64 _). assert (Ht : (if B <? t then B else t) ≤ B) by (destruct (Z.ltb_spec B t); lia).
    destruct (Z.ltb_spec (if B <? t then B else t) cost); simpl; done.
  - rewrite u64_id by (unfold is_u64; lia). lia.
Qed.
Lemma perform_ok a s : shared_ok s → shared_ok (perform a s).
Proof.
  intros [Hb Hpc]. destruct a as [d|i]; [done|]. simpl.
  pose proof (micro_ok (time s) (bucket s) (takes s i) Hb (Hpc i)) as H.
  destruct (micro _ _ _) as [b pc]. destruct H as [Hb' Hpc']. split; [done|].
  intros j. simpl. by case_decide.
Qed.
Lemma run_ok sched s : shared_ok s → shared_ok (run sched s).
Proof.
  revert s. induction sched as [|a sched IH]; intros s Hs; [done|]. by apply IH, perform_ok.
Qed.
End Races.

(** However many packets of a source the CPUs handle at once, and however their accesses
    interleave with each other and with the passing of time, the bucket never holds more
    tokens than its burst, nor fewer than none. *)
Lemma races_tokens_bounded P B cost reuse sched s :
  0 ≤ cost → B < 2 ^ 64 → 0 ≤ tokens (bucket s) ≤ B → (∀ i, takes s i = Start) →
  0 ≤ tokens (bucket (run P B cost reuse sched s)) ≤ B.
Proof.
  intros Hc HB Hb Hs. apply (run_ok P B cost reuse Hc HB sched s). split; [done|].
  intros i. by rewrite Hs.
Qed.

(** ** Alone, a take is the one of the limiters *)
Lemma alone_run P B cost reuse now b :
  alone P B cost reuse now b =
    (let elapsed := u64 (now - last_refill_ns b) in
     let refill := if 0 <? P then elapsed / P else 0 in
     let t := u64 (tokens b + refill) in
     let t := if B <? t then B else t in
     if t <? cost then (b, Finished false)
     else (Ratelimit (u64 (t - cost)) (u64 (last_refill_ns b + u64 (refill * P))), Finished true)).
Proof.
  unfold alone. cbn [micros micro]. cbv zeta.
  destruct (_ <? cost); [done|]. cbn [micros micro tokens last_refill_ns]. by destruct reuse.
Qed.

Section Alone.
Context {M : Type → Type} `{!BpfMap M, !BpfMapLaws M}.

(** Undisturbed, the take of single accesses is the take the rest of the development is
    about: of a bucket that exists it gives the answer of [ratelimit_take] and leaves the
    bucket [ratelimit_take] leaves, at every period and burst; and with the cost of the
    packet's bytes it is the byte block of [conn_ratelimit_take]. *)
Theorem alone_is_take map k P B reuse e (w : world M) b : 0 ≤ B → entry map k w = Some b →
  let '(granted, w') := ratelimit_take map k P B e w in
  let '(b', pc) := alone P B 1 reuse (now_of e w) b in
  pc = Finished granted ∧ entry map k w' = Some b' ∧
  ∀ c bytes l, byte_on c = true →
    conn_byte_block c (now_of e w) bytes l =
      match alone (conn_byte_period_ns c) (conn_byte_burst c) bytes reuse (now_of e w) (byte_part l) with
      | (q, Finished true) => Some (join_parts (pkt_part l) q)
      | _ => None
      end.
Proof.
  intros HB Hb. unfold ratelimit_take, entry, mbind, prog_bind, bpf_map_lookup_elem in *.
  rewrite Hb. cbn [bpf_ktime_get_boot_ns]. rewrite alone_run. cbv zeta.
  unfold now_of. set (now := boot_ns e (clock_reads w)).
  set (t := if B <? _ then B else _).
  assert (Ht : (t =? 0) = (t <? 1)).
  { assert (0 ≤ t).
    { unfold t. destruct (Z.ltb_spec B (u64 (tokens b + (if 0 <? P then u64 (now - last_refill_ns b) / P else 0)))); [done|].
      apply Z.mod_pos_bound. done. }
    destruct (Z.eqb_spec t 0), (Z.ltb_spec t 1); lia || done. }
  rewrite Ht.
  assert (Hbyte : ∀ c bytes l, byte_on c = true →
    conn_byte_block c now bytes l =
      match alone (conn_byte_period_ns c) (conn_byte_burst c) bytes reuse now (byte_part l) with
      | (q, Finished true) => Some (join_parts (pkt_part l) q)
      | _ => None
      end).
  { intros c bytes l Hon. unfold byte_on in Hon. apply andb_true_iff in Hon as [HP _].
    rewrite alone_run. unfold conn_byte_block, byte_part. cbn [tokens last_refill_ns]. rewrite HP.
    cbv zeta. by destruct (_ <? bytes). }
  destruct (t <? 1).
  - split_and!; [done| |done]. cbn. by rewrite get_tick.
  - split_and!; [done| |done]. cbn. rewrite get_set_eq, get_tick.
    apply bpf_lookup_store_eq. by eexists.
Qed.
End Alone.

(** ** Together, two takes can fill an empty bucket *)

Section Inversion.
Context (P B cost : Z) (reuse : bool).

(** One CPU running by itself for a while. *)
Lemma run_cpu n i s :
  let s' := run P B cost reuse (replicate n (Run i)) s in
  let '(b, pc) := micros P B cost reuse n (time s) (bucket s) (takes s i) in
  bucket s' = b ∧ takes s' i = pc ∧ (∀ j, j ≠ i → takes s' j = takes s j) ∧ time s' = time s.
Proof.
  revert s. induction n as [|n IH]; intros s; [done|]. cbn [replicate micros].
  change (run P B cost reuse (Run i :: replicate n (Run i)) s) with
    (run P B cost reuse (replicate n (Run i)) (perform P B cost reuse (Run i) s)).
  specialize (IH (perform P B cost reuse (Run i) s)). cbn [perform] in *.
  destruct (micro _ _ _ _ _ _ _) as [b pc]. cbn [bucket takes time] in IH.
  rewrite decide_True in IH by done. cbv zeta in IH |- *.
  destruct (micros _ _ _ _ _ _ _ _) as [b' pc']. destruct IH as (Hb & Hi & Hj & Ht).
  split_and!; [exact Hb|exact Hi| |exact Ht]. intros j Hne. rewrite Hj by done. by rewrite decide_False.
Qed.
Lemma run_app a1 a2 s : run P B cost reuse (a1 ++ a2) s = run P B cost reuse a2 (run P B cost reuse a1 s).
Proof. apply foldl_app. Qed.

Context (HP : 0 < P) (Hcost : 1 ≤ cost ≤ B) (HB : B * P < 2 ^ 64).
Context (T : Z) (HT : 0 ≤ T) (Hdue : T + cost * P < 2 ^ 63).
Let due := T + cost * P.

Lemma div_below q r : 0 ≤ r < P → (q * P + r) / P = q.
Proof. intros Hr. symmetry. apply (Z.div_unique _ _ _ r); lia. Qed.
Lemma due_positive : 1 ≤ cost * P.
Proof. nia. Qed.

Lemma alone_due : alone P B cost reuse due (Ratelimit 0 T) = (Ratelimit 0 due, Finished true).
Proof.
  pose proof due_positive. rewrite alone_run. cbn [tokens last_refill_ns]. unfold due.
  rewrite (proj2 (Z.ltb_lt 0 P)) by done.
  rewrite (u64_id (T + cost * P - T)) by (unfold is_u64; lia).
  replace (T + cost * P - T) with (cost * P + 0) by lia. rewrite div_below by lia.
  assert (cost < 2 ^ 64) by nia. rewrite (u64_id (0 + cost)) by (unfold is_u64; lia). cbv zeta.
  rewrite (proj2 (Z.ltb_ge B _)) by lia. rewrite (proj2 (Z.ltb_ge _ cost)) by lia.
  rewrite (u64_id (cost * P)), !u64_id by (unfold is_u64; lia). f_equal. f_equal. lia.
Qed.
Lemma alone_early : alone P B cost reuse (due - 1) (Ratelimit 0 T) = (Ratelimit 0 T, Finished false).
Proof.
  pose proof due_positive. rewrite alone_run. cbn [tokens last_refill_ns]. unfold due.
  rewrite (proj2 (Z.ltb_lt 0 P)) by done.
  rewrite (u64_id (T + cost * P - 1 - T)) by (unfold is_u64; lia).
  replace (T + cost * P - 1 - T) with ((cost - 1) * P + (P - 1)) by lia. rewrite div_below by lia.
  assert (cost < 2 ^ 64) by nia. rewrite u64_id by (unfold is_u64; lia). cbv zeta.
  rewrite (proj2 (Z.ltb_ge B _)) by lia. by rewrite (proj2 (Z.ltb_lt _ cost)) by lia.
Qed.
(** What CPU 1 makes of the bucket CPU 0 left. *)
Lemma late_refill : ∃ last,
  micros P B cost reuse 4 due (Ratelimit 0 due) (Timed (due - 1)) = (Ratelimit (B - cost) last, Finished true).
Proof.
  pose proof due_positive. cbn [micros micro tokens last_refill_ns]. cbv zeta.
  rewrite (proj2 (Z.ltb_lt 0 P)) by done. replace (due - 1 - due) with (-1) by lia.
  change (u64 (-1)) with (2 ^ 64 - 1).
  assert (Hq : B ≤ (2 ^ 64 - 1) / P) by (apply Z.div_le_lower_bound; lia).
  assert (Hq' : (2 ^ 64 - 1) / P ≤ 2 ^ 64 - 1) by (apply Z.div_le_upper_bound; lia || nia).
  rewrite (u64_id (0 + _)) by (unfold is_u64; lia).
  replace (if B <? 0 + (2 ^ 64 - 1) / P then B else 0 + (2 ^ 64 - 1) / P) with B
    by (destruct (Z.ltb_spec B (0 + (2 ^ 64 - 1) / P)); lia).
  rewrite (proj2 (Z.ltb_ge B cost)) by lia. cbn [micros micro tokens last_refill_ns].
  rewrite (u64_id (B - cost)) by (unfold is_u64; nia). by eexists.
Qed.
End Inversion.

(** CPU 1 reads the clock, CPU 0 takes at the next nanosecond, CPU 1 goes on. *)
Definition inversion : list act := [Run 1; Pass 1] ++ replicate 5 (Run 0) ++ replicate 4 (Run 1).

(** C23. A bucket can be filled by a race: CPU 1 reads the clock one nanosecond before an empty
    bucket has earned the cost of a take; CPU 0 takes it as it falls due, and moves the time of
    the refill past that reading; the age CPU 1 then computes is negative, which in 64 bits is
    centuries, and its refill fills the bucket to the burst.  Both packets pass, although
    alone the first would be refused and the second would leave the bucket empty. *)
Theorem racing_take_refills P B cost reuse T :
  0 < P → 1 ≤ cost ≤ B → B * P < 2 ^ 64 → 0 ≤ T → T + cost * P < 2 ^ 63 →
  let due := T + cost * P in
  let s := run P B cost reuse inversion (idle (Ratelimit 0 T) (due - 1)) in
  takes s 0%nat = Finished true ∧ takes s 1%nat = Finished true ∧
  tokens (bucket s) = B - cost ∧ time s = due ∧
  alone P B cost reuse (due - 1) (Ratelimit 0 T) = (Ratelimit 0 T, Finished false) ∧
  alone P B cost reuse due (Ratelimit 0 T) = (Ratelimit 0 due, Finished true).
Proof.
  intros HP Hc HB HT Hdue due s.
  pose proof (alone_due P B cost reuse HP Hc T HT Hdue) as Hd. fold due in Hd.
  pose proof (alone_early P B cost reuse HP Hc T HT Hdue) as He. fold due in He.
  destruct (late_refill P B cost reuse HP Hc HB T) as (last & Hl). fold due in Hl.
  unfold s, inversion. rewrite !run_app.
  set (s1 := run P B cost reuse [Run 1; Pass 1] _).
  assert (Hs1 : bucket s1 = Ratelimit 0 T ∧ takes s1 0%nat = Start ∧ takes s1 1%nat = Timed (due - 1) ∧
    time s1 = due) by (unfold s1; split_and!; [done..|]; simpl; lia).
  clearbody s1. destruct Hs1 as (Hb1 & H10 & H11 & Ht1).
  pose proof (run_cpu P B cost reuse 5 0 s1) as H2. rewrite Hb1, H10, Ht1 in H2.
  change (micros P B cost reuse 5 due (Ratelimit 0 T) Start) with (alone P B cost reuse due (Ratelimit 0 T)) in H2.
  rewrite Hd in H2. destruct H2 as (Hb2 & H20 & H2j & Ht2).
  set (s2 := run P B cost reuse (replicate 5 (Run 0)) s1) in *. clearbody s2.
  pose proof (run_cpu P B cost reuse 4 1 s2) as H3.
  rewrite Hb2, (H2j 1%nat), H11, Ht2, Hl in H3 by done. destruct H3 as (Hb3 & H31 & H3j & Ht3).
  split_and!; [by rewrite (H3j 0%nat)|done|by rewrite Hb3|by rewrite Ht3|done|done].
Qed.
