(* ===== verification/XdpWitnesses.v ===== *)
(** * The datapath theorems at concrete packets and states

    Each lemma applies one theorem to a frame from 10.0.0.1 to port 25565, a world of
    one CPU and the default tunables, with its hypotheses evaluated. *)
From S2P Require Import Prelude Kernel World Frame Packet Handshake TokenBucket Limits Health Xdp Locality XdpAccounting XdpProps Policy Sockops Datapath Served Breaker Confined Sessions Races.

Local Open Scope list_scope.
Local Open Scope Z_scope.

(** A data segment (PSH, ACK) with three bytes, a SYN, and a Login handshake. *)
Definition ex_data : xdp_md := linear_ctx (example_frame 24 [1; 2; 3]).
Definition ex_syn : xdp_md := linear_ctx (example_frame 2 []).
Definition ex_login_bytes : list Z := encode_handshake 765 example_net [0x63; 0xDD] 2.
Definition ex_login : xdp_md := linear_ctx (example_frame 24 ex_login_bytes).
Definition ex_env : kenv := example_env default_config.
Definition ex_world : world (gmap ipkey) := empty_world 1.
Definition ex_with {V} (i : mapid V) (v : V) (w : world (gmap ipkey)) : world (gmap ipkey) :=
  set_map i {[example_src := v]} w.
Definition ex_banned : world (gmap ipkey) := ex_with HEALTH (IpHealth 20 0 (2 ^ 62)) ex_world.
Definition ex_established : world (gmap ipkey) := ex_with ESTABLISHED 5 ex_world.
Definition ex_listed : world (gmap ipkey) := ex_with WHITELIST 5 ex_established.

Ltac computes := vm_compute; reflexivity.

Lemma minecraft_xdp_accounted_witness :
  let r := minecraft_xdp ex_data ex_env ex_world in
  r.1 = XDP_DROP ∧ acct example_src ex_env (Some r.1) ex_world r.2.
Proof.
  pose proof (minecraft_xdp_accounted ex_data (example_parsed 24 43) ex_env ex_world) as H.
  assert (Hp : xdp_parse (target_port (conf ex_env)) (data ex_data) = Some (example_parsed 24 43))
    by computes.
  specialize (H Hp). split; [computes|].
  assert (Hok : acct_ok example_src ex_env ex_world)
    by (split; [exists (replicate STAT_MAX 0); split; computes|exact I]).
  specialize (H Hok). destruct (minecraft_xdp ex_data ex_env ex_world) as [v w']. exact (proj2 H).
Defined.

Lemma minecraft_xdp_isolated_witness :
  only_ip example_src ex_env ex_world (minecraft_xdp ex_data ex_env ex_world).2.
Proof.
  pose proof (minecraft_xdp_isolated ex_data ex_env ex_world) as H.
  assert (Hp : xdp_parse (target_port (conf ex_env)) (data ex_data) = Some (example_parsed 24 43))
    by computes.
  rewrite Hp in H. exact H.
Defined.

Lemma blacklisted_dropped_witness :
  dropped [THist] ex_env ex_banned (minecraft_xdp ex_data ex_env ex_banned).
Proof.
  apply (blacklisted_dropped ex_data (example_parsed 24 43) (IpHealth 20 0 (2 ^ 62)));
    [computes|computes|computes].
Defined.

Lemma unverified_confined_witness :
  let w' := (minecraft_xdp ex_syn ex_env ex_world).2 in
  only_maps [TSyn; TSynRl; THist] ex_env ex_world w' ∧
  (∀ n, n ≠ cpu ex_env → stats w' !! n = stats ex_world !! n).
Proof.
  pose proof (unverified_confined ex_syn (example_parsed 2 40) ex_env ex_world
    ltac:(computes) ltac:(computes) ltac:(computes)) as (Hm & _ & _ & Hs & _).
  split; [exact Hm|exact Hs].
Defined.

Lemma whitelist_origin_witness :
  ∃ p, xdp_parse 25565 (data ex_login) = Some p ∧ src p = example_src ∧
    promotes ex_login p ex_established (minecraft_xdp ex_login ex_env ex_established).1.
Proof.
  apply (whitelist_origin ex_login ex_env ex_established example_src); [computes|].
  vm_compute. eexists. reflexivity.
Defined.

Lemma login_whitelists_witness :
  (minecraft_xdp ex_login ex_env ex_established).1 = XDP_PASS ∧
  is_Some (bpf_lookup example_src (get_map WHITELIST (minecraft_xdp ex_login ex_env ex_established).2)).
Proof.
  apply (login_whitelists ex_login (example_parsed 24 (40 + Z.of_nat (length ex_login_bytes))) 5);
    [computes|computes|computes|exact I| |computes|computes|computes|computes|computes].
  split; [discriminate|]. split; [vm_compute; discriminate|computes].
Defined.

Lemma whitelisted_passes_witness :
  let now := boot_ns ex_env (clock_reads (checked example_src ex_listed)) in
  let r := minecraft_xdp ex_data ex_env ex_listed in
  now = 1000000000 ∧
  r.1 = XDP_PASS ∧ bpf_lookup example_src (get_map WHITELIST r.2) = Some now ∧
  only_maps [TWl] ex_env ex_listed r.2.
Proof.
  split; [computes|].
  apply (whitelisted_passes ex_data (example_parsed 24 43) 5 ex_env ex_listed);
    [computes|computes|exact I|computes|split; [vm_compute; discriminate|computes]
    |right; vm_compute; discriminate|computes|computes|by left].
Defined.

Lemma no_syn_dropped_witness :
  dropped [THist] ex_env ex_world (minecraft_xdp ex_data ex_env ex_world).
Proof.
  apply (no_syn_dropped ex_data (example_parsed 24 43)); [computes|computes|computes|computes|computes].
Defined.

(** ** Connections *)
Definition ex_open_call : bpf_sock_ops :=
  SockOps 25565 AF_INET example_src BPF_SOCK_OPS_PASSIVE_ESTABLISHED_CB 0 0.
Definition ex_opened : world (gmap ipkey) := (minecraft_sockops no_race ex_open_call ex_env ex_world).2.
Lemma ex_blank : blank ex_world.
Proof. intros V i k. destruct i; apply lookup_empty. Qed.
(** One player has connected. *)
Lemma ex_reachable : reachable 25565 ([(1%nat, example_src)], ex_opened).
Proof.
  eapply (reach_step 25565 ([], ex_world)); [apply reach_init, ex_blank|].
  apply step_open; [done|by apply not_elem_of_nil|done|by left|by compute].
Qed.

Lemma sessions_tracked_witness :
  bpf_lookup example_src (get_map OPEN_COUNT ex_opened) = Some 1 ∧
  (is_Some (bpf_lookup example_src (get_map ESTABLISHED ex_opened)) ↔
     ∃ id, (id, example_src) ∈ [(1%nat, example_src)]).
Proof.
  split; [computes|].
  exact (proj1 (proj2 (sessions_tracked 25565 _ ex_opened example_src ex_reachable))).
Defined.

(** A server that allows one connection per source. *)
Definition ex_capped : kenv := Kenv {|
  target_port := 25565; whitelist_ttl_ns := 0; status_period_ns := 0; status_burst := 0;
  login_period_ns := 0; login_burst := 0; tcp_global_period_ns := 0; tcp_global_burst := 0;
  tcp_max_open_per_ip := 1; health_window_ns := 0; health_threshold := 0;
  health_blacklist_ns := 0; conn_pkt_period_ns := 0; conn_pkt_burst := 0;
  conn_byte_period_ns := 0; conn_byte_burst := 0; conn_new_period_ns := 0;
  conn_new_burst := 0 |} 0 (λ n, Z.of_nat n).
Lemma open_cap_enforced_witness :
  conn_count example_src [(1%nat, example_src)] = 1 ∧
  (minecraft_xdp ex_syn ex_capped ex_opened).1 = XDP_DROP.
Proof.
  split; [computes|].
  apply (open_cap_enforced 25565 [(1%nat, example_src)] ex_opened ex_syn (example_parsed 2 40));
    [apply ex_reachable|computes|computes|split; vm_compute; [reflexivity|discriminate]].
Defined.

Lemma cap_spares_others_witness :
  default 0 (bpf_lookup example_src (get_map OPEN_COUNT ex_opened)) ≤ 1 ∧
  (over_open_cap example_src ex_capped ex_opened).1 = true ∧
  tcp_max_open_per_ip (conf ex_capped) ≤ conn_count example_src [(1%nat, example_src)].
Proof.
  assert (H0 : 0 < tcp_max_open_per_ip (conf ex_capped)) by computes.
  assert (H : (over_open_cap example_src ex_capped ex_opened).1 = true) by computes.
  pose proof (cap_spares_others 25565 _ ex_opened example_src ex_capped ex_reachable) as [H1 H2].
  split; [exact H1|]. split; [exact H|exact (H2 H0 H)].
Defined.

(** Another connection opens before the first attempt, and nothing disturbs the second. *)
Definition ex_race (i : nat) (v : Z) : Z := match i with O => v + 1 | _ => v end.
Definition ex_two : world (gmap ipkey) := ex_with OPEN_COUNT 2 ex_established.
Lemma open_count_dec_races_witness :
  let w' := (open_count_dec ex_race example_src ex_env ex_two).2 in
  bpf_lookup example_src (get_map OPEN_COUNT w') = Some 2 ∧
  (3 ≠ 1 → only_maps [TOpen] ex_env ex_two w').
Proof.
  assert (H : disturbed ex_race 2 1).
  { intros [|i] Hi; [split; discriminate|lia]. }
  assert (H1 : (1 ≤ 8)%nat) by lia. assert (H2 : (1 < 8)%nat) by lia.
  assert (H3 : 0 < counter_at ex_race 2 1 < 2 ^ 64) by (split; computes).
  assert (H4 : ex_race 1 (counter_at ex_race 2 1) = counter_at ex_race 2 1) by computes.
  assert (H0 : bpf_lookup example_src (get_map OPEN_COUNT ex_two) = Some 2) by computes.
  pose proof (open_count_dec_races ex_race example_src ex_env ex_two 2 1 H0 H1 H)
    as (_ & Hd & _).
  destruct (Hd H2 H3 H4) as (Hc & _ & Hm). split; [exact Hc|exact Hm].
Defined.

(** ** Limiters and health *)
Lemma ex_clock : clock_ok ex_env.
Proof. apply example_env_clock. Qed.
Definition ex_bucket : world (gmap ipkey) := ex_with LOGIN_RL (Ratelimit 3 0) ex_world.

Lemma ratelimit_take_refines_witness :
  let '(r, w') := ratelimit_take LOGIN_RL example_src 3000000000 8 ex_env ex_bucket in
  (r, entry LOGIN_RL example_src w') =
    rl_step 3000000000 8 (boot_ns ex_env (clock_reads ex_bucket))
      (entry LOGIN_RL example_src ex_bucket) ∧
  clock_reads w' = S (clock_reads ex_bucket).
Proof.
  assert (HP : 0 ≤ 3000000000 < 2 ^ 64) by lia. assert (HB : 0 ≤ 8 < 2 ^ 63) by lia.
  assert (Hok : entry_ok 8 (boot_ns ex_env (clock_reads ex_bucket))
    (entry LOGIN_RL example_src ex_bucket)) by (vm_compute; repeat split; discriminate).
  exact (ratelimit_take_refines LOGIN_RL example_src 3000000000 8 ex_env ex_bucket HP HB ex_clock Hok).
Defined.

(** Three calls in a row, nothing in between. *)
Lemma ratelimit_take_window_witness :
  let r := take_all LOGIN_RL example_src 3000000000 8 [mret tt; mret tt; mret tt] ex_env ex_bucket in
  r.1 = 3 ∧
  3000000000 * (r.1 - Z.max 8 1) ≤ (now_of ex_env r.2 - now_of ex_env ex_bucket) + 2999999999.
Proof.
  assert (HP : 0 < 3000000000 < 2 ^ 64) by lia. assert (HB : 0 ≤ 8 < 2 ^ 63) by lia.
  assert (Hby : bystander LOGIN_RL example_src (mret tt : prog (gmap ipkey) unit))
    by (split; intros e w; [reflexivity|unfold later; reflexivity]).
  assert (Hall : Forall (bystander LOGIN_RL example_src)
    [mret tt; mret tt; mret tt : prog (gmap ipkey) unit]) by (repeat constructor; apply Hby).
  assert (Hok : entry_ok 8 (now_of ex_env ex_bucket) (entry LOGIN_RL example_src ex_bucket))
    by (vm_compute; repeat split; discriminate).
  pose proof (ratelimit_take_window LOGIN_RL example_src 3000000000 8 _ ex_env ex_bucket
    HP HB ex_clock Hall Hok) as H.
  split; [computes|]. destruct (take_all _ _ _ _ _ ex_env ex_bucket) as [g w']. exact H.
Defined.

(** The circuit breaker at 1000 per second, and the traffic caps. *)
Definition ex_limits : xdp_config := {|
  target_port := 25565; whitelist_ttl_ns := 0; status_period_ns := 0; status_burst := 0;
  login_period_ns := 0; login_burst := 0; tcp_global_period_ns := 1000000;
  tcp_global_burst := 100; tcp_max_open_per_ip := 0; health_window_ns := 10000000000;
  health_threshold := 2; health_blacklist_ns := 300000000000; conn_pkt_period_ns := 1000;
  conn_pkt_burst := 600; conn_byte_period_ns := 10; conn_byte_burst := 2000;
  conn_new_period_ns := 0; conn_new_burst := 0 |}.
Definition ex_limits_env : kenv := example_env ex_limits.
Lemma ex_limits_ok : limits_ok (conf ex_limits_env).
Proof. repeat split; vm_compute; congruence. Qed.

Lemma tcp_global_ratelimit_take_refines_witness :
  let '(r, w') := tcp_global_ratelimit_take ex_limits_env ex_world in
  (r, tcp_global_ratelimit w' !! 0%nat) =
    global_step ex_limits (now_of ex_limits_env ex_world) (Some (Ratelimit 0 0)).
Proof.
  assert (Hok : ∀ b, tcp_global_ratelimit ex_world !! cpu ex_limits_env = Some b →
    tb_ok (tcp_global_burst (conf ex_limits_env)) (now_of ex_limits_env ex_world) b).
  { intros b [= <-]. repeat split; vm_compute; congruence. }
  pose proof (tcp_global_ratelimit_take_refines ex_limits_env ex_world ex_limits_ok
    (example_env_clock _) Hok) as H.
  destruct (tcp_global_ratelimit_take ex_limits_env ex_world) as [r w']. exact (proj1 H).
Defined.

Definition ex_conn : world (gmap ipkey) := ex_with CONN_RL (ConnLimit 5 0 100 0) ex_world.
Lemma conn_ratelimit_take_refines_witness :
  let '(r, w') := conn_ratelimit_take example_src 1500 ex_limits_env ex_conn in
  (r, bpf_lookup example_src (get_map CONN_RL w')) =
    conn_step ex_limits (now_of ex_limits_env ex_conn) 1500
      (bpf_lookup example_src (get_map CONN_RL ex_conn)).
Proof.
  assert (Hn : 0 ≤ 1500 < 2 ^ 16) by lia.
  assert (Hok : conn_ok (conf ex_limits_env) (now_of ex_limits_env ex_conn)
    (bpf_lookup example_src (get_map CONN_RL ex_conn)))
    by (vm_compute; repeat split; congruence).
  exact (conn_ratelimit_take_refines example_src 1500 ex_limits_env ex_conn ex_limits_ok
    (example_env_clock _) Hn Hok).
Defined.

Lemma ex_health_cfg : health_cfg_ok (conf ex_limits_env).
Proof. repeat split; vm_compute; congruence. Qed.
(** Two anomalies reach a threshold of two. *)
Lemma anomaly_run_counts_witness :
  health_entry example_src (anomaly_run example_src 2 ex_limits_env ex_world).2 =
    Some (IpHealth 2 1000000000 302000000000).
Proof.
  etransitivity.
  - exact (proj1 (anomaly_run_counts example_src 2 ex_limits_env ex_world ex_health_cfg
      (example_env_clock _) eq_refl ltac:(lia) ltac:(lia) ltac:(vm_compute; discriminate))).
  - computes.
Defined.

Lemma record_drop_counts_witness :
  let w' := (record_drop example_src DROP_REASON_UNHEALTHY ex_env ex_world).2 in
  drops_of example_src DROP_REASON_UNHEALTHY ex_world = 0 ∧
  drops_of example_src DROP_REASON_UNHEALTHY w' = u64 (0 + 1).
Proof.
  split; [computes|].
  exact (proj1 (proj2 (record_drop_counts example_src DROP_REASON_UNHEALTHY DROP_REASON_UNHEALTHY
    ex_env ex_world I))).
Defined.

(** ** Runs from fresh maps *)
Definition ex_clock_fn (n : nat) : Z := Z.min (1000000000 * (Z.of_nat n + 1)) (2 ^ 62).
Lemma ex_clock_bounds n : 0 ≤ ex_clock_fn n < 2 ^ 63.
Proof. exact (proj1 ex_clock n). Qed.
Lemma ex_clock_mono n m : (n ≤ m)%nat → ex_clock_fn n ≤ ex_clock_fn m.
Proof. exact (proj2 ex_clock n m). Qed.
Lemma ex_tunables : tunables_ok default_config.
Proof. repeat split; vm_compute; congruence. Qed.
Lemma ex_fresh : fresh ex_world.
Proof.
  split; [intros V i k; destruct i; apply lookup_empty| |];
    intros [|[|n]] x Hx; vm_compute in Hx |- *; congruence.
Qed.
Lemma ex_bytes (l : list Z) : forallb (λ x, (0 <=? x) && (x <? 256)) l = true → Forall is_byte l.
Proof.
  intros H. apply Forall_forall. intros x Hx%list_elem_of_In.
  pose proof (proj1 (forallb_forall _ _) H x Hx) as Hb. unfold is_byte. apply andb_true_iff in Hb as [H1%Z.leb_le H2%Z.ltb_lt]. lia.
Qed.

(** A player connects; the SYN was not seen, the socket is. *)
Lemma ex_opened_reach : reach default_config ex_clock_fn ex_opened.
Proof.
  apply (reach_event _ _ (Callback 0 no_race ex_open_call)); [exact I|].
  apply reach_fresh, ex_fresh.
Qed.
Definition ex_played : world (gmap ipkey) := (minecraft_xdp ex_login ex_env ex_opened).2.
Lemma ex_played_reach : reach default_config ex_clock_fn ex_played.
Proof.
  apply (reach_event _ _ (Frame 0 ex_login)); [apply ex_bytes; computes|apply ex_opened_reach].
Qed.

Lemma datapath_wellformed_witness : world_ok default_config 5000000000 ex_played.
Proof.
  replace 5000000000 with (ex_clock_fn (clock_reads ex_played)) by computes.
  exact (datapath_wellformed default_config ex_clock_fn ex_tunables ex_clock_bounds
    ex_clock_mono ex_played ex_played_reach).
Defined.

Lemma datapath_decides_witness :
  ∃ r, policy default_config (segment_of ex_login (example_parsed 24 59))
         (record_of example_src ex_opened) (Some (Ratelimit 0 0))
         (during ex_env (clock_reads ex_opened) (clock_reads ex_played)) r ∧
       XDP_PASS = action r ∧ charged example_src r ex_env ex_opened ex_played.
Proof.
  pose proof (datapath_decides default_config ex_clock_fn ex_tunables ex_clock_bounds
    ex_clock_mono 0 ex_login (example_parsed 24 59) ex_opened ex_opened_reach) as H.
  assert (Hb : Forall is_byte (data ex_login)) by (apply ex_bytes; computes).
  assert (Hp : xdp_parse 25565 (data ex_login) = Some (example_parsed 24 59)) by computes.
  specialize (H Hb Hp).
  assert (Hv : (minecraft_xdp ex_login ex_env ex_opened).1 = XDP_PASS) by computes.
  unfold ex_played. change (on_cpu default_config ex_clock_fn 0) with ex_env in H.
  rewrite <- Hv. destruct (minecraft_xdp ex_login ex_env ex_opened) as [v w']. exact (proj1 H).
Defined.

(** Nothing of the source differs in a world where another source is banned. *)
Lemma minecraft_xdp_local_witness :
  let w2 := set_map HEALTH {[IPKey 10 0 0 2 := IpHealth 20 0 (2 ^ 62)]} ex_opened in
  (minecraft_xdp ex_login ex_env ex_opened).1 = (minecraft_xdp ex_login ex_env w2).1.
Proof.
  intros w2.
  assert (Ha : agree example_src ex_env ex_opened w2).
  { split; [|split; computes]. intros V i. destruct i; computes. }
  assert (Hp : xdp_parse (target_port (conf ex_env)) (data ex_login) = Some (example_parsed 24 59))
    by computes.
  exact (proj1 (minecraft_xdp_local ex_login (example_parsed 24 59) ex_env ex_opened w2 Hp Ha)).
Defined.

Lemma login_served_witness :
  (minecraft_xdp ex_login ex_env ex_opened).1 = XDP_PASS ∧
  is_Some (bpf_lookup example_src (get_map WHITELIST ex_played)).
Proof.
  assert (Hb : Forall is_byte (data ex_login)) by (apply ex_bytes; computes).
  pose proof (login_served default_config ex_clock_fn ex_tunables ex_clock_bounds
    ex_clock_mono 0 ex_login (example_parsed 24 59) 1000000000 ex_opened ex_opened_reach Hb) as H.
  change (on_cpu default_config ex_clock_fn 0) with ex_env in H. unfold ex_played.
  destruct (minecraft_xdp ex_login ex_env ex_opened) as [v w'].
  apply H; try computes.
  split; [discriminate|]. split; [vm_compute; discriminate|computes].
Defined.


(** One packet in a hundred seconds; two more ban the source for seven seconds. *)
Definition ex_strict : xdp_config := {|
  target_port := 25565; whitelist_ttl_ns := 0; status_period_ns := 0; status_burst := 0;
  login_period_ns := 0; login_burst := 0; tcp_global_period_ns := 0; tcp_global_burst := 0;
  tcp_max_open_per_ip := 0; health_window_ns := 60000000000; health_threshold := 2;
  health_blacklist_ns := 7000000000; conn_pkt_period_ns := 100000000000; conn_pkt_burst := 1;
  conn_byte_period_ns := 0; conn_byte_burst := 0; conn_new_period_ns := 0;
  conn_new_burst := 0 |}.
Definition ex_history : list event := [Callback 0 no_race ex_open_call; Frame 0 ex_data; Frame 0 ex_data;
  Frame 0 ex_data].
Definition ex_banned_run : world (gmap ipkey) := handle_all ex_strict ex_clock_fn ex_history ex_world.
Definition ex_knocks : list event := [Frame 0 ex_data; Frame 0 ex_syn; Frame 0 ex_login].
Definition ex_ban : ip_health := IpHealth 2 5000000000 16000000000.
Lemma ban_ends_witness :
  let w' := handle_all ex_strict ex_clock_fn ex_knocks ex_banned_run in
  bpf_lookup example_src (get_map HEALTH w') = Some ex_ban ∧
  ∃ r, r ≠ Drop DROP_REASON_UNHEALTHY ∧
       (minecraft_xdp ex_data (on_cpu ex_strict ex_clock_fn 0) w').1 = action r.
Proof.
  intros w'.
  assert (Hcfg : tunables_ok ex_strict) by (repeat split; vm_compute; congruence).
  assert (Hd : Forall is_byte (data ex_data)) by (apply ex_bytes; computes).
  assert (Hs : Forall is_byte (data ex_syn)) by (apply ex_bytes; computes).
  assert (Hl : Forall is_byte (data ex_login)) by (apply ex_bytes; computes).
  assert (Hr : reach ex_strict ex_clock_fn ex_banned_run).
  { apply (reach_handle_all ex_strict ex_clock_fn); [apply reach_fresh, ex_fresh|].
    repeat apply Forall_cons_2; try done; by apply Forall_nil. }
  assert (Hev : Forall well_formed ex_knocks)
    by (repeat apply Forall_cons_2; try done; by apply Forall_nil).
  assert (Hh : bpf_lookup example_src (get_map HEALTH ex_banned_run) = Some ex_ban) by computes.
  assert (Hh' : bpf_lookup example_src (get_map HEALTH w') = Some ex_ban) by computes.
  destruct (ban_ends ex_strict ex_clock_fn Hcfg ex_clock_bounds ex_clock_mono example_src ex_ban
    ex_knocks ex_banned_run Hr Hev Hh) as [_ H].
  { intros [|[|[|i]]] Hi; [computes|computes|computes|simpl in Hi; lia]. }
  fold w' in H. split; [exact Hh'|].
  assert (Hend : 16000000000 ≤ ex_clock_fn (clock_reads w')) by (vm_compute; discriminate).
  specialize (H Hh' 0%nat ex_data (example_parsed 24 43) Hd eq_refl eq_refl). cbv zeta in H.
  destruct (minecraft_xdp ex_data _ w') as [v w'']. destruct H as [_ H].
  destruct (H Hend) as (r & Hne & Hv & _). exists r. split; [exact Hne|exact Hv].
Defined.

(** ** Races *)

(** The byte bucket of the default daemon (512 KiB per second, 1 MiB at once) and a packet of
    1500 bytes: from empty to all but full in one nanosecond. *)
Lemma racing_take_refills_witness :
  let s := idle (Ratelimit 0 1000000000) 1002860499 in
  tokens (bucket (run 1907 1048576 1500 true inversion s)) = 1047076.
Proof.
  exact (proj1 (proj2 (proj2 (racing_take_refills 1907 1048576 1500 true 1000000000
    ltac:(lia) ltac:(lia) ltac:(lia) ltac:(lia) ltac:(lia))))).
Defined.

Lemma alone_is_take_witness :
  (ratelimit_take LOGIN_RL example_src 3000000000 8 ex_env ex_bucket).1 = true ∧
  entry LOGIN_RL example_src (ratelimit_take LOGIN_RL example_src 3000000000 8 ex_env ex_bucket).2 =
    Some (alone 3000000000 8 1 true (now_of ex_env ex_bucket) (Ratelimit 3 0)).1.
Proof.
  assert (Hb : entry LOGIN_RL example_src ex_bucket = Some (Ratelimit 3 0)) by computes.
  pose proof (alone_is_take LOGIN_RL example_src 3000000000 8 true ex_env ex_bucket (Ratelimit 3 0)
    ltac:(lia) Hb) as H.
  split; [computes|]. destruct (ratelimit_take _ _ _ _ ex_env ex_bucket) as [granted w'].
  destruct (alone _ _ _ _ _ _) as [b' pc]. exact (proj1 (proj2 H)).
Defined.
