(* ===== verification/GoBase.v ===== *)
(** * What the Go code uses of the Go standard library

    Formatting ([fmt] verbs %s, %d and the padded %-16s), [time.Duration]
    ([Truncate], [String]), [strings.Join], and the textual form of addresses:
    [net.IPv4(...).String()] and [net.ParseIP] followed by [To4].  Strings are
    ASCII. *)
From S2P Require Import Prelude.
From stdpp Require Export pretty.
From Stdlib Require Import Ascii.

Local Open Scope string_scope.
Local Open Scope list_scope.
Local Open Scope Z_scope.

(** ** Formatting *)
Fixpoint spaces (n : nat) : string :=
  match n with O => "" | S n => " " +:+ spaces n end.
(** [%-*s]: padded on the right to the width, never cut. *)
Definition padr (width : nat) (s : string) : string := s +:+ spaces (width - String.length s).
(** [%d] *)
Definition fmt_d (x : Z) : string := pretty x.
Definition newline : string := String (Ascii.ascii_of_nat 10) "".

Fixpoint strings_Join (l : list string) (sep : string) : string :=
  match l with
  | [] => ""
  | [x] => x
  | x :: l => x +:+ sep +:+ strings_Join l sep
  end.

Definition has_prefix (p s : string) : bool := String.prefix p s.
Lemma has_prefix_app p s : has_prefix p s = true → ∃ t, s = p +:+ t.
Proof.
  revert s. induction p as [|a p IH]; intros s Hs; [by exists s|].
  destruct s as [|b s]; [done|]. unfold has_prefix in *. simpl in Hs.
  destruct (ascii_dec a b) as [->|]; [|done]. destruct (IH s Hs) as (t & ->). by exists t.
Qed.
(** [strings.TrimPrefix] *)
Definition trim_prefix (p s : string) : string :=
  if has_prefix p s then String.substring (String.length p) (String.length s - String.length p) s
  else s.

(** ** time.Duration: nanoseconds in an int64 *)
Definition Second : Z := 1000000000.
Definition Microsecond : Z := 1000.
Definition Millisecond : Z := 1000000.
Definition Minute : Z := 60 * Second.
Definition Hour : Z := 60 * Minute.

(** [Truncate]: rounds towards zero to a multiple of [m]. *)
Definition dur_Truncate (d m : Z) : Z := if m <=? 0 then d else s64 (d - Z.rem d m).

(** The decimal fraction [fmtFrac] prints: [prec] digits of [v], trailing zeros and
    an empty fraction left out; what remains of [v] is returned. *)
Definition digit (d : Z) : string := String (Ascii.ascii_of_nat (48 + Z.to_nat d)) "".
Fixpoint fmtFrac_loop (prec : nat) (v : Z) (print : bool) (acc : string) : bool * string * Z :=
  match prec with
  | O => (print, acc, v)
  | S prec =>
    let d := v mod 10 in
    let print := print || negb (d =? 0) in
    fmtFrac_loop prec (v / 10) print (if print then digit d +:+ acc else acc)
  end.
Definition fmtFrac (v : Z) (prec : nat) : string * Z :=
  let '(print, acc, v) := fmtFrac_loop prec v false "" in
  ((if (print : bool) then "." +:+ acc else acc), v).

Definition dur_String (d : Z) : string :=
  let neg := d <? 0 in
  let u := Z.abs d in
  let body :=
    if u <? Second then
      if u =? 0 then "0s"
      else if u <? 1000 then pretty u +:+ "ns"
      else if u <? Millisecond then
        let '(frac, v) := fmtFrac u 3 in
        pretty v +:+ frac +:+ String (Ascii.ascii_of_nat 194) (String (Ascii.ascii_of_nat 181) "s")
      else
        let '(frac, v) := fmtFrac u 6 in pretty v +:+ frac +:+ "ms"
    else
      let '(frac, v) := fmtFrac u 9 in
      let secs := pretty (v mod 60) +:+ frac +:+ "s" in
      let v := v / 60 in
      if v =? 0 then secs
      else
        let mins := pretty (v mod 60) +:+ "m" +:+ secs in
        let v := v / 60 in
        if v =? 0 then mins else pretty v +:+ "h" +:+ mins in
  if neg then "-" +:+ body else body.

Example dur_string_1 : dur_String (dur_Truncate 3723456000000 Second) = "1h2m3s".
Proof. reflexivity. Qed.
Example dur_string_2 : dur_String (dur_Truncate 1500999999 Millisecond) = "1.5s".
Proof. reflexivity. Qed.
Example dur_string_3 : dur_String (dur_Truncate 250000999 Millisecond) = "250ms".
Proof. reflexivity. Qed.

(** ** Addresses *)
(** [net.IPv4(k[0], k[1], k[2], k[3]).String()] *)
Definition ipv4_String (k : ipkey) : string :=
  fmt_d (ip0 k) +:+ "." +:+ fmt_d (ip1 k) +:+ "." +:+ fmt_d (ip2 k) +:+ "." +:+ fmt_d (ip3 k).

Definition byte_of (c : Ascii.ascii) : Z := Z.of_N (Ascii.N_of_ascii c).
Definition is_digit (c : Ascii.ascii) : bool := (48 <=? byte_of c) && (byte_of c <=? 57).
Definition dot : Ascii.ascii := "."%char.
Definition colon : Ascii.ascii := ":"%char.
Definition percent : Ascii.ascii := "%"%char.
Definition ascii_eqb : Ascii.ascii → Ascii.ascii → bool := Ascii.eqb.

(** [netip.parseIPv4Fields]: [val] and [digLen] are those of the octet being read,
    [fields] the octets read so far, newest first. *)
Fixpoint parse_v4 (s : list Ascii.ascii) (val : Z) (digLen : nat) (fields : list Z)
    : option (list Z) :=
  match s with
  | [] => if (length fields =? 3)%nat then
            (* a trailing dot was rejected where it was read *)
            Some (rev (val :: fields))
          else None
  | c :: s =>
    if is_digit c then
      if (digLen =? 1)%nat && (val =? 0) then None
      else
        let val := val * 10 + (byte_of c - 48) in
        if 255 <? val then None else parse_v4 s val (S digLen) fields
    else if ascii_eqb c dot then
      (* .1.2.3, 1..2.3 and 1.2.3. *)
      if (digLen =? 0)%nat || (match s with [] => true | _ => false end) then None
      else if (length fields =? 3)%nat then None
      else parse_v4 s 0 O (val :: fields)
    else None
  end.
Definition parseIPv4Fields (s : list Ascii.ascii) : option (list Z) := parse_v4 s 0 O [].

(** The value of a hexadecimal digit. *)
Definition hex_val (c : Ascii.ascii) : option Z :=
  let b := byte_of c in
  if (48 <=? b) && (b <=? 57) then Some (b - 48)
  else if (97 <=? b) && (b <=? 102) then Some (b - 97 + 10)
  else if (65 <=? b) && (b <=? 70) then Some (b - 65 + 10)
  else None.
(** One group of at most four digits: its value, its length, what follows. *)
Fixpoint parse_hex (s : list Ascii.ascii) (off : nat) (acc : Z)
    : option (Z * nat * list Ascii.ascii) :=
  match s with
  | [] => Some (acc, off, [])
  | c :: s' =>
    match hex_val c with
    | None => Some (acc, off, s)
    | Some d => if (3 <? off)%nat then None else parse_hex s' (S off) (acc * 16 + d)
    end
  end.

(** The loop of [netip.parseIPv6]: [ip] holds the bytes parsed so far, [ellipsis]
    where a :: was seen; the answer is what the loop leaves.  Every round but the
    last consumes two of the sixteen bytes, so eight rounds are enough. *)
Fixpoint parse_v6 (fuel : nat) (s : list Ascii.ascii) (ip : list Z) (ellipsis : option nat)
    : option (list Ascii.ascii * list Z * option nat) :=
  match fuel with
  | O => Some (s, ip, ellipsis)
  | S fuel =>
    match parse_hex s 0 0 with
    | None => None
    | Some (acc, off, rest) =>
      if (off =? 0)%nat then None else
      if match rest with c :: _ => ascii_eqb c dot | [] => false end then
        if (match ellipsis with None => negb (length ip =? 12)%nat | Some _ => false end) then None
        else if (16 <? length ip + 4)%nat then None
        else match parseIPv4Fields s with
             | None => None
             | Some q => Some ([], ip ++ q, ellipsis)
             end
      else
        let ip := ip ++ [acc / 256; acc mod 256] in
        match rest with
        | [] => Some ([], ip, ellipsis)
        | c :: rest =>
          if negb (ascii_eqb c colon) then None else
          match rest with
          | [] => None
          | c :: rest' =>
            if ascii_eqb c colon then
              match ellipsis with
              | Some _ => None
              | None =>
                match rest' with
                | [] => Some ([], ip, Some (length ip))
                | _ => parse_v6 fuel rest' ip (Some (length ip))
                end
              end
            else parse_v6 fuel rest ip ellipsis
          end
        end
    end
  end.
Definition parseIPv6 (s : list Ascii.ascii) : option (list Z) :=
  (* a zone is cut off by ParseAddr and then refused by net.ParseIP *)
  if existsb (ascii_eqb percent) s then None else
  let '(s, ellipsis) := match s with
    | c1 :: c2 :: s' => if ascii_eqb c1 colon && ascii_eqb c2 colon then (s', Some O) else (s, None)
    | _ => (s, None)
    end in
  if (match s, ellipsis with [], Some _ => true | _, _ => false end) then Some (replicate 16 0)
  else match parse_v6 8 s [] ellipsis with
  | None => None
  | Some (rest, ip, ellipsis) =>
    match rest with
    | _ :: _ => None
    | [] =>
      if (length ip <? 16)%nat then
        match ellipsis with
        | None => None
        | Some e => Some (take e ip ++ replicate (16 - length ip) 0 ++ drop e ip)
        end
      else match ellipsis with Some _ => None | None => Some ip end
    end
  end.

(** [net.ParseIP]: [None] for nil. *)
Inductive go_ip := IPv4addr (b : list Z) | IPv6addr (b : list Z).
Fixpoint find_sep (s : list Ascii.ascii) : option Ascii.ascii :=
  match s with
  | [] => None
  | c :: s => if ascii_eqb c dot || ascii_eqb c colon || ascii_eqb c percent then Some c
              else find_sep s
  end.
Definition net_ParseIP (str : string) : option go_ip :=
  let s := String.list_ascii_of_string str in
  match find_sep s with
  | Some c =>
    if ascii_eqb c dot then IPv4addr <$> parseIPv4Fields s
    else if ascii_eqb c colon then IPv6addr <$> parseIPv6 s
    else None
  | None => None
  end.
(** [To4]: an IPv4 address, or an IPv6 address that maps one. *)
Definition To4 (ip : go_ip) : option ipkey :=
  match ip with
  | IPv4addr [a; b; c; d] => Some (IPKey a b c d)
  | IPv4addr _ => None
  | IPv6addr l =>
    if bool_decide (take 12 l = replicate 10 0 ++ [255; 255]) then
      match drop 12 l with [a; b; c; d] => Some (IPKey a b c d) | _ => None end
    else None
  end.

Example parse_1 : net_ParseIP "10.0.0.1" ≫= To4 = Some (IPKey 10 0 0 1).
Proof. reflexivity. Qed.
Example parse_2 : net_ParseIP "::ffff:10.0.0.1" ≫= To4 = Some (IPKey 10 0 0 1).
Proof. reflexivity. Qed.
Example parse_3 : net_ParseIP "010.0.0.1" = None. Proof. reflexivity. Qed.
Example parse_4 : net_ParseIP "1.2.3" = None. Proof. reflexivity. Qed.
Example parse_5 : (net_ParseIP "2001:db8::1", net_ParseIP "2001:db8::1" ≫= To4) =
  (Some (IPv6addr [32; 1; 13; 184; 0; 0; 0; 0; 0; 0; 0; 0; 0; 0; 0; 1]), None).
Proof. reflexivity. Qed.
Example parse_6 : net_ParseIP "fe80::1%eth0" = None. Proof. reflexivity. Qed.

(** ** Printing and parsing addresses *)
Lemma list_ascii_app s t :
  String.list_ascii_of_string (s +:+ t) =
  String.list_ascii_of_string s ++ String.list_ascii_of_string t.
Proof. induction s as [|c s IH]; [done|]. simpl. by f_equal. Qed.

(** A printed octet is read back, whatever follows it. *)
Definition octet_read (v : Z) : Prop :=
  let s := String.list_ascii_of_string (fmt_d v) in
  ∃ c l n, s = c :: l ∧ ∀ rest f,
    parse_v4 (s ++ rest) 0 O f = parse_v4 rest v (S n) f ∧ find_sep (s ++ rest) = find_sep rest.
Lemma octets_read : Forall octet_read (Z.of_nat <$> seq 0 256).
Proof.
  vm_compute seq. repeat (apply Forall_cons; split); try by apply Forall_nil.
  all: unfold octet_read; match goal with |- context [String.list_ascii_of_string ?t] =>
    let s := eval vm_compute in (String.list_ascii_of_string t) in
    replace (String.list_ascii_of_string t) with s by (vm_compute; reflexivity) end.
  all: match goal with
    | |- context [[_; _; _]] => eexists _, _, 2%nat
    | |- context [[_; _]] => eexists _, _, 1%nat
    | _ => eexists _, _, O end.
  all: split; [reflexivity|intros rest f; by split].
Qed.
Lemma octet_read_byte v : is_byte v → octet_read v.
Proof.
  intros Hv. apply (proj1 (Forall_forall _ _) octets_read).
  apply list_elem_of_fmap. exists (Z.to_nat v). unfold is_byte in Hv.
  split; [lia|]. apply elem_of_seq. lia.
Qed.

Lemma ParseIP_String k : ipkey_ok k → net_ParseIP (ipv4_String k) ≫= To4 = Some k.
Proof.
  destruct k as [a b c d]. unfold ipkey_ok, ipv4_String. simpl. intros (Ha & Hb & Hc & Hd).
  destruct (octet_read_byte a Ha) as (a0 & la & na & Ea & Ra),
    (octet_read_byte b Hb) as (b0 & lb & nb & Eb & Rb),
    (octet_read_byte c Hc) as (c0 & lc & nc & Ec & Rc),
    (octet_read_byte d Hd) as (d0 & ld & nd & Ed & Rd).
  unfold net_ParseIP, parseIPv4Fields. rewrite !list_ascii_app. simpl.
  rewrite (proj2 (Ra _ [])). simpl. rewrite (proj1 (Ra _ [])). simpl.
  rewrite Eb at 1. simpl. rewrite (proj1 (Rb _ _)). simpl.
  rewrite Ec at 1. simpl. rewrite (proj1 (Rc _ _)). simpl.
  rewrite Ed at 1. simpl. specialize (Rd [] [c; b; a]). rewrite app_nil_r in Rd.
  by rewrite (proj1 Rd).
Qed.
