(* ===== verification/GoSys.v ===== *)
(** * The operating system as the Go commands see it

    Errors, the pinned maps behind [ebpf.LoadPinnedMap] with the answers the
    library gives on them, the boot clock, the output streams and process exit.  A
    command is a program of the monad [io]: it threads [sys] and may leave with an
    exit code, which skips what follows and the deferred calls ([os.Exit]).

    The eBPF library and the kernel are not code of the repository: what they
    answer is data of the state ([pinned], [fs], [possible_cpu]). *)
From S2P Require Import Prelude Kernel GoBase.

Local Open Scope string_scope.
Local Open Scope list_scope.
Local Open Scope Z_scope.

(** ** Errors *)
Inductive goerr :=
  | ErrKeyNotExist                            (* ebpf.ErrKeyNotExist *)
  | ErrLib (msg : string)                     (* an error of a library or of the kernel *)
  | Errorf (msg : string) (wraps : list goerr). (* fmt.Errorf, with what its %w verbs wrap *)

Definition err_String (e : goerr) : string :=
  match e with ErrKeyNotExist => "key does not exist" | ErrLib m => m | Errorf m _ => m end.
(** [errors.Is(err, ebpf.ErrKeyNotExist)] *)
Fixpoint is_key_not_exist (e : goerr) : bool :=
  match e with
  | ErrKeyNotExist => true
  | ErrLib _ => false
  | Errorf _ ws => existsb is_key_not_exist ws
  end.
(** A call that returns a value and an error. *)
Definition go (A : Type) : Type := (goerr + A)%type.
#[global] Instance go_ret : MRet go := λ A x, inr x.
#[global] Instance go_bind : MBind go :=
  λ A B f m, match m with inl e => inl e | inr x => f x end.

(** ** Values as bytes

    [binary.Read] in the byte order of the machine: the fields in order, blank
    fields skipped, and nothing left over. *)
Definition bytes := list Z.
Fixpoint le_val (b : bytes) : Z :=
  match b with [] => 0 | x :: b => x + 256 * le_val b end.
Fixpoint le_bytes (n : nat) (x : Z) : bytes :=
  match n with O => [] | S n => x mod 256 :: le_bytes n (x / 256) end.

Definition decoder (A : Type) : Type := bytes → option (A * bytes).
#[global] Instance decoder_ret : MRet decoder := λ A a b, Some (a, b).
#[global] Instance decoder_bind : MBind decoder :=
  λ A B f m b, match m b with None => None | Some (a, b) => f a b end.
Definition read_uint (n : nat) : decoder Z :=
  λ b, if (n <=? length b)%nat then Some (le_val (take n b), drop n b) else None.
Definition skip (n : nat) : decoder unit :=
  λ b, if (n <=? length b)%nat then Some (tt, drop n b) else None.
Fixpoint read_array (count n : nat) : decoder (list Z) :=
  match count with
  | O => mret []
  | S count => x ← read_uint n; l ← read_array count n; mret (x :: l)
  end.
Definition decode {A} (d : decoder A) (b : bytes) : option A :=
  match d b with Some (a, []) => Some a | _ => None end.

(** The value structs of the Go files, field by field. *)
Definition d_timestamp : decoder Z := read_uint 8.
Definition d_ratelimit : decoder ratelimit :=
  t ← read_uint 8; l ← read_uint 8; mret (Ratelimit t l).
Definition d_health : decoder ip_health :=
  a ← read_uint 4; skip 4;; w ← read_uint 8; b ← read_uint 8; mret (IpHealth a w b).
Definition d_conn_limit : decoder conn_limit :=
  pt ← read_uint 8; pl ← read_uint 8; bt ← read_uint 8; bl ← read_uint 8;
  mret (ConnLimit pt pl bt bl).
Definition d_drop_history : decoder ip_drop_history :=
  f ← read_uint 8; l ← read_uint 8; c ← read_array 10 8; mret (IpDropHistory f l c).
(** A byte slice of [ValueSize()] elements takes any value. *)
Definition d_raw : decoder bytes := λ b, Some (b, []).

(** ** Pinned maps *)
Record pinned := Pinned {
  entries : list (ipkey * bytes);      (* what iteration yields, in its order *)
  iter_err : option goerr;             (* how iteration ends: [None] at the last entry *)
  lookup_err : ipkey → option goerr;   (* a lookup that fails although the map is open *)
  delete_err : ipkey → option goerr;   (* likewise for a deletion *)
  percpu : nat → go (list Z);          (* the values of a slot of a per-CPU array *)
}.

(** [for iter.Next(&key, &val)]: the entries up to the end or to the first failure,
    and [iter.Err()]. *)
Fixpoint iterate_from {A} (d : decoder A) (l : list (ipkey * bytes)) (last : option goerr)
    : list (ipkey * A) * option goerr :=
  match l with
  | [] => ([], last)
  | (k, b) :: l =>
    match decode d b with
    | None => ([], Some (ErrLib "unmarshal value"))
    | Some v => let '(r, e) := iterate_from d l last in ((k, v) :: r, e)
    end
  end.
Definition iterate {A} (d : decoder A) (m : pinned) : list (ipkey * A) * option goerr :=
  iterate_from d (entries m) (iter_err m).

Fixpoint find_entry (k : ipkey) (l : list (ipkey * bytes)) : option bytes :=
  match l with
  | [] => None
  | (j, b) :: l => if decide (j = k) then Some b else find_entry k l
  end.
(** [m.Lookup(&key, &val)] *)
Definition map_lookup {A} (d : decoder A) (m : pinned) (k : ipkey) : go A :=
  match lookup_err m k with
  | Some e => inl e
  | None =>
    match find_entry k (entries m) with
    | None => inl ErrKeyNotExist
    | Some b => match decode d b with
                | None => inl (ErrLib "unmarshal value")
                | Some v => inr v
                end
    end
  end.
(** [m.Delete(&key)]: the map after it, and its error. *)
Definition map_delete (m : pinned) (k : ipkey) : pinned * option goerr :=
  match delete_err m k with
  | Some e => (m, Some e)
  | None =>
    match find_entry k (entries m) with
    | None => (m, Some ErrKeyNotExist)
    | Some _ =>
      (Pinned (filter (λ p, p.1 ≠ k) (entries m)) (iter_err m) (lookup_err m) (delete_err m)
         (percpu m), None)
    end
  end.

(** ** The state and the monad of a command *)
Inductive stream := Stdout | Stderr.
#[export] Instance stream_eq_dec : EqDecision stream.
Proof. solve_decision. Defined.

Record sys := Sys {
  fs : gmap string pinned;                  (* the maps pinned under a path *)
  fs_err : string → goerr;                  (* why a path that is not in [fs] cannot be opened *)
  stat_err : string → option goerr;         (* os.Stat *)
  clock_gettime : nat → option (Z * Z);     (* the n-th reading of CLOCK_BOOTTIME, if it works *)
  clock_count : nat;
  possible_cpu : go Z;                      (* ebpf.PossibleCPU *)
  trace : list (stream * string);           (* what was written, oldest first *)
  open_maps : list string;                  (* open map handles, newest first *)
}.

Inductive outcome (A : Type) := Done (a : A) | Exit (code : Z).
Arguments Done {A}. Arguments Exit {A}.
#[global] Instance outcome_eq_dec A `{!EqDecision A} : EqDecision (outcome A).
Proof. solve_decision. Defined.

Definition io (A : Type) : Type := sys → outcome A * sys.
#[global] Instance io_ret : MRet io := λ A a s, (Done a, s).
#[global] Instance io_bind : MBind io := λ A B f m s,
  match m s with
  | (Done a, s) => f a s
  | (Exit c, s) => (Exit c, s)
  end.

Definition os_Exit {A} (code : Z) : io A := λ s, (Exit code, s).
Definition gets {A} (f : sys → A) : io A := λ s, (Done (f s), s).

Definition set_trace (t : list (stream * string)) (s : sys) : sys :=
  Sys (fs s) (fs_err s) (stat_err s) (clock_gettime s) (clock_count s) (possible_cpu s) t
    (open_maps s).
Definition set_open (o : list string) (s : sys) : sys :=
  Sys (fs s) (fs_err s) (stat_err s) (clock_gettime s) (clock_count s) (possible_cpu s)
    (trace s) o.
Definition set_fs (f : gmap string pinned) (s : sys) : sys :=
  Sys f (fs_err s) (stat_err s) (clock_gettime s) (clock_count s) (possible_cpu s)
    (trace s) (open_maps s).
Definition set_clock (n : nat) (s : sys) : sys :=
  Sys (fs s) (fs_err s) (stat_err s) (clock_gettime s) n (possible_cpu s)
    (trace s) (open_maps s).

(** [fmt.Print] to a stream; [Println] ends the line. *)
Definition fprint (f : stream) (t : string) : io unit :=
  λ s, (Done tt, set_trace (trace s ++ [(f, t)]) s).
Definition println (t : string) : io unit := fprint Stdout (t +:+ newline).
Definition eprintln (t : string) : io unit := fprint Stderr (t +:+ newline).

(** [bootTimeNS] and [bootNS]. *)
Definition ClockGettime : io (option (Z * Z)) :=
  λ s, (Done (clock_gettime s (clock_count s)), set_clock (S (clock_count s)) s).
Definition bootTimeNS : io Z :=
  t ← ClockGettime;
  mret (match t with
        | None => 0
        | Some (sec, nsec) => u64 (u64 (u64 sec * 1000000000) + u64 nsec)
        end).

(** [filepath.Join(pinPath, name)] of a clean path and a name. *)
Definition path_Join (dir name : string) : string := dir +:+ "/" +:+ name.

(** [ebpf.LoadPinnedMap]: the handle is the path. *)
Definition LoadPinnedMap (path : string) : io (go pinned) := λ s,
  match fs s !! path with
  | None => (Done (inl (fs_err s path)), s)
  | Some m => (Done (inr m), set_open (path :: open_maps s) s)
  end.
Fixpoint remove_first (x : string) (l : list string) : list string :=
  match l with
  | [] => []
  | y :: l => if decide (y = x) then l else y :: remove_first x l
  end.
Definition map_Close (path : string) : io unit :=
  λ s, (Done tt, set_open (remove_first path (open_maps s)) s).
(** [defer]: the call runs when the function returns, and not on [os.Exit]. *)
Definition defer {A} (c : io unit) (m : io A) : io A := a ← m; c;; mret a.

(** [for _, x := range l { ... }] *)
Fixpoint for_each {A} (l : list A) (f : A → io unit) : io unit :=
  match l with
  | [] => mret tt
  | x :: l => f x;; for_each l f
  end.

(** [int64(a) - int64(b)], not below zero: the age of a time stamp. *)
Definition age_ns (now val : Z) : Z :=
  let age := s64 (s64 now - s64 val) in if age <? 0 then 0 else age.
(** Integer division of Go. *)
Definition seconds (ns : Z) : Z := Z.quot ns 1000000000.
