(* ===== verification/Layout.v ===== *)
(** * The map values as bytes: what C writes and what Go reads

    [maps.h] lays the values out as C structs (natural alignment, so [ip_health] has
    four bytes of padding after its counter); the Go files read them through structs
    of their own.  The two agree on every value. *)
From S2P Require Import Prelude Kernel GoBase GoSys.

Local Open Scope list_scope.
Local Open Scope Z_scope.

(** ** The C layouts (bpfel: little endian) *)
Definition c_u64 (x : Z) : bytes := le_bytes 8 x.
#[global] Arguments c_u64 : simpl never.
Definition c_ratelimit (b : ratelimit) : bytes := c_u64 (tokens b) ++ c_u64 (last_refill_ns b).
(** [pad]: the four bytes between [anomalies] and [window_start_ns]. *)
Definition c_health (pad : bytes) (h : ip_health) : bytes :=
  le_bytes 4 (anomalies h) ++ pad ++ c_u64 (window_start_ns h) ++ c_u64 (blacklist_until_ns h).
Definition c_conn_limit (b : conn_limit) : bytes :=
  c_u64 (pkt_tokens b) ++ c_u64 (pkt_last_ns b) ++ c_u64 (byte_tokens b) ++ c_u64 (byte_last_ns b).
Definition c_drop_history (h : ip_drop_history) : bytes :=
  c_u64 (first_drop_ns h) ++ c_u64 (last_drop_ns h) ++ concat (c_u64 <$> counts h).

(** ** Values in range *)
Definition ratelimit_wf (b : ratelimit) : Prop := is_u64 (tokens b) ∧ is_u64 (last_refill_ns b).
Definition health_wf (h : ip_health) : Prop :=
  is_u32 (anomalies h) ∧ is_u64 (window_start_ns h) ∧ is_u64 (blacklist_until_ns h).
Definition conn_limit_wf (b : conn_limit) : Prop :=
  is_u64 (pkt_tokens b) ∧ is_u64 (pkt_last_ns b) ∧ is_u64 (byte_tokens b) ∧ is_u64 (byte_last_ns b).
Definition drop_history_wf (h : ip_drop_history) : Prop :=
  is_u64 (first_drop_ns h) ∧ is_u64 (last_drop_ns h) ∧ Forall is_u64 (counts h) ∧
  length (counts h) = NUM_DROP_REASONS.

(** ** Reading back *)
Lemma length_le_bytes n x : length (le_bytes n x) = n.
Proof. revert x. induction n as [|n IH]; intros x; simpl; by rewrite ?IH. Qed.
Lemma le_val_bytes n x : 0 ≤ x < 256 ^ Z.of_nat n → le_val (le_bytes n x) = x.
Proof.
  revert x. induction n as [|n IH]; intros x Hx.
  - simpl in *. change (256 ^ 0) with 1 in Hx. lia.
  - cbn [le_bytes le_val]. rewrite IH.
    + pose proof (Z.div_mod x 256). lia.
    + rewrite Nat2Z.inj_succ, Z.pow_succ_r in Hx by lia.
      split; [apply Z.div_pos; lia|]. apply Z.div_lt_upper_bound; lia.
Qed.

(** [reads d x b]: [d] reads [x] off the front of [b ++ rest], whatever the rest. *)
Definition reads_back {A} (d : decoder A) (x : A) (b : bytes) : Prop :=
  ∀ rest, d (b ++ rest) = Some (x, rest).

Lemma reads_back_decode {A} (d : decoder A) x b : reads_back d x b → decode d b = Some x.
Proof. intros H. specialize (H []). rewrite app_nil_r in H. unfold decode. by rewrite H. Qed.
Lemma reads_ret {A} (x : A) : reads_back (mret x) x [].
Proof. by intros rest. Qed.
Lemma reads_bind {A B} (d : decoder A) (f : A → decoder B) x y b c :
  reads_back d x b → reads_back (f x) y c → reads_back (d ≫= f) y (b ++ c).
Proof.
  intros Hd Hf rest. unfold mbind, decoder_bind. rewrite <- app_assoc, Hd. apply Hf.
Qed.
(** The last read of a struct. *)
Lemma reads_last {A B} (d : decoder A) (f : A → decoder B) x y b :
  reads_back d x b → reads_back (f x) y [] → reads_back (d ≫= f) y b.
Proof. intros Hd Hf. rewrite <- (app_nil_r b). by apply (reads_bind _ _ x). Qed.
Lemma reads_uint n x : 0 ≤ x < 256 ^ Z.of_nat n → reads_back (read_uint n) x (le_bytes n x).
Proof.
  intros Hx rest. unfold read_uint. rewrite length_app, length_le_bytes.
  rewrite (proj2 (Nat.leb_le _ _)) by lia.
  rewrite take_app_length', drop_app_length' by (by rewrite length_le_bytes).
  by rewrite le_val_bytes.
Qed.
Lemma reads_u64 x : is_u64 x → reads_back (read_uint 8) x (c_u64 x).
Proof. intros. by apply reads_uint. Qed.
Lemma reads_skip pad : reads_back (skip (length pad)) tt pad.
Proof.
  intros rest. unfold skip. rewrite length_app, (proj2 (Nat.leb_le _ _)) by lia.
  by rewrite drop_app_length.
Qed.
Lemma reads_array l : Forall is_u64 l →
  reads_back (read_array (length l) 8) l (concat (c_u64 <$> l)).
Proof.
  induction 1 as [|x l Hx Hl IH]; [apply reads_ret|].
  change (concat (c_u64 <$> x :: l)) with (c_u64 x ++ concat (c_u64 <$> l)).
  cbn [length read_array]. apply (reads_bind _ _ x); [by apply reads_u64|].
  apply (reads_last _ _ l); [done|apply reads_ret].
Qed.
Create HintDb layout.
#[export] Hint Resolve reads_ret reads_u64 : layout.

Lemma decode_timestamp x : is_u64 x → decode d_timestamp (c_u64 x) = Some x.
Proof. intros. by apply reads_back_decode, reads_u64. Qed.
Lemma decode_ratelimit b : ratelimit_wf b → decode d_ratelimit (c_ratelimit b) = Some b.
Proof.
  destruct b as [t l]. intros [Ht Hl]. simpl in *. apply reads_back_decode.
  apply (reads_bind _ _ t); [auto with layout|]. by apply (reads_last _ _ l); auto with layout.
Qed.
Lemma decode_health pad h : length pad = 4%nat → health_wf h →
  decode d_health (c_health pad h) = Some h.
Proof.
  destruct h as [a w b]. intros Hpad (Ha & Hw & Hb). simpl in *. apply reads_back_decode.
  apply (reads_bind _ _ a); [by apply reads_uint|].
  apply (reads_bind _ _ tt); [rewrite <- Hpad; apply reads_skip|].
  apply (reads_bind _ _ w); [auto with layout|]. by apply (reads_last _ _ b); auto with layout.
Qed.
Lemma decode_conn_limit b : conn_limit_wf b → decode d_conn_limit (c_conn_limit b) = Some b.
Proof.
  destruct b as [pt pl bt bl]. intros (?&?&?&?). simpl in *. apply reads_back_decode.
  apply (reads_bind _ _ pt); [auto with layout|]. apply (reads_bind _ _ pl); [auto with layout|].
  apply (reads_bind _ _ bt); [auto with layout|]. by apply (reads_last _ _ bl); auto with layout.
Qed.
Lemma decode_drop_history h : drop_history_wf h →
  decode d_drop_history (c_drop_history h) = Some h.
Proof.
  destruct h as [f l c]. intros (Hf & Hl & Hc & Hlen). simpl in *. apply reads_back_decode.
  apply (reads_bind _ _ f); [auto with layout|]. apply (reads_bind _ _ l); [auto with layout|].
  apply (reads_last _ _ c); [|apply reads_ret].
  change 10%nat with NUM_DROP_REASONS. rewrite <- Hlen. by apply reads_array.
Qed.

(** C25. The Go structs read exactly what the C structs hold: for every map value in
    range, decoding the bytes of its C layout gives the value back, whatever the
    padding holds; and the C layouts have the sizes the Go structs require. *)
Theorem layouts_agree :
  (∀ x, is_u64 x → decode d_timestamp (c_u64 x) = Some x) ∧
  (∀ b, ratelimit_wf b → decode d_ratelimit (c_ratelimit b) = Some b) ∧
  (∀ pad h, length pad = 4%nat → health_wf h → decode d_health (c_health pad h) = Some h) ∧
  (∀ b, conn_limit_wf b → decode d_conn_limit (c_conn_limit b) = Some b) ∧
  (∀ h, drop_history_wf h → decode d_drop_history (c_drop_history h) = Some h) ∧
  (∀ b h c, length (c_ratelimit b) = 16%nat ∧ length (c_health [0; 0; 0; 0] h) = 24%nat ∧
    length (c_conn_limit c) = 32%nat).
Proof.
  split_and!; auto using decode_timestamp, decode_ratelimit, decode_health, decode_conn_limit,
    decode_drop_history.
Qed.
