(* ===== verification/Pins.v ===== *)
(** * The pinned maps show the state of the datapath

    [shows i w m]: iterating over and looking up in the pinned map [m] gives the
    entries of map [i] of the datapath state [w], in the byte layout of the C
    structs.  [pinned_world] says so of every map of the pin directory; the theorems
    about the commands start from it. *)
From S2P Require Import Prelude Kernel World GoBase GoSys Layout.

Local Open Scope string_scope.
Local Open Scope list_scope.
Local Open Scope Z_scope.

(** The names the maps are pinned by (LIBBPF_PIN_BY_NAME). *)
Definition pin_name {V} (i : mapid V) : string :=
  match i with
  | ESTABLISHED => "tcp_established" | SYN_SEEN => "tcp_syn_seen"
  | FIRST_DATA => "tcp_first_data" | WHITELIST => "tcp_whitelist"
  | OPEN_COUNT => "tcp_open_count" | STATUS_RL => "status_ratelimit"
  | LOGIN_RL => "login_ratelimit" | SYN_RL => "syn_ratelimit"
  | CONN_RL => "conn_ratelimit" | HEALTH => "health" | DROP_HISTORY => "ip_drop_history"
  end.

(** The bytes of a value, the decoder the Go code reads it with, and the values in
    range. *)
Definition enc_of {V} (i : mapid V) : V → bytes → Prop :=
  match i in mapid V return V → bytes → Prop with
  | ESTABLISHED | SYN_SEEN | FIRST_DATA | WHITELIST | OPEN_COUNT =>
    λ v b, is_u64 v ∧ b = c_u64 v
  | STATUS_RL | LOGIN_RL | SYN_RL => λ v b, ratelimit_wf v ∧ b = c_ratelimit v
  | CONN_RL => λ v b, conn_limit_wf v ∧ b = c_conn_limit v
  | HEALTH => λ v b, health_wf v ∧ ∃ pad, length pad = 4%nat ∧ b = c_health pad v
  | DROP_HISTORY => λ v b, drop_history_wf v ∧ b = c_drop_history v
  end.
Definition dec_of {V} (i : mapid V) : decoder V :=
  match i in mapid V return decoder V with
  | ESTABLISHED | SYN_SEEN | FIRST_DATA | WHITELIST | OPEN_COUNT => d_timestamp
  | STATUS_RL | LOGIN_RL | SYN_RL => d_ratelimit
  | CONN_RL => d_conn_limit | HEALTH => d_health | DROP_HISTORY => d_drop_history
  end.
Lemma enc_dec {V} (i : mapid V) v b : enc_of i v b → decode (dec_of i) b = Some v.
Proof.
  destruct i; simpl; intros (Hv & Hb); try destruct Hb as (pad & Hpad & Hb); subst;
    auto using decode_timestamp, decode_ratelimit, decode_health, decode_conn_limit,
      decode_drop_history.
Qed.

Section Shows.
Context {M : Type → Type} `{!BpfMap M}.

(** [rows] lists the entries of map [i] of [w], once each. *)
Definition lists {V} (i : mapid V) (w : world M) (rows : list (ipkey * V)) : Prop :=
  NoDup rows.*1 ∧ ∀ k v, (k, v) ∈ rows ↔ bpf_lookup k (get_map i w) = Some v.
Definition shows {V} (i : mapid V) (w : world M) (m : pinned) (rows : list (ipkey * V)) : Prop :=
  lists i w rows ∧ Forall2 (λ e r, e.1 = r.1 ∧ enc_of i r.2 e.2) (entries m) rows ∧
  iter_err m = None ∧ ∀ k, lookup_err m k = None.
Definition shows_stats (w : world M) (m : pinned) : Prop :=
  ∀ i, (i < STAT_MAX)%nat → percpu m i = inr ((λ row, row !!! i) <$> stats w).

(** Every map is pinned in [dir] and shows the state [w]. *)
Definition pinned_world (dir : string) (w : world M) (s : sys) : Prop :=
  (∀ V (i : mapid V), ∃ m rows, fs s !! path_Join dir (pin_name i) = Some m ∧ shows i w m rows) ∧
  ∃ m, fs s !! path_Join dir "stats" = Some m ∧ shows_stats w m.

Lemma iterate_shows {V} (i : mapid V) w m rows : shows i w m rows →
  iterate (dec_of i) m = (rows, None).
Proof.
  intros (_ & Hl & He & _). unfold iterate. rewrite He. clear He.
  induction Hl as [|[k b] [k' v] es rs [Hk Hb] Hl IH]; [done|]. simpl in *. subst k'.
  by rewrite (enc_dec i v b Hb), IH.
Qed.
Lemma find_shows {V} (i : mapid V) es rows k :
  Forall2 (λ e r, e.1 = r.1 ∧ enc_of i r.2 e.2) es rows → NoDup rows.*1 →
  match find_entry k es with
  | Some b => ∃ v, (k, v) ∈ rows ∧ decode (dec_of i) b = Some v
  | None => ∀ v, (k, v) ∉ rows
  end.
Proof.
  induction 1 as [|[j b] [j' v] es rs [Hk Hb] Hl IH]; intros Hnd.
  { intros v. apply not_elem_of_nil. }
  simpl in *. subst j'. apply NoDup_cons in Hnd as [Hj Hnd]. case_decide as Heq; subst.
  - exists v. split; [constructor|by apply enc_dec].
  - specialize (IH Hnd). destruct (find_entry k es).
    + destruct IH as (u & Hu & Hd). exists u. split; [by constructor|done].
    + intros u [[= <- <-]|Hu]%elem_of_cons; [done|]. by apply (IH u).
Qed.
(** A lookup in the pinned map is the lookup of the datapath. *)
Lemma lookup_shows {V} (i : mapid V) w m rows k : shows i w m rows →
  map_lookup (dec_of i) m k =
    match bpf_lookup k (get_map i w) with Some v => inr v | None => inl ErrKeyNotExist end.
Proof.
  intros ((Hnd & Hin) & Hl & _ & He). unfold map_lookup. rewrite He.
  pose proof (find_shows i (entries m) rows k Hl Hnd) as Hf.
  destruct (find_entry k (entries m)) as [b|].
  - destruct Hf as (v & Hv & ->). by rewrite (proj1 (Hin k v) Hv).
  - destruct (bpf_lookup k (get_map i w)) as [v|] eqn:E; [|done].
    exfalso. by apply (Hf v), Hin.
Qed.
End Shows.

(** ** A concrete pin directory *)
Definition no_errors (es : list (ipkey * bytes)) : pinned :=
  Pinned es None (λ _, None) (λ _, None) (λ _, inl (ErrLib "not a per-CPU map")).
Definition c_bytes {V} (i : mapid V) : V → bytes :=
  match i in mapid V return V → bytes with
  | ESTABLISHED | SYN_SEEN | FIRST_DATA | WHITELIST | OPEN_COUNT => c_u64
  | STATUS_RL | LOGIN_RL | SYN_RL => c_ratelimit
  | CONN_RL => c_conn_limit | HEALTH => c_health [0; 0; 0; 0] | DROP_HISTORY => c_drop_history
  end.
Definition pin_map {V} (i : mapid V) (w : world (gmap ipkey)) : pinned :=
  no_errors (prod_map id (c_bytes i) <$> map_to_list (get_map i w)).
Definition pin_stats (w : world (gmap ipkey)) : pinned :=
  Pinned [] None (λ _, None) (λ _, None) (λ i, inr ((λ row, row !!! i) <$> stats w)).
Definition pin_names (w : world (gmap ipkey)) : list (string * pinned) := [
    ("tcp_established", pin_map ESTABLISHED w);
    ("tcp_syn_seen", pin_map SYN_SEEN w);
    ("tcp_first_data", pin_map FIRST_DATA w);
    ("tcp_whitelist", pin_map WHITELIST w);
    ("tcp_open_count", pin_map OPEN_COUNT w);
    ("status_ratelimit", pin_map STATUS_RL w);
    ("login_ratelimit", pin_map LOGIN_RL w);
    ("syn_ratelimit", pin_map SYN_RL w);
    ("conn_ratelimit", pin_map CONN_RL w);
    ("health", pin_map HEALTH w);
    ("ip_drop_history", pin_map DROP_HISTORY w);
    ("stats", pin_stats w)].
Definition pin_dir (dir : string) (w : world (gmap ipkey)) : gmap string pinned :=
  list_to_map (prod_map (path_Join dir) id <$> pin_names w).

#[export] Instance string_app_inj s : Inj (=) (=) (String.append s).
Proof. induction s as [|c s IH]; intros a b; [done|]. by intros [= ?%IH]. Qed.
#[export] Instance path_Join_inj dir : Inj (=) (=) (path_Join dir).
Proof. intros a b. unfold path_Join. by intros ?%(inj _)%(inj _). Qed.
Lemma pin_dir_lookup dir w name :
  pin_dir dir w !! path_Join dir name = (list_to_map (pin_names w) : gmap string pinned) !! name.
Proof.
  unfold pin_dir. induction (pin_names w) as [|[n m] l IH]; [done|].
  cbn [fmap list_fmap prod_map list_to_map foldr uncurry fst snd id].
  destruct (decide (n = name)) as [->|Hne]; [by rewrite !lookup_insert_eq|].
  rewrite !lookup_insert_ne; [apply IH|done|]. by intros ?%(inj _).
Qed.
Definition example_sys (dir : string) (w : world (gmap ipkey)) : sys :=
  Sys (pin_dir dir w) (λ _, ErrLib "no such file") (λ _, None) (λ _, Some (1000, 0)) 0
    (inr 1) [] [].

Definition values_ok {V} (i : mapid V) (w : world (gmap ipkey)) : Prop :=
  map_Forall (λ _ v, enc_of i v (c_bytes i v)) (get_map i w).
Lemma pin_map_shows {V} (i : mapid V) w : values_ok i w →
  shows i w (pin_map i w) (map_to_list (get_map i w)).
Proof.
  intros Hv. split_and!; [| |done|done].
  - split; [apply NoDup_fst_map_to_list|]. intros k v. apply elem_of_map_to_list.
  - simpl. apply Forall2_fmap_l. apply Forall_Forall2_diag, Forall_forall.
    intros [k v] Hkv%elem_of_map_to_list. split; [done|]. by apply (Hv k).
Qed.
Lemma example_pinned dir w : (∀ V (i : mapid V), values_ok i w) →
  pinned_world dir w (example_sys dir w).
Proof.
  intros Hv. split.
  - intros V i. exists (pin_map i w), (map_to_list (get_map i w)).
    split; [|apply pin_map_shows, Hv]. unfold example_sys. cbn [fs].
    rewrite pin_dir_lookup. by destruct i.
  - exists (pin_stats w). split; [|by intros i _].
    unfold example_sys. cbn [fs]. by rewrite pin_dir_lookup.
Qed.
