(* ===== verification/Labels.v ===== *)
(** * Names and numbers shared by the C and the Go sides

    The drop reasons and the counters have their numbers in [maps.h] and [stats.h],
    their names in [api.go] and [stats.go], and their numbers once more in
    [collector.go]; the maps have pin names in C and command-line names in Go. *)
From S2P Require Import Prelude Kernel World GoBase.

Local Open Scope string_scope.
Local Open Scope list_scope.
Local Open Scope Z_scope.

Definition dropReasonNames : list string := [
  "tcp_no_syn"; "tcp_too_many_open"; "tcp_global_ratelimit"; "status_ratelimit";
  "login_ratelimit"; "malformed_handshake"; "unhealthy"; "tcp_bad_flags";
  "conn_ratelimit"; "tcp_conn_rate"].

Definition statLabels : list string := [
  "pass_tcp"; "tcp_established_inserts"; "tcp_l7_promoted"; "tcp_l7_match_no_est";
  "tcp_handshake_status_seen"; "tcp_handshake_login_seen"; "drop_tcp_no_syn";
  "drop_tcp_too_many_open"; "drop_tcp_global_ratelimit"; "drop_status_ratelimit";
  "drop_login_ratelimit"; "drop_malformed_handshake"; "drop_tcp_unhealthy";
  "drop_tcp_bad_flags"; "drop_conn_ratelimit"; "drop_tcp_conn_rate"].

(** The constants of collector.go. *)
Definition StatPassTCP : nat := 0.
Definition StatTCPEstablishedInserts : nat := 1.
Definition StatTCPL7Promoted : nat := 2.
Definition StatTCPL7MatchNoEst : nat := 3.
Definition StatTCPHandshakeStatusSeen : nat := 4.
Definition StatTCPHandshakeLoginSeen : nat := 5.
Definition StatDropTCPNoSyn : nat := 6.
Definition StatDropTCPTooManyOpen : nat := 7.
Definition StatDropTCPGlobalRatelimit : nat := 8.
Definition StatDropStatusRatelimit : nat := 9.
Definition StatDropLoginRatelimit : nat := 10.
Definition StatDropMalformedHandshake : nat := 11.
Definition StatDropTCPUnhealthy : nat := 12.
Definition StatDropTCPBadFlags : nat := 13.
Definition StatDropConnRatelimit : nat := 14.
Definition StatDropTCPConnRate : nat := 15.
Definition StatMax : nat := 16.

(** The reasons of a drop history with their counts: the loops over [val.Counts]. *)
Definition reason_name (i : nat) : string := default "" (dropReasonNames !! i).
Definition nonzero_reasons (counts : list Z) : list (string * Z) :=
  omap (λ '(i, c), if c =? 0 then None else Some (reason_name i, c)) (imap pair counts).
(** [total += c] over the counters that are not zero. *)
Definition drop_total (counts : list Z) : Z :=
  foldl (λ t c, if c =? 0 then t else u64 (t + c)) 0 counts.
Definition reason_parts (counts : list Z) : list string :=
  (λ '(n, c), n +:+ "=" +:+ fmt_d c) <$> nonzero_reasons counts.

Lemma drop_total_sum counts : Forall is_u64 counts → drop_total counts = u64 (sumZ counts).
Proof.
  intros H. unfold drop_total.
  assert (Hgen : ∀ a, is_u64 a → foldl (λ t c, if c =? 0 then t else u64 (t + c)) a counts =
    u64 (a + sumZ counts)).
  { induction H as [|c l Hc Hl IH]; intros a Ha.
    - unfold sumZ. simpl. rewrite Z.add_0_r. symmetry. by apply u64_id.
    - cbn [foldl]. change (sumZ (c :: l)) with (c + sumZ l).
      destruct (Z.eqb_spec c 0) as [-> |]; rewrite IH.
      + f_equal; lia.
      + done.
      + unfold u64, wrapZ. rewrite Zplus_mod_idemp_l. f_equal; lia.
      + apply u64_range. }
  by rewrite Hgen by (words; lia).
Qed.

(** The name of a reason without its number. *)
Definition name_of_reason (r : drop_reason) : string :=
  match r with
  | DROP_REASON_TCP_NO_SYN => "tcp_no_syn"
  | DROP_REASON_TCP_TOO_MANY_OPEN => "tcp_too_many_open"
  | DROP_REASON_TCP_GLOBAL_RATELIMIT => "tcp_global_ratelimit"
  | DROP_REASON_STATUS_RATELIMIT => "status_ratelimit"
  | DROP_REASON_LOGIN_RATELIMIT => "login_ratelimit"
  | DROP_REASON_MALFORMED_HANDSHAKE => "malformed_handshake"
  | DROP_REASON_UNHEALTHY => "unhealthy"
  | DROP_REASON_TCP_BAD_FLAGS => "tcp_bad_flags"
  | DROP_REASON_CONN_RATELIMIT => "conn_ratelimit"
  | DROP_REASON_TCP_CONN_RATE => "tcp_conn_rate"
  end.
