(* ===== verification/GoLogic.v ===== *)
(** * Reasoning about commands

    [Clean m]: the command leaves every pinned map as it was and, when it returns, has
    closed every map it opened.  [Closes p m]: it does so with the map [p] open at its
    start, which it closes ([defer]).  The [clean] tactic walks a command. *)
From S2P Require Import Prelude Kernel GoBase GoSys.

Definition clean_rel {A} (s : sys) (r : outcome A * sys) (o : list string) : Prop :=
  fs r.2 = fs s ∧ ∀ a, r.1 = Done a → open_maps r.2 = o.
Definition Clean {A} (m : io A) : Prop := ∀ s, clean_rel s (m s) (open_maps s).
Definition Closes (p : string) {A} (m : io A) : Prop :=
  ∀ s, clean_rel s (m s) (remove_first p (open_maps s)).

Lemma bind_done {A B} (m : io A) (f : A → io B) s a s' :
  m s = (Done a, s') → (m ≫= f) s = f a s'.
Proof. intros H. unfold mbind, io_bind. by rewrite H. Qed.

Lemma clean_ret {A} (a : A) : Clean (mret a).
Proof. by intros s. Qed.
Lemma clean_exit {A} c : Clean (os_Exit c : io A).
Proof. by intros s. Qed.
Lemma clean_gets {A} (f : sys → A) : Clean (gets f).
Proof. by intros s. Qed.
Lemma clean_bind {A B} (m : io A) (f : A → io B) :
  Clean m → (∀ a, Clean (f a)) → Clean (m ≫= f).
Proof.
  intros Hm Hf s. unfold Clean, clean_rel, mbind, io_bind in *.
  destruct (Hm s) as [Hfs Ho]. destruct (m s) as [[a|c] s1]; simpl in *; [|done].
  destruct (Hf a s1) as [Hfs' Ho']. split; [congruence|].
  intros b Hb. rewrite (Ho' b Hb). by eapply Ho.
Qed.
Lemma clean_print f t : Clean (fprint f t).
Proof. by intros s. Qed.
Lemma clean_println t : Clean (println t).
Proof. by intros s. Qed.
Lemma clean_eprintln t : Clean (eprintln t).
Proof. by intros s. Qed.
Lemma clean_bootTimeNS : Clean bootTimeNS.
Proof. by intros s. Qed.
Lemma clean_for_each {A} (l : list A) f : (∀ x, Clean (f x)) → Clean (for_each l f).
Proof.
  intros Hf. induction l as [|x l IH]; [apply clean_ret|].
  apply clean_bind; [apply Hf|intros []; apply IH].
Qed.
Lemma closes_defer p {A} (m : io A) : Clean m → Closes p (defer (map_Close p) m).
Proof.
  intros Hm s. unfold defer, mbind, io_bind, clean_rel. destruct (Hm s) as [Hfs Ho].
  destruct (m s) as [[a|c] s1]; simpl in *; [|done]. split; [done|].
  intros ? [= <-]. by rewrite (Ho a).
Qed.
Lemma remove_first_head p l : remove_first p (p :: l) = l.
Proof. simpl. by rewrite decide_True. Qed.
Lemma clean_LoadPinnedMap p {A} (f : go pinned → io A) :
  (∀ e, Clean (f (inl e))) → (∀ m, Closes p (f (inr m))) →
  Clean (LoadPinnedMap p ≫= f).
Proof.
  intros He Hm s. unfold mbind, io_bind, LoadPinnedMap.
  destruct (fs s !! p) as [m|] eqn:Hp; [|apply He].
  destruct (Hm m (set_open (p :: open_maps s) s)) as [Hfs Ho]. split; [done|].
  intros a Ha. rewrite (Ho a Ha). apply remove_first_head.
Qed.

Create HintDb clean.
#[export] Hint Resolve clean_ret clean_exit clean_gets clean_print clean_println clean_eprintln
  clean_bootTimeNS : clean.

Ltac clean :=
  repeat match goal with
  | |- Clean _ => solve [auto with clean]
  | |- Clean (LoadPinnedMap _ ≫= _) => apply clean_LoadPinnedMap; [intros ?|intros ?]; cbn beta iota
  | |- Closes _ (defer (map_Close _) _) => apply closes_defer
  | |- Clean (_ ≫= _) => apply clean_bind; [|intros ?]
  | |- Clean (for_each _ _) => apply clean_for_each; intros ?
  | |- Clean (let '(_, _) := ?x in _) => destruct x
  | |- Clean (if ?b then _ else _) => destruct b
  | |- Clean (match ?x with _ => _ end) => destruct x
  end.

(** ** What a command prints *)

(** [m] returns, and only appends [l] to the trace. *)
Definition Prints (m : io unit) (l : list (stream * string)) : Prop :=
  ∀ s, m s = (Done tt, set_trace (trace s ++ l) s).

Lemma set_trace_twice a b s : set_trace a (set_trace b s) = set_trace a s.
Proof. done. Qed.
Lemma prints_nothing : Prints (mret tt) [].
Proof. intros s. rewrite app_nil_r. by destruct s. Qed.
Lemma prints_fprint f t : Prints (fprint f t) [(f, t)].
Proof. done. Qed.
Lemma prints_bind m (f : unit → io unit) l l' :
  Prints m l → Prints (f tt) l' → Prints (m ≫= f) (l ++ l').
Proof.
  intros Hm Hf s. unfold mbind, io_bind. rewrite Hm, Hf. by rewrite set_trace_twice, app_assoc.
Qed.
Lemma prints_for_each {A} (l : list A) f g :
  (∀ x, Prints (f x) (g x)) → Prints (for_each l f) (l ≫= g).
Proof.
  intros Hf. induction l as [|x l IH]; [apply prints_nothing|].
  change (x :: l ≫= g) with (g x ++ (l ≫= g)). by apply prints_bind.
Qed.
Lemma prints_if (b : bool) m l : Prints m l → Prints (if b then mret tt else m) (if b then [] else l).
Proof. intros. destruct b; [apply prints_nothing|done]. Qed.

(** The boot clock as the next reading shows it. *)
Definition boot_reading (s : sys) : Z :=
  match clock_gettime s (clock_count s) with
  | None => 0
  | Some (sec, nsec) => u64 (u64 (u64 sec * 1000000000) + u64 nsec)
  end.
Lemma bootTimeNS_run s : bootTimeNS s = (Done (boot_reading s), set_clock (S (clock_count s)) s).
Proof. done. Qed.

(** A function that opens a map, works on it and closes it on the way out. *)
Lemma load_defer_run {A} (p : string) (h : goerr → io A) (body : pinned → io A) s m a s' :
  fs s !! p = Some m → body m (set_open (p :: open_maps s) s) = (Done a, s') →
  (r ← LoadPinnedMap p; match r with inl e => h e | inr m => defer (map_Close p) (body m) end) s =
    (Done a, set_open (remove_first p (open_maps s')) s').
Proof.
  intros Hp Hb. unfold mbind at 1, io_bind at 1, LoadPinnedMap. rewrite Hp.
  unfold defer. by rewrite (bind_done _ _ _ _ _ Hb).
Qed.
