(* ===== verification/Json.v ===== *)
(** * encoding/json, as far as the commands and the API use it

    Values and their text under [SetIndent("", "  ")].  Objects made from Go maps are
    printed with sorted keys ([json_map]); objects made from structs in field order. *)
From S2P Require Import Prelude GoBase.
From Stdlib Require Import Ascii.

Local Open Scope string_scope.
Local Open Scope list_scope.
Local Open Scope Z_scope.

Inductive json :=
  | JNull | JBool (b : bool) | JNum (z : Z) | JStr (s : string)
  | JArr (l : list json) | JObj (l : list (string * json)).

Definition quote : string := String (ascii_of_nat 34) "".
Definition backslash : string := String (ascii_of_nat 92) "".

(** A character inside a string literal, [EscapeHTML] off. *)
Definition hex_digit (n : nat) : string :=
  String (ascii_of_nat (if (n <? 10)%nat then 48 + n else 87 + n)) "".
Definition json_char (c : ascii) : string :=
  let n := nat_of_ascii c in
  if (n =? 34)%nat then backslash +:+ quote
  else if (n =? 92)%nat then backslash +:+ backslash
  else if (n =? 8)%nat then backslash +:+ "b"
  else if (n =? 12)%nat then backslash +:+ "f"
  else if (n =? 10)%nat then backslash +:+ "n"
  else if (n =? 13)%nat then backslash +:+ "r"
  else if (n =? 9)%nat then backslash +:+ "t"
  else if (n <? 32)%nat then backslash +:+ "u00" +:+ hex_digit (n / 16) +:+ hex_digit (n mod 16)
  else String c "".
Fixpoint json_chars (s : string) : string :=
  match s with "" => "" | String c s => json_char c +:+ json_chars s end.
Definition json_string (s : string) : string := quote +:+ json_chars s +:+ quote.

Definition indent : string := "  ".
Fixpoint json_text (ind : string) (j : json) : string :=
  let inner := ind +:+ indent in
  match j with
  | JNull => "null"
  | JBool b => if b then "true" else "false"
  | JNum z => fmt_d z
  | JStr s => json_string s
  | JArr l =>
    match l with
    | [] => "[]"
    | _ => "[" +:+ newline +:+
           strings_Join ((λ j, inner +:+ json_text inner j) <$> l) ("," +:+ newline)
           +:+ newline +:+ ind +:+ "]"
    end
  | JObj l =>
    match l with
    | [] => "{}"
    | _ => "{" +:+ newline +:+
           strings_Join ((λ '(k, j), inner +:+ json_string k +:+ ": " +:+ json_text inner j) <$> l)
             ("," +:+ newline)
           +:+ newline +:+ ind +:+ "}"
    end
  end.
(** [enc.Encode(v)] ends with a newline. *)
Definition Encode (j : json) : string := json_text "" j +:+ newline.

(** A Go map as an object: its keys in sorted order. *)
Definition key_le (x y : string * json) : Prop := String.leb x.1 y.1 = true.
#[export] Instance key_le_dec : RelDecision key_le.
Proof. intros x y. unfold key_le. apply _. Defined.
Definition json_map (l : list (string * json)) : json := JObj (merge_sort key_le l).

Example json_text_1 :
  Encode (json_map [("b", JNum 2); ("a", JArr [JBool true; JNull])]) =
  "{" +:+ newline +:+ "  " +:+ quote +:+ "a" +:+ quote +:+ ": [" +:+ newline +:+
  "    true," +:+ newline +:+ "    null" +:+ newline +:+ "  ]," +:+ newline +:+
  "  " +:+ quote +:+ "b" +:+ quote +:+ ": 2" +:+ newline +:+ "}" +:+ newline.
Proof. vm_compute. reflexivity. Qed.
