(* ===== verification/Dump.v ===== *)
(** * minecraft-ebpf dump ([cmd/minecraft-ebpf/dump.go])

    One definition per function; [cmdDump] takes the values of its flags. *)
From S2P Require Import Prelude Kernel GoBase GoSys GoLogic Labels.

Local Open Scope string_scope.
Local Open Scope list_scope.
Local Open Scope Z_scope.

(** [fmt.Printf] with a final newline. *)
Definition printf_line (cols : list string) : io unit :=
  fprint Stdout (strings_Join cols " " +:+ newline).

Lemma prints_line cols : Prints (printf_line cols) [(Stdout, strings_Join cols " " +:+ newline)].
Proof. apply prints_fprint. Qed.

(** The statements the dumps share: the failed open, and [iter.Err()] at the end. *)
Definition report_open (name : string) (err : goerr) : io unit :=
  eprintln ("open " +:+ name +:+ ": " +:+ err_String err).
Definition report_iter (err : option goerr) : io unit :=
  match err with Some e => eprintln ("iter: " +:+ err_String e) | None => mret tt end.

Definition dumpTimestampMap (pinPath name : string) : io unit :=
  m ← LoadPinnedMap (path_Join pinPath name);
  match m with
  | inl err => report_open name err
  | inr m => defer (map_Close (path_Join pinPath name)) (
      now ← bootTimeNS;
      printf_line [padr 16 "IP"; padr 12 "AGE"];;
      let '(rows, err) := iterate d_timestamp m in
      for_each rows (λ '(key, val),
        printf_line [padr 16 (ipv4_String key);
                     padr 12 (dur_String (dur_Truncate (age_ns now val) Second))]);;
      report_iter err)
  end.

Definition dumpCountMap (pinPath : string) : io unit :=
  m ← LoadPinnedMap (path_Join pinPath "tcp_open_count");
  match m with
  | inl err => report_open "tcp_open_count" err
  | inr m => defer (map_Close (path_Join pinPath "tcp_open_count")) (
      printf_line [padr 16 "IP"; padr 10 "OPEN"];;
      let '(rows, err) := iterate d_timestamp m in
      for_each rows (λ '(key, val),
        printf_line [padr 16 (ipv4_String key); padr 10 (fmt_d val)]);;
      report_iter err)
  end.

Definition dumpRatelimitMap (pinPath name : string) : io unit :=
  m ← LoadPinnedMap (path_Join pinPath name);
  match m with
  | inl err => report_open name err
  | inr m => defer (map_Close (path_Join pinPath name)) (
      now ← bootTimeNS;
      printf_line [padr 16 "IP"; padr 10 "TOKENS"; padr 12 "LAST_REFILL"];;
      let '(rows, err) := iterate d_ratelimit m in
      for_each rows (λ '(key, val),
        printf_line [padr 16 (ipv4_String key); padr 10 (fmt_d (tokens val));
          padr 12 (dur_String (dur_Truncate (age_ns now (last_refill_ns val)) Millisecond))]);;
      report_iter err)
  end.

(** The BLACKLIST column: [time.Duration(int64(until) - int64(now))]. *)
Definition blacklist_remaining (now until : Z) : string :=
  dur_String (dur_Truncate (s64 (s64 until - s64 now)) Second).
Definition blacklist_column (now : Z) (val : ip_health) : string :=
  if now <? blacklist_until_ns val
  then "in " +:+ blacklist_remaining now (blacklist_until_ns val) else "-".

Definition dumpHealthMap (pinPath : string) : io unit :=
  m ← LoadPinnedMap (path_Join pinPath "health");
  match m with
  | inl err => report_open "health" err
  | inr m => defer (map_Close (path_Join pinPath "health")) (
      now ← bootTimeNS;
      printf_line [padr 16 "IP"; padr 10 "ANOMALIES"; padr 12 "WINDOW_AGE"; padr 12 "BLACKLIST"];;
      let '(rows, err) := iterate d_health m in
      for_each rows (λ '(key, val),
        printf_line [padr 16 (ipv4_String key); padr 10 (fmt_d (anomalies val));
          padr 12 (dur_String (dur_Truncate (age_ns now (window_start_ns val)) Second));
          padr 12 (blacklist_column now val)]);;
      report_iter err)
  end.

Definition dumpDropHistoryMap (pinPath : string) : io unit :=
  m ← LoadPinnedMap (path_Join pinPath "ip_drop_history");
  match m with
  | inl err => report_open "ip_drop_history" err
  | inr m => defer (map_Close (path_Join pinPath "ip_drop_history")) (
      now ← bootTimeNS;
      printf_line [padr 16 "IP"; padr 12 "FIRST_AGE"; padr 12 "LAST_AGE"; padr 10 "TOTAL"; "BY_REASON"];;
      let '(rows, err) := iterate d_drop_history m in
      for_each rows (λ '(key, val),
        printf_line [padr 16 (ipv4_String key);
          padr 12 (dur_String (dur_Truncate (age_ns now (first_drop_ns val)) Second));
          padr 12 (dur_String (dur_Truncate (age_ns now (last_drop_ns val)) Second));
          padr 10 (fmt_d (drop_total (counts val)));
          strings_Join (reason_parts (counts val)) ","]);;
      report_iter err)
  end.

Definition cmdDump (pinPath which : string) : io unit :=
  if decide (which = "whitelist") then dumpTimestampMap pinPath "tcp_whitelist"
  else if decide (which = "established") then dumpTimestampMap pinPath "tcp_established"
  else if decide (which = "syn-seen") then dumpTimestampMap pinPath "tcp_syn_seen"
  else if decide (which = "open-count") then dumpCountMap pinPath
  else if decide (which = "status-ratelimit") then dumpRatelimitMap pinPath "status_ratelimit"
  else if decide (which = "login-ratelimit") then dumpRatelimitMap pinPath "login_ratelimit"
  else if decide (which = "health") then dumpHealthMap pinPath
  else if decide (which = "drop-history") then dumpDropHistoryMap pinPath
  else if decide (which = "all") then
    println "== tcp_established ==";; dumpTimestampMap pinPath "tcp_established";;
    println (newline +:+ "== tcp_syn_seen ==");; dumpTimestampMap pinPath "tcp_syn_seen";;
    println (newline +:+ "== tcp_open_count ==");; dumpCountMap pinPath;;
    println (newline +:+ "== tcp_whitelist ==");; dumpTimestampMap pinPath "tcp_whitelist";;
    println (newline +:+ "== status_ratelimit ==");; dumpRatelimitMap pinPath "status_ratelimit";;
    println (newline +:+ "== login_ratelimit ==");; dumpRatelimitMap pinPath "login_ratelimit";;
    println (newline +:+ "== health ==");; dumpHealthMap pinPath;;
    println (newline +:+ "== ip_drop_history ==");; dumpDropHistoryMap pinPath
  else eprintln ("unknown map: " +:+ which);; os_Exit 2.

Section Clean.
Context (pinPath : string).
Lemma clean_printf cols : Clean (printf_line cols).
Proof. unfold printf_line. clean. Qed.
Lemma clean_report_open name e : Clean (report_open name e).
Proof. unfold report_open. clean. Qed.
Lemma clean_report_iter e : Clean (report_iter e).
Proof. unfold report_iter. clean. Qed.
#[local] Hint Resolve clean_printf clean_report_open clean_report_iter : clean.
Lemma dumpTimestampMap_clean name : Clean (dumpTimestampMap pinPath name).
Proof. unfold dumpTimestampMap. clean. Qed.
Lemma dumpCountMap_clean : Clean (dumpCountMap pinPath).
Proof. unfold dumpCountMap. clean. Qed.
Lemma dumpRatelimitMap_clean name : Clean (dumpRatelimitMap pinPath name).
Proof. unfold dumpRatelimitMap. clean. Qed.
Lemma dumpHealthMap_clean : Clean (dumpHealthMap pinPath).
Proof. unfold dumpHealthMap. clean. Qed.
Lemma dumpDropHistoryMap_clean : Clean (dumpDropHistoryMap pinPath).
Proof. unfold dumpDropHistoryMap. clean. Qed.
#[local] Hint Resolve dumpTimestampMap_clean dumpCountMap_clean dumpRatelimitMap_clean
  dumpHealthMap_clean dumpDropHistoryMap_clean : clean.
Lemma cmdDump_clean which : Clean (cmdDump pinPath which).
Proof. unfold cmdDump. clean. Qed.
End Clean.
#[export] Hint Resolve clean_printf cmdDump_clean : clean.
