(* ===== verification/Shown.v ===== *)
(** * What the entries of the maps say

    The numbers and texts that the commands show for an entry, written down from the
    datapath's structs and enums and in unbounded integers: what [inspect] and [top]
    print is compared with these. *)
From S2P Require Import Prelude Kernel World GoBase GoSys Layout Pins Labels Dump.

Local Open Scope string_scope.
Local Open Scope list_scope.
Local Open Scope Z_scope.

(** The reasons of a drop, in the order of the enum, and their counts that are not zero. *)
Definition all_drop_reasons : list drop_reason := [
  DROP_REASON_TCP_NO_SYN; DROP_REASON_TCP_TOO_MANY_OPEN; DROP_REASON_TCP_GLOBAL_RATELIMIT;
  DROP_REASON_STATUS_RATELIMIT; DROP_REASON_LOGIN_RATELIMIT; DROP_REASON_MALFORMED_HANDSHAKE;
  DROP_REASON_UNHEALTHY; DROP_REASON_TCP_BAD_FLAGS; DROP_REASON_CONN_RATELIMIT;
  DROP_REASON_TCP_CONN_RATE].
Definition drops_by_reason (h : ip_drop_history) : list (string * Z) :=
  filter (λ p, p.2 ≠ 0)
    ((λ r, (name_of_reason r, counts h !!! drop_reason_idx r)) <$> all_drop_reasons).
Definition reason_texts (h : ip_drop_history) : list string :=
  (λ p, p.1 +:+ "=" +:+ fmt_d p.2) <$> drops_by_reason h.

(** How long ago, in whole seconds: zero for a time still to come. *)
Definition age_secs (now t : Z) : Z := Z.max 0 (now - t) / Second.
Definition aged (now t : Z) : string := dur_String (age_secs now t * Second).

(** The numbers of an entry that are shown, and that they fit a signed 64-bit integer. *)
Definition fits (x : Z) : Prop := 0 ≤ x < 2 ^ 63.
Definition numbers {V} (i : mapid V) : V → list Z :=
  match i in mapid V return V → list Z with
  | ESTABLISHED | SYN_SEEN | FIRST_DATA | WHITELIST | OPEN_COUNT => λ v, [v]
  | STATUS_RL | LOGIN_RL | SYN_RL => λ b, [tokens b; last_refill_ns b]
  | CONN_RL => λ b, [pkt_tokens b; pkt_last_ns b; byte_tokens b]
  | HEALTH => λ h, [window_start_ns h; blacklist_until_ns h]
  | DROP_HISTORY => λ h, [first_drop_ns h; last_drop_ns h; sumZ (counts h)]
  end.
Definition entry_fits {V} (i : mapid V) (v : V) : Prop := Forall fits (numbers i v).
#[export] Instance entry_fits_dec {V} (i : mapid V) v : Decision (entry_fits i v).
Proof. unfold entry_fits, fits. apply _. Defined.

Ltac numbers_fit H :=
  unfold entry_fits in H; cbn in H; repeat apply Forall_cons in H as [? H].

Lemma string_app_assoc (a b c : string) : (a +:+ b) +:+ c = a +:+ (b +:+ c).
Proof. induction a as [|x a IH]; [done|]. exact (f_equal (String x) IH). Qed.
Lemma string_app_empty (a : string) : a +:+ "" = a.
Proof. induction a as [|x a IH]; [done|]. exact (f_equal (String x) IH). Qed.

(** ** The Go arithmetic agrees *)
Lemma age_ns_fits now t : fits now → fits t → age_ns now t = Z.max 0 (now - t).
Proof.
  unfold fits. intros Hn Ht. unfold age_ns.
  rewrite (s64_id now), (s64_id t), s64_id by (unfold is_s64; lia). case_match; lia.
Qed.
Lemma seconds_age now t : fits now → fits t → seconds (age_ns now t) = age_secs now t.
Proof.
  intros Hn Ht. rewrite age_ns_fits by done. unfold seconds, age_secs, Second.
  apply Z.quot_div_nonneg; lia.
Qed.
Lemma truncate_secs d : fits d → dur_Truncate d Second = d / Second * Second.
Proof.
  unfold fits, dur_Truncate, Second. intros Hd. cbn [Z.leb]. rewrite Z.rem_mod_nonneg by lia.
  pose proof (Z.div_mod d 1000000000). pose proof (Z.mod_pos_bound d 1000000000).
  rewrite s64_id by (unfold is_s64; lia). change (1000000000 <=? 0) with false. cbv iota. lia.
Qed.
Lemma truncate_age now t : fits now → fits t →
  dur_String (dur_Truncate (age_ns now t) Second) = aged now t.
Proof.
  intros Hn Ht. unfold aged, age_secs. rewrite age_ns_fits by done. f_equal.
  apply truncate_secs. unfold fits in *. lia.
Qed.
Lemma remaining_aged now t : fits now → fits t → now < t → blacklist_remaining now t = aged t now.
Proof.
  intros Hn Ht Hlt. unfold blacklist_remaining, aged, age_secs.
  assert (s64 (s64 t - s64 now) = Z.max 0 (t - now)) as ->.
  { unfold fits in *. rewrite (s64_id now), (s64_id t), s64_id by (unfold is_s64; lia). lia. }
  f_equal. apply truncate_secs. unfold fits in *. lia.
Qed.
Lemma drop_total_fits h : drop_history_wf h → fits (sumZ (counts h)) →
  drop_total (counts h) = sumZ (counts h).
Proof.
  intros (_ & _ & Hc & _) Hf. rewrite drop_total_sum by done. apply u64_id.
  unfold fits, is_u64 in *. lia.
Qed.
Lemma sumZ_member l x : Forall is_u64 l → x ∈ l → x ≤ sumZ l.
Proof.
  intros Hl Hx. apply list_elem_of_split in Hx as (l1 & l2 & ->).
  rewrite sumZ_app. apply Forall_app in Hl as [H1 H2]. apply Forall_cons in H2 as [_ H2].
  assert (0 ≤ sumZ l1 ∧ 0 ≤ sumZ l2).
  { split; apply sumZ_nonneg; eapply Forall_impl; try done; intros y; unfold is_u64; lia. }
  change (sumZ (x :: l2)) with (x + sumZ l2). lia.
Qed.

(** The loops over [val.Counts] find the reasons of the datapath. *)
Lemma nonzero_filter (l : list (nat * Z)) :
  omap (λ '(i, c), if c =? 0 then None else Some (reason_name i, c)) l =
  filter (λ p : string * Z, p.2 ≠ 0) (prod_map reason_name id <$> l).
Proof.
  induction l as [|[i c] l IH]; [done|]. cbn [omap list_omap fmap list_fmap].
  rewrite filter_cons. cbn [prod_map fst snd]. unfold id.
  destruct (Z.eqb_spec c 0) as [->|Hc].
  - rewrite decide_False by (intros Hn; by apply Hn). done.
  - rewrite decide_True by done. by rewrite IH.
Qed.
Lemma nonzero_reasons_shown h : drop_history_wf h → nonzero_reasons (counts h) = drops_by_reason h.
Proof.
  intros (_ & _ & _ & Hlen). unfold nonzero_reasons, drops_by_reason. rewrite nonzero_filter. f_equal.
  destruct (counts h) as [|c0 [|c1 [|c2 [|c3 [|c4 [|c5 [|c6 [|c7 [|c8 [|c9 [|]]]]]]]]]]]; done.
Qed.
Lemma reason_parts_shown h : drop_history_wf h → reason_parts (counts h) = reason_texts h.
Proof.
  intros Hh. unfold reason_parts, reason_texts. rewrite nonzero_reasons_shown by done.
  apply list_fmap_ext. intros n p _. by destruct p.
Qed.
(** An entry of a shown map is encoded, so in range. *)
Lemma shown_in_range {M} `{!BpfMap M} {V} (i : mapid V) (w : world M) m rows k v : shows i w m rows →
  bpf_lookup k (get_map i w) = Some v → ∃ b, enc_of i v b.
Proof.
  intros ((_ & Hin) & Hl & _) Hv. apply Hin in Hv.
  apply list_elem_of_lookup in Hv as (n & Hn).
  destruct (Forall2_lookup_r _ _ _ _ _ Hl Hn) as ([k' b] & _ & _ & Hb). by exists b.
Qed.
