(* ===== verification/Report.v ===== *)
(** * minecraft-ebpf stats, info and health ([stats.go], [info.go], [health.go])

    [for lbl, v := range byLabel] walks a Go map, whose order the language leaves
    open: it is the parameter [range_map] of [cmdInfo].  The [--watch] loops never
    return; [rounds] says how many of their rounds are looked at. *)
From S2P Require Import Prelude Kernel World Health XdpAccounting GoBase GoSys Layout Pins GoLogic Labels Json Dump.

Local Open Scope string_scope.
Local Open Scope list_scope.
Local Open Scope Z_scope.

(** ** stats.go *)
Definition sum_u64 (l : list Z) : Z := foldl (λ s v, u64 (s + v)) 0 l.

(** The loop of readStatsMap from label [i] on. *)
Fixpoint read_slots (m : pinned) (labels : list string) (i : nat) : go (list Z) :=
  match labels with
  | [] => inr []
  | _ :: labels =>
    match percpu m i with
    | inl err => inl (Errorf ("slot " +:+ fmt_d (Z.of_nat i) +:+ ": " +:+ err_String err) [err])
    | inr perCPU =>
      match read_slots m labels (S i) with
      | inl err => inl err
      | inr out => inr (sum_u64 perCPU :: out)
      end
    end
  end.
Definition readStatsMap (m : pinned) : go (list Z) := read_slots m statLabels 0.

Definition by_label (vals : list Z) : list (string * Z) := zip statLabels vals.

Definition stats_dump (pinPath : string) (asJSON : bool) : io (option goerr) :=
  m ← LoadPinnedMap (path_Join pinPath "stats");
  match m with
  | inl err => mret (Some err)
  | inr m => defer (map_Close (path_Join pinPath "stats")) (
      match readStatsMap m with
      | inl err => mret (Some err)
      | inr vals =>
        if asJSON then
          fprint Stdout (Encode (json_map ((λ '(l, v), (l, JNum v)) <$> by_label vals)));; mret None
        else
          for_each (by_label vals) (λ '(lbl, v), printf_line [padr 32 lbl; fmt_d v]);; mret None
      end)
  end.

Definition clear_screen : string :=
  String (Ascii.ascii_of_nat 27) "[H" +:+ String (Ascii.ascii_of_nat 27) "[2J".
(** The separator of the watch headings: an em dash in UTF-8. *)
Definition em_dash : string := String (Ascii.ascii_of_nat 226)
  (String (Ascii.ascii_of_nat 128) (String (Ascii.ascii_of_nat 148) "")).

(** One round of a watch loop: [heading] has the time of day, which is an argument. *)
Fixpoint watch_loop (rounds : nat) (watch : Z) (title : string) (time_text : nat → string)
    (dump : io unit) : io unit :=
  match rounds with
  | O => mret tt
  | S rounds =>
    fprint Stdout clear_screen;;
    println ("# minecraft-ebpf " +:+ title +:+ " " +:+ em_dash +:+ " " +:+ time_text rounds
             +:+ " (refresh " +:+ dur_String watch +:+ ")");;
    dump;;
    watch_loop rounds watch title time_text dump
  end.

Definition cmdStats (pinPath : string) (asJSON : bool) (watch : Z) (rounds : nat)
    (time_text : nat → string) : io unit :=
  if watch =? 0 then
    err ← stats_dump pinPath asJSON;
    match err with
    | Some err => eprintln ("stats: " +:+ err_String err);; os_Exit 1
    | None => mret tt
    end
  else
    watch_loop rounds watch "stats" time_text (
      err ← stats_dump pinPath asJSON;
      match err with Some err => eprintln ("stats: " +:+ err_String err) | None => mret tt end).

(** ** info.go *)
Definition perIPMaps : list string := [
  "tcp_whitelist"; "tcp_established"; "tcp_syn_seen"; "tcp_open_count";
  "status_ratelimit"; "login_ratelimit"; "health"; "ip_drop_history"].

Definition mapEntryCount (pinPath name : string) : io Z :=
  m ← LoadPinnedMap (path_Join pinPath name);
  match m with
  | inl _ => mret (-1)
  | inr m => defer (map_Close (path_Join pinPath name))
      (mret (Z.of_nat (length (iterate d_raw m).1)))
  end.

Definition count_blacklisted (now : Z) (rows : list (ipkey * ip_health)) : Z :=
  Z.of_nat (length (filter (λ r : ipkey * ip_health, now < blacklist_until_ns r.2) rows)).
Definition blacklistedNow (pinPath : string) : io Z :=
  m ← LoadPinnedMap (path_Join pinPath "health");
  match m with
  | inl _ => mret (-1)
  | inr m => defer (map_Close (path_Join pinPath "health")) (
      now ← bootTimeNS;
      mret (count_blacklisted now (iterate d_health m).1))
  end.

(** The two totals of the "tcp:" line. *)
Definition pass_total (byLabel : list (string * Z)) : Z :=
  default 0 (snd <$> find (λ p : string * Z, bool_decide (p.1 = "pass_tcp")) byLabel).
Definition drop_sum (byLabel : list (string * Z)) : Z :=
  foldl (λ t p, if has_prefix "drop_" p.1 then u64 (t + p.2) else t) 0 byLabel.

Section Info.
Context (version : string) (range_map : list (string * Z) → list (string * Z)).

(** [defer stats.Close()] of the counters stays open to the end of the command. *)
Definition info_counters (stats : go pinned) : io unit :=
  match stats with
  | inr stats =>
    match readStatsMap stats with
    | inr vals =>
      let byLabel := by_label vals in
      println ("  tcp: " +:+ fmt_d (pass_total byLabel) +:+ " pass / " +:+
               fmt_d (drop_sum (range_map byLabel)) +:+ " drop")
    | inl _ => mret tt
    end
  | inl _ => mret tt
  end.

Definition cmdInfo (pinPath : string) : io unit :=
  println ("minecraft-ebpf " +:+ version);;
  println ("  pin path: " +:+ pinPath);;
  st ← gets (λ s, stat_err s pinPath);
  match st with
  | Some _ =>
    eprintln ("  (no pinned maps " +:+ em_dash +:+ " daemon not running?)");; os_Exit 1
  | None =>
    stats ← LoadPinnedMap (path_Join pinPath "stats");
    (match stats with inr _ => defer (map_Close (path_Join pinPath "stats")) | inl _ => id end) (
      info_counters stats;;
      println "  map populations:";;
      for_each perIPMaps (λ name,
        n ← mapEntryCount pinPath name;
        if n <? 0 then println ("    " +:+ padr 22 name +:+ " (closed)")
        else println ("    " +:+ padr 22 name +:+ " " +:+ fmt_d n));;
      bl ← blacklistedNow pinPath;
      if 0 <=? bl then println ("    " +:+ padr 22 "health (blacklisted)" +:+ " " +:+ fmt_d bl)
      else mret tt)
  end.
End Info.

(** ** health.go *)
Definition health_row (now : Z) (r : ipkey * ip_health) : list string :=
  [padr 16 (ipv4_String r.1); padr 10 (fmt_d (anomalies r.2));
   padr 12 (dur_String (dur_Truncate (age_ns now (window_start_ns r.2)) Second));
   blacklist_column now r.2].
Definition cmdHealth (pinPath : string) (all : bool) : io unit :=
  m ← LoadPinnedMap (path_Join pinPath "health");
  match m with
  | inl err => eprintln ("open health: " +:+ err_String err);; os_Exit 1
  | inr m => defer (map_Close (path_Join pinPath "health")) (
      now ← bootTimeNS;
      printf_line [padr 16 "IP"; padr 10 "ANOMALIES"; padr 12 "WINDOW_AGE"; "BLACKLIST"];;
      for_each (iterate d_health m).1 (λ r,
        if negb all && negb (now <? blacklist_until_ns r.2) then mret tt
        else printf_line (health_row now r)))
  end.

(** ** The counters, read back *)
Definition label_of_stat (s : minecraft_stat) : string :=
  match s with
  | STAT_PASS_TCP => "pass_tcp"
  | STAT_TCP_ESTABLISHED_INSERTS => "tcp_established_inserts"
  | STAT_TCP_L7_PROMOTED => "tcp_l7_promoted"
  | STAT_TCP_L7_MATCH_NO_EST => "tcp_l7_match_no_est"
  | STAT_TCP_HANDSHAKE_STATUS_SEEN => "tcp_handshake_status_seen"
  | STAT_TCP_HANDSHAKE_LOGIN_SEEN => "tcp_handshake_login_seen"
  | STAT_DROP_TCP_NO_SYN => "drop_tcp_no_syn"
  | STAT_DROP_TCP_TOO_MANY_OPEN => "drop_tcp_too_many_open"
  | STAT_DROP_TCP_GLOBAL_RATELIMIT => "drop_tcp_global_ratelimit"
  | STAT_DROP_STATUS_RATELIMIT => "drop_status_ratelimit"
  | STAT_DROP_LOGIN_RATELIMIT => "drop_login_ratelimit"
  | STAT_DROP_MALFORMED_HANDSHAKE => "drop_malformed_handshake"
  | STAT_DROP_TCP_UNHEALTHY => "drop_tcp_unhealthy"
  | STAT_DROP_TCP_BAD_FLAGS => "drop_tcp_bad_flags"
  | STAT_DROP_CONN_RATELIMIT => "drop_conn_ratelimit"
  | STAT_DROP_TCP_CONN_RATE => "drop_tcp_conn_rate"
  end.
Definition all_stats : list minecraft_stat := [
  STAT_PASS_TCP; STAT_TCP_ESTABLISHED_INSERTS; STAT_TCP_L7_PROMOTED; STAT_TCP_L7_MATCH_NO_EST;
  STAT_TCP_HANDSHAKE_STATUS_SEEN; STAT_TCP_HANDSHAKE_LOGIN_SEEN; STAT_DROP_TCP_NO_SYN;
  STAT_DROP_TCP_TOO_MANY_OPEN; STAT_DROP_TCP_GLOBAL_RATELIMIT; STAT_DROP_STATUS_RATELIMIT;
  STAT_DROP_LOGIN_RATELIMIT; STAT_DROP_MALFORMED_HANDSHAKE; STAT_DROP_TCP_UNHEALTHY;
  STAT_DROP_TCP_BAD_FLAGS; STAT_DROP_CONN_RATELIMIT; STAT_DROP_TCP_CONN_RATE].

Section Counters.
Context {M : Type → Type} `{!BpfMap M}.
Implicit Types (w : world M).

(** The total of a counter over the CPUs. *)
Definition stat_total (s : minecraft_stat) w : Z :=
  sumZ ((λ row, row !!! stat_slot s) <$> stats w).

Lemma sum_u64_sumZ l : sum_u64 l = u64 (sumZ l).
Proof.
  unfold sum_u64. assert (H : ∀ a, u64 a = a →
    foldl (λ s v, u64 (s + v)) a l = u64 (a + sumZ l)); [|by rewrite H].
  induction l as [|x l IH]; intros a Ha.
  - simpl. change (sumZ []) with 0. by rewrite Z.add_0_r.
  - cbn [foldl]. change (sumZ (x :: l)) with (x + sumZ l). rewrite IH.
    + unfold u64, wrapZ. rewrite Zplus_mod_idemp_l. f_equal. lia.
    + by rewrite u64_id by apply u64_range.
Qed.

Lemma readStatsMap_shows w m : shows_stats w m →
  readStatsMap m = inr ((λ s, u64 (stat_total s w)) <$> all_stats).
Proof.
  intros Hm. unfold readStatsMap, statLabels. cbn [read_slots].
  rewrite !Hm by (vm_compute; lia). cbn beta iota. by rewrite !sum_u64_sumZ.
Qed.

Lemma by_label_stats (f : minecraft_stat → Z) :
  by_label (f <$> all_stats) = (λ s, (label_of_stat s, f s)) <$> all_stats.
Proof. done. Qed.

(** Only the counters with a drop label count. *)
Definition drop_values (l : list (string * Z)) : list Z :=
  snd <$> filter (λ p : string * Z, has_prefix "drop_" p.1 = true) l.
Lemma drop_sum_values l : drop_sum l = u64 (sumZ (drop_values l)).
Proof.
  unfold drop_sum. assert (H : ∀ a, u64 a = a → foldl (λ t (p : string * Z),
    if has_prefix "drop_" p.1 then u64 (t + p.2) else t) a l = u64 (a + sumZ (drop_values l)));
    [|by rewrite H].
  induction l as [|x l IH]; intros a Ha.
  - simpl. change (sumZ (drop_values [])) with 0. by rewrite Z.add_0_r.
  - cbn [foldl]. unfold drop_values. rewrite filter_cons.
    destruct (has_prefix "drop_" x.1) eqn:E.
    + rewrite decide_True by done. rewrite IH by (by rewrite u64_id by apply u64_range).
      change (sumZ (snd <$> x :: ?l)) with (x.2 + sumZ (snd <$> l)).
      fold (drop_values l). unfold u64, wrapZ. rewrite Zplus_mod_idemp_l. f_equal.
      change (sumZ (x.2 :: drop_values l)) with (x.2 + sumZ (drop_values l)). lia.
    + rewrite decide_False by done. by apply IH.
Qed.
Lemma drop_sum_perm l l' : l ≡ₚ l' → drop_sum l = drop_sum l'.
Proof.
  intros Hp. rewrite !drop_sum_values. f_equal. apply sumZ_perm.
  unfold drop_values. by rewrite Hp.
Qed.
Lemma drop_label s : has_prefix "drop_" (label_of_stat s) = is_drop_stat s.
Proof. by destruct s. Qed.
Lemma drop_values_stats (f : minecraft_stat → Z) l :
  drop_values ((λ s, (label_of_stat s, f s)) <$> l) =
  f <$> filter (λ s, is_drop_stat s = true) l.
Proof.
  unfold drop_values. induction l as [|s l IH]; [done|]. cbn [fmap list_fmap].
  rewrite !filter_cons. cbn [fst]. rewrite drop_label.
  case_decide; cbn [fmap list_fmap]; [f_equal|]; apply IH.
Qed.

Lemma u64_sum_u64 l : u64 (sumZ (u64 <$> l)) = u64 (sumZ l).
Proof.
  induction l as [|x l IH]; [done|].
  change (u64 (u64 x + sumZ (u64 <$> l)) = u64 (x + sumZ l)).
  unfold u64, wrapZ in *. by rewrite Zplus_mod, IH, Zmod_mod, <- Zplus_mod.
Qed.

(** [info] totals the right counters: when the pinned counters show the state
    of the datapath, the line it prints has the packets passed and the sum of the ten
    drop counters, each over all CPUs, modulo 2^64, in whatever order Go walks the
    map of labels. *)
Theorem info_totals range_map w m :
  (∀ l, range_map l ≡ₚ l) → shows_stats w m →
  Prints (info_counters range_map (inr m))
    [(Stdout, ("  tcp: " +:+ fmt_d (u64 (stat_total STAT_PASS_TCP w)) +:+ " pass / " +:+
      fmt_d (u64 (sumZ ((λ s, stat_total s w) <$> filter (λ s, is_drop_stat s = true) all_stats)))
      +:+ " drop") +:+ newline)].
Proof.
  intros Hr Hm. unfold info_counters. rewrite (readStatsMap_shows w) by done.
  rewrite by_label_stats, (drop_sum_perm _ _ (Hr _)), drop_sum_values, drop_values_stats.
  rewrite <- (u64_sum_u64 ((λ s, stat_total s w) <$> _)), <- list_fmap_compose.
  apply prints_fprint.
Qed.
End Counters.

(** ** The blacklist, read back *)
Section Blacklist.
Context {M : Type → Type} `{!BpfMap M, !BpfMapLaws M}.
Implicit Types (w : world M) (e : kenv).

(** The datapath drops the source as unhealthy. *)
Definition blocked e w (k : ipkey) : Prop := (health_is_blacklisted k e w).1 = true.

Lemma blocked_row e w rows now r :
  lists HEALTH w rows → boot_ns e (clock_reads w) = now → r ∈ rows →
  blocked e w r.1 ↔ now < blacklist_until_ns r.2.
Proof.
  intros [_ Hl] Hnow Hr. destruct r as [k h]. unfold blocked.
  rewrite health_is_blacklisted_run. unfold health_entry. cbn [fst snd].
  rewrite (proj1 (Hl k h) Hr). simpl. rewrite Hnow. apply Z.ltb_lt.
Qed.

Lemma print_health_rows now all rows :
  Prints (for_each rows (λ r, if negb all && negb (now <? blacklist_until_ns r.2) then mret tt
                              else printf_line (health_row now r)))
    (rows ≫= λ r, if negb all && negb (now <? blacklist_until_ns r.2) then []
                  else [(Stdout, strings_Join (health_row now r) " " +:+ newline)]).
Proof. apply prints_for_each. intros r. apply prints_if, prints_fprint. Qed.

Lemma listed_rows now all rows (f : ipkey * ip_health → stream * string) :
  (rows ≫= λ r, if negb all && negb (now <? blacklist_until_ns r.2) then [] else [f r]) =
  f <$> filter (λ r : ipkey * ip_health, all = true ∨ now < blacklist_until_ns r.2) rows.
Proof.
  induction rows as [|r rows IH]; [done|]. rewrite bind_cons, IH, filter_cons. clear IH.
  case_decide as Hd; destruct all; simpl; try done.
  - destruct Hd as [?|Hd]; [done|]. by rewrite (proj2 (Z.ltb_lt _ _) Hd).
  - destruct Hd. by left.
  - destruct (Z.ltb_spec now (blacklist_until_ns r.2)); [|done]. destruct Hd. by right.
Qed.

(** [health] lists the blacklist: on the pinned state of the datapath it prints,
    after the heading, one line for each source that the datapath would drop as
    unhealthy at the time the command read the clock, and for no other. *)
Theorem health_lists_blacklist dir w e s m rows :
  fs s !! path_Join dir "health" = Some m → shows HEALTH w m rows →
  boot_ns e (clock_reads w) = boot_reading s →
  ∃ listed s', cmdHealth dir false s = (Done tt, s') ∧
    (∀ r, r ∈ listed ↔ r ∈ rows ∧ blocked e w r.1) ∧
    trace s' = trace s ++
      (Stdout, strings_Join [padr 16 "IP"; padr 10 "ANOMALIES"; padr 12 "WINDOW_AGE"; "BLACKLIST"]
                 " " +:+ newline) ::
      ((λ r, (Stdout, strings_Join (health_row (boot_reading s) r) " " +:+ newline)) <$> listed).
Proof.
  intros Hm Hs Hnow.
  exists (filter (λ r : ipkey * ip_health, boot_reading s < blacklist_until_ns r.2) rows).
  eexists. split_and!.
  - unfold cmdHealth. eapply load_defer_run; [done|].
    rewrite (bind_done _ _ _ _ _ (bootTimeNS_run _)).
    rewrite (bind_done _ _ _ _ _ (prints_line _ _)).
    pose proof (iterate_shows HEALTH w m rows Hs) as Hi. cbn [dec_of] in Hi. rewrite Hi.
    apply print_health_rows.
  - intros r. rewrite list_elem_of_filter.
    assert (Hb : r ∈ rows → blocked e w r.1 ↔ boot_reading s < blacklist_until_ns r.2)
      by (intros; by apply (blocked_row e w rows); [apply Hs| |]).
    split; intros [H1 H2]; [split; [done|]|split; [|done]]; by apply Hb.
  - simpl. rewrite <- app_assoc. f_equal. simpl. f_equal.
    etrans; [apply (listed_rows (boot_reading s) false)|]. f_equal.
    apply list_filter_iff. intros r. split; [by intros [?|?]|by right].
Qed.
End Blacklist.
