(* ===== verification/Clear.v ===== *)
(** * minecraft-ebpf clear ([clear.go])

    The only command that changes the pinned maps. *)
From S2P Require Import Prelude Kernel World GoBase GoSys Layout Pins GoLogic.

Local Open Scope string_scope.
Local Open Scope list_scope.
Local Open Scope Z_scope.

(** [%q] of an ASCII string. *)
Definition q_char (c : Ascii.ascii) : string :=
  let n := Ascii.nat_of_ascii c in
  let bs := String (Ascii.ascii_of_nat 92) "" in
  let hex (d : nat) := String (Ascii.ascii_of_nat (if (d <? 10)%nat then 48 + d else 87 + d)) "" in
  if (n =? 34)%nat || (n =? 92)%nat then bs +:+ String c ""
  else if (n =? 7)%nat then bs +:+ "a" else if (n =? 8)%nat then bs +:+ "b"
  else if (n =? 12)%nat then bs +:+ "f" else if (n =? 10)%nat then bs +:+ "n"
  else if (n =? 13)%nat then bs +:+ "r" else if (n =? 9)%nat then bs +:+ "t"
  else if (n =? 11)%nat then bs +:+ "v"
  else if (n <? 32)%nat || (n =? 127)%nat then bs +:+ "x" +:+ hex (n / 16)%nat +:+ hex (n mod 16)%nat
  else String c "".
Fixpoint q_chars (s : string) : string :=
  match s with "" => "" | String c s => q_char c +:+ q_chars s end.
Definition fmt_q (s : string) : string :=
  let q := String (Ascii.ascii_of_nat 34) "" in q +:+ q_chars s +:+ q.

Definition parseIPv4Key (s : string) : go ipkey :=
  match net_ParseIP s with
  | None => inl (Errorf ("invalid IP: " +:+ fmt_q s) [])
  | Some parsed =>
    match To4 parsed with
    | None => inl (Errorf ("not an IPv4 address: " +:+ fmt_q s) [])
    | Some v4 => inr v4
    end
  end.

(** The map behind an open handle, changed in place. *)
Definition set_pinned (path : string) (m : pinned) : io unit :=
  λ s, (Done tt, set_fs (<[path := m]> (fs s)) s).

Definition clearMapKey (path : string) (key : ipkey) : io (go Z) :=
  m ← LoadPinnedMap path;
  match m with
  | inl err => mret (inl err)
  | inr m => defer (map_Close path) (
      let '(m', err) := map_delete m key in
      set_pinned path m';;
      match err with
      | Some err => if is_key_not_exist err then mret (inr 0) else mret (inl err)
      | None => mret (inr 1)
      end)
  end.

Definition collectKeys (m : pinned) : list ipkey * option goerr :=
  let '(rows, err) := iterate d_raw m in (rows.*1, err).
(** [for _, k := range keys { _ = m.Delete(&k) }] *)
Definition delete_keys (m : pinned) (keys : list ipkey) : pinned :=
  foldl (λ m k, (map_delete m k).1) m keys.

Definition clearMap (path : string) : io (go Z) :=
  m ← LoadPinnedMap path;
  match m with
  | inl err => mret (inl err)
  | inr m => defer (map_Close path) (
      match collectKeys m with
      | (_, Some err) => mret (inl err)
      | (keys, None) =>
        set_pinned path (delete_keys m keys);;
        mret (inr (Z.of_nat (length keys)))
      end)
  end.

Definition clear_targets (which : string) : option (list string) :=
  if decide (which = "whitelist") then Some ["tcp_whitelist"]
  else if decide (which = "established") then Some ["tcp_established"]
  else if decide (which = "syn-seen") then Some ["tcp_syn_seen"]
  else if decide (which = "open-count") then Some ["tcp_open_count"]
  else if decide (which = "status-ratelimit") then Some ["status_ratelimit"]
  else if decide (which = "login-ratelimit") then Some ["login_ratelimit"]
  else if decide (which = "syn-ratelimit") then Some ["syn_ratelimit"]
  else if decide (which = "conn-ratelimit") then Some ["conn_ratelimit"]
  else if decide (which = "health") then Some ["health"]
  else if decide (which = "drop-history") then Some ["ip_drop_history"]
  else if decide (which = "all") then
    Some ["tcp_whitelist"; "tcp_established"; "tcp_syn_seen"; "tcp_open_count";
          "status_ratelimit"; "login_ratelimit"; "syn_ratelimit"; "conn_ratelimit"; "health";
          "ip_drop_history"]
  else None.

Definition clear_one (pinPath ip : string) (key : ipkey) (name : string) : io unit :=
  r ← clearMapKey (path_Join pinPath name) key;
  match r with
  | inl err => eprintln (name +:+ ": " +:+ err_String err)
  | inr n => if n =? 1 then println (name +:+ ": removed " +:+ ip)
             else println (name +:+ ": " +:+ ip +:+ " not present")
  end.
Definition clear_all (pinPath name : string) : io unit :=
  r ← clearMap (path_Join pinPath name);
  match r with
  | inl err => eprintln (name +:+ ": " +:+ err_String err)
  | inr n => println (name +:+ ": cleared " +:+ fmt_d n +:+ " entries")
  end.
Definition cmdClear (pinPath which ipFlag : string) : io unit :=
  match clear_targets which with
  | None => eprintln ("unknown map: " +:+ which);; os_Exit 2
  | Some targets =>
    if negb (bool_decide (ipFlag = "")) then
      match parseIPv4Key ipFlag with
      | inl err => eprintln (err_String err);; os_Exit 2
      | inr key => for_each targets (clear_one pinPath ipFlag key)
      end
    else for_each targets (clear_all pinPath)
  end.

(** What the tools print as an address is accepted where they take one: parsing
    the printed form of any IPv4 key gives the key back. *)
Theorem parseIPv4Key_String k : ipkey_ok k → parseIPv4Key (ipv4_String k) = inr k.
Proof.
  intros Hk. pose proof (ParseIP_String k Hk) as H. unfold parseIPv4Key.
  destruct (net_ParseIP (ipv4_String k)) as [ip|]; [|done]. simpl in H. by rewrite H.
Qed.
Lemma parseIPv4Key_String_witness :
  ipkey_ok (IPKey 203 0 113 7) ∧ parseIPv4Key (ipv4_String (IPKey 203 0 113 7)) = inr (IPKey 203 0 113 7).
Proof.
  assert (H : ipkey_ok (IPKey 203 0 113 7)) by (unfold ipkey_ok, is_byte; simpl; lia).
  split; [exact H|exact (parseIPv4Key_String _ H)].
Defined.

(** ** The effect on the maps *)
Section Effects.
Implicit Types (m : pinned) (s : sys).

(** No deletion fails, the iteration ends well, and keys are not repeated. *)
Definition healthy_map (m : pinned) : Prop :=
  (∀ k, delete_err m k = None) ∧ iter_err m = None ∧ NoDup (entries m).*1.
Definition set_entries (m : pinned) (es : list (ipkey * bytes)) : pinned :=
  Pinned es (iter_err m) (lookup_err m) (delete_err m) (percpu m).

Lemma find_entry_None k es : find_entry k es = None ↔ k ∉ es.*1.
Proof.
  induction es as [|[j b] es IH]; simpl; [split; [intros _; apply not_elem_of_nil|done]|].
  rewrite not_elem_of_cons, <- IH. case_decide; [|by intuition]. split; [done|by intros []].
Qed.
Lemma filter_absent k es : k ∉ es.*1 → filter (λ p : ipkey * bytes, p.1 ≠ k) es = es.
Proof.
  induction es as [|[j b] es IH]; [done|]. cbn [fmap list_fmap fst].
  rewrite not_elem_of_cons, filter_cons. intros [Hne Hk]. cbn [fst].
  by rewrite decide_True, IH by done.
Qed.
Lemma map_delete_spec m k : delete_err m k = None →
  (map_delete m k).1 = set_entries m (filter (λ p, p.1 ≠ k) (entries m)) ∧
  (map_delete m k).2 = if decide (k ∈ (entries m).*1) then None else Some ErrKeyNotExist.
Proof.
  intros He. unfold map_delete. rewrite He.
  destruct (find_entry k (entries m)) eqn:Hf.
  - split; [done|]. rewrite decide_True; [done|].
    destruct (decide (k ∈ (entries m).*1)) as [|Hk]; [done|].
    apply find_entry_None in Hk. congruence.
  - apply find_entry_None in Hf. rewrite decide_False, filter_absent by done. by destruct m.
Qed.
Lemma delete_keys_all es m : (∀ k, delete_err m k = None) → NoDup es.*1 → entries m = es →
  delete_keys m es.*1 = set_entries m [].
Proof.
  unfold delete_keys. revert m. induction es as [|[k b] es IH]; intros m He Hnd Hm.
  { destruct m. simpl in *. by subst. }
  cbn [fmap list_fmap foldl fst]. apply NoDup_cons in Hnd as [Hk Hnd].
  destruct (map_delete_spec m k (He k)) as [-> _]. rewrite IH; [done|done|done|].
  unfold set_entries. cbn [entries]. rewrite Hm, filter_cons. cbn [fst].
  rewrite decide_False by naive_solver. by apply filter_absent.
Qed.
Lemma iterate_raw m : iterate d_raw m = (entries m, iter_err m).
Proof.
  unfold iterate. generalize (iter_err m). intros o.
  induction (entries m) as [|[k b] es IH]; simpl; [done|]. by rewrite IH.
Qed.

Definition add_line (l : stream * string) (f : gmap string pinned) (s : sys) : sys :=
  set_trace (trace s ++ [l]) (set_fs f s).

Lemma clear_all_run dir name m s :
  fs s !! path_Join dir name = Some m → healthy_map m →
  clear_all dir name s = (Done tt, add_line
    (Stdout, (name +:+ ": cleared " +:+ fmt_d (Z.of_nat (length (entries m))) +:+ " entries")
             +:+ newline)
    (<[path_Join dir name := set_entries m []]> (fs s)) s).
Proof.
  intros Hm (Hd & Hi & Hnd). unfold clear_all.
  rewrite (bind_done _ _ _ (inr (Z.of_nat (length (entries m))))
    (set_fs (<[path_Join dir name := set_entries m []]> (fs s)) s)); [done|].
  unfold clearMap. erewrite load_defer_run; [|done|].
  2: { unfold collectKeys. rewrite iterate_raw, Hi. rewrite (delete_keys_all (entries m)) by done.
       rewrite length_fmap. unfold mbind, io_bind, set_pinned. reflexivity. }
  f_equal. unfold set_open. simpl. rewrite decide_True by done. by destruct s.
Qed.

(** C39. [clear --map M] empties the maps it names: when the pinned maps answer without
    errors, every target has no entries left and keeps everything else, every other
    pinned map is untouched, no handle stays open, and each line counts the entries
    the map had. *)
Theorem clear_empties dir which targets (ms : list pinned) s :
  clear_targets which = Some targets → NoDup targets →
  Forall2 (λ name m, fs s !! path_Join dir name = Some m ∧ healthy_map m) targets ms →
  let s' := (cmdClear dir which "" s).2 in
  (cmdClear dir which "" s).1 = Done tt ∧
  Forall2 (λ name m, fs s' !! path_Join dir name = Some (set_entries m [])) targets ms ∧
  (∀ path, path ∉ path_Join dir <$> targets → fs s' !! path = fs s !! path) ∧
  open_maps s' = open_maps s ∧
  trace s' = trace s ++ zip_with (λ name m, (Stdout, (name +:+ ": cleared " +:+
    fmt_d (Z.of_nat (length (entries m))) +:+ " entries") +:+ newline)) targets ms.
Proof.
  intros Ht Hnd Hms. unfold cmdClear. rewrite Ht. cbn [bool_decide negb]. clear Ht.
  rewrite bool_decide_eq_true_2 by done. cbn [negb].
  revert ms s Hms. induction Hnd as [|name targets Hname Hnd IH]; intros ms s Hms.
  { apply Forall2_nil_inv_l in Hms as ->. simpl. rewrite app_nil_r. by split_and!. }
  apply Forall2_cons_inv_l in Hms as (m & ms' & [Hm Hh] & Hms & ->).
  cbn [for_each]. rewrite (bind_done _ _ _ _ _ (clear_all_run dir name m s Hm Hh)).
  set (s1 := add_line _ _ s).
  assert (Hne : ∀ n, n ∈ targets → path_Join dir n ≠ path_Join dir name)
    by (intros n Hn ?%(inj _); by subst).
  destruct (IH ms' s1) as (Hd & Hall & Hother & Ho & Htr).
  { eapply Forall2_impl_in; [exact Hms|]. simpl. intros n m' Hn [Hl ?].
    split; [|done]. rewrite lookup_insert_ne; [done|]. by apply not_eq_sym, Hne. }
  split_and!; [done| | |done|].
  - constructor; [|done]. rewrite Hother; [simpl; by rewrite lookup_insert_eq|].
    intros (n & Heq & Hn)%list_elem_of_fmap. by apply (Hne n).
  - intros path Hp. cbn [fmap list_fmap] in Hp. apply not_elem_of_cons in Hp as [Hp1 Hp2].
    rewrite Hother by done. simpl. by rewrite lookup_insert_ne.
  - rewrite Htr. simpl. by rewrite <- app_assoc.
Qed.
End Effects.
