(* ===== verification/Inspect.v ===== *)
(** * minecraft-ebpf inspect ([inspect.go]) *)
From S2P Require Import Prelude Kernel World GoBase GoSys Layout Pins GoLogic Labels Dump Shown Report.

Local Open Scope string_scope.
Local Open Scope list_scope.
Local Open Scope Z_scope.

Definition inspectLabelWidth : nat := 22.
Definition inspectLine (name body : string) : io unit :=
  println ("  " +:+ padr inspectLabelWidth name +:+ " " +:+ body).

Definition openPinned (pinPath name : string) : io (option pinned) :=
  m ← LoadPinnedMap (path_Join pinPath name);
  match m with
  | inl err => inspectLine name ("(open: " +:+ err_String err +:+ ")");; mret None
  | inr m => mret (Some m)
  end.

(** The lookup of one map and the line of its outcome: the code the six functions
    share, [body] being what they print of a value. *)
Definition inspect_with {V} (d : decoder V) (body : V → string) (pinPath name : string)
    (key : ipkey) : io unit :=
  m ← openPinned pinPath name;
  match m with
  | None => mret tt
  | Some m => defer (map_Close (path_Join pinPath name)) (
      match map_lookup d m key with
      | inl err =>
        if is_key_not_exist err then inspectLine name "-"
        else inspectLine name ("(lookup: " +:+ err_String err +:+ ")")
      | inr val => inspectLine name (body val)
      end)
  end.

Definition secs (now t : Z) : string := dur_String (dur_Truncate (age_ns now t) Second).

Definition timestamp_body (now val : Z) : string := "age=" +:+ secs now val.
Definition inspectTimestamp (pinPath name : string) (key : ipkey) (now : Z) : io unit :=
  inspect_with d_timestamp (timestamp_body now) pinPath name key.

Definition count_body (val : Z) : string := "count=" +:+ fmt_d val.
Definition inspectCount (pinPath name : string) (key : ipkey) : io unit :=
  inspect_with d_timestamp count_body pinPath name key.

Definition conn_limit_body (now : Z) (val : conn_limit) : string :=
  "pkt_tokens=" +:+ fmt_d (pkt_tokens val) +:+ " byte_tokens=" +:+ fmt_d (byte_tokens val)
  +:+ " refill_age=" +:+ secs now (pkt_last_ns val).
Definition inspectConnLimit (pinPath name : string) (key : ipkey) (now : Z) : io unit :=
  inspect_with d_conn_limit (conn_limit_body now) pinPath name key.

Definition ratelimit_body (now : Z) (val : ratelimit) : string :=
  "tokens=" +:+ fmt_d (tokens val) +:+ " refill_age=" +:+ secs now (last_refill_ns val).
Definition inspectRatelimit (pinPath name : string) (key : ipkey) (now : Z) : io unit :=
  inspect_with d_ratelimit (ratelimit_body now) pinPath name key.

Definition health_body (now : Z) (val : ip_health) : string :=
  "anomalies=" +:+ fmt_d (anomalies val) +:+ " window_age=" +:+ secs now (window_start_ns val) +:+
  (if now <? blacklist_until_ns val
   then " BLACKLISTED unblock_in=" +:+ blacklist_remaining now (blacklist_until_ns val)
   else " blacklisted=no").
Definition inspectHealth (pinPath name : string) (key : ipkey) (now : Z) : io unit :=
  inspect_with d_health (health_body now) pinPath name key.

Definition drop_history_body (now : Z) (val : ip_drop_history) : string :=
  let parts := reason_parts (counts val) in
  let body := "first=" +:+ secs now (first_drop_ns val) +:+ " last=" +:+ secs now (last_drop_ns val)
    +:+ " total=" +:+ fmt_d (drop_total (counts val)) in
  if (0 <? length parts)%nat then body +:+ " " +:+ strings_Join parts "," else body.
Definition inspectDropHistory (pinPath name : string) (key : ipkey) (now : Z) : io unit :=
  inspect_with d_drop_history (drop_history_body now) pinPath name key.

(** The closure [dump], from its second statement on. *)
Definition inspect_lines (pinPath addr : string) (key : ipkey) (now : Z) : io unit :=
  println ("IP " +:+ addr);;
  inspectTimestamp pinPath "tcp_whitelist" key now;;
  inspectTimestamp pinPath "tcp_established" key now;;
  inspectTimestamp pinPath "tcp_syn_seen" key now;;
  inspectCount pinPath "tcp_open_count" key;;
  inspectRatelimit pinPath "status_ratelimit" key now;;
  inspectRatelimit pinPath "login_ratelimit" key now;;
  inspectRatelimit pinPath "syn_ratelimit" key now;;
  inspectConnLimit pinPath "conn_ratelimit" key now;;
  inspectHealth pinPath "health" key now;;
  inspectDropHistory pinPath "ip_drop_history" key now.
Definition inspect_dump (pinPath addr : string) (key : ipkey) : io unit :=
  now ← bootTimeNS; inspect_lines pinPath addr key now.

(** [args]: what is left of the command line after the flags. *)
Definition cmdInspect (pinPath : string) (watch : Z) (args : list string) (rounds : nat)
    (time_text : nat → string) : io unit :=
  match args with
  | [] => eprintln "usage: minecraft-ebpf inspect <ipv4> [--watch 1s]";; os_Exit 2
  | addr :: _ =>
    match net_ParseIP addr with
    | None => eprintln ("invalid IP: " +:+ addr);; os_Exit 2
    | Some parsed =>
      match To4 parsed with
      | None => eprintln ("IPv4 only: " +:+ addr);; os_Exit 2
      | Some key =>
        if watch =? 0 then inspect_dump pinPath addr key
        else watch_loop rounds watch "inspect" time_text (inspect_dump pinPath addr key)
      end
    end
  end.

Section Clean.
Lemma inspect_with_clean {V} (d : decoder V) body dir name key :
  Clean (inspect_with d body dir name key).
Proof.
  intros s. unfold inspect_with, openPinned, mbind, io_bind, LoadPinnedMap.
  destruct (fs s !! path_Join dir name) as [m|] eqn:Hm; [|done].
  assert (Hc : Clean (match map_lookup d m key with
    | inl err => if is_key_not_exist err then inspectLine name "-"
                 else inspectLine name ("(lookup: " +:+ err_String err +:+ ")")
    | inr val => inspectLine name (body val) end)) by (unfold inspectLine; clean).
  pose proof (closes_defer (path_Join dir name) _ Hc
    (set_open (path_Join dir name :: open_maps s) s)) as H.
  cbn [open_maps set_open] in H. by rewrite remove_first_head in H.
Qed.
#[local] Hint Extern 1 (Clean (inspect_with _ _ _ _ _)) => apply inspect_with_clean : clean.
Lemma inspect_dump_clean dir addr key : Clean (inspect_dump dir addr key).
Proof.
  unfold inspect_dump, inspect_lines, inspectTimestamp, inspectCount, inspectRatelimit, inspectConnLimit,
    inspectHealth, inspectDropHistory. clean.
Qed.
Lemma watch_loop_clean rounds watch title tt_ dump : Clean dump →
  Clean (watch_loop rounds watch title tt_ dump).
Proof.
  intros Hd. induction rounds as [|n IH]; cbn [watch_loop]; clean; done.
Qed.
#[local] Hint Resolve inspect_dump_clean watch_loop_clean : clean.
Lemma cmdInspect_clean dir watch args rounds tt_ : Clean (cmdInspect dir watch args rounds tt_).
Proof. unfold cmdInspect. clean. Qed.
End Clean.
#[export] Hint Resolve watch_loop_clean cmdInspect_clean : clean.

(** ** What inspect prints *)
Section Inspect.
Context {M : Type → Type} `{!BpfMap M, !BpfMapLaws M}.
Implicit Types (w : world M).

Definition inspect_text (name body : string) : stream * string :=
  (Stdout, ("  " +:+ padr inspectLabelWidth name +:+ " " +:+ body) +:+ newline).
(** A line of a map: "-" when the datapath has no entry for the source. *)
Definition state_line {V} (i : mapid V) (body : V → string) w (key : ipkey) : stream * string :=
  inspect_text (pin_name i)
    (match bpf_lookup key (get_map i w) with Some v => body v | None => "-" end).
Definition state_report (now : Z) (addr : string) w (key : ipkey) : list (stream * string) :=
  [(Stdout, ("IP " +:+ addr) +:+ newline);
   state_line WHITELIST (timestamp_body now) w key;
   state_line ESTABLISHED (timestamp_body now) w key;
   state_line SYN_SEEN (timestamp_body now) w key;
   state_line OPEN_COUNT count_body w key;
   state_line STATUS_RL (ratelimit_body now) w key;
   state_line LOGIN_RL (ratelimit_body now) w key;
   state_line SYN_RL (ratelimit_body now) w key;
   state_line CONN_RL (conn_limit_body now) w key;
   state_line HEALTH (health_body now) w key;
   state_line DROP_HISTORY (drop_history_body now) w key].

(** Appends lines to the trace and changes nothing else, as long as the pinned maps
    show [w]. *)
Definition PrintsOn (dir : string) w (m : io unit) (l : list (stream * string)) : Prop :=
  ∀ s, pinned_world dir w s → m s = (Done tt, set_trace (trace s ++ l) s).
Lemma prints_on_bind dir w m (f : unit → io unit) l l' :
  PrintsOn dir w m l → PrintsOn dir w (f tt) l' → PrintsOn dir w (m ≫= f) (l ++ l').
Proof.
  intros Hm Hf s Hs. rewrite (bind_done _ _ _ _ _ (Hm s Hs)), Hf by done.
  by rewrite set_trace_twice, app_assoc.
Qed.
Lemma prints_prints_on dir w m l : Prints m l → PrintsOn dir w m l.
Proof. by intros Hm s _. Qed.

Lemma inspect_with_prints {V} (i : mapid V) body dir w key :
  PrintsOn dir w (inspect_with (dec_of i) body dir (pin_name i) key) [state_line i body w key].
Proof.
  intros s [Hmaps _]. destruct (Hmaps V i) as (m & rows & Hm & Hs).
  unfold inspect_with, openPinned, mbind, io_bind, mret, io_ret, LoadPinnedMap. rewrite Hm.
  cbv beta iota. rewrite (lookup_shows i w m rows key Hs). unfold state_line.
  destruct (bpf_lookup key (get_map i w)) as [v|]; simpl; unfold defer, mbind, io_bind; simpl;
    unfold set_open; simpl; rewrite decide_True by done; by destruct s.
Qed.

Lemma inspect_lines_print dir w addr key now :
  PrintsOn dir w (inspect_lines dir addr key now) (state_report now addr w key).
Proof.
  unfold inspect_lines, state_report. repeat (apply (prints_on_bind _ _ _ _ [_]);
    [first [apply prints_prints_on, prints_fprint
      |apply (inspect_with_prints WHITELIST)|apply (inspect_with_prints ESTABLISHED)
      |apply (inspect_with_prints SYN_SEEN)|apply (inspect_with_prints OPEN_COUNT)
      |apply (inspect_with_prints STATUS_RL)|apply (inspect_with_prints LOGIN_RL)
      |apply (inspect_with_prints SYN_RL)|apply (inspect_with_prints CONN_RL)
      |apply (inspect_with_prints HEALTH)]|]).
  apply (inspect_with_prints DROP_HISTORY).
Qed.

(** ** What the lines should say *)
Definition said {V} (i : mapid V) (now : Z) : V → string :=
  match i in mapid V return V → string with
  | WHITELIST | ESTABLISHED | SYN_SEEN | FIRST_DATA => λ t, "age=" +:+ aged now t
  | OPEN_COUNT => λ n, "count=" +:+ fmt_d n
  | STATUS_RL | LOGIN_RL | SYN_RL => λ b,
    "tokens=" +:+ fmt_d (tokens b) +:+ " refill_age=" +:+ aged now (last_refill_ns b)
  | CONN_RL => λ b, "pkt_tokens=" +:+ fmt_d (pkt_tokens b) +:+ " byte_tokens=" +:+
      fmt_d (byte_tokens b) +:+ " refill_age=" +:+ aged now (pkt_last_ns b)
  | HEALTH => λ h, "anomalies=" +:+ fmt_d (anomalies h) +:+ " window_age=" +:+
      aged now (window_start_ns h) +:+
      (if decide (now < blacklist_until_ns h)
       then " BLACKLISTED unblock_in=" +:+ aged (blacklist_until_ns h) now
       else " blacklisted=no")
  | DROP_HISTORY => λ h, "first=" +:+ aged now (first_drop_ns h) +:+ " last=" +:+
      aged now (last_drop_ns h) +:+ " total=" +:+ fmt_d (sumZ (counts h)) +:+
      (if decide (drops_by_reason h = []) then "" else " " +:+ strings_Join (reason_texts h) ",")
  end.
(** The ten maps in the order of the lines: all per-source maps but tcp_first_data. *)
Definition said_lines (now : Z) (addr : string) w (key : ipkey) : list (stream * string) :=
  let line {V} (i : mapid V) := state_line i (said i now) w key in
  [(Stdout, ("IP " +:+ addr) +:+ newline); line WHITELIST; line ESTABLISHED; line SYN_SEEN;
   line OPEN_COUNT; line STATUS_RL; line LOGIN_RL; line SYN_RL; line CONN_RL; line HEALTH;
   line DROP_HISTORY].
Definition source_fits w (key : ipkey) : Prop :=
  ∀ V (i : mapid V) v, bpf_lookup key (get_map i w) = Some v → entry_fits i v.

Lemma state_line_said {V} (i : mapid V) body dir w key now s :
  pinned_world dir w s → source_fits w key →
  (∀ v, entry_fits i v → (∃ b, enc_of i v b) → body v = said i now v) →
  state_line i body w key = state_line i (said i now) w key.
Proof.
  intros [Hmaps _] Hf Hb. unfold state_line. f_equal.
  destruct (Hmaps V i) as (m & rows & _ & Hs).
  destruct (bpf_lookup key (get_map i w)) as [v|] eqn:E; [|done].
  apply Hb; [by apply Hf|by eapply shown_in_range].
Qed.
Lemma ratelimit_said now (b : ratelimit) : fits now → fits (last_refill_ns b) →
  ratelimit_body now b = "tokens=" +:+ fmt_d (tokens b) +:+ " refill_age=" +:+ aged now (last_refill_ns b).
Proof. intros Hn Ht. unfold ratelimit_body, secs. by rewrite truncate_age. Qed.
Lemma health_said now h : fits now → entry_fits HEALTH h → health_body now h = said HEALTH now h.
Proof.
  intros Hn Hf. numbers_fit Hf. unfold health_body, said, secs. rewrite truncate_age by done.
  destruct (Z.ltb_spec now (blacklist_until_ns h)).
  - rewrite decide_True by done. by rewrite remaining_aged.
  - by rewrite decide_False by lia.
Qed.
Lemma drop_history_said now h : fits now → entry_fits DROP_HISTORY h → drop_history_wf h →
  drop_history_body now h = said DROP_HISTORY now h.
Proof.
  intros Hn Hf Hwf. numbers_fit Hf. unfold drop_history_body, said, secs.
  rewrite !truncate_age, drop_total_fits, reason_parts_shown by done.
  unfold reason_texts. rewrite length_fmap. destruct (drops_by_reason h) as [|p l].
  - cbn. by rewrite string_app_empty.
  - rewrite decide_False by done. cbn [length Nat.ltb Nat.leb]. by rewrite !string_app_assoc.
Qed.
Lemma report_said dir w addr key now s : fits now → pinned_world dir w s → source_fits w key →
  state_report now addr w key = said_lines now addr w key.
Proof.
  intros Hn Hw Hf. unfold state_report, said_lines. cbv zeta.
  repeat (apply (f_equal2 cons); [first [reflexivity|
    apply (state_line_said _ _ _ _ _ _ _ Hw Hf); intros v Hv [b Hb]]|]); [..|reflexivity].
  1-3: numbers_fit Hv; unfold timestamp_body, secs; by rewrite truncate_age.
  1-3: numbers_fit Hv; by apply ratelimit_said.
  - numbers_fit Hv. unfold conn_limit_body, said, secs. by rewrite truncate_age.
  - by apply health_said.
  - destruct Hb. by apply drop_history_said.
Qed.

(** C37. [inspect] shows one source's state in ten of its eleven maps, all but tcp_first_data.
    For an address that parses to [key], with the pinned maps showing [w] and every time and
    count below 2^63, it prints one line per map: "-" without an entry, otherwise the entry's
    numbers, how many whole seconds its times lie before the clock it read (none for a later
    time), the drops by reason under the names of the datapath's reasons, and BLACKLISTED with
    what is left of the ban exactly while one runs.  It leaves the rest of the system alone. *)
Theorem inspect_shows_state dir w addr rest key rounds time_text s :
  net_ParseIP addr ≫= To4 = Some key → pinned_world dir w s →
  fits (boot_reading s) → source_fits w key →
  cmdInspect dir 0 (addr :: rest) rounds time_text s =
    (Done tt, set_trace (trace s ++ said_lines (boot_reading s) addr w key)
                (set_clock (S (clock_count s)) s)).
Proof.
  intros Hk Hw Hn Hf. unfold cmdInspect. destruct (net_ParseIP addr) as [ip|]; [|done].
  simpl in Hk. rewrite Hk. cbn [Z.eqb]. unfold inspect_dump.
  rewrite (bind_done _ _ _ _ _ (bootTimeNS_run s)). rewrite (inspect_lines_print dir w) by done.
  by rewrite (report_said dir w addr key _ s).
Qed.
End Inspect.
