(* ===== verification/Top.v ===== *)
(** * The hottest sources of a map ([top.go])

    [topFromMap] serves both the command and /api/top.  [sort.Slice] promises some
    sorted arrangement of the rows and is not stable: it is the class [SortSlice]. *)
From S2P Require Import Prelude Kernel World GoBase GoSys Layout Pins GoLogic Labels Json Dump Shown.

Local Open Scope string_scope.
Local Open Scope list_scope.
Local Open Scope Z_scope.

(** [sort.Slice(l, less)] for a [less] that compares the ranks [f], higher first. *)
Class SortSlice := { sort_slice : ∀ {A : Type}, (A → Z) → list A → list A }.
Class SortSliceLaws `{SortSlice} := {
  sort_slice_perm {A} (f : A → Z) l : sort_slice f l ≡ₚ l;
  sort_slice_sorted {A} (f : A → Z) l : StronglySorted (λ x y, f y ≤ f x) (sort_slice f l);
}.

Record topRow := TopRow {
  IP : string; Sort : Z; Display : string; Tokens : Z; Count : Z; AgeSeconds : Z;
  Anomalies : Z; Blacklisted : bool; Total : Z; ByReason : list (string * Z) }.

Definition topMapKinds : list (string * (string * string)) := [
  ("whitelist", ("tcp_whitelist", "timestamp"));
  ("established", ("tcp_established", "timestamp"));
  ("syn-seen", ("tcp_syn_seen", "timestamp"));
  ("open-count", ("tcp_open_count", "count"));
  ("status-ratelimit", ("status_ratelimit", "ratelimit"));
  ("login-ratelimit", ("login_ratelimit", "ratelimit"));
  ("syn-ratelimit", ("syn_ratelimit", "ratelimit"));
  ("conn-ratelimit", ("conn_ratelimit", "conn-limit"));
  ("health", ("health", "health"));
  ("drop-history", ("ip_drop_history", "drop-reasons"))].

Fixpoint assoc_string {A} (k : string) (l : list (string * A)) : option A :=
  match l with
  | [] => None
  | (j, v) :: l => if decide (j = k) then Some v else assoc_string k l
  end.
(** The loop over [dropReasonNames] that looks for the reason. *)
Fixpoint find_reason (reason : string) (names : list string) (i : nat) : option nat :=
  match names with
  | [] => None
  | name :: names => if decide (name = reason) then Some i else find_reason reason names (S i)
  end.

Definition trunc_secs (age : Z) : string := dur_String (dur_Truncate age Second).

Definition timestamp_row (now : Z) (key : ipkey) (v : Z) : topRow :=
  let age := age_ns now v in
  let ageS := seconds age in
  TopRow (ipv4_String key) (s64 (- ageS)) ("age=" +:+ trunc_secs age) 0 0 ageS 0 false 0 [].
Definition count_row (key : ipkey) (v : Z) : topRow :=
  TopRow (ipv4_String key) (s64 v) ("count=" +:+ fmt_d v) 0 v 0 0 false 0 [].
Definition ratelimit_row (now : Z) (key : ipkey) (v : ratelimit) : topRow :=
  let age := age_ns now (last_refill_ns v) in
  TopRow (ipv4_String key) (s64 (- s64 (tokens v)))
    ("tokens=" +:+ fmt_d (tokens v) +:+ " refill_age=" +:+ trunc_secs age)
    (tokens v) 0 (seconds age) 0 false 0 [].
Definition health_top_row (now : Z) (key : ipkey) (v : ip_health) : topRow :=
  let wAge := age_ns now (window_start_ns v) in
  let tag := if now <? blacklist_until_ns v
             then " BLACKLISTED unblock_in=" +:+ blacklist_remaining now (blacklist_until_ns v)
             else "" in
  TopRow (ipv4_String key) (s64 (anomalies v))
    ("anomalies=" +:+ fmt_d (anomalies v) +:+ " window_age=" +:+ trunc_secs wAge +:+ tag)
    0 0 (seconds wAge) (anomalies v) (now <? blacklist_until_ns v) 0 [].
Definition conn_limit_row (now : Z) (key : ipkey) (v : conn_limit) : topRow :=
  let age := age_ns now (pkt_last_ns v) in
  TopRow (ipv4_String key) (s64 (- s64 (pkt_tokens v)))
    ("pkt_tokens=" +:+ fmt_d (pkt_tokens v) +:+ " byte_tokens=" +:+ fmt_d (byte_tokens v)
     +:+ " refill_age=" +:+ trunc_secs age)
    (pkt_tokens v) 0 (seconds age) 0 false 0 [].
Definition drop_row (reasonIdx : option nat) (key : ipkey) (v : ip_drop_history) : topRow :=
  let total := drop_total (counts v) in
  let by_ := nonzero_reasons (counts v) in
  let sortKey := match reasonIdx with
                 | Some i => s64 (default 0 (counts v !! i))
                 | None => s64 total
                 end in
  let parts := omap (λ name, (λ c, name +:+ "=" +:+ fmt_d c) <$> assoc_string name by_)
                 dropReasonNames in
  TopRow (ipv4_String key) sortKey
    ("total=" +:+ fmt_d total +:+ " " +:+ strings_Join parts ",") 0 0 0 0 false total by_.

(** The rows of a map, in the order of the iteration, whose error is not looked at. *)
Definition rows_with {V} (d : decoder V) (row : ipkey → V → topRow) (m : pinned) : list topRow :=
  (λ '(key, v), row key v) <$> (iterate d m).1.
Definition top_rows (kind : string) (reasonIdx : option nat) (now : Z) (m : pinned) : list topRow :=
  if decide (kind = "timestamp") then rows_with d_timestamp (timestamp_row now) m
  else if decide (kind = "count") then rows_with d_timestamp count_row m
  else if decide (kind = "ratelimit") then rows_with d_ratelimit (ratelimit_row now) m
  else if decide (kind = "health") then rows_with d_health (health_top_row now) m
  else if decide (kind = "conn-limit") then rows_with d_conn_limit (conn_limit_row now) m
  else if decide (kind = "drop-reasons") then rows_with d_drop_history (drop_row reasonIdx) m
  else [].

Section Top.
Context `{Hsort : SortSlice}.

(** [sort.Slice] and the cut to [n] rows. *)
Definition rank_rows (n : Z) (rows : list topRow) : list topRow :=
  let rows := sort_slice Sort rows in
  if (0 <? n) && (n <? Z.of_nat (length rows)) then take (Z.to_nat n) rows else rows.

Definition topFromMap (pinPath which : string) (n : Z) (reason : string)
    : io (go (list topRow)) :=
  match assoc_string which topMapKinds with
  | None => mret (inl (Errorf ("unknown map: " +:+ which) []))
  | Some (pinned_name, kind) =>
    let reasonIdx := if decide (reason = "") then None else find_reason reason dropReasonNames 0 in
    if bool_decide (reason ≠ "") && bool_decide (reasonIdx = None)
    then mret (inl (Errorf ("unknown reason: " +:+ reason) []))
    else
      m ← LoadPinnedMap (path_Join pinPath pinned_name);
      match m with
      | inl err => mret (inl err)
      | inr m => defer (map_Close (path_Join pinPath pinned_name)) (
          now ← bootTimeNS;
          mret (inr (rank_rows n (top_rows kind reasonIdx now m))))
      end
  end.

Definition cmdTop (pinPath which : string) (n : Z) (reason : string) : io unit :=
  rows ← topFromMap pinPath which n reason;
  match rows with
  | inl err => eprintln ("top: " +:+ err_String err);; os_Exit 1
  | inr [] => println "(empty)"
  | inr rows => for_each rows (λ r, printf_line [padr 16 (IP r); Display r])
  end.

Lemma topFromMap_clean dir which n reason : Clean (topFromMap dir which n reason).
Proof. unfold topFromMap. clean. Qed.
#[local] Hint Resolve topFromMap_clean : clean.
Lemma cmdTop_clean dir which n reason : Clean (cmdTop dir which n reason).
Proof. unfold cmdTop. clean. Qed.

Context `{Hlaws : !SortSliceLaws}.

Lemma rank_rows_prefix n rows : ∃ rest,
  rank_rows n rows ++ rest = sort_slice Sort rows ∧
  (n ≤ 0 → rest = []) ∧ (0 < n → Z.of_nat (length (rank_rows n rows)) = Z.min n (Z.of_nat (length rows))).
Proof.
  assert (Hlen : length (sort_slice Sort rows) = length rows) by by rewrite sort_slice_perm.
  unfold rank_rows. destruct (Z.ltb_spec 0 n); simpl;
    [destruct (Z.ltb_spec n (Z.of_nat (length (sort_slice Sort rows))))|].
  - exists (drop (Z.to_nat n) (sort_slice Sort rows)). rewrite take_drop, length_take.
    split_and!; [done|lia|intros _; lia].
  - exists []. rewrite app_nil_r, Hlen in *. split_and!; [done|done|intros _; lia].
  - exists []. rewrite app_nil_r. split_and!; [done|done|lia].
Qed.

(** The rows a ranking keeps and the rows it leaves out. *)
Definition ranks (n : Z) (all kept : list topRow) : Prop :=
  ∃ rest, kept ++ rest ≡ₚ all ∧
    StronglySorted (λ x y, Sort y ≤ Sort x) kept ∧
    (∀ x y, x ∈ kept → y ∈ rest → Sort y ≤ Sort x) ∧
    (n ≤ 0 → rest = []) ∧
    (0 < n → Z.of_nat (length kept) = Z.min n (Z.of_nat (length all))).

Lemma strongly_sorted_app {A} (R : A → A → Prop) l k : StronglySorted R (l ++ k) →
  StronglySorted R l ∧ (∀ x y, x ∈ l → y ∈ k → R x y).
Proof.
  induction l as [|a l IH]; simpl; intros H.
  - split; [constructor|]. intros x y Hx. by apply not_elem_of_nil in Hx.
  - inversion_clear H as [|? ? Hs Hf]. destruct (IH Hs) as [Hl Hk].
    apply Forall_app in Hf as [Hf1 Hf2]. split; [by constructor|].
    intros x y [->|Hx]%elem_of_cons Hy; [|by apply Hk].
    by apply (proj1 (Forall_forall _ _) Hf2).
Qed.
Lemma rank_rows_ranks n rows : ranks n rows (rank_rows n rows).
Proof.
  destruct (rank_rows_prefix n rows) as (rest & Heq & Hn & Hlen). exists rest.
  pose proof (sort_slice_sorted Sort rows) as Hs. rewrite <- Heq in Hs.
  apply strongly_sorted_app in Hs as [Hs1 Hs2].
  split_and!; try done. rewrite Heq. apply sort_slice_perm.
Qed.

(** ** The rows, spelled out *)
Inductive top_name : string → ∀ {V}, mapid V → Prop :=
  | top_whitelist : top_name "whitelist" WHITELIST
  | top_established : top_name "established" ESTABLISHED
  | top_syn_seen : top_name "syn-seen" SYN_SEEN
  | top_open_count : top_name "open-count" OPEN_COUNT
  | top_status : top_name "status-ratelimit" STATUS_RL
  | top_login : top_name "login-ratelimit" LOGIN_RL
  | top_syn : top_name "syn-ratelimit" SYN_RL
  | top_conn : top_name "conn-ratelimit" CONN_RL
  | top_health : top_name "health" HEALTH
  | top_drops : top_name "drop-history" DROP_HISTORY.
(** The argument of --reason. *)
Definition reason_arg (r : option drop_reason) : string := default "" (name_of_reason <$> r).
(** The row of an entry: the longest waiting last, the most connections, anomalies or drops
    (of the reason asked for) first, the emptiest bucket first. *)
Definition top_entry (now : Z) (reason : option drop_reason) {V} (i : mapid V) (k : ipkey) : V → topRow :=
  match i in mapid V return V → topRow with
  | WHITELIST | ESTABLISHED | SYN_SEEN | FIRST_DATA => λ t, {|
      IP := ipv4_String k; Sort := - age_secs now t; Display := "age=" +:+ aged now t;
      Tokens := 0; Count := 0; AgeSeconds := age_secs now t; Anomalies := 0;
      Blacklisted := false; Total := 0; ByReason := [] |}
  | OPEN_COUNT => λ n, {|
      IP := ipv4_String k; Sort := n; Display := "count=" +:+ fmt_d n;
      Tokens := 0; Count := n; AgeSeconds := 0; Anomalies := 0;
      Blacklisted := false; Total := 0; ByReason := [] |}
  | STATUS_RL | LOGIN_RL | SYN_RL => λ b, {|
      IP := ipv4_String k; Sort := - tokens b;
      Display := "tokens=" +:+ fmt_d (tokens b) +:+ " refill_age=" +:+ aged now (last_refill_ns b);
      Tokens := tokens b; Count := 0; AgeSeconds := age_secs now (last_refill_ns b);
      Anomalies := 0; Blacklisted := false; Total := 0; ByReason := [] |}
  | CONN_RL => λ b, {|
      IP := ipv4_String k; Sort := - pkt_tokens b;
      Display := "pkt_tokens=" +:+ fmt_d (pkt_tokens b) +:+ " byte_tokens=" +:+
        fmt_d (byte_tokens b) +:+ " refill_age=" +:+ aged now (pkt_last_ns b);
      Tokens := pkt_tokens b; Count := 0; AgeSeconds := age_secs now (pkt_last_ns b);
      Anomalies := 0; Blacklisted := false; Total := 0; ByReason := [] |}
  | HEALTH => λ h, {|
      IP := ipv4_String k; Sort := anomalies h;
      Display := "anomalies=" +:+ fmt_d (anomalies h) +:+ " window_age=" +:+
        aged now (window_start_ns h) +:+
        (if decide (now < blacklist_until_ns h)
         then " BLACKLISTED unblock_in=" +:+ aged (blacklist_until_ns h) now else "");
      Tokens := 0; Count := 0; AgeSeconds := age_secs now (window_start_ns h);
      Anomalies := anomalies h; Blacklisted := bool_decide (now < blacklist_until_ns h);
      Total := 0; ByReason := [] |}
  | DROP_HISTORY => λ h, {|
      IP := ipv4_String k;
      Sort := match reason with None => sumZ (counts h) | Some r => counts h !!! drop_reason_idx r end;
      Display := "total=" +:+ fmt_d (sumZ (counts h)) +:+ " " +:+ strings_Join (reason_texts h) ",";
      Tokens := 0; Count := 0; AgeSeconds := 0; Anomalies := 0; Blacklisted := false;
      Total := sumZ (counts h); ByReason := drops_by_reason h |}
  end.

Lemma top_name_kind which V (i : mapid V) : top_name which i →
  ∃ kind, assoc_string which topMapKinds = Some (pin_name i, kind) ∧
    ∀ idx now m, top_rows kind idx now m =
      (λ '(k, v), match i in mapid V return V → topRow with
        | WHITELIST | ESTABLISHED | SYN_SEEN | FIRST_DATA => timestamp_row now k
        | OPEN_COUNT => count_row k
        | STATUS_RL | LOGIN_RL | SYN_RL => ratelimit_row now k
        | CONN_RL => conn_limit_row now k | HEALTH => health_top_row now k
        | DROP_HISTORY => drop_row idx k end v) <$> (iterate (dec_of i) m).1.
Proof. intros []; by eexists. Qed.
Lemma s64_fits x : fits x → s64 x = x.
Proof. unfold fits. intros H. apply s64_id. unfold is_s64. lia. Qed.
Lemma s64_neg_fits x : fits x → s64 (- x) = - x.
Proof. unfold fits. intros H. apply s64_id. unfold is_s64. lia. Qed.
Lemma age_secs_fits now t : fits now → fits t → fits (age_secs now t).
Proof.
  unfold fits, age_secs, Second. intros Hn Ht.
  pose proof (Z.div_pos (Z.max 0 (now - t)) 1000000000).
  pose proof (Z.div_le_upper_bound (Z.max 0 (now - t)) 1000000000 (now)). lia.
Qed.
Lemma timestamp_row_said now k t : fits now → fits t →
  timestamp_row now k t = top_entry now None WHITELIST k t.
Proof.
  intros Hn Ht. unfold timestamp_row, top_entry, trunc_secs. rewrite truncate_age, seconds_age by done.
  by rewrite s64_neg_fits by by apply age_secs_fits.
Qed.
Lemma ratelimit_row_said now k (b : ratelimit) : fits now → fits (tokens b) → fits (last_refill_ns b) →
  ratelimit_row now k b = top_entry now None STATUS_RL k b.
Proof.
  intros Hn Hb Ht. unfold ratelimit_row, top_entry, trunc_secs.
  by rewrite truncate_age, seconds_age, (s64_fits (tokens b)), s64_neg_fits by done.
Qed.
Lemma conn_limit_row_said now k b : fits now → entry_fits CONN_RL b →
  conn_limit_row now k b = top_entry now None CONN_RL k b.
Proof.
  intros Hn Hf. numbers_fit Hf. unfold conn_limit_row, top_entry, trunc_secs.
  by rewrite truncate_age, seconds_age, (s64_fits (pkt_tokens b)), s64_neg_fits by done.
Qed.
Lemma health_row_said now k h : fits now → entry_fits HEALTH h → health_wf h →
  health_top_row now k h = top_entry now None HEALTH k h.
Proof.
  intros Hn Hf (Ha & _ & _). numbers_fit Hf. unfold health_top_row, top_entry, trunc_secs.
  rewrite truncate_age, seconds_age, (s64_fits (anomalies h))
    by (try done; unfold fits, is_u32 in *; lia).
  destruct (Z.ltb_spec now (blacklist_until_ns h)).
  - rewrite decide_True, bool_decide_true by done. by rewrite remaining_aged.
  - by rewrite decide_False, bool_decide_false by lia.
Qed.

(** Looking every name up, in order, among the reasons that are not zero finds just those. *)
Lemma assoc_absent {A} k (l : list (string * A)) : k ∉ l.*1 → assoc_string k l = None.
Proof.
  induction l as [|[j v] l IH]; [done|]. cbn. intros [Hj Hl]%not_elem_of_cons.
  rewrite decide_False by done. by apply IH.
Qed.
Lemma parts_of_all (f : string → Z → string) (all : list (string * Z)) : NoDup all.*1 →
  omap (λ n, f n <$> assoc_string n (filter (λ p, p.2 ≠ 0) all)) all.*1 =
  (λ p, f p.1 p.2) <$> filter (λ p, p.2 ≠ 0) all.
Proof.
  induction all as [|[n c] all IH]; [done|]. cbn [fmap list_fmap fst].
  intros [Hn Hnd]%NoDup_cons. specialize (IH Hnd). rewrite filter_cons. cbn [snd].
  assert (Habs : assoc_string n (filter (λ p, p.2 ≠ 0) all) = None).
  { apply assoc_absent. intros (p & -> & [_ Hp]%list_elem_of_filter)%list_elem_of_fmap.
    by apply Hn, list_elem_of_fmap_2. }
  destruct (decide (c ≠ 0)) as [Hc|Hc]; cbn [omap list_omap].
  - cbn [assoc_string]. rewrite decide_True by done. cbn. f_equal. rewrite <- IH.
    apply list_omap_ext, Forall_Forall2_diag, Forall_forall. intros m Hm.
    rewrite decide_False by (intros ->; done). done.
  - by rewrite Habs.
Qed.
Lemma drop_row_said now k r h : entry_fits DROP_HISTORY h → drop_history_wf h →
  drop_row (drop_reason_idx <$> r) k h = top_entry now r DROP_HISTORY k h.
Proof.
  intros Hf Hwf. numbers_fit Hf. unfold drop_row, top_entry.
  rewrite drop_total_fits, nonzero_reasons_shown, (s64_fits (sumZ _)) by done. f_equal.
  - destruct r as [r|]; [|done]. cbn. destruct Hwf as (_ & _ & Hc & Hlen).
    destruct (lookup_lt_is_Some_2 (counts h) (drop_reason_idx r)) as [c Hr];
      [rewrite Hlen; by destruct r; vm_compute; lia|].
    rewrite (list_lookup_total_correct _ _ _ Hr), Hr. cbn. apply s64_fits.
    apply list_elem_of_lookup_2 in Hr. pose proof (sumZ_member _ _ Hc Hr).
    pose proof (proj1 (Forall_forall _ _) Hc _ Hr). unfold fits, is_u64 in *. lia.
  - do 4 f_equal. unfold reason_texts, drops_by_reason.
    set (all := (λ r, (name_of_reason r, counts h !!! drop_reason_idx r)) <$> all_drop_reasons).
    change dropReasonNames with all.*1.
    apply (parts_of_all (λ n c, n +:+ "=" +:+ fmt_d c)), (bool_decide_unpack _). reflexivity.
Qed.

Context {M : Type → Type} `{!BpfMap M, !BpfMapLaws M}.
Lemma top_rows_said {V} (i : mapid V) which (w : world M) m entries now r :
  top_name which i → shows i w m entries → fits now → (∀ k v, (k, v) ∈ entries → entry_fits i v) →
  ∃ kind, assoc_string which topMapKinds = Some (pin_name i, kind) ∧
    top_rows kind (drop_reason_idx <$> r) now m = (λ e, top_entry now r i e.1 e.2) <$> entries.
Proof.
  intros Hname Hs Hn Hf. destruct (top_name_kind which V i Hname) as (kind & Hk & Hrows).
  exists kind. split; [done|]. rewrite Hrows, (iterate_shows i w m entries Hs).
  cbn [fst]. apply list_fmap_ext. intros n [k v] Hkv%list_elem_of_lookup_2. cbn [fst snd].
  pose proof (Hf k v Hkv) as Hv. destruct (shown_in_range i w m entries k v Hs) as [b Hb].
  { by apply Hs. }
  destruct Hname; try by (numbers_fit Hv; apply timestamp_row_said).
  - numbers_fit Hv. unfold count_row, top_entry. by rewrite s64_fits.
  - numbers_fit Hv. by apply ratelimit_row_said.
  - numbers_fit Hv. by apply ratelimit_row_said.
  - numbers_fit Hv. by apply ratelimit_row_said.
  - by apply conn_limit_row_said.
  - apply health_row_said; [done..|]. by destruct Hb.
  - apply drop_row_said; [done|]. by destruct Hb.
Qed.
Lemma find_reason_arg r :
  find_reason (name_of_reason r) dropReasonNames 0 = Some (drop_reason_idx r).
Proof. by destruct r. Qed.
Lemma strongly_sorted_fmap {A B} (f : A → B) (R : B → B → Prop) l :
  StronglySorted R (f <$> l) → StronglySorted (λ x y, R (f x) (f y)) l.
Proof.
  induction l as [|a l IH]; cbn; intros H; [constructor|]. inversion_clear H as [|? ? Hs Hf].
  constructor; [by apply IH|]. by rewrite Forall_fmap in Hf.
Qed.
(** The entries behind the rows a ranking keeps. *)
Lemma ranks_entries {A} (row : A → topRow) n entries kept : ranks n (row <$> entries) kept →
  ∃ kept' rest, kept = row <$> kept' ∧ kept' ++ rest ≡ₚ entries ∧
    StronglySorted (λ x y, Sort (row y) ≤ Sort (row x)) kept' ∧
    (∀ x y, x ∈ kept' → y ∈ rest → Sort (row y) ≤ Sort (row x)) ∧
    (n ≤ 0 → rest = []) ∧
    (0 < n → Z.of_nat (length kept') = Z.min n (Z.of_nat (length entries))).
Proof.
  intros (rest & Hp & Hs & Hle & Hn & Hlen).
  destruct (Permutation_map_inv _ _ Hp) as (es & Heq & Hes).
  symmetry in Heq. apply fmap_app_inv in Heq as (kept' & rest' & -> & -> & ->).
  exists kept', rest'. rewrite !length_fmap in Hlen. split_and!; try done.
  - by apply strongly_sorted_fmap in Hs.
  - intros x y Hx Hy. apply Hle; by apply list_elem_of_fmap_2.
  - intros H. specialize (Hn H). by destruct rest'.
Qed.

(** C38. [top] ranks: for each of its ten map names and each reason, with the pinned map showing
    [entries] to the end of the iteration and the numbers below 2^63, it answers one row for
    each entry it keeps: of all entries when [n] is not positive, otherwise of [n], or all if
    there are fewer.  Rows come highest rank first, and no entry left out ranks above one
    kept.  A row has the address, numbers and text of its entry; its rank is minus the age
    of a time, minus the tokens of a bucket, the connections, the anomalies, or the drops, in
    total or for the reason asked for.  It closes the map and changes nothing. *)
Theorem topFromMap_ranks dir which n (reason : option drop_reason) {V} (i : mapid V) w m entries s :
  top_name which i → fs s !! path_Join dir (pin_name i) = Some m → shows i w m entries →
  fits (boot_reading s) → (∀ k v, (k, v) ∈ entries → entry_fits i v) →
  let row (e : ipkey * V) := top_entry (boot_reading s) reason i e.1 e.2 in
  ∃ kept rest, kept ++ rest ≡ₚ entries ∧
    topFromMap dir which n (reason_arg reason) s =
      (Done (inr (row <$> kept)), set_clock (S (clock_count s)) s) ∧
    StronglySorted (λ x y, Sort (row y) ≤ Sort (row x)) kept ∧
    (∀ x y, x ∈ kept → y ∈ rest → Sort (row y) ≤ Sort (row x)) ∧
    (n ≤ 0 → rest = []) ∧
    (0 < n → Z.of_nat (length kept) = Z.min n (Z.of_nat (length entries))).
Proof.
  intros Hname Hm Hs Hn Hf row.
  destruct (top_rows_said i which w m entries _ reason Hname Hs Hn Hf) as (kind & Hk & Hrows).
  destruct (ranks_entries row n entries (rank_rows n (row <$> entries)))
    as (kept & rest & Hkept & Hp & Hspec); [apply rank_rows_ranks|].
  exists kept, rest. split; [done|]. split; [|done]. rewrite <- Hkept.
  unfold topFromMap. rewrite Hk. cbv zeta.
  assert (Hidx : (if decide (reason_arg reason = "") then None
    else find_reason (reason_arg reason) dropReasonNames 0) = drop_reason_idx <$> reason).
  { by destruct reason as [[]|]. }
  rewrite Hidx.
  assert (Hb : bool_decide (reason_arg reason ≠ "") && bool_decide (drop_reason_idx <$> reason = None) = false).
  { by destruct reason as [[]|]. }
  rewrite Hb. erewrite load_defer_run; [|exact Hm|].
  2: { rewrite (bind_done _ _ _ _ _ (bootTimeNS_run _)).
       change (boot_reading (set_open _ s)) with (boot_reading s). rewrite Hrows. reflexivity. }
  simpl. rewrite decide_True by done. by destruct s.
Qed.
End Top.
#[export] Hint Resolve cmdTop_clean : clean.

(** A sort that keeps the promise. *)
Section MergeSort.
Context {A : Type} (f : A → Z).
Definition rank_le (x y : A) : Prop := f y ≤ f x.
#[export] Instance rank_le_dec : RelDecision rank_le.
Proof. intros x y. unfold rank_le. apply _. Defined.
#[export] Instance rank_le_trans : Transitive rank_le.
Proof. intros x y z. unfold rank_le. lia. Qed.
#[export] Instance rank_le_total : base.Total rank_le.
Proof. intros x y. unfold rank_le. lia. Qed.
End MergeSort.
#[export] Instance merge_sort_slice : SortSlice := {
  sort_slice A f l := merge_sort (rank_le f) l }.
#[export] Instance merge_sort_slice_laws : SortSliceLaws.
Proof.
  split; intros A f l; unfold sort_slice, merge_sort_slice.
  - apply merge_sort_Permutation.
  - apply (StronglySorted_merge_sort (rank_le f)).
Qed.
