(* ===== verification/Loader.v ===== *)
(** * The loader ([internal/loader/loader.go])

    [loadXDP] turns the options into the tunables of the datapath; [Load] attaches the
    two programs and owns the handles it opens; [Close] releases them.  What the
    kernel, the eBPF library and the generated object types answer is the record
    [lib]; the handles open at a moment are the state. *)
From S2P Require Import Prelude Kernel World GoBase GoSys.

Local Open Scope string_scope.
Local Open Scope list_scope.
Local Open Scope Z_scope.

Record Options := MkOptions {
  Iface : string; Port : Z; TTL : Z; CgroupPath : string; PinPath : string;
  StatusPerMin : Z; StatusBurst : Z; LoginPerMin : Z; LoginBurst : Z;
  TCPGlobalPerSec : Z; TCPGlobalBurst : Z; TCPMaxOpenPerIP : Z;
  ConnPPS : Z; ConnBurst : Z; ConnBPS : Z; ConnByteBurst : Z;
  ConnNewPerSec : Z; ConnNewBurst : Z;
  HealthWindow : Z; HealthThreshold : Z; HealthBlacklist : Z }.

(** The fields of Loaded, over the type of its links and of its maps; [None] is nil. *)
Record Loaded (L Mp : Type) := MkLoaded {
  XDPLink : option L; SockopsLink : option L;
  TCPEstablished : option Mp; TCPSynSeen : option Mp; TCPWhitelist : option Mp;
  StatusRatelimit : option Mp; LoginRatelimit : option Mp; TCPGlobalRatelimit : option Mp;
  TCPOpenCount : option Mp; ConnRatelimit : option Mp; SynRatelimit : option Mp;
  Health : option Mp; IPDropHistory : option Mp; Stats : option Mp;
  XDPMode : string }.
Arguments MkLoaded {L Mp}. Arguments XDPLink {L Mp}. Arguments SockopsLink {L Mp}.
Arguments TCPEstablished {L Mp}. Arguments TCPSynSeen {L Mp}. Arguments TCPWhitelist {L Mp}.
Arguments StatusRatelimit {L Mp}. Arguments LoginRatelimit {L Mp}.
Arguments TCPGlobalRatelimit {L Mp}. Arguments TCPOpenCount {L Mp}.
Arguments ConnRatelimit {L Mp}. Arguments SynRatelimit {L Mp}. Arguments Health {L Mp}.
Arguments IPDropHistory {L Mp}. Arguments Stats {L Mp}. Arguments XDPMode {L Mp}.

(** ** The collection spec and its variables *)

(** A spec: each variable of the object with its size in bytes and its value. *)
Definition spec : Type := gmap string (nat * Z).
(** A Go integer with its size. *)
Definition uint16 (x : Z) : nat * Z := (2%nat, x).
Definition uint32 (x : Z) : nat * Z := (4%nat, x).
Definition uint64 (x : Z) : nat * Z := (8%nat, x).

Section SetVar.
(** Why the library refuses to set a variable although it has the right size. *)
Context (set_err : string → option goerr).

Definition setVar (name : string) (value : nat * Z) (sp : spec) : go spec :=
  match sp !! name with
  | None => inl (Errorf ("variable " +:+ name +:+ " not found in spec") [])
  | Some (size, _) =>
    match (if (size =? value.1)%nat then set_err name
           else Some (ErrLib "value has the wrong size")) with
    | Some err => inl (Errorf ("set " +:+ name +:+ ": " +:+ err_String err) [err])
    | None => inr (<[name := value]> sp)
    end
  end.

Definition per_minute_period (rate : Z) : Z := if 0 <? rate then (60 * 1000000000) / rate else 0.
Definition per_second_period (rate : Z) : Z := if 0 <? rate then 1000000000 / rate else 0.

(** [ncpu, _ := ebpf.PossibleCPU(); if ncpu <= 0 { ncpu = 1 }]: the number is 0 on an
    error. *)
Definition cpu_count (possible_cpu : go Z) : Z :=
  let ncpu := match possible_cpu with inl _ => 0 | inr n => n end in
  if ncpu <=? 0 then 1 else ncpu.
Definition tcp_global_period (ncpu rate : Z) : Z :=
  if 0 <? rate then
    let perCPURate := rate / ncpu in
    let perCPURate := if perCPURate =? 0 then 1 else perCPURate in
    1000000000 / perCPURate
  else 0.
Definition tcp_global_burst_per_cpu (ncpu burst : Z) : Z :=
  let b := burst / ncpu in if (0 <? burst) && (b =? 0) then 1 else b.

Definition set_variables (opts : Options) (ncpu : Z) (sp : spec) : go spec :=
  sp ← setVar "target_port" (uint16 (Port opts)) sp;
  sp ← setVar "whitelist_ttl_ns" (uint64 (u64 (TTL opts))) sp;
  sp ← setVar "status_period_ns" (uint64 (per_minute_period (StatusPerMin opts))) sp;
  sp ← setVar "status_burst" (uint64 (StatusBurst opts)) sp;
  sp ← setVar "login_period_ns" (uint64 (per_minute_period (LoginPerMin opts))) sp;
  sp ← setVar "login_burst" (uint64 (LoginBurst opts)) sp;
  sp ← setVar "tcp_global_period_ns" (uint64 (tcp_global_period ncpu (TCPGlobalPerSec opts))) sp;
  sp ← setVar "tcp_global_burst" (uint64 (tcp_global_burst_per_cpu ncpu (TCPGlobalBurst opts))) sp;
  sp ← setVar "tcp_max_open_per_ip" (uint64 (TCPMaxOpenPerIP opts)) sp;
  sp ← setVar "conn_pkt_period_ns" (uint64 (per_second_period (ConnPPS opts))) sp;
  sp ← setVar "conn_pkt_burst" (uint64 (ConnBurst opts)) sp;
  sp ← setVar "conn_byte_period_ns" (uint64 (per_second_period (ConnBPS opts))) sp;
  sp ← setVar "conn_byte_burst" (uint64 (ConnByteBurst opts)) sp;
  sp ← setVar "conn_new_period_ns" (uint64 (per_second_period (ConnNewPerSec opts))) sp;
  sp ← setVar "conn_new_burst" (uint64 (ConnNewBurst opts)) sp;
  sp ← setVar "health_window_ns" (uint64 (u64 (HealthWindow opts))) sp;
  sp ← setVar "health_threshold" (uint32 (HealthThreshold opts)) sp;
  setVar "health_blacklist_ns" (uint64 (u64 (HealthBlacklist opts))) sp.
End SetVar.

(** The volatile constants of minecraft_xdp.bpf.c, with their sizes. *)
Definition c_variables : spec := list_to_map [
  ("target_port", (2%nat, 25565)); ("whitelist_ttl_ns", (8%nat, 600 * 1000000000));
  ("status_period_ns", (8%nat, 1000000000)); ("status_burst", (8%nat, 20));
  ("login_period_ns", (8%nat, 3000000000)); ("login_burst", (8%nat, 8));
  ("tcp_global_period_ns", (8%nat, 0)); ("tcp_global_burst", (8%nat, 0));
  ("tcp_max_open_per_ip", (8%nat, 0)); ("health_window_ns", (8%nat, 10 * 1000000000));
  ("health_threshold", (4%nat, 20)); ("health_blacklist_ns", (8%nat, 300 * 1000000000));
  ("conn_pkt_period_ns", (8%nat, 0)); ("conn_pkt_burst", (8%nat, 0));
  ("conn_byte_period_ns", (8%nat, 0)); ("conn_byte_burst", (8%nat, 0));
  ("conn_new_period_ns", (8%nat, 0)); ("conn_new_burst", (8%nat, 0))].

(** The tunables a loaded spec gives the datapath. *)
Definition var (sp : spec) (name : string) : Z := default 0 (snd <$> sp !! name).
Definition config_of (sp : spec) : xdp_config := {|
  target_port := var sp "target_port"; whitelist_ttl_ns := var sp "whitelist_ttl_ns";
  status_period_ns := var sp "status_period_ns"; status_burst := var sp "status_burst";
  login_period_ns := var sp "login_period_ns"; login_burst := var sp "login_burst";
  tcp_global_period_ns := var sp "tcp_global_period_ns";
  tcp_global_burst := var sp "tcp_global_burst";
  tcp_max_open_per_ip := var sp "tcp_max_open_per_ip";
  health_window_ns := var sp "health_window_ns"; health_threshold := var sp "health_threshold";
  health_blacklist_ns := var sp "health_blacklist_ns";
  conn_pkt_period_ns := var sp "conn_pkt_period_ns"; conn_pkt_burst := var sp "conn_pkt_burst";
  conn_byte_period_ns := var sp "conn_byte_period_ns"; conn_byte_burst := var sp "conn_byte_burst";
  conn_new_period_ns := var sp "conn_new_period_ns"; conn_new_burst := var sp "conn_new_burst" |}.
Example c_variables_default : config_of c_variables = default_config.
Proof. vm_compute. reflexivity. Qed.

(** ** Handles *)
Inductive handle :=
  | XdpProg | XdpMap (name : string) | XdpLinkH
  | SockProg | SockMap (name : string) | SockLinkH.
#[export] Instance handle_eq_dec : EqDecision handle.
Proof. solve_decision. Defined.

Record lib := Lib {
  InterfaceByName : string → go Z;
  MkdirAll : string → option goerr;
  xdp_spec : go spec; sockops_spec : go spec;
  lib_set_err : string → option goerr;
  lib_possible_cpu : go Z;
  (* LoadAndAssign: on success every map of the object is opened; on an error nothing is *)
  load_xdp : spec → string → option goerr; load_sockops : spec → string → option goerr;
  xdp_maps : list string; sockops_maps : list string;
  attach_native : Z → option goerr; attach_generic : Z → option goerr;
  attach_cgroup : string → option goerr;
  close_err : handle → option goerr }.

(** A computation over the open handles, newest first. *)
Definition ld (A : Type) : Type := list handle → A * list handle.
#[global] Instance ld_ret : MRet ld := λ A a o, (a, o).
#[global] Instance ld_bind : MBind ld := λ A B f m o, let '(a, o) := m o in f a o.
Definition open_handles (hs : list handle) : ld unit := λ o, (tt, hs ++ o).

Section Load.
Context (lb : lib).

(** [h.Close()]: the handle is gone, whatever the error. *)
Definition close_handle (h : handle) : ld (option goerr) :=
  λ o, (close_err lb h, filter (λ h', h' ≠ h) o).
Fixpoint close_handles (hs : list handle) : ld unit :=
  match hs with
  | [] => mret tt
  | h :: hs => close_handle h;; close_handles hs
  end.

(** The maps the loader names. *)
Definition named_xdp_maps : list string := [
  "tcp_established"; "tcp_syn_seen"; "tcp_whitelist"; "status_ratelimit"; "login_ratelimit";
  "tcp_global_ratelimit"; "tcp_open_count"; "conn_ratelimit"; "syn_ratelimit"; "health";
  "ip_drop_history"; "stats"].
Definition named_sockops_maps : list string :=
  ["tcp_established"; "tcp_whitelist"; "tcp_open_count"; "stats"].

Definition closeXDPMaps : ld unit := close_handles (XdpMap <$> named_xdp_maps).
Definition closeXDPObjs : ld unit := close_handle XdpProg;; closeXDPMaps.
Definition closeSockopsObjs : ld unit :=
  close_handle SockProg;; close_handles (SockMap <$> named_sockops_maps).

Definition loadXDP (opts : Options) : ld (go spec) :=
  match xdp_spec lb with
  | inl err => mret (inl (Errorf ("load xdp spec: " +:+ err_String err) [err]))
  | inr sp =>
    match set_variables (lib_set_err lb) opts (cpu_count (lib_possible_cpu lb)) sp with
    | inl err => mret (inl err)
    | inr sp =>
      match load_xdp lb sp (PinPath opts) with
      | Some err => mret (inl (Errorf ("load xdp objects: " +:+ err_String err) [err]))
      | None => open_handles (XdpProg :: (XdpMap <$> xdp_maps lb));; mret (inr sp)
      end
    end
  end.

Definition loadSockops (opts : Options) : ld (go spec) :=
  match sockops_spec lb with
  | inl err => mret (inl (Errorf ("load sockops spec: " +:+ err_String err) [err]))
  | inr sp =>
    match setVar (lib_set_err lb) "target_port" (uint16 (Port opts)) sp with
    | inl err => mret (inl err)
    | inr sp =>
      match load_sockops lb sp (PinPath opts) with
      | Some err => mret (inl (Errorf ("load sockops objects: " +:+ err_String err) [err]))
      | None => open_handles (SockProg :: (SockMap <$> sockops_maps lb));; mret (inr sp)
      end
    end
  end.

Definition attachXDP (ifindex : Z) : ld (go (handle * string)) :=
  match attach_native lb ifindex with
  | None => open_handles [XdpLinkH];; mret (inr (XdpLinkH, "native"))
  | Some err =>
    match attach_generic lb ifindex with
    | Some err2 =>
      mret (inl (Errorf ("native: " +:+ err_String err +:+ "; generic: " +:+ err_String err2)
                   [err; err2]))
    | None => open_handles [XdpLinkH];; mret (inr (XdpLinkH, "generic"))
    end
  end.

(** [AttachCgroup]: the link it opens. *)
Definition attachCgroup (path : string) : ld (go handle) :=
  match attach_cgroup lb path with
  | Some err => mret (inl err)
  | None => open_handles [SockLinkH];; mret (inr SockLinkH)
  end.

Definition loaded_of (xlink slink : handle) (xmode : string) : Loaded handle handle :=
  let m name := Some (XdpMap name) in
  MkLoaded (Some xlink) (Some slink) (m "tcp_established") (m "tcp_syn_seen") (m "tcp_whitelist")
    (m "status_ratelimit") (m "login_ratelimit") (m "tcp_global_ratelimit") (m "tcp_open_count")
    (m "conn_ratelimit") (m "syn_ratelimit") (m "health") (m "ip_drop_history") (m "stats") xmode.

Definition Load (opts : Options) : ld (go (Loaded handle handle)) :=
  match InterfaceByName lb (Iface opts) with
  | inl err => mret (inl (Errorf ("interface " +:+ Iface opts +:+ ": " +:+ err_String err) [err]))
  | inr ifindex =>
    match MkdirAll lb (PinPath opts) with
    | Some err => mret (inl (Errorf ("create pin path: " +:+ err_String err) [err]))
    | None =>
      xobj ← loadXDP opts;
      match xobj with
      | inl err => mret (inl err)
      | inr _ =>
        x ← attachXDP ifindex;
        match x with
        | inl err => closeXDPObjs;; mret (inl (Errorf ("attach xdp: " +:+ err_String err) [err]))
        | inr (xlink, xmode) =>
          close_handle XdpProg;;
          sobj ← loadSockops opts;
          match sobj with
          | inl err => close_handle xlink;; closeXDPMaps;; mret (inl err)
          | inr _ =>
            slink ← attachCgroup (CgroupPath opts);
            match slink with
            | inl err =>
              closeSockopsObjs;; close_handle xlink;; closeXDPMaps;;
              mret (inl (Errorf ("attach sockops to " +:+ CgroupPath opts +:+ ": "
                                 +:+ err_String err) [err]))
            | inr slink =>
              close_handle SockProg;;
              close_handle (SockMap "tcp_established");;
              close_handle (SockMap "tcp_whitelist");;
              close_handle (SockMap "tcp_open_count");;
              close_handle (SockMap "stats");;
              mret (inr (loaded_of xlink slink xmode))
            end
          end
        end
      end
    end
  end.

(** [errors.Join]: nil when there is no error. *)
Definition errors_Join (errs : list goerr) : option goerr :=
  match errs with
  | [] => None
  | _ => Some (Errorf (strings_Join (err_String <$> errs) newline) errs)
  end.
Definition close_link (l : option handle) : ld (list goerr) :=
  match l with
  | None => mret []
  | Some h => err ← close_handle h; mret (option_list err)
  end.
Definition Close (l : Loaded handle handle) : ld (option goerr) :=
  errs1 ← close_link (SockopsLink l);
  errs2 ← close_link (XDPLink l);
  close_handles (omap id [TCPEstablished l; TCPSynSeen l; TCPWhitelist l; StatusRatelimit l;
    LoginRatelimit l; TCPGlobalRatelimit l; TCPOpenCount l; ConnRatelimit l; SynRatelimit l;
    Health l; IPDropHistory l; Stats l]);;
  mret (errors_Join (errs1 ++ errs2)).
End Load.
