(* ===== verification/LoaderProps.v ===== *)
(** * What the loader guarantees

    The tunables it writes satisfy what the datapath theorems ask for, and the handles
    it opens are accounted for on every path. *)
From S2P Require Import Prelude Kernel World TokenBucket Limits Health Policy GoBase GoSys Loader.

Local Open Scope string_scope.
Local Open Scope list_scope.
Local Open Scope Z_scope.

(** ** The tunables *)

(** The Go types of the fields. *)
Definition options_typed (o : Options) : Prop :=
  is_u16 (Port o) ∧ is_s64 (TTL o) ∧ is_u64 (StatusPerMin o) ∧ is_u64 (StatusBurst o) ∧
  is_u64 (LoginPerMin o) ∧ is_u64 (LoginBurst o) ∧ is_u64 (TCPGlobalPerSec o) ∧
  is_u64 (TCPGlobalBurst o) ∧ is_u64 (TCPMaxOpenPerIP o) ∧ is_u64 (ConnPPS o) ∧
  is_u64 (ConnBurst o) ∧ is_u64 (ConnBPS o) ∧ is_u64 (ConnByteBurst o) ∧
  is_u64 (ConnNewPerSec o) ∧ is_u64 (ConnNewBurst o) ∧ is_s64 (HealthWindow o) ∧
  is_u32 (HealthThreshold o) ∧ is_s64 (HealthBlacklist o).
(** Sensible settings: no negative duration, a threshold, bursts below 2^63. *)
Definition options_sane (o : Options) : Prop :=
  0 ≤ TTL o ∧ 0 ≤ HealthWindow o ∧ 0 ≤ HealthBlacklist o ∧ 1 ≤ HealthThreshold o ∧
  Forall (λ burst, burst < 2 ^ 63) [StatusBurst o; LoginBurst o; TCPGlobalBurst o; ConnBurst o;
    ConnByteBurst o; ConnNewBurst o].

(** The configuration the options ask for. *)
Definition options_config (o : Options) (ncpu : Z) : xdp_config := {|
  target_port := Port o; whitelist_ttl_ns := u64 (TTL o);
  status_period_ns := per_minute_period (StatusPerMin o); status_burst := StatusBurst o;
  login_period_ns := per_minute_period (LoginPerMin o); login_burst := LoginBurst o;
  tcp_global_period_ns := tcp_global_period ncpu (TCPGlobalPerSec o);
  tcp_global_burst := tcp_global_burst_per_cpu ncpu (TCPGlobalBurst o);
  tcp_max_open_per_ip := TCPMaxOpenPerIP o;
  health_window_ns := u64 (HealthWindow o); health_threshold := HealthThreshold o;
  health_blacklist_ns := u64 (HealthBlacklist o);
  conn_pkt_period_ns := per_second_period (ConnPPS o); conn_pkt_burst := ConnBurst o;
  conn_byte_period_ns := per_second_period (ConnBPS o); conn_byte_burst := ConnByteBurst o;
  conn_new_period_ns := per_second_period (ConnNewPerSec o); conn_new_burst := ConnNewBurst o |}.

(** One token every [period] ns is the rate asked for, rounded to whole nanoseconds
    upwards in rate, and no rate is no period. *)
Definition period_serves (unit rate period : Z) : Prop :=
  (rate = 0 → period = 0) ∧ (0 < rate → period * rate ≤ unit < (period + 1) * rate).
Lemma period_serves_div unit rate : 0 ≤ unit → 0 ≤ rate →
  period_serves unit rate (if 0 <? rate then unit / rate else 0).
Proof.
  intros Hu Hr. destruct (Z.ltb_spec 0 rate); split; try lia. intros _.
  pose proof (Z.div_mod unit rate ltac:(lia)). pose proof (Z.mod_pos_bound unit rate ltac:(lia)). nia.
Qed.
Lemma period_bounds unit rate : 0 ≤ unit < 2 ^ 63 → 0 ≤ rate →
  0 ≤ (if 0 <? rate then unit / rate else 0) < 2 ^ 63.
Proof.
  intros Hu Hr. destruct (Z.ltb_spec 0 rate); [|lia].
  split; [apply Z.div_pos; lia|]. apply (Z.le_lt_trans _ unit); [|lia].
  apply Z.div_le_upper_bound; [lia|]. nia.
Qed.

(** What one of [n] CPUs gets of [total]: an equal part of it, rounded down, but at least one
    of anything that is not nothing. *)
Definition share_of (n total part : Z) : Prop :=
  (total = 0 → part = 0) ∧ (0 < total < n → part = 1) ∧
  (n ≤ total → n * part ≤ total < n * (part + 1)).
(** The settings the datapath takes as they are. *)
Definition settings_kept (o : Options) (c : xdp_config) : Prop :=
  target_port c = Port o ∧ whitelist_ttl_ns c = TTL o ∧
  status_burst c = StatusBurst o ∧ login_burst c = LoginBurst o ∧
  tcp_max_open_per_ip c = TCPMaxOpenPerIP o ∧ conn_pkt_burst c = ConnBurst o ∧
  conn_byte_burst c = ConnByteBurst o ∧ conn_new_burst c = ConnNewBurst o ∧
  health_window_ns c = HealthWindow o ∧ health_threshold c = HealthThreshold o ∧
  health_blacklist_ns c = HealthBlacklist o.
Lemma share_of_max n total : 1 ≤ n → 0 < total → share_of n total (Z.max 1 (total / n)).
Proof.
  intros Hn Ht. pose proof (Z.div_mod total n ltac:(lia)). pose proof (Z.mod_pos_bound total n ltac:(lia)).
  assert (total < n → total / n = 0) by (intros ?; apply Z.div_small; lia).
  assert (n ≤ total → 1 ≤ total / n) by (intros ?; apply Z.div_le_lower_bound; lia).
  split; [lia|]. split; [lia|]. intros Hle. rewrite Z.max_r by auto. nia.
Qed.
Lemma share_of_zero n : 1 ≤ n → share_of n 0 0.
Proof. intros Hn. unfold share_of. lia. Qed.

Section Config.
Context (set_err : string → option goerr) (Hset : ∀ name, set_err name = None).

Lemma setVar_ok name value sp size old : sp !! name = Some (size, old) → size = value.1 →
  setVar set_err name value sp = inr (<[name := value]> sp).
Proof. intros Hn ->. unfold setVar. by rewrite Hn, Nat.eqb_refl, Hset. Qed.

Lemma set_variables_config o ncpu : ∃ sp,
  set_variables set_err o ncpu c_variables = inr sp ∧ config_of sp = options_config o ncpu.
Proof.
  unfold set_variables, mbind, go_bind, options_config. set (c := c_variables).
  repeat (erewrite setVar_ok;
    [|rewrite ?lookup_insert_ne by done; vm_compute; reflexivity|reflexivity]).
  eexists. split; [reflexivity|]. unfold config_of, var.
  f_equal; rewrite ?lookup_insert_ne by done; by rewrite lookup_insert_eq.
Qed.
End Config.

Lemma cpu_count_pos n : 1 ≤ cpu_count n.
Proof. unfold cpu_count. destruct n as [e|n]; [simpl; lia|]. destruct (Z.leb_spec n 0); lia. Qed.
Lemma global_period_bounds ncpu rate : 1 ≤ ncpu → 0 ≤ rate →
  0 ≤ tcp_global_period ncpu rate < 2 ^ 63.
Proof.
  intros Hn Hr. unfold tcp_global_period. destruct (Z.ltb_spec 0 rate); [|lia].
  pose proof (Z.div_pos rate ncpu ltac:(lia) ltac:(lia)).
  set (q := if rate / ncpu =? 0 then 1 else rate / ncpu).
  assert (1 ≤ q) by (unfold q; destruct (Z.eqb_spec (rate / ncpu) 0); lia).
  split; [apply Z.div_pos; lia|]. apply (Z.le_lt_trans _ 1000000000); [|lia].
  apply Z.div_le_upper_bound; [lia|]. nia.
Qed.
Lemma global_period_serves ncpu rate : 1 ≤ ncpu → 0 ≤ rate → ∃ q,
  share_of ncpu rate q ∧ period_serves 1000000000 q (tcp_global_period ncpu rate).
Proof.
  intros Hn Hr. unfold tcp_global_period. destruct (Z.ltb_spec 0 rate) as [Hpos|].
  2: { exists 0. replace rate with 0 by lia. split; [by apply share_of_zero|]. split; lia. }
  exists (Z.max 1 (rate / ncpu)). split; [by apply share_of_max|].
  pose proof (Z.div_pos rate ncpu ltac:(lia) ltac:(lia)).
  replace (if rate / ncpu =? 0 then 1 else rate / ncpu) with (Z.max 1 (rate / ncpu))
    by (destruct (Z.eqb_spec (rate / ncpu) 0); lia).
  pose proof (period_serves_div 1000000000 (Z.max 1 (rate / ncpu)) ltac:(lia) ltac:(lia)) as Hs.
  by rewrite (proj2 (Z.ltb_lt _ _)) in Hs by lia.
Qed.
Lemma global_burst_share ncpu burst : 1 ≤ ncpu → 0 ≤ burst →
  share_of ncpu burst (tcp_global_burst_per_cpu ncpu burst).
Proof.
  intros Hn Hb. unfold tcp_global_burst_per_cpu. destruct (Z.ltb_spec 0 burst) as [Hpos|]; cbn [andb].
  2: { replace burst with 0 by lia. rewrite Z.div_0_l by lia. by apply share_of_zero. }
  pose proof (Z.div_pos burst ncpu ltac:(lia) ltac:(lia)).
  replace (if burst / ncpu =? 0 then 1 else burst / ncpu) with (Z.max 1 (burst / ncpu))
    by (destruct (Z.eqb_spec (burst / ncpu) 0); lia).
  by apply share_of_max.
Qed.
(** Every CPU gets its share of the burst, and at least one token. *)
Lemma global_burst_bounds ncpu burst : 1 ≤ ncpu → 0 ≤ burst →
  0 ≤ tcp_global_burst_per_cpu ncpu burst ≤ burst ∧
  (0 < burst → 1 ≤ tcp_global_burst_per_cpu ncpu burst) ∧
  ncpu * tcp_global_burst_per_cpu ncpu burst ≤ Z.max burst ncpu.
Proof.
  intros Hn Hb. unfold tcp_global_burst_per_cpu.
  pose proof (Z.div_mod burst ncpu ltac:(lia)). pose proof (Z.mod_pos_bound burst ncpu ltac:(lia)).
  pose proof (Z.div_pos burst ncpu ltac:(lia) ltac:(lia)).
  destruct (Z.ltb_spec 0 burst), (Z.eqb_spec (burst / ncpu) 0); simpl; nia.
Qed.

Lemma options_config_ok o ncpu : options_typed o → options_sane o → 1 ≤ ncpu →
  tunables_ok (options_config o ncpu) ∧ health_cfg_ok (options_config o ncpu) ∧
  u64 (TTL o) = TTL o.
Proof.
  intros (?&?&?&?&?&?&Hgp&Hgb&?&Hpp&Hpb&Hbp&Hbb&?&?&Hw&Hth&Hbl) (?&?&?&?&Hbursts) Hn.
  rewrite !Forall_cons, Forall_nil in Hbursts. destruct Hbursts as (?&?&?&?&?&?&_).
  unfold is_u64, is_s64, is_u32 in *.
  pose proof (period_bounds (60 * 1000000000) (StatusPerMin o) ltac:(lia) ltac:(lia)).
  pose proof (period_bounds (60 * 1000000000) (LoginPerMin o) ltac:(lia) ltac:(lia)).
  pose proof (period_bounds 1000000000 (ConnNewPerSec o) ltac:(lia) ltac:(lia)).
  pose proof (global_burst_bounds ncpu (TCPGlobalBurst o) Hn ltac:(lia)) as (?&_&_).
  pose proof (global_period_bounds ncpu (TCPGlobalPerSec o) Hn ltac:(lia)).
  pose proof (period_bounds 1000000000 (ConnPPS o) ltac:(lia) ltac:(lia)).
  pose proof (period_bounds 1000000000 (ConnBPS o) ltac:(lia) ltac:(lia)).
  unfold tunables_ok, bucket_cfg, limits_ok, health_cfg_ok, options_config, per_second_period,
    per_minute_period. cbn.
  rewrite !u64_id by (unfold is_u64; lia). lia.
Qed.

(** C26. The loader serves the datapath: for well-typed, sensible options and an object file
    with the variables of the C source, setting the variables succeeds; port, time to live,
    health settings, connection cap and the per-source bursts are in the tunables as they
    were given; every per-second and per-minute rate of a source becomes the period that
    serves it, and no rate no period; the global rate and the global burst are shared out
    to the CPUs, rounded down but never to nothing, and the share of the rate becomes the
    period that serves it; and the tunables satisfy the assumptions of the datapath
    theorems. *)
Theorem loader_serves_datapath set_err o possible_cpu :
  (∀ name, set_err name = None) → options_typed o → options_sane o →
  let ncpu := cpu_count possible_cpu in
  ∃ sp, set_variables set_err o ncpu c_variables = inr sp ∧
    let c := config_of sp in
    settings_kept o c ∧ tunables_ok c ∧ health_cfg_ok c ∧
    period_serves (60 * 1000000000) (StatusPerMin o) (status_period_ns c) ∧
    period_serves (60 * 1000000000) (LoginPerMin o) (login_period_ns c) ∧
    period_serves 1000000000 (ConnPPS o) (conn_pkt_period_ns c) ∧
    period_serves 1000000000 (ConnBPS o) (conn_byte_period_ns c) ∧
    period_serves 1000000000 (ConnNewPerSec o) (conn_new_period_ns c) ∧
    (∃ q, share_of ncpu (TCPGlobalPerSec o) q ∧ period_serves 1000000000 q (tcp_global_period_ns c)) ∧
    share_of ncpu (TCPGlobalBurst o) (tcp_global_burst c).
Proof.
  intros Hset Ht Hs ncpu. destruct (set_variables_config set_err Hset o ncpu) as (sp & Hsp & Hc).
  exists sp. split; [done|]. cbv zeta. rewrite Hc.
  pose proof (cpu_count_pos possible_cpu) as Hn. fold ncpu in Hn.
  destruct (options_config_ok o ncpu Ht Hs Hn) as (Hl & Hh & Httl).
  destruct Ht as (?&?&?&?&?&?&?&?&?&?&?&?&?&?&?&Hw&_&Hb). unfold is_u64, is_s64 in *.
  split; [|split_and!; [done|done|apply period_serves_div; lia..|
    by apply global_period_serves; lia|by apply global_burst_share; lia]].
  destruct Hs as (_&?&?&_). unfold settings_kept. cbn [options_config].
  split_and!; try done; apply u64_id; words; lia.
Qed.
