(* ===== verification/EndToEnd.v ===== *)
(** * From the options to the traffic

    The loader and the datapath together: what the daemon's options promise about the
    packets that pass, once the loader has written its tunables and the programs run. *)
From S2P Require Import Prelude Kernel World Frame Hoare Packet TokenBucket Limits Health Xdp XdpAccounting Policy Sockops Datapath Served Ledger Rates Traffic Breaker GoBase GoSys Loader LoaderProps.

Local Open Scope list_scope.
Local Open Scope Z_scope.

(** A rate of at least one per [unit], and at most one per nanosecond, has a period. *)
Lemma period_positive unit rate : 0 < rate ≤ unit → 0 < (if 0 <? rate then unit / rate else 0).
Proof.
  intros Hr. rewrite (proj2 (Z.ltb_lt 0 rate)) by lia.
  pose proof (Z.div_le_lower_bound unit rate 1 ltac:(lia) ltac:(lia)). lia.
Qed.
Lemma per_second_div rate : 0 < rate ≤ 1000000000 → per_second_period rate = 1000000000 / rate.
Proof. intros Hr. unfold per_second_period. by rewrite (proj2 (Z.ltb_lt 0 rate)) by lia. Qed.
Lemma per_minute_div rate :
  0 < rate ≤ 60 * 1000000000 → per_minute_period rate = 60 * 1000000000 / rate.
Proof. intros Hr. unfold per_minute_period. by rewrite (proj2 (Z.ltb_lt 0 rate)) by lia. Qed.
Lemma cap_on P B : 0 < P → 0 < B → (0 <? P) && (0 <? B) = true.
Proof. lia. Qed.
Lemma global_period_share ncpu rate : 1 ≤ ncpu → 0 < rate →
  tcp_global_period ncpu rate = 1000000000 / Z.max 1 (rate / ncpu).
Proof.
  intros Hn Hr. unfold tcp_global_period. rewrite (proj2 (Z.ltb_lt 0 rate)) by lia.
  pose proof (Z.div_pos rate ncpu ltac:(lia) ltac:(lia)).
  f_equal. destruct (Z.eqb_spec (rate / ncpu) 0); lia.
Qed.
Lemma global_period_positive ncpu rate : 1 ≤ ncpu → 0 < rate ≤ ncpu * 1000000000 →
  0 < tcp_global_period ncpu rate.
Proof.
  intros Hn Hr. unfold tcp_global_period. rewrite (proj2 (Z.ltb_lt 0 rate)) by lia.
  set (q := if rate / ncpu =? 0 then 1 else rate / ncpu).
  assert (1 ≤ q ≤ 1000000000).
  { pose proof (Z.div_le_upper_bound rate ncpu 1000000000 ltac:(lia) ltac:(lia)).
    pose proof (Z.div_pos rate ncpu ltac:(lia) ltac:(lia)). unfold q.
    destruct (Z.eqb_spec (rate / ncpu) 0); lia. }
  pose proof (Z.div_le_lower_bound 1000000000 q 1 ltac:(lia) ltac:(lia)). lia.
Qed.

(** [n] pieces in [T] ns keep to [rate] per [unit] after a burst: they are at most the
    burst and one for every period begun, the period being whole nanoseconds; in terms of
    the rate alone, with the slack that whole nanoseconds leave: all but the burst and one
    of them are at most [T * rate / (unit - rate)]. *)
Definition kept (rate unit burst T n : Z) : Prop :=
  n ≤ burst + periods_begun T (unit / rate) ∧ (n - burst - 1) * (unit - rate) ≤ rate * T.
Lemma periods_begun_rate rate unit T : 0 < rate ≤ unit → 0 ≤ T →
  (periods_begun T (unit / rate) - 1) * (unit - rate) ≤ rate * T.
Proof.
  intros Hr HT. pose proof (Z.div_mod unit rate ltac:(lia)) as Hd.
  pose proof (Z.mod_pos_bound unit rate ltac:(lia)). set (P := unit / rate) in *.
  assert (HP : 1 ≤ P) by (apply Z.div_le_lower_bound; lia).
  unfold periods_begun. pose proof (Z.mul_div_le (T + (P - 1)) P ltac:(lia)) as Hm.
  set (m := (T + (P - 1)) / P) in *. destruct (Z.le_gt_cases m 1); [nia|].
  assert (P * (m - 1) ≤ T) by lia. assert (unit - rate ≤ P * rate) by lia. nia.
Qed.
Lemma periods_kept rate unit burst T n : 0 < rate ≤ unit → 0 ≤ T →
  n ≤ burst + periods_begun T (unit / rate) → kept rate unit burst T n.
Proof.
  intros Hr HT Hn. split; [done|]. pose proof (periods_begun_rate rate unit T Hr HT). nia.
Qed.
(** The same of [ncpu] buckets that share a rate. *)
Definition kept_by (ncpu rate unit burst T n : Z) : Prop :=
  let q := Z.max 1 (rate / ncpu) in
  n ≤ Z.max burst ncpu + ncpu * periods_begun T (unit / q) ∧
  (n - Z.max burst ncpu - ncpu) * (unit - q) ≤ Z.max rate ncpu * T.
Lemma periods_kept_by ncpu rate unit burst T n : 1 ≤ ncpu → 1 ≤ unit → 0 < rate ≤ ncpu * unit →
  0 ≤ T → n ≤ Z.max burst ncpu + ncpu * periods_begun T (unit / Z.max 1 (rate / ncpu)) →
  kept_by ncpu rate unit burst T n.
Proof.
  intros Hn Hu Hr HT H. split; [done|]. set (q := Z.max 1 (rate / ncpu)) in *.
  pose proof (Z.mul_div_le rate ncpu ltac:(lia)).
  assert (rate / ncpu ≤ unit) by (apply Z.div_le_upper_bound; lia).
  assert (Hq : ncpu * q ≤ Z.max rate ncpu) by (unfold q; lia).
  pose proof (periods_begun_rate q unit T ltac:(unfold q; lia) HT).
  assert (0 ≤ unit - q) by (unfold q; lia). nia.
Qed.

Section Enforced.
Context {M : Type → Type} `{!BpfMap M, !BpfMapLaws M}.
Context (o : Options) (ncpu : Z) (clock : nat → Z).
Context (Hclk : ∀ n, 0 ≤ clock n < 2 ^ 63) (Hmono : ∀ n m, (n ≤ m)%nat → clock n ≤ clock m).
Implicit Types (w : world M) (evs : list event) (c : xdp_config).
Notation elapsed c evs w := (clock (clock_reads (handle_all c clock evs w)) - clock (clock_reads w)).

(** Every segment for the server is decided by the policy table. *)
Definition policy_enforced c : Prop := ∀ n ctx p w,
  reach c clock w → Forall is_byte (data ctx) → xdp_parse (target_port c) (data ctx) = Some p →
  let '(v, w') := minecraft_xdp ctx (on_cpu c clock n) w in
  ∃ r, policy c (segment_of ctx p) (record_of (src p) w) (tcp_global_ratelimit w !! n)
         (during (on_cpu c clock n) (clock_reads w) (clock_reads w')) r ∧
       v = action r ∧ charged (src p) r (on_cpu c clock n) w w'.
(** --conn-new-rate and --conn-new-burst: new connections of one source. *)
Definition new_rate_enforced c : Prop := ∀ k evs w,
  reach c clock w → Forall well_formed evs → unevicted c clock SYN_RL k evs w →
  kept (ConnNewPerSec o) 1000000000 (ConnNewBurst o)
    (elapsed c evs w) (tally c clock (opens c clock k) evs w).
(** --login-per-min and --login-burst: promotions of one source. *)
Definition login_rate_enforced c : Prop := ∀ k evs w,
  reach c clock w → Forall well_formed evs → unevicted c clock LOGIN_RL k evs w →
  kept (LoginPerMin o) (60 * 1000000000) (Z.max (LoginBurst o) 1)
    (elapsed c evs w) (tally c clock (joins c clock k) evs w).
(** --status-per-min and --status-burst: pings of one source. *)
Definition status_rate_enforced c : Prop := ∀ k evs w,
  reach c clock w → Forall well_formed evs → unevicted c clock STATUS_RL k evs w →
  kept (StatusPerMin o) (60 * 1000000000) (Z.max (StatusBurst o) 1)
    (elapsed c evs w) (tally c clock (answers c clock k) evs w).
(** --conn-bps and --conn-byte-burst: bytes of a verified source. *)
Definition byte_rate_enforced c : Prop := ∀ k evs w,
  reach c clock w → Forall well_formed evs → unevicted c clock CONN_RL k evs w →
  kept (ConnBPS o) 1000000000 (Z.max (ConnByteBurst o) 65535)
    (elapsed c evs w) (weigh c clock (streams c clock (λ n, n) k) evs w).
(** --conn-pps and --conn-burst: packets of a verified source. *)
Definition packet_rate_enforced c : Prop := ∀ k evs w,
  reach c clock w → Forall well_formed evs → unevicted c clock CONN_RL k evs w →
  kept (ConnPPS o) 1000000000 (ConnBurst o)
    (elapsed c evs w) (weigh c clock (streams c clock (λ _, 1) k) evs w).
(** --tcp-global-rate and --tcp-global-burst: new connections of all sources together. *)
Definition global_rate_enforced c : Prop := ∀ evs w,
  reach c clock w → (∀ n, Z.of_nat n < ncpu → is_Some (tcp_global_ratelimit w !! n)) →
  Forall (λ ev, Z.of_nat (cpu_of ev) < ncpu) evs →
  kept_by ncpu (TCPGlobalPerSec o) 1000000000 (TCPGlobalBurst o)
    (elapsed c evs w) (tally c clock (newcomer c clock) evs w).
Lemma elapsed_nonneg c evs w : 0 ≤ elapsed c evs w.
Proof.
  enough (clock (clock_reads w) ≤ clock (clock_reads (handle_all c clock evs w))) by lia.
  apply Hmono. unfold handle_all. revert w. induction evs as [|ev evs IH]; intros w; simpl; [done|].
  etrans; [|apply IH]. apply handle_later.
Qed.
End Enforced.

(** C2. The options are enforced: for well-typed, sensible options, setting the variables
    succeeds, and the datapath that runs with them decides every segment for the server by
    the policy table and keeps, over any run, to the rates and bursts asked for: new
    connections, pings and promotions of each unverified source, bytes and packets of each
    verified one, as long as the run does not evict the source's bucket, and the new
    connections of all unverified sources together. A source gets its burst (at least one
    ping or login; of bytes at least 65535, the size of a packet), one more, and the rate
    times the time, up to the factor 1/(1 - rate in ns) that periods of whole nanoseconds
    cost. All together get the global burst, one more per CPU, and the global rate, burst and
    rate below one per CPU counting as one per CPU. *)
Theorem options_enforced {M : Type → Type} `{!BpfMap M, !BpfMapLaws M} set_err o possible_cpu :
  (∀ name, set_err name = None) → options_typed o → options_sane o →
  let ncpu := cpu_count possible_cpu in
  let second := 1000000000 in
  ∃ sp, set_variables set_err o ncpu c_variables = inr sp ∧
  let c := config_of sp in
  ∀ clock, (∀ n, 0 ≤ clock n < 2 ^ 63) → (∀ n m, (n ≤ m)%nat → clock n ≤ clock m) →
    policy_enforced (M := M) clock c ∧
    (0 < ConnNewPerSec o ≤ second → 0 < ConnNewBurst o → new_rate_enforced (M := M) o clock c) ∧
    (0 < LoginPerMin o ≤ 60 * second → login_rate_enforced (M := M) o clock c) ∧
    (0 < StatusPerMin o ≤ 60 * second → status_rate_enforced (M := M) o clock c) ∧
    (0 < ConnBPS o ≤ second → 0 < ConnByteBurst o → byte_rate_enforced (M := M) o clock c) ∧
    (0 < ConnPPS o ≤ second → 0 < ConnBurst o → packet_rate_enforced (M := M) o clock c) ∧
    (0 < TCPGlobalPerSec o ≤ ncpu * second → 0 < TCPGlobalBurst o →
       global_rate_enforced (M := M) o ncpu clock c).
Proof.
  intros Hset Ht Hs ncpu second.
  destruct (set_variables_config set_err Hset o ncpu) as (sp & Hsp & Hc).
  exists sp. split; [done|]. cbv zeta. rewrite Hc. pose proof (cpu_count_pos possible_cpu) as Hn.
  fold ncpu in Hn. destruct (options_config_ok o ncpu Ht Hs Hn) as (Hl & _).
  intros clock Hclk Hmono. split_and!.
  - intros n ctx p w Hw Hd Hp. pose proof (decides_spec _ clock Hl Hclk Hmono n ctx p w Hw Hd Hp) as H.
    destruct (minecraft_xdp _ _ _). apply H.
  - intros Hr Hb k evs w Hw Hwf Hev. apply periods_kept; [done|by apply elapsed_nonneg|].
    rewrite <- per_second_div by done.
    by apply (opens_spec _ clock Hl Hclk Hmono k evs w Hw Hwf (period_positive _ _ Hr) Hb).
  - intros Hr k evs w Hw Hwf Hev. apply periods_kept; [done|by apply elapsed_nonneg|].
    rewrite <- per_minute_div by done.
    by apply (joins_spec _ clock Hl Hclk Hmono k evs w Hw Hwf (period_positive _ _ Hr)).
  - intros Hr k evs w Hw Hwf Hev. apply periods_kept; [done|by apply elapsed_nonneg|].
    rewrite <- per_minute_div by done.
    by apply (answers_spec _ clock Hl Hclk Hmono k evs w Hw Hwf (period_positive _ _ Hr)).
  - intros Hr Hb k evs w Hw Hwf Hev. apply periods_kept; [done|by apply elapsed_nonneg|].
    rewrite <- per_second_div by done.
    apply (streams_spec _ clock Hl Hclk Hmono k evs w Hw Hwf Hev), cap_on;
      [by apply period_positive|done].
  - intros Hr Hb k evs w Hw Hwf Hev. apply periods_kept; [done|by apply elapsed_nonneg|].
    rewrite <- per_second_div, <- (Z.max_l (ConnBurst o) 1) by (done || lia).
    apply (streams_spec _ clock Hl Hclk Hmono k evs w Hw Hwf Hev), cap_on;
      [by apply period_positive|done].
  - intros Hr Hb evs w Hw Hrows Hevs.
    apply periods_kept_by; [done|done|done|by apply elapsed_nonneg|].
    pose proof (global_period_positive ncpu _ Hn Hr) as HP.
    pose proof (global_burst_bounds ncpu (TCPGlobalBurst o) Hn ltac:(lia)) as (_ & HB & Hsum).
    specialize (HB Hb).
    pose proof (newcomers_spec _ clock Hl Hclk Hmono (Z.to_nat ncpu) evs w Hw HP ltac:(simpl; lia)) as H.
    rewrite Z2Nat.id in H by lia.
    specialize (H ltac:(intros n Hlt; apply Hrows; lia)).
    specialize (H ltac:(eapply Forall_impl; [exact Hevs|]; simpl; lia)).
    rewrite <- global_period_share by lia.
    etrans; [exact H|]. cbn [options_config tcp_global_period_ns tcp_global_burst]. lia.
Qed.
