(* ===== verification/LoadHandles.v ===== *)
(** * The handles of the loader

    Which links, programs and maps are open after [Load] and after [Close], on every
    path. *)
From S2P Require Import Prelude Kernel GoBase GoSys Loader.

Local Open Scope string_scope.
Local Open Scope list_scope.
Local Open Scope Z_scope.

(** What [Load] never names: the rest of the maps of the two objects. *)
Definition unnamed (lb : lib) (h : handle) : Prop :=
  match h with
  | XdpMap n => n ∈ xdp_maps lb ∧ n ∉ named_xdp_maps
  | SockMap n => n ∈ sockops_maps lb ∧ n ∉ named_sockops_maps
  | _ => False
  end.
(** The handles of a Loaded value. *)
Definition owned (l : Loaded handle handle) : list handle :=
  omap id [XDPLink l; SockopsLink l; TCPEstablished l; TCPSynSeen l; TCPWhitelist l;
    StatusRatelimit l; LoginRatelimit l; TCPGlobalRatelimit l; TCPOpenCount l; ConnRatelimit l;
    SynRatelimit l; Health l; IPDropHistory l; Stats l].

Section Handles.
Context (lb : lib).

Lemma close_handles_run hs o : close_handles lb hs o = (tt, filter (λ h, h ∉ hs) o).
Proof.
  revert o. induction hs as [|h hs IH]; intros o.
  - simpl. unfold mret, ld_ret. f_equal. induction o as [|h o IH]; [done|].
    rewrite filter_cons, decide_True by apply not_elem_of_nil. by rewrite <- IH.
  - cbn [close_handles]. unfold mbind, ld_bind, close_handle. rewrite IH. f_equal.
    rewrite list_filter_filter. apply list_filter_iff. intros h'. rewrite not_elem_of_cons. tauto.
Qed.

(** Membership in the open handles, step by step. *)
Lemma in_filter h (P : handle → Prop) `{!∀ x, Decision (P x)} (o : list handle) :
  h ∈ filter P o ↔ P h ∧ h ∈ o.
Proof. apply list_elem_of_filter. Qed.

Lemma loadXDP_run opts o : (∃ err, loadXDP lb opts o = (inl err, o)) ∨
  ∃ sp, loadXDP lb opts o = (inr sp, (XdpProg :: (XdpMap <$> xdp_maps lb)) ++ o).
Proof.
  unfold loadXDP. destruct (xdp_spec lb); [left; eauto|].
  destruct (set_variables _ _ _ _); [left; eauto|].
  destruct (load_xdp _ _ _); [left; eauto|right; eexists; reflexivity].
Qed.
Lemma loadSockops_run opts o : (∃ err, loadSockops lb opts o = (inl err, o)) ∨
  ∃ sp, loadSockops lb opts o = (inr sp, (SockProg :: (SockMap <$> sockops_maps lb)) ++ o).
Proof.
  unfold loadSockops. destruct (sockops_spec lb); [left; eauto|].
  destruct (setVar _ _ _ _); [left; eauto|].
  destruct (load_sockops _ _ _); [left; eauto|right; eexists; reflexivity].
Qed.
Lemma attachXDP_run ifindex o : (∃ err, attachXDP lb ifindex o = (inl err, o)) ∨
  ∃ mode, mode ∈ ["native"; "generic"] ∧
    attachXDP lb ifindex o = (inr (XdpLinkH, mode), XdpLinkH :: o).
Proof.
  unfold attachXDP. destruct (attach_native lb ifindex).
  - destruct (attach_generic lb ifindex); [left; eauto|].
    right. exists "generic". split; [set_solver|done].
  - right. exists "native". split; [set_solver|done].
Qed.

(** The handles [hs] are closed, in whatever groups. *)
Lemma close_run h o : close_handle lb h o = (close_err lb h, filter (λ h', h' ≠ h) o).
Proof. done. Qed.
Definition o_xdp : list handle := XdpProg :: (XdpMap <$> xdp_maps lb).
Definition o_sock : list handle := SockProg :: (SockMap <$> sockops_maps lb).

Lemma in_o_xdp h : h ∈ o_xdp → h ≠ XdpProg → h ∉ XdpMap <$> named_xdp_maps → unnamed lb h.
Proof.
  intros [->|(n & -> & Hn)%list_elem_of_fmap]%elem_of_cons Hp Hm; [done|].
  split; [done|]. intros Hn'. by apply Hm, list_elem_of_fmap_2.
Qed.
Lemma in_o_sock h : h ∈ o_sock → h ≠ SockProg → h ∉ SockMap <$> named_sockops_maps → unnamed lb h.
Proof.
  intros [->|(n & -> & Hn)%list_elem_of_fmap]%elem_of_cons Hp Hm; [done|].
  split; [done|]. intros Hn'. by apply Hm, list_elem_of_fmap_2.
Qed.
Lemma unnamed_open h : unnamed lb h → (h ∈ o_xdp ∧ h ∉ XdpMap <$> named_xdp_maps) ∨
  (h ∈ o_sock ∧ h ∉ SockMap <$> named_sockops_maps).
Proof.
  destruct h as [|n| | |n|]; cbn [unnamed]; try done; intros [Hn Hm]; [left|right];
    (split; [by right; apply list_elem_of_fmap_2|]);
    intros (n' & [= <-] & Hn')%list_elem_of_fmap; done.
Qed.
Lemma owned_loaded_of mode h : h ∈ owned (loaded_of XdpLinkH SockLinkH mode) ↔
  h = XdpLinkH ∨ h = SockLinkH ∨ h ∈ XdpMap <$> named_xdp_maps.
Proof. unfold owned, loaded_of, named_xdp_maps. simpl. set_solver. Qed.

Context (Hx : ∀ n, n ∈ named_xdp_maps → n ∈ xdp_maps lb).
Lemma named_open h : h ∈ XdpMap <$> named_xdp_maps → h ∈ o_xdp ∧ h ≠ XdpProg.
Proof.
  intros (n & -> & Hn)%list_elem_of_fmap. split; [|done]. right.
  by apply list_elem_of_fmap_2, Hx.
Qed.

Lemma map_in_o_xdp n : XdpMap n ∈ o_xdp ↔ n ∈ xdp_maps lb.
Proof.
  unfold o_xdp. rewrite elem_of_cons, list_elem_of_fmap. split.
  - by intros [?|(n' & [= <-] & Hn)].
  - intros Hn. right. by exists n.
Qed.
Lemma map_in_o_sock n : SockMap n ∈ o_sock ↔ n ∈ sockops_maps lb.
Proof.
  unfold o_sock. rewrite elem_of_cons, list_elem_of_fmap. split.
  - by intros [?|(n' & [= <-] & Hn)].
  - intros Hn. right. by exists n.
Qed.
Lemma other_in_o_sock h : (∀ n, h ≠ SockMap n) → h ≠ SockProg → h ∉ o_sock.
Proof.
  intros Hm Hp [->|(n & -> & _)%list_elem_of_fmap]%elem_of_cons; [done|by apply (Hm n)].
Qed.
Lemma other_in_o_xdp h : (∀ n, h ≠ XdpMap n) → h ≠ XdpProg → h ∉ o_xdp.
Proof.
  intros Hm Hp [->|(n & -> & _)%list_elem_of_fmap]%elem_of_cons; [done|by apply (Hm n)].
Qed.
Lemma map_named n : XdpMap n ∈ XdpMap <$> named_xdp_maps ↔ n ∈ named_xdp_maps.
Proof.
  rewrite list_elem_of_fmap. split; [by intros (n' & [= <-] & Hn)|intros Hn; by exists n].
Qed.
Lemma sock_named n : n ∉ named_sockops_maps ↔
  SockMap n ≠ SockMap "stats" ∧ SockMap n ≠ SockMap "tcp_open_count" ∧
  SockMap n ≠ SockMap "tcp_whitelist" ∧ SockMap n ≠ SockMap "tcp_established".
Proof. unfold named_sockops_maps. rewrite !not_elem_of_cons.
  pose proof (not_elem_of_nil n). naive_solver.
Qed.

(** What is open at the end of a successful [Load]. *)
Lemma final_handles h :
  h ≠ SockMap "stats" ∧ h ≠ SockMap "tcp_open_count" ∧ h ≠ SockMap "tcp_whitelist" ∧
  h ≠ SockMap "tcp_established" ∧ h ≠ SockProg ∧
  ((h = SockLinkH ∨ h ∈ []) ∨ h ∈ o_sock ∨ h ≠ XdpProg ∧ (h = XdpLinkH ∨ h ∈ o_xdp)) ↔
  (h = XdpLinkH ∨ h = SockLinkH ∨ h ∈ XdpMap <$> named_xdp_maps) ∨ unnamed lb h.
Proof.
  assert (Hnil : h ∉ ([] : list handle)) by apply not_elem_of_nil.
  destruct h as [|n| | |n|]; cbn [unnamed].
  - pose proof (other_in_o_sock XdpProg). rewrite list_elem_of_fmap. naive_solver.
  - pose proof (other_in_o_sock (XdpMap n)). rewrite map_in_o_xdp, map_named.
    pose proof (Hx n). destruct (decide (n ∈ named_xdp_maps)); naive_solver.
  - naive_solver.
  - rewrite list_elem_of_fmap. naive_solver.
  - pose proof (other_in_o_xdp (SockMap n)). rewrite map_in_o_sock, (sock_named n), list_elem_of_fmap.
    naive_solver.
  - naive_solver.
Qed.

Lemma close_link_run (lk : option handle) o : ∃ errs,
  close_link lb lk o = (errs, filter (λ h, lk ≠ Some h) o) ∧
  (errs = [] ↔ ∀ h, lk = Some h → close_err lb h = None).
Proof.
  destruct lk as [h|]; simpl.
  - exists (option_list (close_err lb h)). unfold mbind, ld_bind. simpl. split.
    + f_equal. apply list_filter_iff. naive_solver.
    + destruct (close_err lb h) eqn:E; simpl; naive_solver.
  - exists []. split; [|naive_solver]. unfold mret, ld_ret. f_equal.
    induction o as [|h o IH]; [done|]. rewrite filter_cons, decide_True by done. by rewrite <- IH.
Qed.
Lemma errors_Join_None errs : errors_Join errs = None ↔ errs = [].
Proof. by destruct errs. Qed.
Lemma in_omap_id {A} (x : A) (l : list (option A)) : x ∈ omap id l ↔ Some x ∈ l.
Proof. rewrite list_elem_of_omap. unfold id. naive_solver. Qed.
Lemma owned_split (l : Loaded handle handle) h : h ∉ owned l ↔
  h ∉ omap id [TCPEstablished l; TCPSynSeen l; TCPWhitelist l; StatusRatelimit l;
    LoginRatelimit l; TCPGlobalRatelimit l; TCPOpenCount l; ConnRatelimit l; SynRatelimit l;
    Health l; IPDropHistory l; Stats l] ∧ XDPLink l ≠ Some h ∧ SockopsLink l ≠ Some h.
Proof.
  unfold owned. rewrite !in_omap_id. rewrite elem_of_cons.
  rewrite (elem_of_cons _ _ (SockopsLink l)). naive_solver.
Qed.

Ltac open_set :=
  unfold mret, ld_ret; cbv beta iota; intros h;
  repeat first [rewrite in_filter|rewrite elem_of_cons|rewrite elem_of_app].

Lemma Load_spec opts :
  match Load lb opts [] with
  | (inl _, o) => ∀ h, h ∈ o → unnamed lb h
  | (inr l, o) => (∀ h, h ∈ o ↔ h ∈ owned l ∨ unnamed lb h) ∧
                  ∃ mode, l = loaded_of XdpLinkH SockLinkH mode ∧ mode ∈ ["native"; "generic"]
  end.
Proof.
  unfold Load. destruct (InterfaceByName lb (Iface opts)) as [err|ifindex].
  { simpl. intros h Hh. by apply not_elem_of_nil in Hh. }
  destruct (MkdirAll lb (PinPath opts)).
  { simpl. intros h Hh. by apply not_elem_of_nil in Hh. }
  unfold mbind, ld_bind.
  destruct (loadXDP_run opts []) as [(err & ->)|(sp & ->)].
  { intros h Hh. by apply not_elem_of_nil in Hh. }
  rewrite app_nil_r. fold o_xdp.
  destruct (attachXDP_run ifindex o_xdp) as [(err & ->)|(mode & Hmode & ->)].
  { unfold closeXDPObjs, closeXDPMaps, close_handle, mbind, ld_bind. rewrite close_handles_run.
    open_set. intros (Hn & Hp & Hh). by apply in_o_xdp. }
  unfold close_handle at 1. set (o1 := filter _ (XdpLinkH :: o_xdp)).
  destruct (loadSockops_run opts o1) as [(err & ->)|(sp' & ->)].
  { unfold closeXDPMaps, close_handle. rewrite close_handles_run. unfold o1.
    open_set. intros (Hn & Hl & Hp & [->|Hh]); [done|]. by apply in_o_xdp. }
  fold o_sock. unfold attachCgroup. destruct (attach_cgroup lb (CgroupPath opts)) as [err|].
  { unfold closeSockopsObjs, closeXDPMaps, close_handle, mbind, ld_bind.
    unfold mret at 1, ld_ret at 1. rewrite !close_handles_run. unfold o1.
    open_set. intros (Hn & Hl & Hns & Hsp & [Hh|(Hp & [->|Hh])]); [|done|by apply in_o_xdp].
    by apply in_o_sock. }
  unfold open_handles, close_handle, mbind, ld_bind, o1. split; [|by exists mode].
  open_set. rewrite owned_loaded_of. apply final_handles.
Qed.

(** C27. No handle is lost that the loader knows of: when [Load] fails, at whatever
    step, every program, link and map it names is closed again; when it succeeds,
    the open handles are those of the value it returns and the maps of the objects
    it does not name, and the XDP mode it reports is "native" or "generic". *)
Theorem Load_handles opts :
  match Load lb opts [] with
  | (inl _, o) => ∀ h, h ∈ o → unnamed lb h
  | (inr l, o) => (∀ h, h ∈ o ↔ h ∈ owned l ∨ unnamed lb h) ∧ XDPMode l ∈ ["native"; "generic"]
  end.
Proof.
  pose proof (Load_spec opts) as H. destruct (Load lb opts []) as [[err|l] o]; [done|].
  destruct H as (H & mode & -> & Hm). by split.
Qed.

Lemma Close_spec l o :
  let '(err, o') := Close lb l o in
  (∀ h, h ∈ o' ↔ h ∈ o ∧ h ∉ owned l) ∧
  (err = None ↔ ∀ h, XDPLink l = Some h ∨ SockopsLink l = Some h → close_err lb h = None).
Proof.
  unfold Close, mbind, ld_bind.
  destruct (close_link_run (SockopsLink l) o) as (e1 & -> & He1).
  destruct (close_link_run (XDPLink l) (filter (λ h, SockopsLink l ≠ Some h) o)) as (e2 & -> & He2).
  rewrite close_handles_run. unfold mret, ld_ret. split.
  - intros h. rewrite !in_filter, (owned_split l h). naive_solver.
  - rewrite errors_Join_None, app_nil. naive_solver.
Qed.


(** The map tcp_first_data has no owner: when the object file has it, its handle
    is still open after a successful [Load] followed by [Close]. *)
Lemma first_data_never_closed opts l o :
  "tcp_first_data" ∈ xdp_maps lb → Load lb opts [] = (inr l, o) →
  XdpMap "tcp_first_data" ∈ o ∧ XdpMap "tcp_first_data" ∈ (Close lb l o).2.
Proof.
  intros Hin Hload. pose proof (Load_spec opts) as H. rewrite Hload in H.
  destruct H as (H & mode & -> & _).
  assert (Ho : XdpMap "tcp_first_data" ∈ o).
  { apply H. right. split; [done|]. by apply (bool_decide_eq_false _). }
  split; [done|]. pose proof (Close_spec (loaded_of XdpLinkH SockLinkH mode) o) as Hc.
  destruct (Close lb _ o) as [err o']. apply Hc. split; [done|].
  by apply (bool_decide_eq_false _).
Qed.
End Handles.
