(* ===== verification/Api.v ===== *)
(** * The HTTP API ([cmd/minecraft-ebpf/api.go])

    Handlers as programs that answer a [response].  A map of the loader is its content
    ([pinned]), [None] for a nil one.  The router of net/http is [mux_serve]: the
    longest pattern that matches. *)
From S2P Require Import Prelude Kernel World Health XdpAccounting GoBase GoSys Layout Pins GoLogic Labels Json Report Top Loader.

Local Open Scope string_scope.
Local Open Scope list_scope.
Local Open Scope Z_scope.

Record request := Request { req_path : string; req_query : string → string }.
Record response := Response { status : Z; headers : list (string * string); body : string }.

Definition writeJSON (v : json) : response :=
  Response 200 [("Content-Type", "application/json"); ("Cache-Control", "no-store")] (Encode v).
(** [http.Error] *)
Definition http_Error (msg : string) (code : Z) : response :=
  Response code [("Content-Type", "text/plain; charset=utf-8");
                 ("X-Content-Type-Options", "nosniff")] (msg +:+ newline).

Definition json_seconds (now t : Z) : json := JNum (seconds (age_ns now t)).
Definition json_strings (l : list (string * Z)) : json := json_map (prod_map id JNum <$> l).

(** The entries of a map that may be nil. *)
Definition entries_of {V} (d : decoder V) (m : option pinned) : list (ipkey * V) :=
  match m with None => [] | Some m => (iterate d m).1 end.
(** The clock is read when there is a map to walk. *)
Definition now_if (m : option pinned) : io Z :=
  match m with None => mret 0 | Some _ => bootTimeNS end.

(** ** The list handlers *)
Definition timestampEntry (now : Z) (r : ipkey * Z) : json :=
  JObj [("ip", JStr (ipv4_String r.1)); ("age_seconds", json_seconds now r.2)].
Definition handleTimestampMap (m : option pinned) : io response :=
  now ← now_if m;
  mret (writeJSON (JArr (timestampEntry now <$> entries_of d_timestamp m))).

Definition countEntry (r : ipkey * Z) : json :=
  JObj [("ip", JStr (ipv4_String r.1)); ("count", JNum r.2)].
Definition handleCountMap (m : option pinned) : io response :=
  mret (writeJSON (JArr (countEntry <$> entries_of d_timestamp m))).

(** [int64(now - val.WindowStartNS)] is not clamped here. *)
Definition blacklistEntry (now : Z) (r : ipkey * ip_health) : json :=
  JObj [("ip", JStr (ipv4_String r.1)); ("anomalies", JNum (anomalies r.2));
        ("window_age_seconds", JNum (seconds (s64 (u64 (now - window_start_ns r.2)))));
        ("blacklist_remaining_seconds",
          JNum (seconds (s64 (u64 (blacklist_until_ns r.2 - now)))))].
Definition handleBlacklist (m : option pinned) : io response :=
  now ← now_if m;
  mret (writeJSON (JArr (blacklistEntry now <$>
    filter (λ r : ipkey * ip_health, ¬ blacklist_until_ns r.2 ≤ now) (entries_of d_health m)))).

Definition dropHistoryEntry (now : Z) (r : ipkey * ip_drop_history) : json :=
  JObj [("ip", JStr (ipv4_String r.1));
        ("first_drop_age_seconds", json_seconds now (first_drop_ns r.2));
        ("last_drop_age_seconds", json_seconds now (last_drop_ns r.2));
        ("total", JNum (drop_total (counts r.2)));
        ("by_reason", json_strings (nonzero_reasons (counts r.2)))].
Definition handleDropHistory (m : option pinned) : io response :=
  now ← now_if m;
  mret (writeJSON (JArr (dropHistoryEntry now <$> entries_of d_drop_history m))).

(** The fields of a health entry, in /api/health and /api/ip. *)
Definition health_fields (now : Z) (h : ip_health) : list (string * json) :=
  [("anomalies", JNum (anomalies h)); ("window_age_seconds", json_seconds now (window_start_ns h));
   ("blacklisted", JBool (now <? blacklist_until_ns h))] ++
  (if now <? blacklist_until_ns h
   then [("blacklist_remaining_seconds",
          JNum (seconds (s64 (u64 (blacklist_until_ns h - now)))))]
   else []).
Definition healthEntry (now : Z) (r : ipkey * ip_health) : json :=
  json_map (("ip", JStr (ipv4_String r.1)) :: health_fields now r.2).
Definition handleHealth (m : option pinned) (r : request) : io response :=
  let all := bool_decide (req_query r "all" = "1") in
  now ← now_if m;
  mret (writeJSON (JArr (healthEntry now <$>
    filter (λ r : ipkey * ip_health, negb all && negb (now <? blacklist_until_ns r.2) = false)
      (entries_of d_health m)))).

(** ** Lookups of one source *)
Definition lookup_json {V} (d : decoder V) (f : V → json) (m : option pinned) (key : ipkey) : json :=
  match m with
  | None => JNull
  | Some m => match map_lookup d m key with inl _ => JNull | inr v => f v end
  end.
Definition lookupTimestamp (m : option pinned) (key : ipkey) (now : Z) : json :=
  lookup_json d_timestamp (λ v, json_map [("age_seconds", json_seconds now v)]) m key.
Definition lookupCount (m : option pinned) (key : ipkey) : json :=
  lookup_json d_timestamp (λ v, json_map [("count", JNum v)]) m key.
Definition lookupRatelimit (m : option pinned) (key : ipkey) (now : Z) : json :=
  lookup_json d_ratelimit (λ v, json_map [("tokens", JNum (tokens v));
    ("last_refill_age_seconds", json_seconds now (last_refill_ns v))]) m key.
Definition lookupConnLimit (m : option pinned) (key : ipkey) (now : Z) : json :=
  lookup_json d_conn_limit (λ v, json_map [("pkt_tokens", JNum (pkt_tokens v));
    ("byte_tokens", JNum (byte_tokens v));
    ("last_refill_age_seconds", json_seconds now (pkt_last_ns v))]) m key.
Definition lookupDropHistory (m : option pinned) (key : ipkey) (now : Z) : json :=
  lookup_json d_drop_history (λ v, json_map [
    ("first_drop_age_seconds", json_seconds now (first_drop_ns v));
    ("last_drop_age_seconds", json_seconds now (last_drop_ns v));
    ("total", JNum (drop_total (counts v)));
    ("by_reason", json_strings (nonzero_reasons (counts v)))]) m key.
Definition lookupHealth (m : option pinned) (key : ipkey) (now : Z) : json :=
  lookup_json d_health (λ v, json_map (health_fields now v)) m key.

Definition handleIPLookup (l : Loaded unit pinned) (r : request) : io response :=
  let addr := trim_prefix "/api/ip/" (req_path r) in
  if bool_decide (addr = "") then mret (http_Error "missing IP: GET /api/ip/<addr>" 400)
  else
    match net_ParseIP addr with
    | None => mret (http_Error ("invalid IP: " +:+ addr) 400)
    | Some parsed =>
      match To4 parsed with
      | None => mret (http_Error ("IPv4 only: " +:+ addr) 400)
      | Some key =>
        now ← bootTimeNS;
        mret (writeJSON (json_map [
          ("ip", JStr addr);
          ("tcp_whitelist", lookupTimestamp (TCPWhitelist l) key now);
          ("tcp_established", lookupTimestamp (TCPEstablished l) key now);
          ("tcp_syn_seen", lookupTimestamp (TCPSynSeen l) key now);
          ("tcp_open_count", lookupCount (TCPOpenCount l) key);
          ("status_ratelimit", lookupRatelimit (StatusRatelimit l) key now);
          ("login_ratelimit", lookupRatelimit (LoginRatelimit l) key now);
          ("syn_ratelimit", lookupRatelimit (SynRatelimit l) key now);
          ("conn_ratelimit", lookupConnLimit (ConnRatelimit l) key now);
          ("health", lookupHealth (Health l) key now);
          ("drop_history", lookupDropHistory (IPDropHistory l) key now)]))
      end
    end.

(** ** Info and counters *)
Definition count_entries (m : option pinned) : Z :=
  match m with None => -1 | Some m => Z.of_nat (length (iterate d_raw m).1) end.
Definition mapPopulations (l : Loaded unit pinned) : json :=
  json_strings [
    ("tcp_whitelist", count_entries (TCPWhitelist l));
    ("tcp_established", count_entries (TCPEstablished l));
    ("tcp_syn_seen", count_entries (TCPSynSeen l));
    ("tcp_open_count", count_entries (TCPOpenCount l));
    ("status_ratelimit", count_entries (StatusRatelimit l));
    ("login_ratelimit", count_entries (LoginRatelimit l));
    ("syn_ratelimit", count_entries (SynRatelimit l));
    ("conn_ratelimit", count_entries (ConnRatelimit l));
    ("health", count_entries (Health l));
    ("ip_drop_history", count_entries (IPDropHistory l))].
(** A nil map of counters is [null]. *)
Definition readCounters (l : Loaded unit pinned) : json :=
  match Stats l with
  | None => JNull
  | Some m =>
    match readStatsMap m with
    | inl _ => JNull
    | inr vals => json_strings (by_label vals)
    end
  end.

Record apiLimits := ApiLimits {
  l_status_per_min : Z; l_status_burst : Z; l_login_per_min : Z; l_login_burst : Z;
  l_tcp_global_per_sec : Z; l_tcp_global_burst : Z; l_tcp_max_open_per_ip : Z;
  l_conn_pps : Z; l_conn_burst : Z; l_conn_bps : Z; l_conn_byte_burst : Z;
  l_conn_new_per_sec : Z; l_conn_new_burst : Z;
  l_whitelist_ttl : Z; l_health_window : Z; l_health_threshold : Z; l_health_blacklist : Z }.
Definition limits_json (x : apiLimits) : json := JObj (prod_map id JNum <$> [
  ("status_per_min", l_status_per_min x); ("status_burst", l_status_burst x);
  ("login_per_min", l_login_per_min x); ("login_burst", l_login_burst x);
  ("tcp_global_per_sec", l_tcp_global_per_sec x); ("tcp_global_burst", l_tcp_global_burst x);
  ("tcp_max_open_per_ip", l_tcp_max_open_per_ip x); ("conn_pps", l_conn_pps x);
  ("conn_burst", l_conn_burst x); ("conn_bps", l_conn_bps x);
  ("conn_byte_burst", l_conn_byte_burst x); ("conn_new_per_sec", l_conn_new_per_sec x);
  ("conn_new_burst", l_conn_new_burst x); ("whitelist_ttl_ns", l_whitelist_ttl x);
  ("health_window_ns", l_health_window x); ("health_threshold", l_health_threshold x);
  ("health_blacklist_ns", l_health_blacklist x)]).

Record apiCfg := ApiCfg {
  cfg_Loaded : Loaded unit pinned; cfg_Version : string; cfg_Iface : string; cfg_Port : Z;
  cfg_PinPath : string; cfg_Limits : apiLimits }.

Definition is_some {A} (o : option A) : bool := match o with Some _ => true | None => false end.
Definition xdpAttached (l : Loaded unit pinned) : bool := is_some (XDPLink l).
Definition sockopsAttached (l : Loaded unit pinned) : bool := is_some (SockopsLink l).

Definition handleInfo (c : apiCfg) : io response :=
  let l := cfg_Loaded c in
  mret (writeJSON (json_map [
    ("version", JStr (cfg_Version c)); ("iface", JStr (cfg_Iface c)); ("port", JNum (cfg_Port c));
    ("pin_path", JStr (cfg_PinPath c)); ("xdp_mode", JStr (XDPMode l));
    ("attached", json_map [("xdp", JBool (xdpAttached l)); ("sockops", JBool (sockopsAttached l))]);
    ("limits", limits_json (cfg_Limits c)); ("maps", mapPopulations l);
    ("counters", readCounters l)])).
Definition handleStats (l : Loaded unit pinned) : io response := mret (writeJSON (readCounters l)).

(** ** /api/top *)

(** A row with its [omitempty] fields. *)
Definition nonzero (k : string) (z : Z) : list (string * json) :=
  if z =? 0 then [] else [(k, JNum z)].
Definition topRow_json (r : topRow) : json :=
  JObj ([("ip", JStr (IP r))] ++ nonzero "tokens" (Tokens r) ++ nonzero "count" (Count r) ++
    nonzero "age_seconds" (AgeSeconds r) ++ nonzero "anomalies" (Anomalies r) ++
    (if Blacklisted r then [("blacklisted", JBool true)] else []) ++
    nonzero "total" (Total r) ++
    (match ByReason r with [] => [] | by_ => [("by_reason", json_strings by_)] end)).
(** No row leaves the slice nil. *)
Definition rows_json (rows : list topRow) : json :=
  match rows with [] => JNull | _ => JArr (topRow_json <$> rows) end.

(** [fmt.Sscanf(s, "%d", &n)]: the sign and the digits at the front of [s], [n] as it
    was when there are none or they do not fit an int. *)
Fixpoint leading_digits (s : list Ascii.ascii) : list Z :=
  match s with
  | c :: s => if is_digit c then (byte_of c - 48) :: leading_digits s else []
  | [] => []
  end.
Definition digits_value (l : list Z) : Z := foldl (λ v d, v * 10 + d) 0 l.
Definition is_byte_char (n : nat) (c : Ascii.ascii) : bool := (Ascii.nat_of_ascii c =? n)%nat.
(** [SkipSpace] over the bytes of a string: the blanks of fmt's [isSpace] table in UTF-8, and
    [None] at a newline, which [Sscanf] does not accept there. *)
Definition ascii_blank (a : Z) : bool := (a =? 9) || (a =? 11) || (a =? 12) || (a =? 13) || (a =? 32).
Definition latin_blank (a b : Z) : bool := (a =? 194) && ((b =? 133) || (b =? 160)).
Definition wide_blank (a b c : Z) : bool :=
  (a =? 225) && (b =? 154) && (c =? 128) ||
  (a =? 226) && (b =? 128) && ((128 <=? c) && (c <=? 138) || (c =? 168) || (c =? 169) || (c =? 175)) ||
  (a =? 226) && (b =? 129) && (c =? 159) ||
  (a =? 227) && (b =? 128) && (c =? 128).
Fixpoint skip_space (s : list Ascii.ascii) : option (list Ascii.ascii) :=
  match s with
  | [] => Some []
  | a :: s1 =>
    if byte_of a =? 10 then None
    else if ascii_blank (byte_of a) then skip_space s1
    else match s1 with
         | [] => Some s
         | b :: s2 =>
           if latin_blank (byte_of a) (byte_of b) then skip_space s2
           else match s2 with
                | [] => Some s
                | c :: s3 =>
                  if wide_blank (byte_of a) (byte_of b) (byte_of c) then skip_space s3 else Some s
                end
         end
  end.
Definition scan_int (s : list Ascii.ascii) (n : Z) : Z :=
  let '(neg, s) := match s with
    | c :: s' => if is_byte_char 45 c then (true, s')
                 else if is_byte_char 43 c then (false, s') else (false, s)
    | [] => (false, s)
    end in
  match leading_digits s with
  | [] => n
  | ds => let v := if (neg : bool) then - digits_value ds else digits_value ds in
          if (- 2 ^ 63 <=? v) && (v <? 2 ^ 63) then v else n
  end.

Definition sscan_int (str : string) (n : Z) : Z :=
  match skip_space (String.list_ascii_of_string str) with
  | Some s => scan_int s n
  | None => n
  end.

Section Handlers.
Context `{Hsort : SortSlice}.

Definition handleTop (c : apiCfg) (r : request) : io response :=
  let which := req_query r "map" in
  if bool_decide (which = "") then mret (http_Error "missing ?map=..." 400)
  else
    let s := req_query r "n" in
    let n := if bool_decide (s = "") then 10 else sscan_int s 10 in
    rows ← topFromMap (cfg_PinPath c) which n (req_query r "reason");
    match rows with
    | inl err => mret (http_Error (err_String err) 400)
    | inr rows => mret (writeJSON (rows_json rows))
    end.

Definition handleHealthz (l : Loaded unit pinned) : io response :=
  let hs := [("Content-Type", "text/plain; charset=utf-8"); ("Cache-Control", "no-store")] in
  if negb (xdpAttached l) || negb (sockopsAttached l)
  then mret (Response 503 hs "degraded") else mret (Response 200 hs "up").

Definition api_index : list string := [
  "/api/info"; "/api/stats"; "/api/top?map=<name>&n=<N>"; "/api/health"; "/api/whitelist";
  "/api/blacklist"; "/api/established"; "/api/syn-seen"; "/api/open-count";
  "/api/drop-history"; "/api/ip/<addr>"].

Definition registerAPI (c : apiCfg) : list (string * (request → io response)) :=
  let l := cfg_Loaded c in [
  ("/health", λ _, handleHealthz l);
  ("/api/info", λ _, handleInfo c);
  ("/api/stats", λ _, handleStats l);
  ("/api/top", handleTop c);
  ("/api/health", handleHealth (Health l));
  ("/api/whitelist", λ _, handleTimestampMap (TCPWhitelist l));
  ("/api/established", λ _, handleTimestampMap (TCPEstablished l));
  ("/api/syn-seen", λ _, handleTimestampMap (TCPSynSeen l));
  ("/api/open-count", λ _, handleCountMap (TCPOpenCount l));
  ("/api/blacklist", λ _, handleBlacklist (Health l));
  ("/api/drop-history", λ _, handleDropHistory (IPDropHistory l));
  ("/api/ip/", handleIPLookup l);
  ("/api/state", λ _, mret (writeJSON (JArr (JStr <$> api_index))))].

(** [http.ServeMux]: a pattern that ends in a slash matches what it prefixes, any other
    only itself; the longest match is served. *)
Definition ends_in_slash (p : string) : bool :=
  match last (String.list_ascii_of_string p) with
  | Some c => is_byte_char 47 c
  | None => false
  end.
Definition matches (pattern path : string) : bool :=
  bool_decide (pattern = path) || (ends_in_slash pattern && has_prefix pattern path).
Definition better {A} (path : string) (best : option (string * A)) (p : string * A)
    : option (string * A) :=
  if matches p.1 path then
    match best with
    | Some b => if (String.length b.1 <? String.length p.1)%nat then Some p else best
    | None => Some p
    end
  else best.
Definition mux_serve {A} (routes : list (string * A)) (path : string) : option (string * A) :=
  foldl (better path) None routes.
End Handlers.
