(* ===== verification/ApiProps.v ===== *)
(** * What the API guarantees *)
From S2P Require Import Prelude Kernel World Health GoBase GoSys Layout Pins GoLogic Labels Json Report Top Loader Api.

Local Open Scope string_scope.
Local Open Scope list_scope.
Local Open Scope Z_scope.

Section Api.
Context {M : Type → Type} `{!BpfMap M, !BpfMapLaws M}.
Implicit Types (w : world M) (e : kenv).

(** The maps of the daemon show the state [w]. *)
Definition shown {V} (i : mapid V) w (m : option pinned) : Prop :=
  ∃ m' rows, m = Some m' ∧ shows i w m' rows.
Definition loaded_shows w (l : Loaded unit pinned) : Prop :=
  shown WHITELIST w (TCPWhitelist l) ∧ shown ESTABLISHED w (TCPEstablished l) ∧
  shown SYN_SEEN w (TCPSynSeen l) ∧ shown OPEN_COUNT w (TCPOpenCount l) ∧
  shown STATUS_RL w (StatusRatelimit l) ∧ shown LOGIN_RL w (LoginRatelimit l) ∧
  shown SYN_RL w (SynRatelimit l) ∧ shown CONN_RL w (ConnRatelimit l) ∧
  shown HEALTH w (Health l) ∧ shown DROP_HISTORY w (IPDropHistory l).

(** The JSON of a source's entry: [null] when it has none. *)
Definition entry_json {V} (i : mapid V) (f : V → json) w (key : ipkey) : json :=
  match bpf_lookup key (get_map i w) with Some v => f v | None => JNull end.
Lemma lookup_json_shown {V} (i : mapid V) f w m key : shown i w m →
  lookup_json (dec_of i) f m key = entry_json i f w key.
Proof.
  intros (m' & rows & -> & Hs). unfold lookup_json, entry_json.
  rewrite (lookup_shows i w m' rows key Hs). by destruct (bpf_lookup _ _).
Qed.

Definition ip_report (now : Z) (addr : string) w (key : ipkey) : json := json_map [
  ("ip", JStr addr);
  ("tcp_whitelist", entry_json WHITELIST (λ v, json_map [("age_seconds", json_seconds now v)]) w key);
  ("tcp_established",
    entry_json ESTABLISHED (λ v, json_map [("age_seconds", json_seconds now v)]) w key);
  ("tcp_syn_seen", entry_json SYN_SEEN (λ v, json_map [("age_seconds", json_seconds now v)]) w key);
  ("tcp_open_count", entry_json OPEN_COUNT (λ v, json_map [("count", JNum v)]) w key);
  ("status_ratelimit", entry_json STATUS_RL (λ v, json_map [("tokens", JNum (tokens v));
    ("last_refill_age_seconds", json_seconds now (last_refill_ns v))]) w key);
  ("login_ratelimit", entry_json LOGIN_RL (λ v, json_map [("tokens", JNum (tokens v));
    ("last_refill_age_seconds", json_seconds now (last_refill_ns v))]) w key);
  ("syn_ratelimit", entry_json SYN_RL (λ v, json_map [("tokens", JNum (tokens v));
    ("last_refill_age_seconds", json_seconds now (last_refill_ns v))]) w key);
  ("conn_ratelimit", entry_json CONN_RL (λ v, json_map [("pkt_tokens", JNum (pkt_tokens v));
    ("byte_tokens", JNum (byte_tokens v));
    ("last_refill_age_seconds", json_seconds now (pkt_last_ns v))]) w key);
  ("health", entry_json HEALTH (λ v, json_map (health_fields now v)) w key);
  ("drop_history", entry_json DROP_HISTORY (λ v, json_map [
    ("first_drop_age_seconds", json_seconds now (first_drop_ns v));
    ("last_drop_age_seconds", json_seconds now (last_drop_ns v));
    ("total", JNum (drop_total (counts v)));
    ("by_reason", json_strings (nonzero_reasons (counts v)))]) w key)].

(** C40. /api/ip/<addr> answers for every path below it: no address or one that is not
    IPv4 is a 400 that reads nothing; an IPv4 address gets the ten maps' entries for
    that source, [null] where the datapath has none. *)
Theorem ip_lookup_answers l w r s :
  loaded_shows w l →
  let addr := trim_prefix "/api/ip/" (req_path r) in
  match net_ParseIP addr ≫= To4 with
  | None => ∃ msg, handleIPLookup l r s = (Done (http_Error msg 400), s)
  | Some key => handleIPLookup l r s =
      (Done (writeJSON (ip_report (boot_reading s) addr w key)), set_clock (S (clock_count s)) s)
  end.
Proof.
  intros (Hwl & Hest & Hsyn & Hoc & Hst & Hlo & Hsr & Hco & Hhe & Hdh) addr.
  unfold handleIPLookup. fold addr. destruct (decide (addr = "")) as [->|Hne].
  { simpl. eexists. reflexivity. }
  rewrite bool_decide_eq_false_2 by done.
  destruct (net_ParseIP addr) as [ip|]; [|simpl; eexists; reflexivity].
  cbn [mbind option_bind]. destruct (To4 ip) as [key|]; [|eexists; reflexivity].
  rewrite (bind_done _ _ _ _ _ (bootTimeNS_run s)). unfold mret, io_ret, ip_report.
  unfold lookupTimestamp, lookupCount, lookupRatelimit, lookupConnLimit, lookupHealth,
    lookupDropHistory.
  by rewrite (lookup_json_shown WHITELIST _ w), (lookup_json_shown ESTABLISHED _ w),
    (lookup_json_shown SYN_SEEN _ w), (lookup_json_shown OPEN_COUNT _ w),
    (lookup_json_shown STATUS_RL _ w), (lookup_json_shown LOGIN_RL _ w),
    (lookup_json_shown SYN_RL _ w), (lookup_json_shown CONN_RL _ w),
    (lookup_json_shown HEALTH _ w), (lookup_json_shown DROP_HISTORY _ w).
Qed.

(** The two blacklist views of the API agree with each other and with the
    datapath: /api/blacklist and /api/health (without all=1) list the same sources,
    those the datapath would drop as unhealthy when the handler read the clock. *)
Theorem api_lists_blacklist w e m rows r s :
  shows HEALTH w m rows → boot_ns e (clock_reads w) = boot_reading s →
  req_query r "all" ≠ "1" →
  let s' := set_clock (S (clock_count s)) s in
  ∃ listed, (∀ x, x ∈ listed ↔ x ∈ rows ∧ blocked e w x.1) ∧
    handleBlacklist (Some m) s =
      (Done (writeJSON (JArr (blacklistEntry (boot_reading s) <$> listed))), s') ∧
    handleHealth (Some m) r s =
      (Done (writeJSON (JArr (healthEntry (boot_reading s) <$> listed))), s').
Proof.
  intros Hs Hnow Hall s'. set (now := boot_reading s) in *.
  pose proof (iterate_shows HEALTH w m rows Hs) as Hi. cbn [dec_of] in Hi.
  exists (filter (λ r : ipkey * ip_health, now < blacklist_until_ns r.2) rows). split_and!.
  - intros x. rewrite list_elem_of_filter.
    assert (Hb : x ∈ rows → blocked e w x.1 ↔ now < blacklist_until_ns x.2)
      by (intros; by apply (blocked_row e w rows); [apply Hs| |]).
    split; intros [H1 H2]; [split; [done|]|split; [|done]]; by apply Hb.
  - unfold handleBlacklist, now_if. rewrite (bind_done _ _ _ _ _ (bootTimeNS_run s)).
    unfold mret, io_ret, entries_of. rewrite Hi. fold now. do 4 f_equal. f_equal.
    apply list_filter_iff. intros x. lia.
  - unfold handleHealth, now_if. rewrite bool_decide_eq_false_2 by done.
    rewrite (bind_done _ _ _ _ _ (bootTimeNS_run s)). unfold mret, io_ret, entries_of.
    rewrite Hi. fold now. do 4 f_equal. f_equal. apply list_filter_iff. intros x. simpl.
    rewrite negb_false_iff, Z.ltb_lt. done.
Qed.
End Api.

(** ** Routing and liveness *)

(** The paths of the API with a handler of their own. *)
Definition api_paths : list string := [
  "/health"; "/api/info"; "/api/stats"; "/api/top"; "/api/health"; "/api/whitelist";
  "/api/established"; "/api/syn-seen"; "/api/open-count"; "/api/blacklist"; "/api/drop-history";
  "/api/ip/"; "/api/state"].

Section Routing.
Context `{Hsort : SortSlice}.

Lemma mux_none {A} path (l : list (string * A)) b :
  Forall (λ p, matches p.1 path = false) l → foldl (better path) b l = b.
Proof.
  induction 1 as [|p l Hp Hl IH]; [done|]. cbn [foldl]. unfold better at 2. by rewrite Hp.
Qed.
Lemma matches_other pattern path : pattern ≠ path → ends_in_slash pattern = false →
  matches pattern path = false.
Proof. intros Hne He. unfold matches. by rewrite bool_decide_eq_false_2, He. Qed.
Lemma app_inv_slash p (addr : string) : has_prefix p ("/api/ip/" +:+ addr) = false →
  p ≠ "/api/ip/" +:+ addr.
Proof.
  intros Hp ->. assert (H : ∀ s, has_prefix s s = true); [|by rewrite H in Hp].
  clear. induction s as [|a s IH]; [done|]. simpl. destruct (Ascii.ascii_dec a a); [apply IH|done].
Qed.

(** Every route of the API is served by its handler. *)
Lemma api_routes c :
  (registerAPI c).*1 = api_paths ∧
  (∀ p h, (p, h) ∈ registerAPI c → mux_serve (registerAPI c) p = Some (p, h)) ∧
  (∀ addr, mux_serve (registerAPI c) ("/api/ip/" +:+ addr) =
    Some ("/api/ip/", handleIPLookup (cfg_Loaded c))) ∧
  (∀ path, path ∉ api_paths → has_prefix "/api/ip/" path = false →
    mux_serve (registerAPI c) path = None).
Proof.
  split_and!; [done| | |].
  - intros p h Hin. unfold registerAPI in *.
    repeat (apply elem_of_cons in Hin as [[= -> ->]|Hin]; [reflexivity|]).
    by apply not_elem_of_nil in Hin.
  - intros addr. unfold mux_serve, registerAPI.
    match goal with |- foldl ?f ?b ?l = _ =>
      change (foldl f b (take 11 l ++ drop 11 l) = Some ("/api/ip/", handleIPLookup (cfg_Loaded c)));
      assert (H1 : foldl f b (take 11 l) = None)
    end.
    { apply mux_none. cbn [take].
      repeat (apply Forall_cons; split; [apply matches_other; [by apply app_inv_slash|done]|]).
      by apply Forall_nil. }
    assert (Hm : matches "/api/ip/" ("/api/ip/" +:+ addr) = true)
      by (unfold matches; rewrite orb_true_iff; right; by destruct addr).
    assert (Hs : matches "/api/state" ("/api/ip/" +:+ addr) = false)
      by (apply matches_other; [by apply app_inv_slash|done]).
    rewrite foldl_app, H1. cbn [drop foldl]. unfold better. cbn [fst]. by rewrite Hm, Hs.
  - intros path Hp Hpre. apply mux_none. unfold api_paths in Hp.
    rewrite !not_elem_of_cons in Hp. destruct Hp as (?&?&?&?&?&?&?&?&?&?&?&?&?&_).
    repeat (apply Forall_cons; split;
      [first [by apply matches_other|unfold matches; cbn [fst]; by rewrite bool_decide_eq_false_2, Hpre]|]).
    by apply Forall_nil.
Qed.

(** /health tells the truth about the attachment: 200 "up" exactly when both
    programs are attached, 503 "degraded" otherwise. *)
Lemma healthz_attached (l : Loaded unit pinned) s :
  ∃ resp, handleHealthz l s = (Done resp, s) ∧
    (status resp = 200 ∧ body resp = "up" ↔ XDPLink l ≠ None ∧ SockopsLink l ≠ None) ∧
    (status resp = 503 ∧ body resp = "degraded" ↔ XDPLink l = None ∨ SockopsLink l = None).
Proof.
  unfold handleHealthz, xdpAttached, sockopsAttached.
  destruct (XDPLink l), (SockopsLink l); simpl; eexists; (split; [reflexivity|]); simpl;
    naive_solver.
Qed.
End Routing.
