(* ===== verification/Collector.v ===== *)
(** * The Prometheus collector ([internal/metrics/collector.go])

    [refreshSizes] counts the entries of the maps into [MapSizes], cell by cell;
    [Collect] reads the cells and the counters and sends one constant metric after the
    other.  What client_golang does with a metric is in [MustNewConstMetric] (it panics
    on labels that do not fit the descriptor or are not UTF-8) and in [registry_ok] (what
    the registry asks of a collection).  Sending to the channel appends to a list. *)
From S2P Require Import Prelude Kernel World GoBase GoSys Layout Pins GoLogic Labels Report Loader Api.

Local Open Scope string_scope.
Local Open Scope list_scope.
Local Open Scope Z_scope.

(** [float64(x)] of a non-negative integer, an integer again: 53 significant bits,
    rounded to the nearest, ties to even. *)
Definition float64 (x : Z) : Z :=
  if x <? 2 ^ 53 then x
  else
    let ulp := 2 ^ (Z.log2 x - 52) in
    let q := x / ulp in
    let r := x mod ulp in
    if (ulp <? 2 * r) || ((2 * r =? ulp) && Z.odd q) then (q + 1) * ulp else q * ulp.

(** ** The library *)
Record Desc := NewDesc { fqName : string; help : string; variableLabels : list string }.
#[export] Instance Desc_eq_dec : EqDecision Desc.
Proof. solve_decision. Defined.
Inductive valueType := CounterValue | GaugeValue.
Record metric := Metric {
  m_desc : Desc; m_type : valueType; m_value : Z; m_labels : list string }.
(** What the registry tells metrics apart by. *)
Definition metric_id (m : metric) : string * list string := (fqName (m_desc m), m_labels m).

(** ** State *)
Inductive size_field :=
  | whitelist | established | synSeen | openCount | statusRL | loginRL | synRL | connRL
  | health_size | dropHistory | blacklisted.
#[export] Instance size_field_eq_dec : EqDecision size_field.
Proof. solve_decision. Defined.
(** Eleven atomic cells, zero at first. *)
Definition MapSizes : Type := size_field → Z.
Definition Store (f : size_field) (v : Z) (sizes : MapSizes) : MapSizes :=
  λ g, if decide (g = f) then v else sizes g.

Record Maps := MkMaps {
  M_Stats : nat → go (list Z);          (* the statsReader *)
  M_Whitelist : option pinned; M_Established : option pinned; M_SynSeen : option pinned;
  M_OpenCount : option pinned; M_StatusRL : option pinned; M_LoginRL : option pinned;
  M_SynRL : option pinned; M_ConnRL : option pinned; M_Health : option pinned;
  M_DropHistory : option pinned }.

Record Collector := MkCollector {
  maps : Maps; sizes : MapSizes;
  packets : Desc; inserts : Desc; promoted : Desc; noEst : Desc; statusSeen : Desc;
  loginSeen : Desc; mapSize : Desc; blacklisted_desc : Desc; buildInfo : Desc; attached : Desc;
  c_iface : string; c_port : Z; c_version : string;
  c_xdpAttached : bool; c_sockopsAttached : bool }.

Definition NewCollector (mps : Maps) (iface : string) (port : Z) (version : string)
    (xdp sockops : bool) : Collector := {|
  maps := mps; sizes := λ _, 0;
  packets := NewDesc "minecraft_xdp_packets_total"
    "Packets observed by the Minecraft XDP filter." ["verdict"; "proto"; "reason"];
  inserts := NewDesc "minecraft_tcp_established_inserts_total"
    "TCP connections promoted to tcp_established by sockops (3WHS completed on port)." [];
  promoted := NewDesc "minecraft_tcp_l7_promoted_total"
    "IPs promoted to tcp_whitelist after a Login handshake + TCP established confirmation." [];
  noEst := NewDesc "minecraft_tcp_l7_match_no_established_total"
    "Login handshake matched on a TCP segment but tcp_established missing (spoofed or racy)." [];
  statusSeen := NewDesc "minecraft_tcp_handshake_status_seen_total"
    "Status handshakes (next_state=1) and legacy 0xFE pings seen (regardless of verdict)." [];
  loginSeen := NewDesc "minecraft_tcp_handshake_login_seen_total"
    "Login/Transfer handshakes (next_state=2/3) seen (regardless of verdict)." [];
  mapSize := NewDesc "minecraft_map_entries"
    "Number of entries in each pinned IP-keyed map (refreshed by background ticker, default every 30s)."
    ["map"];
  blacklisted_desc := NewDesc "minecraft_health_blacklisted_ips"
    "IPs currently in the health blacklist (blacklist_until_ns > now)." [];
  buildInfo := NewDesc "minecraft_build_info" "Build and runtime configuration."
    ["version"; "iface"; "port"];
  attached := NewDesc "minecraft_attached" "Program attachment state (1=attached, 0=not)."
    ["program"];
  c_iface := iface; c_port := port; c_version := version;
  c_xdpAttached := xdp; c_sockopsAttached := sockops |}.

(** ** Sizes *)
Definition countKeys (m : option pinned) : Z :=
  match m with
  | None => -1
  | Some m => Z.of_nat (length (iterate d_raw m).1)
  end.
Definition countHealth (m : option pinned) : io (Z * Z) :=
  match m with
  | None => mret (-1, -1)
  | Some m =>
    now ← bootTimeNS;
    let rows := (iterate d_health m).1 in
    mret (Z.of_nat (length rows), count_blacklisted now rows)
  end.

(** The stores of [refreshSizes], in order. *)
Definition refresh_stores (mps : Maps) : io (list (size_field * Z)) :=
  let keys := [
    (whitelist, countKeys (M_Whitelist mps));
    (established, countKeys (M_Established mps));
    (synSeen, countKeys (M_SynSeen mps));
    (openCount, countKeys (M_OpenCount mps));
    (statusRL, countKeys (M_StatusRL mps));
    (loginRL, countKeys (M_LoginRL mps));
    (synRL, countKeys (M_SynRL mps));
    (connRL, countKeys (M_ConnRL mps));
    (dropHistory, countKeys (M_DropHistory mps))] in
  h ← countHealth (M_Health mps);
  mret (keys ++ [(health_size, h.1); (blacklisted, h.2)]).
Definition store_all (l : list (size_field * Z)) (sz : MapSizes) : MapSizes :=
  foldl (λ sz p, Store p.1 p.2 sz) sz l.
Definition refreshSizes (mps : Maps) (sz : MapSizes) : io MapSizes :=
  l ← refresh_stores mps;
  mret (store_all l sz).
(** [StartSizeTicker]: a refresh at once and one per tick; [contents] are the maps as
    the successive refreshes find them. *)
Fixpoint StartSizeTicker (contents : list Maps) (sz : MapSizes) : io MapSizes :=
  match contents with
  | [] => mret sz
  | mps :: contents => sz ← refreshSizes mps sz; StartSizeTicker contents sz
  end.

(** ** Collecting *)
Definition Describe (c : Collector) : list Desc := [
  packets c; inserts c; promoted c; noEst c; statusSeen c; loginSeen c; mapSize c;
  blacklisted_desc c; buildInfo c; attached c].

(** A slot that cannot be read stays zero. *)
Definition slot_sums (stats : nat → go (list Z)) : list Z :=
  (λ slot, match stats slot with inl _ => 0 | inr perCPU => sum_u64 perCPU end) <$> seq 0 StatMax.
Definition boolToF (b : bool) : Z := if b then 1 else 0.

Section Collect.
(** [utf8.ValidString] of a label value. *)
Context (valid_string : string → bool).

Definition MustNewConstMetric (d : Desc) (t : valueType) (v : Z) (labels : list string)
    : option metric :=
  if (length labels =? length (variableLabels d))%nat && forallb valid_string labels
  then Some (Metric d t v labels) else None.

Definition sends : Type := list (option metric).
Definition emit (c : Collector) (sums : list Z) (slot : nat) (verdict proto reason : string)
    : option metric :=
  MustNewConstMetric (packets c) CounterValue (float64 (sums !!! slot)) [verdict; proto; reason].
Definition counter (d : Desc) (sums : list Z) (slot : nat) : option metric :=
  MustNewConstMetric d CounterValue (float64 (sums !!! slot)) [].
Definition map_size (c : Collector) (name : string) (v : Z) : sends :=
  if v <? 0 then [] else [MustNewConstMetric (mapSize c) GaugeValue (float64 v) [name]].

(** The metrics in the order they are sent; [load] is what the cells hold when they
    are read. *)
Definition collect_sends (c : Collector) (load : MapSizes) : sends :=
  let sums := slot_sums (M_Stats (maps c)) in
  [emit c sums StatPassTCP "pass" "tcp" "";
   emit c sums StatDropTCPNoSyn "drop" "tcp" "no_syn";
   emit c sums StatDropTCPTooManyOpen "drop" "tcp" "too_many_open";
   emit c sums StatDropTCPGlobalRatelimit "drop" "tcp" "global_ratelimit";
   emit c sums StatDropStatusRatelimit "drop" "tcp" "status_ratelimit";
   emit c sums StatDropLoginRatelimit "drop" "tcp" "login_ratelimit";
   emit c sums StatDropMalformedHandshake "drop" "tcp" "malformed_handshake";
   emit c sums StatDropTCPUnhealthy "drop" "tcp" "unhealthy";
   emit c sums StatDropTCPBadFlags "drop" "tcp" "bad_flags";
   emit c sums StatDropConnRatelimit "drop" "tcp" "conn_ratelimit";
   emit c sums StatDropTCPConnRate "drop" "tcp" "conn_rate";
   counter (inserts c) sums StatTCPEstablishedInserts;
   counter (promoted c) sums StatTCPL7Promoted;
   counter (noEst c) sums StatTCPL7MatchNoEst;
   counter (statusSeen c) sums StatTCPHandshakeStatusSeen;
   counter (loginSeen c) sums StatTCPHandshakeLoginSeen] ++
  map_size c "tcp_whitelist" (load whitelist) ++
  map_size c "tcp_established" (load established) ++
  map_size c "tcp_syn_seen" (load synSeen) ++
  map_size c "tcp_open_count" (load openCount) ++
  map_size c "status_ratelimit" (load statusRL) ++
  map_size c "login_ratelimit" (load loginRL) ++
  map_size c "syn_ratelimit" (load synRL) ++
  map_size c "conn_ratelimit" (load connRL) ++
  map_size c "health" (load health_size) ++
  map_size c "ip_drop_history" (load dropHistory) ++
  (let v := load blacklisted in
   if 0 <=? v then [MustNewConstMetric (blacklisted_desc c) GaugeValue (float64 v) []] else []) ++
  [MustNewConstMetric (buildInfo c) GaugeValue 1 [c_version c; c_iface c; fmt_d (c_port c)];
   MustNewConstMetric (attached c) GaugeValue (boolToF (c_xdpAttached c)) ["xdp"];
   MustNewConstMetric (attached c) GaugeValue (boolToF (c_sockopsAttached c)) ["sockops"]].
(** [None]: a panic. *)
Definition Collect (c : Collector) (load : MapSizes) : option (list metric) :=
  mapM id (collect_sends c load).
End Collect.
