(* ===== verification/CollectorProps.v ===== *)
(** * What the collector exports

    [collected] is the collection without the panics of the library: the counters as a
    table over the counters of the datapath, the gauges as a table over the maps. *)
From S2P Require Import Prelude Kernel World Health XdpAccounting GoBase GoSys Layout Pins GoLogic Labels Report Loader Api Collector.
From Stdlib Require Import Ascii.

Local Open Scope string_scope.
Local Open Scope list_scope.
Local Open Scope Z_scope.

(** ** Names *)

(** The series of each counter of the datapath. *)
Definition series_of_stat (s : minecraft_stat) : string * list string :=
  let drop reason := ("minecraft_xdp_packets_total", ["drop"; "tcp"; reason]) in
  match s with
  | STAT_PASS_TCP => ("minecraft_xdp_packets_total", ["pass"; "tcp"; ""])
  | STAT_TCP_ESTABLISHED_INSERTS => ("minecraft_tcp_established_inserts_total", [])
  | STAT_TCP_L7_PROMOTED => ("minecraft_tcp_l7_promoted_total", [])
  | STAT_TCP_L7_MATCH_NO_EST => ("minecraft_tcp_l7_match_no_established_total", [])
  | STAT_TCP_HANDSHAKE_STATUS_SEEN => ("minecraft_tcp_handshake_status_seen_total", [])
  | STAT_TCP_HANDSHAKE_LOGIN_SEEN => ("minecraft_tcp_handshake_login_seen_total", [])
  | STAT_DROP_TCP_NO_SYN => drop "no_syn"
  | STAT_DROP_TCP_TOO_MANY_OPEN => drop "too_many_open"
  | STAT_DROP_TCP_GLOBAL_RATELIMIT => drop "global_ratelimit"
  | STAT_DROP_STATUS_RATELIMIT => drop "status_ratelimit"
  | STAT_DROP_LOGIN_RATELIMIT => drop "login_ratelimit"
  | STAT_DROP_MALFORMED_HANDSHAKE => drop "malformed_handshake"
  | STAT_DROP_TCP_UNHEALTHY => drop "unhealthy"
  | STAT_DROP_TCP_BAD_FLAGS => drop "bad_flags"
  | STAT_DROP_CONN_RATELIMIT => drop "conn_ratelimit"
  | STAT_DROP_TCP_CONN_RATE => drop "conn_rate"
  end.
(** The cell and the map of each per-IP map that is exported. *)
Definition cell_of {V} (i : mapid V) : option size_field :=
  match i with
  | WHITELIST => Some whitelist | ESTABLISHED => Some established | SYN_SEEN => Some synSeen
  | OPEN_COUNT => Some openCount | STATUS_RL => Some statusRL | LOGIN_RL => Some loginRL
  | SYN_RL => Some synRL | CONN_RL => Some connRL | HEALTH => Some health_size
  | DROP_HISTORY => Some dropHistory | FIRST_DATA => None
  end.
Definition map_of {V} (i : mapid V) (m : Maps) : option pinned :=
  match i with
  | WHITELIST => M_Whitelist m | ESTABLISHED => M_Established m | SYN_SEEN => M_SynSeen m
  | OPEN_COUNT => M_OpenCount m | STATUS_RL => M_StatusRL m | LOGIN_RL => M_LoginRL m
  | SYN_RL => M_SynRL m | CONN_RL => M_ConnRL m | HEALTH => M_Health m
  | DROP_HISTORY => M_DropHistory m | FIRST_DATA => None
  end.

(** ** ASCII label values *)
Definition is_ascii (s : string) : Prop :=
  Forall (λ c, byte_of c < 128) (String.list_ascii_of_string s).
Lemma ascii_cons c s : byte_of c < 128 → is_ascii s → is_ascii (String c s).
Proof. intros. unfold is_ascii. simpl. by constructor. Qed.
Lemma ascii_pretty_N_go x s : is_ascii s → is_ascii (pretty_N_go x s).
Proof.
  revert s. induction (N.lt_wf_0 x) as [x _ IH]; intros s Hs.
  destruct (decide (0 < x)%N) as [Hx|Hx].
  - rewrite pretty_N_go_step by done. apply IH; [by apply N.div_lt|].
    apply ascii_cons; [|done]. unfold pretty_N_char.
    repeat case_match; vm_compute; reflexivity.
  - replace x with 0%N by lia. by rewrite pretty_N_go_0.
Qed.
Lemma ascii_pretty_N (x : N) : is_ascii (pretty x).
Proof.
  unfold pretty, pretty_N. case_decide; [by repeat constructor|].
  apply ascii_pretty_N_go. by constructor.
Qed.
Lemma ascii_fmt_d x : is_ascii (fmt_d x).
Proof.
  unfold fmt_d. destruct x as [|p|p]; [by repeat constructor|apply ascii_pretty_N|].
  apply (ascii_cons "-"%char); [done|]. apply ascii_pretty_N.
Qed.

(** ** [float64] *)
(** Exact up to 2^53, and never further off than one part in 2^53. *)
Lemma float64_exact x : x < 2 ^ 53 → float64 x = x.
Proof. intros H. unfold float64. by rewrite (proj2 (Z.ltb_lt _ _) H). Qed.
Lemma float64_close x : 0 ≤ x → Z.abs (float64 x - x) * 2 ^ 53 ≤ x.
Proof.
  intros Hx. unfold float64. destruct (Z.ltb_spec x (2 ^ 53)) as [|Hge]; [lia|].
  pose proof (Z.log2_spec x ltac:(lia)) as [Hlo _].
  assert (52 < Z.log2 x) by (apply Z.log2_lt_pow2 in Hge || apply Z.lt_le_trans with 53;
    [lia|]; apply Z.log2_le_pow2; lia).
  set (e := Z.log2 x - 52) in *.
  assert (He : 2 ^ Z.log2 x = 2 ^ 52 * 2 ^ e) by (rewrite <- Z.pow_add_r by lia; f_equal; lia).
  assert (Hu : 0 < 2 ^ e) by (apply Z.pow_pos_nonneg; lia).
  set (u := 2 ^ e) in *.
  pose proof (Z.div_mod x u ltac:(lia)). pose proof (Z.mod_pos_bound x u Hu).
  destruct ((u <? 2 * (x mod u)) || _) eqn:E.
  - apply orb_true_iff in E as [E|E].
    + apply Z.ltb_lt in E. nia.
    + apply andb_true_iff in E as [E _]. apply Z.eqb_eq in E. nia.
  - apply orb_false_iff in E as [E _]. apply Z.ltb_ge in E. nia.
Qed.

(** ** The collection as a list *)
Definition stat_order : list minecraft_stat := [
  STAT_PASS_TCP; STAT_DROP_TCP_NO_SYN; STAT_DROP_TCP_TOO_MANY_OPEN;
  STAT_DROP_TCP_GLOBAL_RATELIMIT; STAT_DROP_STATUS_RATELIMIT; STAT_DROP_LOGIN_RATELIMIT;
  STAT_DROP_MALFORMED_HANDSHAKE; STAT_DROP_TCP_UNHEALTHY; STAT_DROP_TCP_BAD_FLAGS;
  STAT_DROP_CONN_RATELIMIT; STAT_DROP_TCP_CONN_RATE; STAT_TCP_ESTABLISHED_INSERTS;
  STAT_TCP_L7_PROMOTED; STAT_TCP_L7_MATCH_NO_EST; STAT_TCP_HANDSHAKE_STATUS_SEEN;
  STAT_TCP_HANDSHAKE_LOGIN_SEEN].
Definition desc_of_stat (c : Collector) (s : minecraft_stat) : Desc :=
  match s with
  | STAT_TCP_ESTABLISHED_INSERTS => inserts c | STAT_TCP_L7_PROMOTED => promoted c
  | STAT_TCP_L7_MATCH_NO_EST => noEst c | STAT_TCP_HANDSHAKE_STATUS_SEEN => statusSeen c
  | STAT_TCP_HANDSHAKE_LOGIN_SEEN => loginSeen c | _ => packets c
  end.
Definition size_gauges : list (string * size_field) := [
  ("tcp_whitelist", whitelist); ("tcp_established", established); ("tcp_syn_seen", synSeen);
  ("tcp_open_count", openCount); ("status_ratelimit", statusRL); ("login_ratelimit", loginRL);
  ("syn_ratelimit", synRL); ("conn_ratelimit", connRL); ("health", health_size);
  ("ip_drop_history", dropHistory)].

Definition counters_part (c : Collector) (sums : list Z) : list metric :=
  (λ s, Metric (desc_of_stat c s) CounterValue (float64 (sums !!! stat_slot s)) (series_of_stat s).2)
    <$> stat_order.
Definition gauge_part (c : Collector) (load : MapSizes) (g : string * size_field) : list metric :=
  if load g.2 <? 0 then [] else [Metric (mapSize c) GaugeValue (float64 (load g.2)) [g.1]].
Definition last_part (c : Collector) (load : MapSizes) : list metric :=
  (if 0 <=? load blacklisted
   then [Metric (blacklisted_desc c) GaugeValue (float64 (load blacklisted)) []] else []) ++
  [Metric (buildInfo c) GaugeValue 1 [c_version c; c_iface c; fmt_d (c_port c)];
   Metric (attached c) GaugeValue (boolToF (c_xdpAttached c)) ["xdp"];
   Metric (attached c) GaugeValue (boolToF (c_sockopsAttached c)) ["sockops"]].
Definition collected (c : Collector) (load : MapSizes) : list metric :=
  counters_part c (slot_sums (M_Stats (maps c))) ++ (size_gauges ≫= gauge_part c load) ++
  last_part c load.

Section Collected.
Context (valid_string : string → bool) (Hvalid : ∀ s, is_ascii s → valid_string s = true).
Context (mps : Maps) (iface version : string) (port : Z) (xdp sockops : bool).
Context (Hi : is_ascii iface) (Hv : is_ascii version).
Let c := NewCollector mps iface port version xdp sockops.

Lemma const_metric d t v labels : length labels = length (variableLabels d) →
  Forall is_ascii labels →
  MustNewConstMetric valid_string d t v labels = Some (Metric d t v labels).
Proof.
  intros Hl Ha. unfold MustNewConstMetric. rewrite Hl, Nat.eqb_refl.
  assert (Hf : forallb valid_string labels = true); [|by rewrite Hf].
  apply Is_true_eq_true, forallb_True, (Forall_impl _ _ _ Ha). intros s Hs.
  by rewrite Hvalid.
Qed.
Lemma map_size_part name v : is_ascii name →
  map_size valid_string c name v =
    Some <$> (if v <? 0 then [] else [Metric (mapSize c) GaugeValue (float64 v) [name]]).
Proof.
  intros. unfold map_size. destruct (v <? 0); [done|].
  rewrite const_metric; [done|done|]. by constructor.
Qed.
Lemma collect_sends_part load :
  collect_sends valid_string c load = Some <$> collected c load.
Proof.
  unfold collected. rewrite !fmap_app. unfold collect_sends. f_equal.
  - unfold emit, counter. rewrite !const_metric; [done|..]; done || (by repeat constructor).
  - unfold size_gauges. cbn [mbind list_bind]. rewrite !fmap_app.
    rewrite !map_size_part by (by repeat constructor). rewrite <- !app_assoc.
    unfold gauge_part. cbn [fst snd]. do 10 f_equal. rewrite fmap_nil, app_nil_l.
    unfold last_part. rewrite fmap_app. f_equal.
    + destruct (0 <=? load blacklisted); [|done]. rewrite const_metric; [done|done|constructor].
    + rewrite !const_metric; [done|..]; try done; repeat constructor; try done.
      apply ascii_fmt_d.
Qed.
Lemma Collect_collected load : Collect valid_string c load = Some (collected c load).
Proof.
  unfold Collect. rewrite collect_sends_part. by apply mapM_fmap_Some.
Qed.

(** The identities that can appear. *)
Definition all_ids : list (string * list string) :=
  (series_of_stat <$> stat_order) ++
  ((λ g, ("minecraft_map_entries", [g.1])) <$> size_gauges) ++
  [("minecraft_health_blacklisted_ips", []);
   ("minecraft_build_info", [version; iface; fmt_d port]);
   ("minecraft_attached", ["xdp"]); ("minecraft_attached", ["sockops"])].
Lemma all_ids_NoDup : NoDup all_ids.
Proof. apply (bool_decide_unpack _). reflexivity. Qed.
Lemma gauges_ids load : metric_id <$> (size_gauges ≫= gauge_part c load) `sublist_of`
  (λ g, ("minecraft_map_entries", [g.1])) <$> size_gauges.
Proof.
  induction size_gauges as [|g l IH]; [constructor|]. rewrite bind_cons, fmap_app.
  rewrite fmap_cons. unfold gauge_part at 1.
  destruct (load g.2 <? 0); [by apply sublist_cons|by apply sublist_skip].
Qed.
Lemma collected_ids load : metric_id <$> collected c load `sublist_of` all_ids.
Proof.
  unfold collected, all_ids. rewrite !fmap_app. apply sublist_app; [done|].
  apply sublist_app; [apply gauges_ids|]. unfold last_part.
  destruct (0 <=? load blacklisted); simpl; [done|]. by constructor.
Qed.
Lemma collected_NoDup load : NoDup (metric_id <$> collected c load).
Proof. eapply sublist_NoDup; [apply all_ids_NoDup|apply collected_ids]. Qed.

Lemma collected_desc load m : m ∈ collected c load →
  m_desc m ∈ Describe c ∧ length (m_labels m) = length (variableLabels (m_desc m)).
Proof.
  unfold collected. rewrite !elem_of_app. intros [Hm|[Hm|Hm]].
  - apply list_elem_of_fmap in Hm as (s & -> & Hs). cbn [m_desc m_labels].
    split; [|by destruct s]. unfold Describe. clear Hs. destruct s; cbn; set_solver.
  - apply list_elem_of_bind in Hm as (g & Hm & _). unfold gauge_part in Hm.
    destruct (load g.2 <? 0); [by apply not_elem_of_nil in Hm|].
    apply list_elem_of_singleton in Hm as ->. cbn. split; [set_solver|done].
  - unfold last_part in Hm. apply elem_of_app in Hm as [Hm|Hm].
    + destruct (0 <=? _); [|by apply not_elem_of_nil in Hm].
      apply list_elem_of_singleton in Hm as ->. cbn. split; [set_solver|done].
    + rewrite !elem_of_cons in Hm.
      destruct Hm as [->|[->|[->|[]%not_elem_of_nil]]]; cbn; (split; [set_solver|done]).
Qed.
End Collected.

(** ** Theorems *)

Lemma filter_by_id (ms : list metric) m : NoDup (metric_id <$> ms) → m ∈ ms →
  filter (λ x, metric_id x = metric_id m) ms = [m].
Proof.
  induction ms as [|x ms IH]; [by intros _ ?%not_elem_of_nil|]. rewrite fmap_cons.
  intros [Hx Hnd]%NoDup_cons Hm. rewrite filter_cons. case_decide as Heq.
  - assert (x = m) as ->.
    { apply elem_of_cons in Hm as [|Hm]; [done|]. destruct Hx. rewrite Heq.
      by apply list_elem_of_fmap_2. }
    f_equal. destruct (filter _ ms) as [|y l] eqn:E; [done|].
    assert (Hy : y ∈ filter (λ x, metric_id x = metric_id m) ms) by (rewrite E; constructor).
    apply list_elem_of_filter in Hy as [Hid Hy]. destruct Hx. rewrite <- Hid.
    by apply list_elem_of_fmap_2.
  - apply elem_of_cons in Hm as [->|Hm]; [done|]. by apply IH.
Qed.

(** What the collector makes of one counter. *)
Definition slot_value (stats : nat → go (list Z)) (s : minecraft_stat) : Z :=
  match stats (stat_slot s) with inl _ => 0 | inr perCPU => u64 (sumZ perCPU) end.
Lemma slot_sums_value stats s : slot_sums stats !!! stat_slot s = slot_value stats s.
Proof.
  unfold slot_value. destruct s; cbn; destruct (stats _); try done; apply sum_u64_sumZ.
Qed.

(** The registry accepts the collector: building the metrics never panics, whatever
    the maps and the counters hold; every metric has a descriptor that [Describe]
    announced, with as many label values as it has labels; no two metrics of a
    collection have the same name and labels; and the descriptors have distinct names. *)
Theorem collector_registers valid_string mps iface version port xdp sockops load :
  (∀ s, is_ascii s → valid_string s = true) → is_ascii iface → is_ascii version →
  let c := NewCollector mps iface port version xdp sockops in
  ∃ ms, Collect valid_string c load = Some ms ∧
    (∀ m, m ∈ ms → m_desc m ∈ Describe c ∧
       length (m_labels m) = length (variableLabels (m_desc m))) ∧
    NoDup (metric_id <$> ms) ∧ NoDup (fqName <$> Describe c).
Proof.
  intros Hv Hi Hver c. exists (collected c load). split_and!.
  - by apply Collect_collected.
  - intros m. by apply (collected_desc valid_string).
  - apply collected_NoDup.
  - apply (bool_decide_unpack _). reflexivity.
Qed.

(** C35. The collector exports every counter of the datapath under its own series: the
    one metric with the name and labels of counter [s] is a counter whose value is the
    float64 of the per-CPU values of slot [s] added modulo 2^64, 0 when the slot cannot
    be read; on the pinned counters of a state that is the total of [s] over the CPUs. *)
Theorem collector_exports_counters valid_string mps iface version port xdp sockops load :
  (∀ s, is_ascii s → valid_string s = true) → is_ascii iface → is_ascii version →
  let c := NewCollector mps iface port version xdp sockops in
  ∃ ms, Collect valid_string c load = Some ms ∧
    (∀ s, ∃ d, filter (λ m, metric_id m = series_of_stat s) ms =
       [Metric d CounterValue (float64 (slot_value (M_Stats mps) s)) (series_of_stat s).2]) ∧
    ∀ (M : Type → Type) (w : world M) m, M_Stats mps = percpu m → shows_stats w m →
      ∀ s, slot_value (M_Stats mps) s = u64 (stat_total s w).
Proof.
  intros Hv Hi Hver c. exists (collected c load). split_and!.
  - by apply Collect_collected.
  - intros s. exists (desc_of_stat c s).
    set (m := Metric _ _ _ _). assert (Hid : series_of_stat s = metric_id m) by (by destruct s).
    rewrite Hid. apply filter_by_id; [apply collected_NoDup|].
    unfold collected. apply elem_of_app. left. unfold m. rewrite <- slot_sums_value.
    unfold counters_part. apply list_elem_of_fmap. exists s. split; [done|].
    destruct s; unfold stat_order; set_solver.
  - intros M w m -> Hm s. unfold slot_value. by rewrite Hm by apply stat_slot_lt.
Qed.

(** *** Sizes *)
Section Sizes.
Context {M : Type → Type} `{!BpfMap M, !BpfMapLaws M}.
Implicit Types (w : world M) (e : kenv).

(** The map, when there is one, shows the state [w]. *)
Definition shown_or_nil {V} (i : mapid V) w (m : option pinned) : Prop :=
  ∀ m', m = Some m' → ∃ rows, shows i w m' rows.
(** Map [i] of [w] has [n] entries. *)
Definition entry_count {V} (i : mapid V) w (n : Z) : Prop :=
  ∃ rows, lists i w rows ∧ n = Z.of_nat (length rows).

Lemma iterate_raw_length es err : length (iterate_from d_raw es err).1 = length es.
Proof.
  induction es as [|[k b] es IH]; [done|]. cbn [iterate_from]. unfold decode, d_raw at 1.
  destruct (iterate_from d_raw es err) as [r e'] eqn:E. cbn [fst length] in *. by rewrite IH.
Qed.
Lemma countKeys_shown {V} (i : mapid V) w m rows : shows i w m rows →
  countKeys (Some m) = Z.of_nat (length rows).
Proof.
  intros (_ & Hl & _). unfold countKeys, iterate. rewrite iterate_raw_length.
  by rewrite (Forall2_length _ _ _ Hl).
Qed.
Lemma countKeys_count {V} (i : mapid V) w m : shown_or_nil i w m →
  match m with None => countKeys m = -1 | Some _ => entry_count i w (countKeys m) end.
Proof.
  destruct m as [m|]; [|done]. intros H. destruct (H m eq_refl) as (rows & Hs).
  exists rows. split; [apply Hs|]. by apply (countKeys_shown i w).
Qed.

Lemma store_none l f sz : f ∉ l.*1 → store_all l sz f = sz f.
Proof.
  revert sz. induction l as [|[g v] l IH]; intros sz Hf; [done|].
  cbn in Hf. apply not_elem_of_cons in Hf as [Hg Hf]. change (store_all l (Store g v sz) f = sz f). rewrite IH by done. unfold Store. simpl. by rewrite decide_False.
Qed.
Lemma store_once l f v sz : (f, v) ∈ l → NoDup l.*1 → store_all l sz f = v.
Proof.
  revert sz. induction l as [|[g u] l IH]; intros sz Hf; [by apply not_elem_of_nil in Hf|].
  intros [Hg Hnd]%NoDup_cons. change (store_all l (Store g u sz) f = v).
  apply elem_of_cons in Hf as [[= -> ->]|Hf]; [|by apply IH].
  rewrite store_none by done. unfold Store. by rewrite decide_True.
Qed.
Definition blacklist_size (s : sys) (m : option pinned) : Z :=
  match m with
  | None => -1
  | Some m => count_blacklisted (boot_reading s) (iterate d_health m).1
  end.
Lemma countHealth_run w m s : shown_or_nil HEALTH w m →
  ∃ s', countHealth m s = (Done (countKeys m, blacklist_size s m), s').
Proof.
  destruct m as [m|]; [|by eexists]. intros H. destruct (H m eq_refl) as (rows & Hs).
  unfold countHealth. rewrite (bind_done _ _ _ _ _ (bootTimeNS_run s)). eexists.
  unfold mret, io_ret. rewrite (countKeys_shown HEALTH w m rows Hs). unfold blacklist_size.
  pose proof (iterate_shows HEALTH w m rows Hs) as Hi. cbn [dec_of] in Hi. by rewrite Hi.
Qed.
Lemma take_elem {A} (x : A) n l : x ∈ take n l → x ∈ l.
Proof. rewrite elem_of_take. intros (i & Hi & _). by eapply list_elem_of_lookup_2. Qed.
Lemma refreshSizes_run w mps sz s : shown_or_nil HEALTH w (M_Health mps) →
  ∃ sz' s', refreshSizes mps sz s = (Done sz', s') ∧
    (∀ V (i : mapid V) f, cell_of i = Some f → sz' f = countKeys (map_of i mps)) ∧
    sz' blacklisted = blacklist_size s (M_Health mps).
Proof.
  intros H. destruct (countHealth_run w _ s H) as (s' & Hrun).
  unfold refreshSizes, refresh_stores, mbind, io_bind. rewrite Hrun.
  unfold mret, io_ret. cbn [fst snd]. eexists _, _. split; [reflexivity|]. split; [|done].
  intros V i f Hf. by destruct i; simplify_eq/=.
Qed.

(** The sources the datapath drops as unhealthy, counted. *)
Definition blacklist_count e w (n : Z) : Prop :=
  ∃ ks, NoDup ks ∧ (∀ k, k ∈ ks ↔ blocked e w k) ∧ n = Z.of_nat (length ks).
Lemma blacklist_size_shown e w m rows s : shows HEALTH w m rows →
  boot_ns e (clock_reads w) = boot_reading s →
  blacklist_count e w (blacklist_size s (Some m)).
Proof.
  intros Hs Hnow. pose proof (iterate_shows HEALTH w m rows Hs) as Hi. cbn [dec_of] in Hi.
  unfold blacklist_size, count_blacklisted. rewrite Hi. cbn [fst].
  exists (filter (λ r : ipkey * ip_health, boot_reading s < blacklist_until_ns r.2) rows).*1.
  destruct Hs as ((Hnd & Hin) & _). split_and!; [| |by rewrite length_fmap].
  - by eapply sublist_NoDup, fmap_sublist, sublist_filter.
  - intros k. rewrite list_elem_of_fmap. split.
    + intros ([k' h] & -> & [Hb Hr]%list_elem_of_filter).
      by apply (blocked_row e w rows (boot_reading s) (k', h)).
    + intros Hb. assert (Hk : ∃ h, bpf_lookup k (get_map HEALTH w) = Some h).
      { unfold blocked in Hb. rewrite health_is_blacklisted_run in Hb. unfold health_entry in Hb.
        cbn [fst] in Hb. destruct (bpf_lookup k (get_map HEALTH w)) as [h|]; [by exists h|done]. }
      destruct Hk as (h & Hk%Hin). exists (k, h). split; [done|].
      apply list_elem_of_filter. split; [|done].
      by apply (blocked_row e w rows (boot_reading s) (k, h)).
Qed.

(** The value of a series in a collection, if it is there. *)
Definition series (ms : list metric) (id : string * list string) : option Z :=
  m_value <$> head (filter (λ m, metric_id m = id) ms).
Lemma series_in ms m : NoDup (metric_id <$> ms) → m ∈ ms →
  series ms (metric_id m) = Some (m_value m).
Proof. intros. unfold series. by rewrite filter_by_id. Qed.
Lemma series_not_in ms id : (∀ m, m ∈ ms → metric_id m ≠ id) → series ms id = None.
Proof.
  intros H. unfold series. destruct (filter _ ms) as [|y l] eqn:E; [done|].
  assert (Hy : y ∈ filter (λ x, metric_id x = id) ms) by (rewrite E; constructor).
  apply list_elem_of_filter in Hy as [Hid Hy]. by destruct (H y Hy).
Qed.
Lemma cell_gauge {V} (i : mapid V) f : cell_of i = Some f → (pin_name i, f) ∈ size_gauges.
Proof.
  intros Hf. apply list_elem_of_In. destruct i; simpl in Hf; simplify_eq; simpl; tauto.
Qed.

Section Gauges.
Context (mps : Maps) (iface version : string) (port : Z) (xdp sockops : bool) (load : MapSizes).
Let c := NewCollector mps iface port version xdp sockops.

Lemma entries_series name m : m ∈ collected c load →
  metric_id m = ("minecraft_map_entries", [name]) →
  ∃ f, (name, f) ∈ size_gauges ∧ 0 ≤ load f ∧ m_value m = float64 (load f).
Proof.
  unfold collected. rewrite !elem_of_app. intros [Hm|[Hm|Hm]] Hid.
  - apply list_elem_of_fmap in Hm as (s & -> & Hs). by destruct s.
  - apply list_elem_of_bind in Hm as (g & Hm & Hg). unfold gauge_part in Hm.
    destruct (Z.ltb_spec (load g.2) 0); [by apply not_elem_of_nil in Hm|].
    apply list_elem_of_singleton in Hm as ->. destruct g as [n f]. injection Hid as ->.
    by exists f.
  - unfold last_part in Hm. apply elem_of_app in Hm as [Hm|Hm].
    + destruct (0 <=? _); [|by apply not_elem_of_nil in Hm].
      by apply list_elem_of_singleton in Hm as ->.
    + rewrite !elem_of_cons in Hm. by destruct Hm as [->|[->|[->|[]%not_elem_of_nil]]].
Qed.
Lemma gauge_cell_unique name f f' : (name, f) ∈ size_gauges → (name, f') ∈ size_gauges → f = f'.
Proof.
  unfold size_gauges. rewrite !elem_of_cons.
  assert (∀ (x : string * size_field), x ∉ []) as Hnil by (intros; apply not_elem_of_nil).
  intros H H'. repeat (destruct H as [H|H]; [simplify_eq; repeat (destruct H' as [H'|H'];
    [by simplify_eq|]); by apply Hnil in H'|]). by apply Hnil in H.
Qed.
(** A size below zero is no gauge, any other size is one. *)
Lemma series_gauge name f : (name, f) ∈ size_gauges →
  series (collected c load) ("minecraft_map_entries", [name]) =
    if load f <? 0 then None else Some (float64 (load f)).
Proof.
  intros Hf. destruct (Z.ltb_spec (load f) 0) as [Hneg|Hpos].
  - apply series_not_in. intros m Hm Hid.
    destruct (entries_series name m Hm Hid) as (f' & Hf' & Hpos & _).
    rewrite (gauge_cell_unique name f' f) in Hpos by done. lia.
  - apply (series_in _ (Metric (mapSize c) GaugeValue (float64 (load f)) [name])).
    { apply collected_NoDup. }
    unfold collected. rewrite !elem_of_app. right. left.
    apply list_elem_of_bind. exists (name, f). split; [|done]. unfold gauge_part.
    cbn [fst snd]. rewrite (proj2 (Z.ltb_ge _ _) Hpos). by apply list_elem_of_singleton.
Qed.
Lemma series_blacklisted :
  0 ≤ load blacklisted →
  series (collected c load) ("minecraft_health_blacklisted_ips", []) =
    Some (float64 (load blacklisted)).
Proof.
  intros Hpos.
  apply (series_in _ (Metric (blacklisted_desc c) GaugeValue (float64 (load blacklisted)) [])).
  { apply collected_NoDup. }
  unfold collected. rewrite !elem_of_app. right. right. unfold last_part.
  rewrite (proj2 (Z.leb_le _ _) Hpos). by left.
Qed.
End Gauges.

(** C36. The gauges show the maps: after a refresh on maps that show the state [w], a
    collection has for each of the ten exported maps the gauge named after its pin,
    holding (the float64 of) its number of entries, and none for a nil map; the
    blacklist gauge holds the number of sources the datapath would drop as unhealthy
    when the refresh read the clock; tcp_first_data is not exported. *)
Theorem gauges_show_maps valid_string mps iface version port xdp sockops sz e w s :
  (∀ s, is_ascii s → valid_string s = true) → is_ascii iface → is_ascii version →
  (∀ V (i : mapid V), shown_or_nil i w (map_of i mps)) →
  boot_ns e (clock_reads w) = boot_reading s →
  let c := NewCollector mps iface port version xdp sockops in
  ∃ sz' s' ms, refreshSizes mps sz s = (Done sz', s') ∧
    Collect valid_string c sz' = Some ms ∧
    (∀ V (i : mapid V),
      let g := series ms ("minecraft_map_entries", [pin_name i]) in
      match map_of i mps with
      | None => g = None
      | Some _ => ∃ n, entry_count i w n ∧ g = Some (float64 n)
      end) ∧
    (M_Health mps ≠ None → ∃ n, blacklist_count e w n ∧
      series ms ("minecraft_health_blacklisted_ips", []) = Some (float64 n)).
Proof.
  intros Hv Hi Hver Hshow Hnow c.
  destruct (refreshSizes_run w mps sz s (Hshow _ HEALTH)) as (sz' & s' & Hrun & Hcells & Hbl).
  exists sz', s', (collected c sz'). split_and!; [done|by apply Collect_collected|..].
  - intros V i. cbv zeta. destruct (cell_of i) as [f|] eqn:Hf.
    + unfold c. rewrite (series_gauge _ _ _ _ _ _ _ _ f (cell_gauge i f Hf)), (Hcells _ _ _ Hf).
      pose proof (countKeys_count i w _ (Hshow _ i)) as Hc.
      destruct (map_of i mps); [|by rewrite Hc].
      destruct Hc as (rows & Hl & Hc). exists (Z.of_nat (length rows)).
      split; [by exists rows|]. rewrite Hc. by rewrite (proj2 (Z.ltb_ge _ _)) by lia.
    + assert (Hnone : map_of i mps = None) by (by destruct i). rewrite Hnone.
      apply series_not_in. intros m Hm Hid.
      destruct (entries_series _ _ _ _ _ _ _ _ _ Hm Hid) as (f & Hg & _).
      destruct i; try done. apply list_elem_of_In in Hg. simpl in Hg. naive_solver.
  - intros Hm. destruct (M_Health mps) as [m|] eqn:Em; [|done].
    destruct (Hshow _ HEALTH m Em) as (rows & Hs).
    pose proof (blacklist_size_shown e w m rows s Hs Hnow) as Hc.
    exists (blacklist_size s (Some m)). split; [done|].
    unfold c. rewrite series_blacklisted, Hbl; [done|]. rewrite Hbl.
    destruct Hc as (ks & _ & _ & ->). lia.
Qed.

(** A collection that runs while a refresh stores its results sees every size
    either as it was before the refresh or as the refresh leaves it: whatever number of
    stores has happened when a cell is loaded, the value is one of the two. *)
Theorem collect_during_refresh mps s sz (done_stores : size_field → nat) :
  ∃ l s' sz', refresh_stores mps s = (Done l, s') ∧ refreshSizes mps sz s = (Done sz', s') ∧
    (length l = 11)%nat ∧
    ∀ f, store_all (take (done_stores f) l) sz f = sz f ∨
         store_all (take (done_stores f) l) sz f = sz' f.
Proof.
  assert (Hrun : ∃ l s', refresh_stores mps s = (Done l, s') ∧ (length l = 11)%nat ∧ NoDup l.*1).
  { unfold refresh_stores, countHealth.
    destruct (M_Health mps); eexists _, _; (split; [reflexivity|]); (split; [done|]);
      by apply (bool_decide_unpack _). }
  destruct Hrun as (l & s' & Hrun & Hlen & Hnd). exists l, s', (store_all l sz).
  split; [done|]. split; [unfold refreshSizes; by rewrite (bind_done _ _ _ _ _ Hrun)|].
  split; [done|]. intros f.
  destruct (decide (f ∈ (take (done_stores f) l).*1)) as [Hin|Hin]; [right|left; by apply store_none].
  apply list_elem_of_fmap in Hin as ((f' & v) & -> & Hin). cbn [fst] in *.
  rewrite (store_once l f' v); [|by eapply take_elem|done].
  apply store_once; [done|]. eapply sublist_NoDup; [exact Hnd|].
  apply fmap_sublist, sublist_take.
Qed.
End Sizes.
