(* ===== verification/Run.v ===== *)
(** * The entry point and the daemon ([main.go], [run.go])

    [main] dispatches on the first argument.  [cmdRun] turns its flags into the options
    of the loader, the limits the API reports and the maps of the collector, serves HTTP
    until a signal, and releases what it loaded.  [run_flags] holds the values of the
    flags, which [CommandLine] parses; [Daemon] runs its goroutines side by side. *)
From S2P Require Import Prelude Kernel World GoBase GoSys GoLogic Report Top Loader LoaderProps LoadHandles Api ApiProps Collector CollectorProps.

Local Open Scope string_scope.
Local Open Scope list_scope.
Local Open Scope Z_scope.

(** ** main.go *)
Inductive command := Run | Info | Dump | Stats_ | Clear | Inspect | Top_ | Health_.
Definition command_of (name : string) : option command :=
  if bool_decide (name = "run") then Some Run
  else if bool_decide (name = "info") then Some Info
  else if bool_decide (name = "dump") then Some Dump
  else if bool_decide (name = "stats") then Some Stats_
  else if bool_decide (name = "clear") then Some Clear
  else if bool_decide (name = "inspect") then Some Inspect
  else if bool_decide (name = "top") then Some Top_
  else if bool_decide (name = "health") then Some Health_
  else None.
Definition is_help (name : string) : bool := bool_decide (name ∈ ["-h"; "--help"; "help"]).

Definition usage_lines : list string := [
  "minecraft-ebpf " +:+ em_dash +:+ " XDP + sockops DDoS filter for Minecraft (Java Edition)";
  "";
  "Usage:";
  "  minecraft-ebpf run     [flags]                 daemon (see --help)";
  "  minecraft-ebpf info                            daemon overview: counters + map sizes";
  "  minecraft-ebpf stats   [--json] [--watch 1s]   per-CPU stat counters";
  "  minecraft-ebpf top     --map M [-n 10]         hottest IPs in a per-IP map";
  "  minecraft-ebpf inspect <ipv4> [--watch 1s]     all per-IP state for one address";
  "  minecraft-ebpf dump    --map M                 dump a per-IP map";
  "  minecraft-ebpf health  [--all]                 currently-blacklisted IPs (--all: include tracked-but-not-banned)";
  "  minecraft-ebpf clear   --map M [--ip A]        wipe a map, or one IP from it";
  "";
  "M is one of: whitelist, established, syn-seen, open-count, status-ratelimit, login-ratelimit, health, drop-history, all"].
Definition usage : io unit := for_each usage_lines eprintln.

Section Main.
(** The commands with their arguments still to parse. *)
Context (cmd : command → list string → io unit).

(** [os.Args], the name of the program first. *)
Definition main (argv : list string) : io unit :=
  match argv with
  | _ :: name :: args =>
    match command_of name with
    | Some c => cmd c args
    | None => if is_help name then usage else usage;; os_Exit 2
    end
  | _ => usage;; os_Exit 2
  end.

Lemma usage_run s : usage s =
  (Done tt, set_trace (trace s ++ ((λ l, (Stderr, l +:+ newline)) <$> usage_lines)) s).
Proof.
  assert (H : ∀ l, Prints (for_each l eprintln) ((λ t, (Stderr, t +:+ newline)) <$> l)).
  { intros l. replace ((λ t, (Stderr, t +:+ newline)) <$> l)
      with (l ≫= λ t, [(Stderr, t +:+ newline)]).
    - apply prints_for_each. intros t. apply prints_fprint.
    - induction l as [|t l IH]; [done|]. rewrite bind_cons, IH. done. }
  apply H.
Qed.

(** The first argument decides: a command gets the arguments after it and nothing
    else happens; help prints the usage and succeeds; anything else, or nothing,
    prints the usage on stderr and exits with 2. *)
Lemma main_dispatch argv s :
  let printed := set_trace (trace s ++ ((λ l, (Stderr, l +:+ newline)) <$> usage_lines)) s in
  match argv with
  | _ :: name :: args =>
    match command_of name with
    | Some c => main argv s = cmd c args s
    | None => main argv s = ((if is_help name then Done tt else Exit 2), printed)
    end
  | _ => main argv s = (Exit 2, printed)
  end.
Proof.
  assert (Hu : (usage;; os_Exit 2) s = (Exit 2 : outcome unit,
    set_trace (trace s ++ ((λ l, (Stderr, l +:+ newline)) <$> usage_lines)) s)).
  { rewrite (bind_done _ _ _ _ _ (usage_run s)). done. }
  destruct argv as [|p [|name args]]; simpl; [exact Hu|exact Hu|].
  destruct (command_of name); [done|]. destruct (is_help name); [apply usage_run|exact Hu].
Qed.
End Main.

(** ** run.go *)
Record run_flags := RunFlags {
  f_iface : string; f_port : Z; f_ttl : Z; f_metricsAddr : string; f_cgroup : string;
  f_pinPath : string; f_statusRate : Z; f_statusBurst : Z; f_loginRate : Z; f_loginBurst : Z;
  f_tcpGlobalRate : Z; f_tcpGlobalBurst : Z; f_tcpMaxOpenPerIP : Z; f_connPPS : Z;
  f_connBurst : Z; f_connBPS : Z; f_connByteBurst : Z; f_connNewRate : Z; f_connNewBurst : Z;
  f_healthWindow : Z; f_healthThreshold : Z; f_healthBlacklist : Z; f_sizeInterval : Z }.
Definition default_flags : run_flags := {|
  f_iface := "eth0"; f_port := 25565; f_ttl := 10 * Minute; f_metricsAddr := ":9464";
  f_cgroup := "/sys/fs/cgroup"; f_pinPath := "/sys/fs/bpf/minecraft";
  f_statusRate := 60; f_statusBurst := 20; f_loginRate := 20; f_loginBurst := 8;
  f_tcpGlobalRate := 5000; f_tcpGlobalBurst := 15000; f_tcpMaxOpenPerIP := 8;
  f_connPPS := 300; f_connBurst := 600; f_connBPS := 524288; f_connByteBurst := 1048576;
  f_connNewRate := 10; f_connNewBurst := 20; f_healthWindow := 60 * Second;
  f_healthThreshold := 100; f_healthBlacklist := 5 * Minute; f_sizeInterval := 30 * Second |}.

(** [uint16( *port )] and [uint32( *healthThreshold )] keep the low bits of a uint. *)
Definition run_options (f : run_flags) : Options :=
  MkOptions (f_iface f) (u16 (f_port f)) (f_ttl f) (f_cgroup f) (f_pinPath f)
    (f_statusRate f) (f_statusBurst f) (f_loginRate f) (f_loginBurst f)
    (f_tcpGlobalRate f) (f_tcpGlobalBurst f) (f_tcpMaxOpenPerIP f)
    (f_connPPS f) (f_connBurst f) (f_connBPS f) (f_connByteBurst f)
    (f_connNewRate f) (f_connNewBurst f)
    (f_healthWindow f) (u32 (f_healthThreshold f)) (f_healthBlacklist f).
Definition run_limits (f : run_flags) : apiLimits := {|
  l_status_per_min := f_statusRate f; l_status_burst := f_statusBurst f;
  l_login_per_min := f_loginRate f; l_login_burst := f_loginBurst f;
  l_tcp_global_per_sec := f_tcpGlobalRate f; l_tcp_global_burst := f_tcpGlobalBurst f;
  l_tcp_max_open_per_ip := f_tcpMaxOpenPerIP f; l_conn_pps := f_connPPS f;
  l_conn_burst := f_connBurst f; l_conn_bps := f_connBPS f;
  l_conn_byte_burst := f_connByteBurst f; l_conn_new_per_sec := f_connNewRate f;
  l_conn_new_burst := f_connNewBurst f; l_whitelist_ttl := f_ttl f;
  l_health_window := f_healthWindow f; l_health_threshold := u32 (f_healthThreshold f);
  l_health_blacklist := f_healthBlacklist f |}.
(** The maps of the collector; a nil map of counters would panic in [Collect]. *)
Definition run_maps (l : Loaded unit pinned) : option Maps :=
  match Stats l with
  | None => None
  | Some st => Some (MkMaps (percpu st) (TCPWhitelist l) (TCPEstablished l) (TCPSynSeen l)
      (TCPOpenCount l) (StatusRatelimit l) (LoginRatelimit l) (SynRatelimit l) (ConnRatelimit l)
      (Loader.Health l) (IPDropHistory l))
  end.
Definition run_api (version : string) (f : run_flags) (l : Loaded unit pinned) : apiCfg :=
  ApiCfg l version (f_iface f) (u16 (f_port f)) (f_pinPath f) (run_limits f).

(** An arrow in UTF-8. *)
Definition arrow : string := String (Ascii.ascii_of_nat 226)
  (String (Ascii.ascii_of_nat 134) (String (Ascii.ascii_of_nat 146) "")).
(** What [cmdRun] logs once it is attached, without the time stamps. *)
Definition run_log (f : run_flags) (xmode : string) : list string := [
  "xdp: " +:+ xmode +:+ " mode on " +:+ f_iface f;
  "sockops: attached to " +:+ f_cgroup f;
  "pin path: " +:+ f_pinPath f;
  "port: " +:+ fmt_d (f_port f) +:+ ", ttl: " +:+ dur_String (f_ttl f);
  "status ratelimit: " +:+ fmt_d (f_statusRate f) +:+ "/min burst " +:+ fmt_d (f_statusBurst f);
  "login ratelimit: " +:+ fmt_d (f_loginRate f) +:+ "/min burst " +:+ fmt_d (f_loginBurst f);
  if 0 <? f_tcpGlobalRate f then
    "tcp global circuit-breaker: " +:+ fmt_d (f_tcpGlobalRate f) +:+ " SYNs/s aggregate, burst "
    +:+ fmt_d (f_tcpGlobalBurst f) +:+ " (split per-CPU internally)"
  else "tcp global circuit-breaker: DISABLED";
  if 0 <? f_tcpMaxOpenPerIP f then
    "tcp per-IP open-conn cap: " +:+ fmt_d (f_tcpMaxOpenPerIP f) +:+ " sockets/IP"
  else "tcp per-IP open-conn cap: DISABLED";
  if (0 <? f_connPPS f) || (0 <? f_connBPS f) then
    "per-IP established/whitelisted cap: " +:+ fmt_d (f_connPPS f) +:+ " pps burst "
    +:+ fmt_d (f_connBurst f) +:+ ", " +:+ fmt_d (f_connBPS f) +:+ " B/s burst "
    +:+ fmt_d (f_connByteBurst f)
  else "per-IP established/whitelisted cap: DISABLED";
  if 0 <? f_connNewRate f then
    "per-IP new-connection rate: " +:+ fmt_d (f_connNewRate f) +:+ "/s burst "
    +:+ fmt_d (f_connNewBurst f)
  else "per-IP new-connection rate: DISABLED";
  "health: " +:+ fmt_d (f_healthThreshold f) +:+ " anomalies / " +:+ dur_String (f_healthWindow f)
  +:+ " " +:+ arrow +:+ " blacklist for " +:+ dur_String (f_healthBlacklist f)].

(** The routes of the daemon; what promhttp answers is [metrics]. *)
Definition index_page (version : string) : response := Response 200 []
  ("minecraft-ebpf " +:+ version +:+ newline +:+
   "  /health                      up/degraded (plain text)" +:+ newline +:+
   "  /metrics                     prometheus counters" +:+ newline +:+
   "  /api/info                    daemon overview (limits + maps + counters)" +:+ newline +:+
   "  /api/stats                   counter values (JSON)" +:+ newline +:+
   "  /api/top?map=...&n=...       hottest IPs in a per-IP map" +:+ newline +:+
   "  /api/health[?all=1]          blacklisted IPs (with ?all=1: all anomaly entries)" +:+ newline +:+
   "  /api/whitelist               IPs in tcp_whitelist" +:+ newline +:+
   "  /api/blacklist               IPs currently blacklisted" +:+ newline +:+
   "  /api/established             IPs in tcp_established" +:+ newline +:+
   "  /api/syn-seen                IPs in tcp_syn_seen" +:+ newline +:+
   "  /api/open-count              open TCP socket count per IP" +:+ newline +:+
   "  /api/drop-history            per-IP cumulative drops by reason" +:+ newline +:+
   "  /api/ip/<addr>               aggregate state for one IPv4 across all maps" +:+ newline +:+
   "  /api/state                   index of the above" +:+ newline).
Section Routes.
Context `{Hsort : SortSlice}.
Context (metrics : request → io response).

Definition run_routes (version : string) (c : apiCfg) : list (string * (request → io response)) :=
  ("/metrics", metrics) :: registerAPI c ++ [("/", λ _, mret (index_page version))].

Lemma mux_front {A} (p : string * A) (l : list (string * A)) path :
  matches p.1 path = false → mux_serve (p :: l) path = mux_serve l path.
Proof. intros Hp. unfold mux_serve. cbn [foldl]. unfold better at 2. by rewrite Hp. Qed.
(** The root pattern takes what no longer pattern takes. *)
Lemma mux_root {A} (l : list (string * A)) (h : A) path :
  has_prefix "/" path = true → Forall (λ p, p.1 ≠ "") l →
  mux_serve (l ++ [("/", h)]) path =
    match mux_serve l path with Some p => Some p | None => Some ("/", h) end.
Proof.
  intros Hpath Hne. unfold mux_serve. rewrite foldl_app. cbn [foldl].
  assert (Hin : ∀ b, match foldl (better path) b l with
                     | Some p => b = Some p ∨ p ∈ l | None => True end).
  { clear. induction l as [|q l IH]; intros b; cbn [foldl]; [by destruct b; [left|]|].
    specialize (IH (better path b q)). destruct (foldl _ _ l) as [p|]; [|done].
    destruct IH as [Hb|Hp]; [|right; by right]. unfold better in Hb.
    repeat case_match; simplify_eq; auto; right; constructor. }
  specialize (Hin None). unfold better at 1. cbn [fst].
  assert (Hm : matches "/" path = true)
    by (unfold matches; rewrite orb_true_iff; by right).
  rewrite Hm. destruct (foldl (better path) None l) as [p|]; [|done].
  destruct Hin as [?|Hp]; [done|]. rewrite Forall_forall in Hne. specialize (Hne p Hp).
  destruct p as [[|a t] h']; [done|]. cbn [fst].
  by replace (_ <? _)%nat with false by (symmetry; apply Nat.ltb_ge; simpl; lia).
Qed.

(** Every request path is served, by the right handler: /metrics by the exporter,
    each path of the API by the handler registered for it, every address below
    /api/ip/ by the lookup, and any other path by the index page. *)
Theorem daemon_routes version c path :
  has_prefix "/" path = true →
  mux_serve (run_routes version c) path =
    if bool_decide (path = "/metrics") then Some ("/metrics", metrics)
    else match find (λ p, bool_decide (p.1 = path)) (registerAPI c) with
         | Some p => Some p
         | None => if has_prefix "/api/ip/" path
                   then Some ("/api/ip/", handleIPLookup (cfg_Loaded c))
                   else Some ("/", λ _, mret (index_page version))
         end.
Proof.
  intros Hpath. destruct (api_routes c) as (Hnames & Hserved & Hip & Hnone).
  unfold run_routes. case_bool_decide as Hm; [subst; reflexivity|].
  rewrite mux_front by by apply matches_other.
  rewrite mux_root; [|done|by repeat constructor].
  destruct (find _ (registerAPI c)) as [p|] eqn:Hf.
  - apply find_some in Hf as [Hin Hp%bool_decide_eq_true]. subst path. destruct p as [p h].
    cbn [fst]. by rewrite (Hserved p h) by by apply list_elem_of_In.
  - destruct (has_prefix "/api/ip/" path) eqn:Hpre.
    + apply has_prefix_app in Hpre as (addr & ->). by rewrite Hip.
    + rewrite Hnone; [done| |done]. rewrite <- Hnames.
      intros ([p h] & Heq & Hin%list_elem_of_In)%list_elem_of_fmap.
      pose proof (find_none _ _ Hf _ Hin) as Hp. by apply bool_decide_eq_false in Hp.
Qed.
End Routes.

(** [cmdRun] over the open handles: [serve] is everything between the load and the
    signal that ends it, which touches no handle of the loader's.  The result is the exit code
    ([log.Fatalf] exits with 1 and skips the deferred [Close]). *)
Section CmdRun.
Context (lb : lib) (RemoveMemlock : option goerr).

Definition cmdRun (f : run_flags) : ld Z :=
  match RemoveMemlock with
  | Some _ => mret 1
  | None =>
    l ← Load lb (run_options f);
    match l with
    | inl _ => mret 1
    | inr l => Close lb l;; mret 0
    end
  end.

Context (Hx : ∀ n, n ∈ named_xdp_maps → n ∈ xdp_maps lb).

Lemma cmdRun_spec f :
  let '(code, o) := cmdRun f [] in
  (∀ h, h ∈ o → unnamed lb h) ∧
  (code = 0 ↔ RemoveMemlock = None ∧ ∃ l o', Load lb (run_options f) [] = (inr l, o')) ∧
  (code = 0 ∨ code = 1).
Proof.
  unfold cmdRun. destruct RemoveMemlock as [err|].
  { split_and!; [by intros h ?%not_elem_of_nil|naive_solver|by right]. }
  unfold mbind, ld_bind. pose proof (Load_spec lb Hx (run_options f)) as Hl.
  destruct (Load lb (run_options f) []) as [[err|l] o].
  { split_and!; [done|naive_solver|by right]. }
  destruct Hl as (Ho & _). pose proof (Close_spec lb l o) as Hc.
  destruct (Close lb l o) as [err o']. destruct Hc as (Hc & _). split_and!.
  - intros h Hh. apply Hc in Hh as [Hh Hn]. by apply Ho in Hh as [Hh|Hh].
  - split; [|done]. intros _. split; [done|by eexists _, _].
  - by left.
Qed.
(** The daemon leaves nothing behind: started with no handle open it ends with no
    program, link or map it names open, whether loading failed at any step or it ran
    until the signal; it exits with 0 exactly when the memory limit was lifted and
    the load succeeded. *)
Theorem cmdRun_releases f :
  let '(code, o) := cmdRun f [] in
  (∀ h, h ∈ o → unnamed lb h) ∧
  (code = 0 ↔ RemoveMemlock = None ∧ ∃ l o', Load lb (run_options f) [] = (inr l, o')) ∧
  (code = 0 ∨ code = 1).
Proof. apply cmdRun_spec. Qed.
End CmdRun.

(** One set of flags serves the loader, the datapath and the API: the
    datapath is configured for the port the API reports, and for
    the same bursts, open-connection cap, whitelist lifetime and health settings as the
    limits the API reports; of a port or threshold that does not fit its field, all of
    them see the same low bits. *)
Theorem run_wires_flags set_err f version l ncpu :
  (∀ name, set_err name = None) →
  ∃ sp, set_variables set_err (run_options f) ncpu c_variables = inr sp ∧
    let c := config_of sp in
    let api := run_api version f l in
    let lim := cfg_Limits api in
    target_port c = cfg_Port api ∧ cfg_Port api = u16 (f_port f) ∧
    whitelist_ttl_ns c = u64 (l_whitelist_ttl lim) ∧
    status_period_ns c = per_minute_period (l_status_per_min lim) ∧
    status_burst c = l_status_burst lim ∧
    login_period_ns c = per_minute_period (l_login_per_min lim) ∧
    login_burst c = l_login_burst lim ∧
    tcp_global_period_ns c = tcp_global_period ncpu (l_tcp_global_per_sec lim) ∧
    tcp_max_open_per_ip c = l_tcp_max_open_per_ip lim ∧
    conn_pkt_period_ns c = per_second_period (l_conn_pps lim) ∧
    conn_pkt_burst c = l_conn_burst lim ∧
    conn_byte_period_ns c = per_second_period (l_conn_bps lim) ∧
    conn_byte_burst c = l_conn_byte_burst lim ∧
    conn_new_period_ns c = per_second_period (l_conn_new_per_sec lim) ∧
    conn_new_burst c = l_conn_new_burst lim ∧
    health_window_ns c = u64 (l_health_window lim) ∧
    health_threshold c = l_health_threshold lim ∧
    health_blacklist_ns c = u64 (l_health_blacklist lim) ∧
    PinPath (run_options f) = cfg_PinPath api ∧ Iface (run_options f) = cfg_Iface api.
Proof.
  intros Hset. destruct (set_variables_config set_err Hset (run_options f) ncpu) as (sp & Hsp & Hc).
  exists sp. split; [done|]. cbv zeta. by rewrite Hc.
Qed.
