(* ===== verification/Commands.v ===== *)
(** * What the commands and the API share: names, and what they leave alone *)
From S2P Require Import Prelude Kernel World XdpAccounting GoBase GoSys GoLogic Labels Json Dump Report Clear Inspect Top Loader Api Run.

Local Open Scope string_scope.
Local Open Scope list_scope.
Local Open Scope Z_scope.

(** ** Names and numbers *)
Definition stat_const (s : minecraft_stat) : nat :=
  match s with
  | STAT_PASS_TCP => StatPassTCP
  | STAT_TCP_ESTABLISHED_INSERTS => StatTCPEstablishedInserts
  | STAT_TCP_L7_PROMOTED => StatTCPL7Promoted
  | STAT_TCP_L7_MATCH_NO_EST => StatTCPL7MatchNoEst
  | STAT_TCP_HANDSHAKE_STATUS_SEEN => StatTCPHandshakeStatusSeen
  | STAT_TCP_HANDSHAKE_LOGIN_SEEN => StatTCPHandshakeLoginSeen
  | STAT_DROP_TCP_NO_SYN => StatDropTCPNoSyn
  | STAT_DROP_TCP_TOO_MANY_OPEN => StatDropTCPTooManyOpen
  | STAT_DROP_TCP_GLOBAL_RATELIMIT => StatDropTCPGlobalRatelimit
  | STAT_DROP_STATUS_RATELIMIT => StatDropStatusRatelimit
  | STAT_DROP_LOGIN_RATELIMIT => StatDropLoginRatelimit
  | STAT_DROP_MALFORMED_HANDSHAKE => StatDropMalformedHandshake
  | STAT_DROP_TCP_UNHEALTHY => StatDropTCPUnhealthy
  | STAT_DROP_TCP_BAD_FLAGS => StatDropTCPBadFlags
  | STAT_DROP_CONN_RATELIMIT => StatDropConnRatelimit
  | STAT_DROP_TCP_CONN_RATE => StatDropTCPConnRate
  end.

(** The Go tables name what the C enums number: position by position the drop
    reasons, the counter labels and the constants of the collector are those of the
    datapath, none is missing or doubled, and a counter's label starts with "drop_"
    exactly when the datapath counts a drop with it, the drop of a reason under a
    label that ends in the name of the reason or in that name without its "tcp_". *)
Theorem labels_agree :
  (∀ r, dropReasonNames !! drop_reason_idx r = Some (name_of_reason r)) ∧
  (∀ s, statLabels !! stat_slot s = Some (label_of_stat s)) ∧
  (∀ s, stat_const s = stat_slot s) ∧
  length dropReasonNames = NUM_DROP_REASONS ∧ length statLabels = STAT_MAX ∧ StatMax = STAT_MAX ∧
  NoDup dropReasonNames ∧ NoDup statLabels ∧
  (∀ s, has_prefix "drop_" (label_of_stat s) = is_drop_stat s) ∧
  (∀ r, label_of_stat (stat_of_reason r) = "drop_" +:+ name_of_reason r ∨
        label_of_stat (stat_of_reason r) = "drop_tcp_" +:+ name_of_reason r).
Proof.
  split_and!; try done; try (intros []; done); try (apply (bool_decide_unpack _); reflexivity).
  intros []; first [by left|by right].
Qed.

(** ** Reading leaves no trace *)
Section Clean.
Lemma stats_dump_clean dir j : Clean (stats_dump dir j).
Proof. unfold stats_dump. clean. Qed.
#[local] Hint Resolve stats_dump_clean : clean.
Lemma cmdStats_clean dir j watch rounds tt_ : Clean (cmdStats dir j watch rounds tt_).
Proof. unfold cmdStats. clean; apply watch_loop_clean; clean. Qed.
Lemma mapEntryCount_clean dir name : Clean (mapEntryCount dir name).
Proof. unfold mapEntryCount. clean. Qed.
Lemma blacklistedNow_clean dir : Clean (blacklistedNow dir).
Proof. unfold blacklistedNow. clean. Qed.
#[local] Hint Resolve mapEntryCount_clean blacklistedNow_clean : clean.
Lemma info_counters_clean range_map st : Clean (info_counters range_map st).
Proof. unfold info_counters. clean. Qed.
#[local] Hint Resolve info_counters_clean : clean.
Lemma cmdInfo_clean version range_map dir : Clean (cmdInfo version range_map dir).
Proof. unfold cmdInfo. clean; unfold id; clean. Qed.
Lemma cmdHealth_clean dir all : Clean (cmdHealth dir all).
Proof. unfold cmdHealth. clean. Qed.
End Clean.
#[export] Hint Resolve cmdStats_clean cmdInfo_clean cmdHealth_clean : clean.

Section ReadOnly.
Context `{Hsort : SortSlice}.

Lemma now_if_clean m : Clean (now_if m).
Proof. unfold now_if. clean. Qed.
#[local] Hint Resolve now_if_clean topFromMap_clean : clean.
Lemma api_clean c p h : (p, h) ∈ registerAPI c → ∀ r, Clean (h r).
Proof.
  intros Hin r. unfold registerAPI in Hin.
  repeat (apply elem_of_cons in Hin as [[= -> ->]|Hin];
    [unfold handleHealthz, handleInfo, handleStats, handleTop, handleHealth, handleTimestampMap,
       handleCountMap, handleBlacklist, handleDropHistory, handleIPLookup; cbv zeta; clean|]).
  by apply not_elem_of_nil in Hin.
Qed.

(** Only [clear] writes: every other command, with whatever arguments, and every
    handler of the API leave all pinned maps as they were, and have closed every map
    they opened when they return (an exit leaves that to the kernel). *)
Theorem reading_is_clean dir s :
  (∀ which, clean_rel s (cmdDump dir which s) (open_maps s)) ∧
  (∀ j watch rounds time_text,
     clean_rel s (cmdStats dir j watch rounds time_text s) (open_maps s)) ∧
  (∀ version range_map, clean_rel s (cmdInfo version range_map dir s) (open_maps s)) ∧
  (∀ all, clean_rel s (cmdHealth dir all s) (open_maps s)) ∧
  (∀ watch args rounds time_text,
     clean_rel s (cmdInspect dir watch args rounds time_text s) (open_maps s)) ∧
  (∀ which n reason, clean_rel s (cmdTop dir which n reason s) (open_maps s)) ∧
  (∀ c p h r, (p, h) ∈ registerAPI c → clean_rel s (h r s) (open_maps s)).
Proof.
  split_and!; intros.
  - apply cmdDump_clean.
  - apply cmdStats_clean.
  - apply cmdInfo_clean.
  - apply cmdHealth_clean.
  - apply cmdInspect_clean.
  - apply cmdTop_clean.
  - by eapply api_clean.
Qed.
End ReadOnly.
