(* ===== verification/Daemon.v ===== *)
(** * The daemon at work ([cmdRun] of [run.go], [StartSizeTicker] of [collector.go])

    [Run.cmdRun] is the daemon as one sequence of calls.  Here its goroutines run side by
    side: the main one, which loads, waits for the signal and runs the deferred calls; the
    one that refreshes the size gauges; and the HTTP server with the requests it is
    answering, each of which may hold a pinned map of its own open.  [step] interleaves
    them with the signal; a run may also die of the panic of [time.NewTicker].  The deferred
    [l.Close()] closes one handle at a time, so the others can still run on maps that are
    gone.  What a request or a refresh reads is in [Api] and [Collector]. *)
From S2P Require Import Prelude Kernel World GoBase GoSys Top Loader LoadHandles Run.

Local Open Scope string_scope.
Local Open Scope list_scope.
Local Open Scope Z_scope.

(** The order in which [Close] goes through what it holds. *)
Definition close_order (l : Loaded handle handle) : list handle :=
  omap id [SockopsLink l; XDPLink l; TCPEstablished l; TCPSynSeen l; TCPWhitelist l;
    StatusRatelimit l; LoginRatelimit l; TCPGlobalRatelimit l; TCPOpenCount l; ConnRatelimit l;
    SynRatelimit l; Health l; IPDropHistory l; Stats l].
#[global] Arguments close_order : simpl never.

(** Where the main goroutine is; from [Attached] on it holds what [Load] returned. *)
Inductive main_pc :=
  | Starting
  | Attached (l : Loaded handle handle)     (* before StartSizeTicker *)
  | Collecting (l : Loaded handle handle)   (* before the server is started *)
  | Waiting (l : Loaded handle handle)      (* <-sig *)
  | Stopping (l : Loaded handle handle)     (* in srv.Shutdown *)
  | Cancelling (l : Loaded handle handle)   (* the deferred cancel() *)
  | Closing (l : Loaded handle handle) (todo : list handle) (* in the deferred l.Close() *)
  | Returned.
(** The goroutine of [StartSizeTicker]: refreshing (for the first time), at
    [time.NewTicker], in the select of its loop, or gone. *)
Inductive ticker_pc := NoTicker | Refreshing (first : bool) | NewTicker | Selecting | TickerGone.
(** The goroutine of [ListenAndServe]. *)
Inductive server_pc := NoServer | Listening | Serving | ServerDown.
(** A request: in its handler, in [topFromMap] with the pinned map of that path open, or
    writing its answer. *)
Inductive request_pc := Handling | Pinned (path : string) | Answering.

Record dstate := DState {
  main_at : main_pc; ticker_at : ticker_pc; server_at : server_pc;
  requests : list request_pc;
  signalled : bool;               (* a signal has come *)
  cancelled : bool;               (* the context is done *)
  timed_out : bool;               (* Shutdown gave up waiting after five seconds *)
  opened : list handle;           (* the loader's handles *)
  exited : option Z }.

Section Daemon.
Context (lb : lib) (RemoveMemlock : option goerr) (f : run_flags).

Definition daemon_start : dstate := DState Starting NoTicker NoServer [] false false false [] None.

Inductive main_step : dstate → dstate → Prop :=
  | memlock_fails err t s n g c d o : RemoveMemlock = Some err →
      main_step (DState Starting t s n g c d o None) (DState Returned t s n g c d o (Some 1))
  | load_fails err t s n g c d o o' : RemoveMemlock = None →
      Load lb (run_options f) o = (inl err, o') →
      main_step (DState Starting t s n g c d o None) (DState Returned t s n g c d o' (Some 1))
  | load_succeeds l t s n g c d o o' : RemoveMemlock = None →
      Load lb (run_options f) o = (inr l, o') →
      main_step (DState Starting t s n g c d o None) (DState (Attached l) t s n g c d o' None)
  | StartSizeTicker l t s n g c d o :
      main_step (DState (Attached l) t s n g c d o None)
        (DState (Collecting l) (Refreshing true) s n g c d o None)
  | start_server l t s n g c d o :
      main_step (DState (Collecting l) t s n g c d o None)
        (DState (Waiting l) t Listening n g c d o None)
  | signal_taken l t s n c d o :
      main_step (DState (Waiting l) t s n true c d o None)
        (DState (Stopping l) t ServerDown n true c d o None)
  | Shutdown_drained l t s g c d o :
      main_step (DState (Stopping l) t s [] g c d o None)
        (DState (Cancelling l) t s [] g c d o None)
  | Shutdown_timeout l t s n g c d o : n ≠ [] →
      main_step (DState (Stopping l) t s n g c d o None)
        (DState (Cancelling l) t s n g c true o None)
  | cancel l t s n g c d o :
      main_step (DState (Cancelling l) t s n g c d o None)
        (DState (Closing l (close_order l)) t s n g true d o None)
  | close_next l h todo t s n g c d o :
      main_step (DState (Closing l (h :: todo)) t s n g c d o None)
        (DState (Closing l todo) t s n g c d (close_handle lb h o).2 None)
  | returns l t s n g c d o :
      main_step (DState (Closing l []) t s n g c d o None)
        (DState Returned t s n g c d o (Some 0)).

Inductive ticker_step : dstate → dstate → Prop :=
  | refreshed first p s n g c d o :
      ticker_step (DState p (Refreshing first) s n g c d o None)
        (DState p (if first then NewTicker else Selecting) s n g c d o None)
  | ticker_made p s n g c d o : 0 < f_sizeInterval f →
      ticker_step (DState p NewTicker s n g c d o None) (DState p Selecting s n g c d o None)
  | ticker_panics p s n g c d o : f_sizeInterval f ≤ 0 →
      ticker_step (DState p NewTicker s n g c d o None) (DState p NewTicker s n g c d o (Some 2))
  | ticked p s n g c d o :
      ticker_step (DState p Selecting s n g c d o None) (DState p (Refreshing false) s n g c d o None)
  | ticker_done p s n g d o :
      ticker_step (DState p Selecting s n g true d o None) (DState p TickerGone s n g true d o None).

(** One request: /api/top opens and closes the pinned map of its kind, the rest only use what
    the loader opened. *)
Inductive request_step : request_pc → request_pc → Prop :=
  | pins which name kind : assoc_string which topMapKinds = Some (name, kind) →
      request_step Handling (Pinned (path_Join (f_pinPath f) name))
  | unpins path : request_step (Pinned path) Answering
  | handles : request_step Handling Answering.
Inductive server_step : dstate → dstate → Prop :=
  | listens p t n g c d o :
      server_step (DState p t Listening n g c d o None) (DState p t Serving n g c d o None)
  | listen_fails p t n g c d o :
      server_step (DState p t Listening n g c d o None) (DState p t ServerDown n g c d o None)
  | accepts p t n g c d o :
      server_step (DState p t Serving n g c d o None) (DState p t Serving (Handling :: n) g c d o None)
  | works p t s n1 r r' n2 g c d o : request_step r r' →
      server_step (DState p t s (n1 ++ r :: n2) g c d o None)
        (DState p t s (n1 ++ r' :: n2) g c d o None)
  | answers p t s n1 n2 g c d o :
      server_step (DState p t s (n1 ++ Answering :: n2) g c d o None)
        (DState p t s (n1 ++ n2) g c d o None).

(** SIGINT or SIGTERM, once [signal.Notify] was called. *)
Inductive signal_step : dstate → dstate → Prop :=
  | signal_comes p t s n g c d o :
      match p with Starting | Attached _ | Collecting _ => False | _ => True end →
      signal_step (DState p t s n g c d o None) (DState p t s n true c d o None).

Inductive other_step (st st' : dstate) : Prop :=
  | step_ticker : ticker_step st st' → other_step st st'
  | step_server : server_step st st' → other_step st st'
  | step_signal : signal_step st st' → other_step st st'.
Inductive step (st st' : dstate) : Prop :=
  | step_main : main_step st st' → step st st'
  | step_other : other_step st st' → step st st'.
Definition reached (st : dstate) : Prop := rtc step daemon_start st.

(** What [Load] returned, while the daemon holds it. *)
Definition holds (p : main_pc) : option (Loaded handle handle) :=
  match p with
  | Attached l | Collecting l | Waiting l | Stopping l | Cancelling l | Closing l _ => Some l
  | Starting | Returned => None
  end.

(** ** Closing one by one *)
Lemma owned_close_order l h : h ∈ owned l ↔ h ∈ close_order l.
Proof. unfold owned, close_order. rewrite !in_omap_id, !elem_of_cons. tauto. Qed.
(** The whole of [Close], as the handles it leaves. *)
Lemma Close_in_order l o : (Close lb l o).2 = filter (λ h, h ∉ close_order l) o.
Proof.
  unfold Close, mbind, ld_bind.
  destruct (close_link_run lb (SockopsLink l) o) as (e1 & -> & _).
  destruct (close_link_run lb (XDPLink l) (filter (λ h, SockopsLink l ≠ Some h) o)) as (e2 & -> & _).
  rewrite close_handles_run. unfold mret, ld_ret. cbn [snd].
  rewrite !list_filter_filter. apply list_filter_iff. intros h.
  unfold close_order. rewrite !in_omap_id, !elem_of_cons. naive_solver.
Qed.
Lemma filter_snoc (o : list handle) done h :
  filter (λ h', h' ≠ h) (filter (λ h', h' ∉ done) o) = filter (λ h', h' ∉ done ++ [h]) o.
Proof. rewrite list_filter_filter. apply list_filter_iff. set_solver. Qed.

(** ** The invariant *)
Definition load_ok (st : dstate) (l : Loaded handle handle) (closed : list handle) : Prop :=
  RemoveMemlock = None ∧
  ∃ o, Load lb (run_options f) [] = (inr l, o) ∧ opened st = filter (λ h, h ∉ closed) o.
Definition loaded_ok (st : dstate) : Prop :=
  match main_at st with
  | Starting => opened st = [] ∧ exited st = None
  | Returned => True
  | Closing l todo => ∃ closed, close_order l = closed ++ todo ∧ load_ok st l closed
  | p => ∃ l, holds p = Some l ∧ load_ok st l []
  end.
(** Nobody reads the maps before they are loaded, or uses the server before it is made. *)
Definition goroutines_ok (st : dstate) : Prop :=
  match main_at st with
  | Starting | Attached _ =>
    ticker_at st = NoTicker ∧ server_at st = NoServer ∧ requests st = [] ∧ signalled st = false
  | Collecting _ =>
    server_at st = NoServer ∧ requests st = [] ∧ ticker_at st ≠ NoTicker ∧ signalled st = false
  | Waiting _ => ticker_at st ≠ NoTicker
  | Stopping _ => server_at st = ServerDown ∧ signalled st = true ∧ ticker_at st ≠ NoTicker
  | Cancelling _ => server_at st = ServerDown ∧ (requests st = [] ∨ timed_out st = true) ∧
      signalled st = true
  | Closing _ _ => server_at st = ServerDown ∧ (requests st = [] ∨ timed_out st = true) ∧
      signalled st = true ∧ cancelled st = true
  | Returned => True
  end.
(** How it ended. *)
Definition ended_by_signal (st : dstate) : Prop :=
  signalled st = true ∧ cancelled st = true ∧ RemoveMemlock = None ∧
  ∃ l o, Load lb (run_options f) [] = (inr l, o) ∧ opened st = (Close lb l o).2.
Definition ended_by_error (st : dstate) : Prop :=
  ticker_at st = NoTicker ∧ server_at st = NoServer ∧ requests st = [] ∧
  ((is_Some RemoveMemlock ∧ opened st = []) ∨
   (RemoveMemlock = None ∧ ∃ err, Load lb (run_options f) [] = (inl err, opened st))).
Definition exit_ok (st : dstate) : Prop :=
  match exited st with
  | None => main_at st ≠ Returned
  | Some code =>
    (code = 0 ∧ main_at st = Returned ∧ ended_by_signal st) ∨
    (code = 1 ∧ main_at st = Returned ∧ ended_by_error st) ∨
    (code = 2 ∧ f_sizeInterval f ≤ 0 ∧ ticker_at st = NewTicker ∧ is_Some (holds (main_at st)))
  end.
Definition ticker_ok (st : dstate) : Prop :=
  match ticker_at st with
  | Refreshing false | Selecting => 0 < f_sizeInterval f
  | _ => True
  end.
Definition pins_ok (st : dstate) : Prop :=
  ∀ p, Pinned p ∈ requests st →
    ∃ which name kind, assoc_string which topMapKinds = Some (name, kind) ∧
      p = path_Join (f_pinPath f) name.
Record daemon_ok (st : dstate) : Prop := {
  ok_loaded : loaded_ok st; ok_goroutines : goroutines_ok st;
  ok_exit : exit_ok st; ok_ticker : ticker_ok st; ok_pins : pins_ok st }.

Lemma start_ok : daemon_ok daemon_start.
Proof. split; try done. by intros p ?%not_elem_of_nil. Qed.
Lemma filter_nothing (o : list handle) : filter (λ h, h ∉ []) o = o.
Proof.
  induction o as [|h o IH]; [done|]. rewrite filter_cons, decide_True by apply not_elem_of_nil.
  by rewrite IH.
Qed.

Ltac daemon_cases :=
  unfold loaded_ok, goroutines_ok, exit_ok, ticker_ok, load_ok in *; cbn in *;
  destruct_and?; simplify_eq; eauto 9.
Lemma main_step_ok st st' : main_step st st' → daemon_ok st → daemon_ok st'.
Proof.
  intros Hs [Hl Hg He Ht Hp]. destruct Hs; split; try exact Hp; daemon_cases.
  - right; left. unfold ended_by_error; cbn. rewrite H. eauto 9.
  - right; left. unfold ended_by_error; cbn. eauto 9.
  - eexists. split; [done|]. split; [done|]. eexists. split; [done|]. by rewrite filter_nothing.
  - destruct Hl as (l' & [= <-] & Hm & o' & Hl & ->). exists []. split; [done|]. eauto.
  - destruct Hl as (closed & Hc & Hm & o0 & Hl & ->). exists (closed ++ [h]).
    split; [by rewrite <- app_assoc|]. split; [done|]. exists o0. split; [done|].
    apply filter_snoc.
  - left. destruct Hl as (closed & Hc & Hm & o0 & Hl & ->). rewrite app_nil_r in Hc. subst closed.
    split_and!; try done. split_and!; try done. exists l, o0. split; [done|]. by rewrite Close_in_order.
Qed.
(** The others leave what is loaded, and unless they panic the way the process ends. *)
Ltac other_goroutines Hg :=
  unfold goroutines_ok in *; cbn in *; destruct_and?; repeat case_match; intuition congruence.
Lemma ticker_step_ok st st' : ticker_step st st' → daemon_ok st → daemon_ok st'.
Proof.
  intros Hs [Hl Hg He Ht Hp]. destruct Hs; split; try first [exact Hl|exact He|exact Hp|exact I].
  all: try (clear He Hl Ht Hp; other_goroutines Hg).
  all: unfold loaded_ok, goroutines_ok, exit_ok, ticker_ok in *; cbn in *.
  - by destruct first.
  - destruct p; try exact Hl. by destruct Hg.
  - right; right. split_and!; try done. destruct p; cbn; try done; [|by eexists..]. by destruct Hg.
  - done.
Qed.
Lemma pins_work n1 r r' n2 : request_step r r' →
  (∀ p, Pinned p ∈ n1 ++ r :: n2 → ∃ which name kind,
     assoc_string which topMapKinds = Some (name, kind) ∧ p = path_Join (f_pinPath f) name) →
  ∀ p, Pinned p ∈ n1 ++ r' :: n2 → ∃ which name kind,
     assoc_string which topMapKinds = Some (name, kind) ∧ p = path_Join (f_pinPath f) name.
Proof.
  intros Hr Hp p Hin. rewrite elem_of_app, elem_of_cons in Hin.
  destruct Hin as [Hin|[Hin|Hin]]; [apply Hp; set_solver| |apply Hp; set_solver].
  destruct Hr; simplify_eq. by eexists _, _, _.
Qed.
Lemma server_step_ok st st' : server_step st st' → daemon_ok st → daemon_ok st'.
Proof.
  intros Hs [Hl Hg He Ht Hp]. destruct Hs; split; try first [exact Hl|exact He|exact Hp|exact Ht].
  all: try (clear He Hl Ht Hp; unfold goroutines_ok in *; cbn in *; case_match;
    try destruct n1; naive_solver).
  all: unfold pins_ok in *; cbn in *.
  - intros q [?|Hq]%elem_of_cons; [done|eauto].
  - eauto using pins_work.
  - intros q Hq. apply Hp. set_solver.
Qed.
Lemma signal_step_ok st st' : signal_step st st' → daemon_ok st → daemon_ok st'.
Proof.
  intros Hs [Hl Hg He Ht Hp]. destruct Hs as [p t s n g c d o Hn].
  split; try first [exact Hl|exact He|exact Hp|exact Ht].
  unfold goroutines_ok in *; cbn in *. by destruct p; destruct_and?.
Qed.
Lemma other_step_ok st st' : other_step st st' → daemon_ok st → daemon_ok st'.
Proof. intros []; eauto using ticker_step_ok, server_step_ok, signal_step_ok. Qed.
Lemma daemon_step_ok st st' : step st st' → daemon_ok st → daemon_ok st'.
Proof. intros []; eauto using main_step_ok, other_step_ok. Qed.
Lemma reached_ok st : reached st → daemon_ok st.
Proof.
  unfold reached. intros H. remember daemon_start as st0.
  assert (H0 : daemon_ok st0) by (subst; apply start_ok). clear Heqst0.
  induction H; eauto using daemon_step_ok.
Qed.

(** ** Runs *)
Definition waiting (l : Loaded handle handle) (o : list handle) (n : list request_pc) : dstate :=
  DState (Waiting l) (Refreshing true) Serving n false false false o None.
Lemma waiting_run l o : RemoveMemlock = None → Load lb (run_options f) [] = (inr l, o) →
  reached (waiting l o []).
Proof.
  intros Hm Hl. unfold reached. eapply rtc_l; [by apply step_main, load_succeeds|].
  eapply rtc_l; [apply step_main, StartSizeTicker|].
  eapply rtc_l; [apply step_main, start_server|].
  apply rtc_once, step_other, step_server, listens.
Qed.
Lemma closing_run l hs todo t s n g c d o :
  rtc step (DState (Closing l (hs ++ todo)) t s n g c d o None)
    (DState (Closing l todo) t s n g c d (filter (λ h, h ∉ hs) o) None).
Proof.
  revert o. induction hs as [|h hs IH]; intros o; [by rewrite filter_nothing|].
  eapply rtc_l; [apply step_main, close_next|]; cbn [close_handle snd].
  replace (filter (λ h', h' ∉ h :: hs) o) with (filter (λ h', h' ∉ hs) (filter (λ h', h' ≠ h) o)).
  - apply IH.
  - rewrite list_filter_filter. apply list_filter_iff. set_solver.
Qed.
Lemma Shutdown_run l t s n g c d o : main_step (DState (Stopping l) t s n g c d o None)
  (DState (Cancelling l) t s n g c (match n with [] => d | _ => true end) o None).
Proof. destruct n; [apply Shutdown_drained|by apply Shutdown_timeout]. Qed.
(** From the signal to the last handle, with whatever is still running. *)
Lemma stopped_run l o n : RemoveMemlock = None → Load lb (run_options f) [] = (inr l, o) →
  reached (waiting l o n) →
  reached (DState (Closing l []) (Refreshing true) ServerDown n true true
    (match n with [] => false | _ => true end) (filter (λ h, h ∉ close_order l) o) None).
Proof.
  intros Hm Hl Hr. unfold reached. etrans; [exact Hr|].
  eapply rtc_l; [by apply step_other, step_signal, signal_comes|].
  eapply rtc_l; [apply step_main, signal_taken|].
  eapply rtc_l; [apply step_main, Shutdown_run|].
  eapply rtc_l; [apply step_main, cancel|].
  rewrite <- (app_nil_r (close_order l)) at 1. apply closing_run.
Qed.

Context (Hx : ∀ n, n ∈ named_xdp_maps → n ∈ xdp_maps lb).

(** What is open once everything of a Loaded value is closed. *)
Lemma all_closed l o : Load lb (run_options f) [] = (inr l, o) →
  ∀ h, h ∈ filter (λ h, h ∉ close_order l) o → unnamed lb h.
Proof.
  intros Hl h [Hn Ho]%list_elem_of_filter. pose proof (Load_spec lb Hx (run_options f)) as H.
  rewrite Hl in H. destruct H as [H _]. apply H in Ho as [Ho|Ho]; [|done].
  by apply owned_close_order in Ho.
Qed.
Lemma owned_opened l o : Load lb (run_options f) [] = (inr l, o) → ∀ h, h ∈ owned l → h ∈ o.
Proof.
  intros Hl h Hh. pose proof (Load_spec lb Hx (run_options f)) as H. rewrite Hl in H.
  apply H. by left.
Qed.

(** C28. The daemon ends in one of three ways, whatever its goroutines did before.  With code 0:
    a signal came, the context was cancelled, and no program, link or map it names is open.
    With code 1: the memory limit could not be lifted or the load failed; the gauges and the
    server were never started and nothing it names is open.  With code 2: the interval
    of the gauges is not positive and the ticker panicked; without a signal
    every handle it loaded is still open then. *)
Theorem daemon_exits st code : reached st → exited st = Some code →
  (code = 0 ∧ signalled st = true ∧ cancelled st = true ∧
     (∃ l o, RemoveMemlock = None ∧ Load lb (run_options f) [] = (inr l, o)) ∧
     ∀ h, h ∈ opened st → unnamed lb h) ∨
  (code = 1 ∧ ticker_at st = NoTicker ∧ server_at st = NoServer ∧ requests st = [] ∧
     (is_Some RemoveMemlock ∨ ∃ err o, Load lb (run_options f) [] = (inl err, o)) ∧
     ∀ h, h ∈ opened st → unnamed lb h) ∨
  (code = 2 ∧ f_sizeInterval f ≤ 0 ∧ ticker_at st = NewTicker ∧
     ∃ l, holds (main_at st) = Some l ∧
       (signalled st = false → ∀ h, h ∈ owned l → h ∈ opened st)).
Proof.
  intros Hr He. destruct (reached_ok st Hr) as [Hl Hg Hok _ _]. unfold exit_ok in Hok.
  rewrite He in Hok. destruct Hok as [(-> & _ & Hs)|[(-> & _ & Hs)|(-> & Hi & Ht & l & Hh)]].
  - left. destruct Hs as (Hg' & Hc & Hm & l & o & Hlo & Ho). split_and!; try done; [by eauto|].
    rewrite Ho, Close_in_order. by apply all_closed.
  - right; left. destruct Hs as (Ht & Hs & Hn & [[Hm Ho]|(Hm & err & Hlo)]); split_and!; try done.
    + by left.
    + rewrite Ho. by intros h ?%not_elem_of_nil.
    + right; eauto.
    + pose proof (Load_spec lb Hx (run_options f)) as H. by rewrite Hlo in H.
  - right; right. split_and!; try done. exists l. split; [done|]. intros Hns h Hh'.
    unfold loaded_ok, goroutines_ok in *. destruct (main_at st); cbn in *; simplify_eq.
    all: try (destruct Hg as (_ & Hg); destruct_and?; congruence).
    all: destruct Hl as (l' & [= <-] & _ & o & Hlo & ->); rewrite filter_nothing; by eapply owned_opened.
Qed.

(** A run that crashes: the first refresh, then the ticker. *)
Lemma crash_run l o : f_sizeInterval f ≤ 0 → RemoveMemlock = None →
  Load lb (run_options f) [] = (inr l, o) →
  reached (DState (Collecting l) NewTicker NoServer [] false false false o (Some 2)).
Proof.
  intros Hi Hm Hl. unfold reached.
  eapply rtc_l; [by apply step_main, load_succeeds|].
  eapply rtc_l; [apply step_main, StartSizeTicker|].
  eapply rtc_l; [apply step_other, step_ticker, refreshed|]. cbv iota.
  by apply rtc_once, step_other, step_ticker, ticker_panics.
Qed.

(** C29. The interval of the size gauges can kill the daemon: it is possible for the process to
    end in a panic exactly when the load succeeded and --map-size-interval is zero or
    negative; it can then do so with everything the load opened still open; and with such
    an interval the gauges are never refreshed a second time. *)
Theorem interval_kills :
  ((∃ st, reached st ∧ exited st = Some 2) ↔
     f_sizeInterval f ≤ 0 ∧ RemoveMemlock = None ∧ ∃ l o, Load lb (run_options f) [] = (inr l, o)) ∧
  (f_sizeInterval f ≤ 0 →
     (∀ l o, RemoveMemlock = None → Load lb (run_options f) [] = (inr l, o) →
        ∃ st, reached st ∧ exited st = Some 2 ∧ opened st = o) ∧
     ∀ st, reached st → ticker_at st ≠ Selecting ∧ ticker_at st ≠ Refreshing false).
Proof.
  split; [split|].
  - intros (st & Hr & He). destruct (reached_ok st Hr) as [Hl _ Hok _ _].
    unfold exit_ok, loaded_ok in *. rewrite He in Hok.
    destruct Hok as [(? & _)|[(? & _)|(_ & Hi & _ & l & Hh)]]; [done..|]. split; [done|].
    destruct (main_at st); try done.
    all: try (destruct Hl as (l' & _ & Hm & o & Hl & _); by eauto).
  - intros (Hi & Hm & l & o & Hl). eexists. split; [by eapply crash_run|done].
  - intros Hi. split.
    + intros l o Hm Hl. eexists. split; [by apply (crash_run l)|done].
    + intros st Hr. destruct (reached_ok st Hr) as [_ _ _ Ht _]. unfold ticker_ok in Ht.
      split; intros Heq; rewrite Heq in Ht; lia.
Qed.

Lemma held_opened st p : (∃ l, holds p = Some l ∧ load_ok st l []) →
  ∃ l, holds p = Some l ∧ ∀ h, h ∈ owned l → h ∈ opened st.
Proof.
  intros (l & Hh & _ & o & Hl & ->). exists l. split; [done|]. rewrite filter_nothing.
  by apply owned_opened.
Qed.
Lemma busy_run l o : RemoveMemlock = None → Load lb (run_options f) [] = (inr l, o) →
  reached (waiting l o [Handling]).
Proof.
  intros Hm Hl. eapply rtc_r; [by apply waiting_run|]. apply step_other, step_server, accepts.
Qed.

(** C30. Who finds the maps open.  Until the deferred Close begins, whatever accepts
    connections, answers a request or refreshes the gauges finds every handle of the load
    open; a map a request pins for itself is one that /api/top serves.  When Close begins, the
    context is cancelled and no request is left unless Shutdown gave up on it, and
    while it goes on exactly the handles it has not come to are open.  But nobody waits for
    the gauges: once the load succeeded, a refresh and a request that outlasted Shutdown can
    both still be running when the last map is closed. *)
Theorem requests_find_maps st : reached st → exited st = None →
  ((∀ l todo, main_at st ≠ Closing l todo) →
   requests st ≠ [] ∨ server_at st = Serving ∨ (∃ first, ticker_at st = Refreshing first) →
   ∃ l, holds (main_at st) = Some l ∧ ∀ h, h ∈ owned l → h ∈ opened st) ∧
  (∀ p, Pinned p ∈ requests st → ∃ which name kind,
     assoc_string which topMapKinds = Some (name, kind) ∧ p = path_Join (f_pinPath f) name) ∧
  (∀ l todo, main_at st = Closing l todo →
     cancelled st = true ∧ server_at st = ServerDown ∧ (requests st = [] ∨ timed_out st = true) ∧
     ∃ closed, close_order l = closed ++ todo ∧
       ∀ h, h ∈ owned l → h ∈ opened st ↔ h ∉ closed) ∧
  (∀ l o, RemoveMemlock = None → Load lb (run_options f) [] = (inr l, o) →
     ∃ st', reached st' ∧ exited st' = None ∧ main_at st' = Closing l [] ∧
       ticker_at st' = Refreshing true ∧ requests st' = [Handling] ∧
       ∀ h, h ∈ owned l → h ∉ opened st').
Proof.
  intros Hr He. destruct (reached_ok st Hr) as [Hl Hg Hok _ Hp].
  unfold loaded_ok, goroutines_ok, exit_ok in *. rewrite He in Hok. split_and!; [|exact Hp| |].
  - intros Hc Hbusy. destruct (main_at st) as [|l|l|l|l|l|l todo|] eqn:Hm; try done.
    + destruct Hg as (Ht & Hs & Hn & _). rewrite Ht, Hs, Hn in Hbusy.
      by destruct Hbusy as [?|[?|[??]]].
    + destruct Hg as (Ht & Hs & Hn & _). rewrite Ht, Hs, Hn in Hbusy.
      by destruct Hbusy as [?|[?|[??]]].
    + eapply held_opened, Hl.
    + eapply held_opened, Hl.
    + eapply held_opened, Hl.
    + eapply held_opened, Hl.
    + by destruct (Hc l todo).
  - intros l todo Hm. rewrite Hm in *. destruct Hg as (Hs & Hn & _ & Hc).
    destruct Hl as (closed & Hcl & _ & o & Hl & Ho). split_and!; try done.
    exists closed. split; [done|]. intros h Hh. rewrite Ho, list_elem_of_filter.
    pose proof (owned_opened l o Hl h Hh). tauto.
  - clear Hl. intros l o Hm Hl. eexists.
    split; [by apply (stopped_run l o [Handling] Hm Hl), busy_run|].
    split_and!; try done. intros h Hh%owned_close_order [Hn _]%list_elem_of_filter. done.
Qed.

(** ** Stopping *)
Definition stopping (st : dstate) : Prop :=
  match main_at st with Stopping _ | Cancelling _ | Closing _ _ => True | _ => False end.
(** The steps the main goroutine has left. *)
Definition remaining (st : dstate) : nat :=
  match main_at st with
  | Stopping l => 3 + length (close_order l)
  | Cancelling l => 2 + length (close_order l)
  | Closing _ todo => 1 + length todo
  | _ => 0
  end.
(** A run in which the main goroutine takes [n] steps among those of the others. *)
Inductive main_steps : nat → dstate → dstate → Prop :=
  | no_steps st : main_steps 0 st st
  | a_main_step n st st' st'' : main_step st st' → main_steps n st' st'' → main_steps (S n) st st''
  | another_step n st st' st'' : other_step st st' → main_steps n st' st'' → main_steps n st st''.

Lemma close_order_length l : (length (close_order l) ≤ 14)%nat.
Proof.
  assert (H : ∀ {A} (os : list (option A)), (length (omap id os) ≤ length os)%nat).
  { intros A os. induction os as [|[x|] os IH]; cbn; lia. }
  apply (H _ [_; _; _; _; _; _; _; _; _; _; _; _; _; _]).
Qed.
Lemma main_never_waits st : stopping st → exited st = None → ∃ st', main_step st st'.
Proof.
  intros Hs He. destruct st as [p t s n g c d o e]. cbn in *. subst e.
  destruct p as [| | | |l|l|l [|h todo]|]; try done; eexists.
  - apply Shutdown_run.
  - apply cancel.
  - apply returns.
  - apply close_next.
Qed.
Lemma main_step_remaining st st' : stopping st → main_step st st' →
  remaining st = S (remaining st') ∧ (stopping st' ∧ exited st' = None ∨ exited st' = Some 0).
Proof. intros Hs Hm. destruct Hm; try done; cbn; auto. Qed.
Lemma other_step_remaining st st' : 0 < f_sizeInterval f → other_step st st' →
  main_at st' = main_at st ∧ exited st' = exited st.
Proof. intros Hi [H|H|H]; destruct H; try done. lia. Qed.
Lemma nothing_after_exit n st st' : main_steps n st st' → exited st ≠ None → n = 0%nat ∧ st' = st.
Proof.
  intros H He. destruct H as [|n st st' st'' H _|n st st' st'' H _]; [done|by destruct H|].
  by destruct H as [H|H|H]; destruct H.
Qed.
Lemma stop_steps n st st' : 0 < f_sizeInterval f → stopping st → exited st = None →
  main_steps n st st' →
  (exited st' = None ∧ stopping st' ∧ remaining st = n + remaining st')%nat ∨
  (exited st' = Some 0 ∧ n = remaining st).
Proof.
  intros Hi Hs He H. induction H as [|n st st1 st2 H H' IH|n st st1 st2 H H' IH]; [by left| |].
  - destruct (main_step_remaining st st1 Hs H) as [Hr [[Hs' He']|He']].
    + destruct (IH Hs' He') as [(? & ? & ?)|[? ?]]; [left|right]; split_and!; try done; lia.
    + right. destruct (nothing_after_exit _ _ _ H' ltac:(by rewrite He')) as [-> ->].
      split; [done|]. rewrite Hr. destruct H; by destruct Hs.
  - destruct (other_step_remaining st st1 Hi H) as [Hm He'].
    unfold stopping, remaining in *. rewrite Hm, He' in IH. by apply IH.
Qed.
Lemma main_steps_reached n st st' : reached st → main_steps n st st' → reached st'.
Proof.
  intros Hr H. unfold reached in *. induction H as [|n st st1 st2 H H' IH|n st st1 st2 H H' IH].
  - done.
  - apply IH. eapply rtc_r; [exact Hr|by apply step_main].
  - apply IH. eapply rtc_r; [exact Hr|by apply step_other].
Qed.

(** C31. The daemon stops when it is told to.  With a positive interval of the gauges, once the
    signal was taken: however the steps of requests, gauges and further signals fall between
    those of the main goroutine, that goroutine always has a next step until the process has
    exited; it takes at most seventeen, each one step closer; and the process exits when the
    last of them is done, not before, with code 0 and no program, link or map it names open. *)
Theorem daemon_stops st n st' : 0 < f_sizeInterval f →
  reached st → stopping st → exited st = None → main_steps n st st' →
  (remaining st ≤ 17)%nat ∧ (n ≤ remaining st)%nat ∧
  (exited st' = None ↔ (n < remaining st)%nat) ∧
  (exited st' = None → ∃ st'', main_step st' st'') ∧
  (∀ code, exited st' = Some code → code = 0 ∧ ∀ h, h ∈ opened st' → unnamed lb h).
Proof.
  intros Hi Hr Hs He Hrun. pose proof (main_steps_reached n st st' Hr Hrun) as Hr'.
  assert (Hle : (remaining st ≤ 17)%nat).
  { unfold remaining, stopping, loaded_ok in *. pose proof (reached_ok st Hr) as [Hl _ _ _ _].
    unfold loaded_ok in Hl. destruct (main_at st) as [| | | |l|l|l todo|]; try done.
    1,2: pose proof (close_order_length l); lia.
    destruct Hl as (closed & Hc & _). pose proof (close_order_length l) as Hlen.
    rewrite Hc, length_app in Hlen. lia. }
  destruct (stop_steps n st st' Hi Hs He Hrun) as [(He' & Hs' & Hrem)|[He' Hrem]].
  - assert (0 < remaining st')%nat
      by (unfold remaining, stopping in *; destruct (main_at st'); try done; lia).
    split_and!; [done|lia|split; [lia|done]|by intros _; apply main_never_waits|].
    intros code. by rewrite He'.
  - split_and!; [done|lia|rewrite He'; split; [done|lia]|by rewrite He'|].
    intros code. rewrite He'. intros [= <-]. split; [done|].
    destruct (reached_ok st' Hr') as [_ _ Hok _ _]. unfold exit_ok in Hok. rewrite He' in Hok.
    destruct Hok as [(_ & _ & Hend)|[(? & _)|(? & _)]]; [|done..].
    destruct Hend as (_ & _ & _ & l & o & Hl & ->). rewrite Close_in_order. by apply all_closed.
Qed.
End Daemon.
