(* ===== verification/Flags.v ===== *)
(** * Command-line flags: [strconv], [time.ParseDuration] and the flag package

    What the commands use of the Go library to read their arguments.  A flag set is a list
    of flags over the record [V] of the variables its flags are bound to; [Parse] is the
    package's loop over [parseOne].  The fuel of the two loops counts the arguments, or the
    characters, and is proved to be enough where it matters.  Strings are ASCII. *)
From S2P Require Import Prelude GoBase GoSys.
From Stdlib Require Import Ascii SpecFloat.

Local Open Scope string_scope.
Local Open Scope list_scope.
Local Open Scope Z_scope.

Notation chars := (list Ascii.ascii).
Definition chars_of : string → chars := String.list_ascii_of_string.
Definition string_of : chars → string := String.string_of_list_ascii.

(** ** strconv *)
Inductive num_err := ErrSyntax | ErrRange.

Definition ParseBool (s : string) : option bool :=
  if bool_decide (s ∈ ["1"; "t"; "T"; "true"; "TRUE"; "True"]) then Some true
  else if bool_decide (s ∈ ["0"; "f"; "F"; "false"; "FALSE"; "False"]) then Some false
  else None.

(** [lower(c)]: [c | ('x' - 'X')] *)
Definition lower (c : Z) : Z := Z.lor c 32.
Definition digit_of (c : Z) : option Z :=
  if (48 <=? c) && (c <=? 57) then Some (c - 48)
  else if (97 <=? lower c) && (lower c <=? 122) then Some (lower c - 97 + 10)
  else None.
Definition maxUint64 : Z := 2 ^ 64 - 1.

(** The loop of [ParseUint] in base 0: the number, and whether there was an underscore. *)
Fixpoint uint_loop (base : Z) (s : chars) (n : Z) (underscores : bool) : num_err + Z * bool :=
  match s with
  | [] => inr (n, underscores)
  | c :: s =>
    if byte_of c =? 95 then uint_loop base s n true
    else match digit_of (byte_of c) with
    | None => inl ErrSyntax
    | Some d =>
      if base <=? d then inl ErrSyntax
      else if maxUint64 / base + 1 <=? n then inl ErrRange
      else
        let n := u64 (n * base) in
        let n1 := u64 (n + d) in
        if (n1 <? n) || (maxUint64 <? n1) then inl ErrRange else uint_loop base s n1 underscores
    end
  end.

(** [underscoreOK]: what was seen last. *)
Inductive saw := SawNothing | SawDigit | SawUnderscore | SawOther.
Fixpoint underscore_loop (hex : bool) (s : chars) (i : saw) : bool :=
  match s with
  | [] => match i with SawUnderscore => false | _ => true end
  | c :: s =>
    let b := byte_of c in
    if ((48 <=? b) && (b <=? 57)) || (hex && (97 <=? lower b) && (lower b <=? 102))
    then underscore_loop hex s SawDigit
    else if b =? 95 then
      match i with SawDigit => underscore_loop hex s SawUnderscore | _ => false end
    else match i with SawUnderscore => false | _ => underscore_loop hex s SawOther end
  end.
Definition is_base_letter (b : Z) : bool :=
  (lower b =? 98) || (lower b =? 111) || (lower b =? 120).
Definition underscoreOK (s : chars) : bool :=
  let s := match s with
    | c :: s' => if (byte_of c =? 45) || (byte_of c =? 43) then s' else s
    | [] => s
    end in
  match s with
  | c0 :: c1 :: s' =>
    if (byte_of c0 =? 48) && is_base_letter (byte_of c1)
    then underscore_loop (lower (byte_of c1) =? 120) s' SawDigit
    else underscore_loop false s SawNothing
  | _ => underscore_loop false s SawNothing
  end.

(** [ParseUint(s, 0, 64)]: the base is in the prefix. *)
Definition base_of (s : chars) : Z * chars :=
  match s with
  | c0 :: s' =>
    if byte_of c0 =? 48 then
      match s' with
      | c1 :: ((_ :: _) as s'') =>
        let l := lower (byte_of c1) in
        if l =? 98 then (2, s'')
        else if l =? 111 then (8, s'')
        else if l =? 120 then (16, s'')
        else (8, s')
      | _ => (8, s')
      end
    else (10, s)
  | [] => (10, s)
  end.
Definition ParseUint (str : string) : num_err + Z :=
  let s := chars_of str in
  match s with
  | [] => inl ErrSyntax
  | _ =>
    let '(base, digits) := base_of s in
    match uint_loop base digits 0 false with
    | inl err => inl err
    | inr (n, underscores) =>
      if (underscores : bool) && negb (underscoreOK s) then inl ErrSyntax else inr n
    end
  end.

(** [ParseInt(s, 0, 64)] *)
Definition ParseInt (str : string) : num_err + Z :=
  match chars_of str with
  | [] => inl ErrSyntax
  | c :: s' =>
    let neg := byte_of c =? 45 in
    let signed := neg || (byte_of c =? 43) in
    match ParseUint (if signed then string_of s' else str) with
    | inl err => inl err
    | inr un =>
      if negb neg && (2 ^ 63 <=? un) then inl ErrRange
      else if neg && (2 ^ 63 <? un) then inl ErrRange
      else inr (if neg then - un else un)
    end
  end.

Example ParseUint_1 : ParseUint "5000" = inr 5000. Proof. reflexivity. Qed.
Example ParseUint_2 : ParseUint "0x1F" = inr 31. Proof. reflexivity. Qed.
Example ParseUint_3 : ParseUint "1_000" = inr 1000. Proof. reflexivity. Qed.
Example ParseUint_4 : ParseUint "1__0" = inl ErrSyntax. Proof. reflexivity. Qed.
Example ParseUint_5 : ParseUint "18446744073709551616" = inl ErrRange. Proof. reflexivity. Qed.
Example ParseUint_6 : ParseUint "-1" = inl ErrSyntax. Proof. reflexivity. Qed.
Example ParseUint_7 : ParseUint "010" = inr 8. Proof. reflexivity. Qed.
Example ParseInt_1 : ParseInt "-9223372036854775808" = inr (- 2 ^ 63). Proof. reflexivity. Qed.

(** ** time.ParseDuration *)

(** float64, for the fractions. *)
Definition float64 (z : Z) : spec_float := binary_normalize 53 1024 z 0 false.
Definition fmul : spec_float → spec_float → spec_float := SFmul 53 1024.
Definition fdiv : spec_float → spec_float → spec_float := SFdiv 53 1024.
(** [uint64(x)] of a float in range *)
Definition uint64_of (x : spec_float) : Z :=
  match x with S754_finite false m e => u64 (Z.shiftl (Z.pos m) e) | _ => 0 end.

(** [leadingInt]: the digits at the front and the rest; [None] above 2^63. *)
Fixpoint leadingInt (s : chars) (x : Z) : option (Z * chars) :=
  match s with
  | c :: s' =>
    if negb (is_digit c) then Some (x, s)
    else if 2 ^ 63 / 10 <? x then None
    else
      let x := u64 (x * 10 + (byte_of c - 48)) in
      if 2 ^ 63 <? x then None else leadingInt s' x
  | [] => Some (x, [])
  end.
(** [leadingFraction]: digits beyond the range are dropped. *)
Fixpoint leadingFraction (s : chars) (x : Z) (scale : spec_float) (overflow : bool)
    : Z * spec_float * chars :=
  match s with
  | c :: s' =>
    if negb (is_digit c) then (x, scale, s)
    else if overflow then leadingFraction s' x scale true
    else if (2 ^ 63 - 1) / 10 <? x then leadingFraction s' x scale true
    else
      let y := u64 (x * 10 + (byte_of c - 48)) in
      if 2 ^ 63 <? y then leadingFraction s' x scale true
      else leadingFraction s' y (fmul scale (float64 10)) false
  | [] => (x, scale, [])
  end.
(** The unit: everything up to a period or a digit. *)
Fixpoint leading_unit (s : chars) : chars * chars :=
  match s with
  | c :: s' => if ascii_eqb c dot || is_digit c then ([], s)
               else let '(u, rest) := leading_unit s' in (c :: u, rest)
  | [] => ([], [])
  end.
(** [unitMap]; the micro sign and the Greek letter in UTF-8. *)
Definition utf8_us (a b : nat) : chars := [Ascii.ascii_of_nat a; Ascii.ascii_of_nat b; "s"%char].
Definition unitMap : list (chars * Z) := [
  (chars_of "ns", 1); (chars_of "us", Microsecond); (utf8_us 194 181, Microsecond);
  (utf8_us 206 188, Microsecond); (chars_of "ms", Millisecond); (chars_of "s", Second);
  (chars_of "m", Minute); (chars_of "h", Hour)].
Fixpoint find_unit (u : chars) (l : list (chars * Z)) : option Z :=
  match l with
  | [] => None
  | (v, unit) :: l => if decide (u = v) then Some unit else find_unit u l
  end.

(** One round of the loop: the amount read, in nanoseconds. *)
Definition duration_step (s : chars) : option (Z * chars) :=
  match s with
  | [] => None
  | c :: _ =>
    if negb (ascii_eqb c dot || is_digit c) then None else
    v ← leadingInt s 0;
    let '(v, s1) := v in
    let pre := negb (length s =? length s1)%nat in
    let '(f, scale, s2, post) := match s1 with
      | c :: s1' => if ascii_eqb c dot then
          let '(f, scale, s2) := leadingFraction s1' 0 (float64 1) false in
          (f, scale, s2, negb (length s1' =? length s2)%nat)
        else (0, float64 1, s1, false)
      | [] => (0, float64 1, s1, false)
      end in
    if negb pre && negb post then None else
    let '(u, s3) := leading_unit s2 in
    match u with
    | [] => None
    | _ =>
      unit ← find_unit u unitMap;
      if 2 ^ 63 / unit <? v then None else
      let v := u64 (v * unit) in
      if 0 <? f then
        let v := u64 (v + uint64_of (fmul (float64 f) (fdiv (float64 unit) scale))) in
        if 2 ^ 63 <? v then None else Some (v, s3)
      else Some (v, s3)
    end
  end.
Fixpoint duration_loop (fuel : nat) (s : chars) (d : Z) : option Z :=
  match s with
  | [] => Some d
  | _ =>
    match fuel with
    | O => None
    | S fuel =>
      v ← duration_step s;
      let '(v, s) := v in
      let d := u64 (d + v) in
      if 2 ^ 63 <? d then None else duration_loop fuel s d
    end
  end.
Definition ParseDuration (str : string) : option Z :=
  let s := chars_of str in
  let '(neg, s) := match s with
    | c :: s' => if byte_of c =? 45 then (true, s') else if byte_of c =? 43 then (false, s')
                 else (false, s)
    | [] => (false, s)
    end in
  if bool_decide (s = chars_of "0") then Some 0
  else match s with
  | [] => None
  | _ =>
    d ← duration_loop (length s) s 0;
    if (neg : bool) then Some (s64 (- d))
    else if 2 ^ 63 - 1 <? d then None else Some d
  end.

Example ParseDuration_1 : ParseDuration "1h2m3.5s" = Some 3723500000000. Proof. reflexivity. Qed.
Example ParseDuration_2 : ParseDuration "-.25h" = Some (- 900000000000). Proof. reflexivity. Qed.
Example ParseDuration_3 : ParseDuration "10" = None. Proof. reflexivity. Qed.
Example ParseDuration_4 : ParseDuration "1.m1" = None. Proof. reflexivity. Qed.
Example ParseDuration_5 : ParseDuration "2562047h47m16.854775807s" = Some (2 ^ 63 - 1).
Proof. reflexivity. Qed.
Example ParseDuration_6 : ParseDuration "9223372036854775808ns" = None. Proof. reflexivity. Qed.
Example ParseDuration_7 : ParseDuration "-9223372036854775808ns" = Some (- 2 ^ 63).
Proof. reflexivity. Qed.
Example ParseDuration_8 : ParseDuration "0.100000000000000000000h" = Some 360000000000.
Proof. reflexivity. Qed.

(** ** The flag package *)

(** [strconv.Quote], the verb %q. *)
Definition hex_char (n : Z) : Ascii.ascii :=
  Ascii.ascii_of_nat (Z.to_nat (if n <? 10 then 48 + n else 87 + n)).
Definition quote_char (c : Ascii.ascii) : string :=
  let b := byte_of c in
  if (b =? 34) || (b =? 92) then "\" +:+ String c ""
  else if (32 <=? b) && negb (b =? 127) then String c ""
  else if b =? 7 then "\a" else if b =? 8 then "\b" else if b =? 12 then "\f"
  else if b =? 10 then "\n" else if b =? 13 then "\r" else if b =? 9 then "\t"
  else if b =? 11 then "\v"
  else "\x" +:+ String (hex_char (b / 16)) (String (hex_char (b mod 16)) "").
Definition double_quote : string := String (Ascii.ascii_of_nat 34) "".
Definition quote (s : string) : string :=
  double_quote +:+ foldr (λ c t, quote_char c +:+ t) "" (chars_of s) +:+ double_quote.

Inductive kind := KString | KBool | KInt | KUint | KDuration.
#[export] Instance kind_eq_dec : EqDecision kind.
Proof. solve_decision. Defined.

(** A flag: how it sets the variable it is bound to. *)
Record Flag (V : Type) := MkFlag {
  Name : string; Usage : string; Kind : kind; DefValue : string;
  Init : V → V; Set_ : string → V → go V }.
Arguments MkFlag {V}. Arguments Name {V}. Arguments Usage {V}. Arguments Kind {V}.
Arguments DefValue {V}. Arguments Init {V}. Arguments Set_ {V}.

Definition errParse : goerr := ErrLib "parse error".
Definition errRange : goerr := ErrLib "value out of range".
Definition numError (e : num_err) : goerr :=
  match e with ErrSyntax => errParse | ErrRange => errRange end.

Section FlagSet.
Context {V : Type}.

Definition fs_String (name def usage : string) (upd : string → V → V) : Flag V :=
  MkFlag name usage KString def (upd def) (λ s v, inr (upd s v)).
Definition fs_Bool (name : string) (def : bool) (usage : string) (upd : bool → V → V) : Flag V :=
  MkFlag name usage KBool (if def then "true" else "false") (upd def)
    (λ s v, match ParseBool s with None => inl errParse | Some b => inr (upd b v) end).
Definition fs_Int (name : string) (def : Z) (usage : string) (upd : Z → V → V) : Flag V :=
  MkFlag name usage KInt (fmt_d def) (upd def)
    (λ s v, match ParseInt s with inl e => inl (numError e) | inr n => inr (upd n v) end).
(** [Uint] and [Uint64]: an [uint] has 64 bits. *)
Definition fs_Uint (name : string) (def : Z) (usage : string) (upd : Z → V → V) : Flag V :=
  MkFlag name usage KUint (fmt_d def) (upd def)
    (λ s v, match ParseUint s with inl e => inl (numError e) | inr n => inr (upd n v) end).
Definition fs_Duration (name : string) (def : Z) (usage : string) (upd : Z → V → V) : Flag V :=
  MkFlag name usage KDuration (dur_String def) (upd def)
    (λ s v, match ParseDuration s with None => inl errParse | Some d => inr (upd d v) end).

Record FlagSet := NewFlagSet { fs_name : string; formal : list (Flag V) }.

(** The variables before [Parse]: every flag has stored its default. *)
Definition defaults (fs : FlagSet) (zero : V) : V := foldl (λ v f, Init f v) zero (formal fs).
Fixpoint lookup_flag (name : string) (l : list (Flag V)) : option (Flag V) :=
  match l with
  | [] => None
  | f :: l => if decide (Name f = name) then Some f else lookup_flag name l
  end.

(** [PrintDefaults], of flags whose usage names no operand in back quotes. *)
Definition kind_name (k : kind) : string :=
  match k with
  | KString => "string" | KBool => "" | KInt => "int" | KUint => "uint" | KDuration => "duration"
  end.
Definition zero_text (k : kind) : string :=
  match k with KString => "" | KBool => "false" | KInt | KUint => "0" | KDuration => "0s" end.
Definition tab : string := String (Ascii.ascii_of_nat 9) "".
Definition flag_text (f : Flag V) : string :=
  let operand := kind_name (Kind f) in
  let head := "  -" +:+ Name f +:+ (if decide (operand = "") then "" else " " +:+ operand) in
  head +:+ (if (String.length head <=? 4)%nat then tab else newline +:+ "    " +:+ tab) +:+
  Usage f +:+
  (if decide (DefValue f = zero_text (Kind f)) then ""
   else " (default " +:+ (if decide (Kind f = KString) then quote (DefValue f) else DefValue f)
        +:+ ")") +:+ newline.
Definition by_name (f g : Flag V) : Prop := String.leb (Name f) (Name g) = true.
#[export] Instance by_name_dec f g : Decision (by_name f g).
Proof. unfold by_name. apply _. Defined.
Definition sorted_flags (fs : FlagSet) : list (Flag V) := merge_sort by_name (formal fs).
Definition PrintDefaults (fs : FlagSet) : io unit :=
  for_each (sorted_flags fs) (λ f, fprint Stderr (flag_text f)).
Definition print_usage (fs : FlagSet) : io unit :=
  fprint Stderr ((if decide (fs_name fs = "") then "Usage:" else "Usage of " +:+ fs_name fs +:+ ":")
    +:+ newline);;
  PrintDefaults fs.

(** *** Parsing *)
Inductive parse_err := ErrHelp | ErrMsg (msg : string).

(** The name and the value of what follows the dashes; the = is not the first byte. *)
Fixpoint split_eq (s : chars) : chars * option chars :=
  match s with
  | [] => ([], None)
  | c :: s =>
    if byte_of c =? 61 then ([], Some s)
    else let '(n, v) := split_eq s in (c :: n, v)
  end.
Definition set_flag (f : Flag V) (value : string) (v : V) (msg : string) (args : list string)
    : parse_err + bool * V * list string :=
  match Set_ f value v with
  | inl err => inl (ErrMsg (msg +:+ err_String err))
  | inr v => inr (true, v, args)
  end.

(** A flag that begins with the bytes [name]: [args] follow it. *)
Definition parse_flag (fs : FlagSet) (name : chars) (v : V) (args : list string)
    : parse_err + bool * V * list string :=
  let '(name, value) := match name with
    | c :: s => let '(n, value) := split_eq s in (string_of (c :: n), string_of <$> value)
    | [] => ("", None)
    end in
  match lookup_flag name (formal fs) with
  | None =>
    if decide (name = "help" ∨ name = "h") then inl ErrHelp
    else inl (ErrMsg ("flag provided but not defined: -" +:+ name))
  | Some f =>
    if decide (Kind f = KBool) then
      match value with
      | Some value => set_flag f value v
          ("invalid boolean value " +:+ quote value +:+ " for -" +:+ name +:+ ": ") args
      | None => set_flag f "true" v ("invalid boolean flag " +:+ name +:+ ": ") args
      end
    else
      let '(value, args) := match value, args with
        | None, a :: args => (Some a, args)
        | _, _ => (value, args)
        end in
      match value with
      | None => inl (ErrMsg ("flag needs an argument: -" +:+ name))
      | Some value => set_flag f value v
          ("invalid value " +:+ quote value +:+ " for flag -" +:+ name +:+ ": ") args
      end
  end.

(** [parseOne]: [false] when the flags are over, with what is left. *)
Definition parseOne (fs : FlagSet) (v : V) (args : list string)
    : parse_err + bool * V * list string :=
  match args with
  | [] => inr (false, v, args)
  | s :: rest =>
    match chars_of s with
    | c0 :: ((c1 :: cs') as cs) =>
      if negb (byte_of c0 =? 45) then inr (false, v, args)
      else if (byte_of c1 =? 45) && bool_decide (cs' = []) then inr (false, v, rest)
      else
        let name := if byte_of c1 =? 45 then cs' else cs in
        match name with
        | [] => inl (ErrMsg ("bad flag syntax: " +:+ s))
        | c :: _ =>
          if (byte_of c =? 45) || (byte_of c =? 61) then inl (ErrMsg ("bad flag syntax: " +:+ s))
          else parse_flag fs name v rest
        end
    | _ => inr (false, v, args)
    end
  end.
Fixpoint parse_loop (fuel : nat) (fs : FlagSet) (v : V) (args : list string)
    : option (parse_err + V * list string) :=
  match fuel with
  | O => None
  | S fuel =>
    match parseOne fs v args with
    | inl err => Some (inl err)
    | inr (seen, v, args) => if (seen : bool) then parse_loop fuel fs v args
                             else Some (inr (v, args))
    end
  end.

(** [failf] writes the error and the usage, [ErrHelp] came with the usage; then
    [flag.ExitOnError] leaves.  A round takes an argument: there are fewer rounds than
    [S (length args)] ([parse_loop_ends]). *)
Definition Parse (fs : FlagSet) (zero : V) (args : list string) : io (V * list string) :=
  match parse_loop (S (length args)) fs (defaults fs zero) args with
  | Some (inr r) => mret r
  | Some (inl ErrHelp) => print_usage fs;; os_Exit 0
  | Some (inl (ErrMsg msg)) => eprintln msg;; print_usage fs;; os_Exit 2
  | None => os_Exit 2
  end.
End FlagSet.
Arguments FlagSet : clear implicits.
Arguments NewFlagSet {V}.
