(* ===== verification/FlagProps.v ===== *)
(** * What flag parsing guarantees

    Parsing ends; numbers and durations that are printed are read back; and a flag that is
    written as -name=value is assigned. *)
From S2P Require Import Prelude GoBase GoSys Flags.
From Stdlib Require Import Ascii.

Local Open Scope string_scope.
Local Open Scope list_scope.
Local Open Scope Z_scope.

(** ** Parsing ends *)
Section Ends.
Context {V : Type} (fs : FlagSet V).

Lemma set_flag_inr f value (v : V) msg args b v' args' :
  set_flag f value v msg args = inr (b, v', args') → args' = args.
Proof. unfold set_flag. destruct (Set_ _ _ _); naive_solver. Qed.
Lemma parse_flag_rest name v args b v' args' :
  parse_flag fs name v args = inr (b, v', args') → ∃ used, args = used ++ args'.
Proof.
  unfold parse_flag. intros H.
  destruct (match name with [] => _ | _ => _ end) as [n value].
  destruct (lookup_flag _ _) as [f|]; [|by case_decide].
  case_decide.
  { exists []. symmetry. destruct value; by eapply set_flag_inr. }
  destruct value as [x|]; [exists []; symmetry; by eapply set_flag_inr|].
  destruct args as [|a args]; [done|]. exists [a]. by rewrite (set_flag_inr _ _ _ _ _ _ _ _ H).
Qed.
Lemma parseOne_rest v args b v' args' :
  parseOne fs v args = inr (b, v', args') →
  ∃ used, args = used ++ args' ∧ (b = true → used ≠ []).
Proof.
  unfold parseOne. intros H. destruct args as [|s rest]; [exists []; naive_solver|].
  destruct (chars_of s) as [|c0 [|c1 cs]]; [exists []; naive_solver..|].
  destruct (negb _); [exists []; naive_solver|].
  destruct ((byte_of c1 =? 45) && _); [exists [s]; naive_solver|].
  destruct (if byte_of c1 =? 45 then cs else c1 :: cs) as [|c name]; [done|].
  destruct (_ || _); [done|]. apply parse_flag_rest in H as [used ->]. by exists (s :: used).
Qed.

(** The loop comes to an end within a round for each argument, whatever the fuel beyond. *)
Lemma parse_loop_ends fuel v args : (length args < fuel)%nat →
  ∃ r, (∀ more, parse_loop (fuel + more) fs v args = Some r) ∧
    ∀ v' rest, r = inr (v', rest) → ∃ used, args = used ++ rest.
Proof.
  revert v args. induction fuel as [|fuel IH]; intros v args Hlt; [lia|]. cbn [parse_loop Nat.add].
  destruct (parseOne fs v args) as [err|[[seen v1] args1]] eqn:Hone.
  { exists (inl err). split; [done|]. naive_solver. }
  destruct (parseOne_rest _ _ _ _ _ Hone) as (used & -> & Hne). destruct seen.
  - destruct (IH v1 args1) as (r & Hr & Hu).
    { rewrite length_app in Hlt. destruct used; [by destruct Hne|]. simpl in Hlt. lia. }
    exists r. split; [done|]. intros v' rest Hrest.
    destruct (Hu v' rest Hrest) as [used' ->]. exists (used ++ used'). by rewrite app_assoc.
  - exists (inr (v1, args1)). split; [done|]. intros v' rest [= <- <-]. by exists used.
Qed.

Lemma parse_loop_total v args :
  ∃ r, (∀ fuel, (length args < fuel)%nat → parse_loop fuel fs v args = Some r) ∧
    ∀ v' rest, r = inr (v', rest) → ∃ used, args = used ++ rest.
Proof.
  destruct (parse_loop_ends (S (length args)) v args) as (r & Hr & Hu); [lia|].
  exists r. split; [|done]. intros fuel Hf.
  replace fuel with (S (length args) + (fuel - S (length args)))%nat by lia. apply Hr.
Qed.
End Ends.

(** ** Decimal numbers are read back *)
Lemma byte_of_pretty_char x : (x < 10)%N → byte_of (pretty_N_char x) = 48 + Z.of_N x.
Proof.
  intros Hx. assert (x ∈ [0; 1; 2; 3; 4; 5; 6; 7; 8; 9])%N as Hin.
  { rewrite !elem_of_cons. lia. }
  repeat (apply elem_of_cons in Hin as [->|Hin]; [done|]). by apply not_elem_of_nil in Hin.
Qed.
Lemma is_digit_pretty_char x : (x < 10)%N → is_digit (pretty_N_char x) = true.
Proof.
  intros Hx. unfold is_digit. rewrite byte_of_pretty_char by done.
  apply andb_true_iff. split; apply Z.leb_le; lia.
Qed.

(** A function of the digits and a number read so far reads a printed number, if it adds
    one digit. *)
Section ReadDigits.
Context {A : Type} (read : chars → Z → A) (bound : Z).
Context (Hstep : ∀ x s, Z.of_N x ≤ bound →
  read (pretty_N_char (x mod 10) :: s) (Z.of_N (x / 10)) = read s (Z.of_N x)).
Lemma read_pretty_go x s r : Z.of_N x ≤ bound →
  read (chars_of (pretty_N_go x s) ++ r) 0 = read (chars_of s ++ r) (Z.of_N x).
Proof.
  revert s. induction (N.lt_wf_0 x) as [x _ IH]; intros s Hx.
  destruct (decide (x = 0)%N) as [->|Hne]; [done|].
  rewrite pretty_N_go_step by lia. rewrite IH; [apply Hstep, Hx|apply N.div_lt; lia|].
  etrans; [|exact Hx]. rewrite N2Z.inj_div. apply Z.div_le_upper_bound; lia.
Qed.
Lemma read_fmt_d z r : (∀ s, read ("0"%char :: s) 0 = read s 0) → 0 ≤ z ≤ bound →
  read (chars_of (fmt_d z) ++ r) 0 = read r z.
Proof.
  intros H0 Hz. destruct z as [|p|p]; [apply H0| |lia].
  unfold fmt_d, pretty, pretty_Z, pretty, pretty_positive, pretty, pretty_N.
  destruct (decide _) as [Heq|_]; [discriminate Heq|]. by rewrite read_pretty_go by lia.
Qed.
End ReadDigits.

(** The head of a printed number. *)
Lemma pretty_go_head x s : (0 < x)%N →
  ∃ d t, pretty_N_go x s = String (pretty_N_char d) t ∧ (0 < d < 10)%N.
Proof.
  revert s. induction (N.lt_wf_0 x) as [x _ IH]; intros s Hx.
  rewrite pretty_N_go_step by done. destruct (decide (x < 10)%N) as [Hlt|Hge].
  - rewrite N.div_small, N.mod_small by done. rewrite pretty_N_go_0. eauto.
  - apply IH; [apply N.div_lt; lia|]. apply N.div_str_pos. lia.
Qed.
Lemma fmt_d_head z : 0 ≤ z →
  ∃ d t, chars_of (fmt_d z) = pretty_N_char d :: t ∧ (d < 10)%N ∧ (0 < z → (0 < d)%N).
Proof.
  intros Hz. destruct z as [|p|p]; [by exists 0%N, []| |lia].
  unfold fmt_d, pretty, pretty_Z, pretty, pretty_positive, pretty, pretty_N.
  destruct (decide _) as [Heq|_]; [discriminate Heq|].
  destruct (pretty_go_head (N.pos p) "") as (d & t & -> & Hd); [lia|].
  exists d, (chars_of t). split; [done|]. lia.
Qed.

Lemma N_digit x : Z.of_N (x / 10) = Z.of_N x / 10 ∧ Z.of_N (x mod 10) = Z.of_N x mod 10.
Proof. split; [apply N2Z.inj_div|apply N2Z.inj_mod]. Qed.

Lemma uint_loop_fmt_d z b : 0 ≤ z < 2 ^ 64 → uint_loop 10 (chars_of (fmt_d z)) 0 b = inr (z, b).
Proof.
  intros Hz. rewrite <- (app_nil_r (chars_of (fmt_d z))).
  rewrite (read_fmt_d (λ s n, uint_loop 10 s n b) maxUint64); [done| |done|unfold maxUint64; lia].
  intros x s Hx. unfold maxUint64 in Hx. cbn [uint_loop].
  destruct (N_digit x) as [Hdiv Hmod]. rewrite Hdiv.
  assert (Hm : (x mod 10 < 10)%N) by by apply N.mod_lt.
  unfold digit_of. rewrite byte_of_pretty_char, Hmod by done.
  pose proof (Z.div_mod (Z.of_N x) 10 ltac:(lia)). pose proof (Z.mod_pos_bound (Z.of_N x) 10 ltac:(lia)).
  rewrite (proj2 (Z.eqb_neq _ _)) by lia.
  rewrite !(proj2 (Z.leb_le _ _)) by lia. cbn [andb].
  rewrite (proj2 (Z.leb_gt _ _)) by lia.
  change (maxUint64 / 10 + 1) with 1844674407370955162. unfold maxUint64.
  rewrite (proj2 (Z.leb_gt _ _)) by lia.
  rewrite (u64_id (_ * 10)) by (unfold is_u64; lia). rewrite u64_id by (unfold is_u64; lia).
  rewrite 2!(proj2 (Z.ltb_ge _ _)) by lia. cbn [orb]. f_equal. lia.
Qed.
Lemma ParseUint_fmt_d z : 0 ≤ z < 2 ^ 64 → ParseUint (fmt_d z) = inr z.
Proof.
  intros Hz. unfold ParseUint. destruct (fmt_d_head z ltac:(lia)) as (d & t & Hc & Hd & Hpos).
  rewrite Hc. destruct (decide (z = 0)) as [->|Hne]; [by injection Hc as <- <-|].
  unfold base_of. rewrite byte_of_pretty_char by done.
  rewrite (proj2 (Z.eqb_neq _ _)) by lia. rewrite <- Hc, uint_loop_fmt_d by done. done.
Qed.

(** ** Durations of whole seconds are read back *)
Lemma digit_char d : (d < 10)%N → byte_of (pretty_N_char d) = 48 + Z.of_N d.
Proof. apply byte_of_pretty_char. Qed.

(** What stops a number, and what stops a unit. *)
Definition stops_number (r : chars) : Prop :=
  match r with c :: _ => is_digit c = false | [] => True end.
Definition stops_unit (r : chars) : Prop :=
  match r with c :: _ => is_digit c = true | [] => True end.

Lemma leadingInt_stop r x : stops_number r → leadingInt r x = Some (x, r).
Proof. destruct r as [|c r]; [done|]. simpl. by intros ->. Qed.
Lemma leadingInt_fmt_d z r : 0 ≤ z ≤ 2 ^ 63 → stops_number r →
  leadingInt (chars_of (fmt_d z) ++ r) 0 = Some (z, r).
Proof.
  intros Hz Hr. rewrite (read_fmt_d leadingInt (2 ^ 63)); [by apply leadingInt_stop| |done|done].
  intros x s Hx. cbn [leadingInt]. destruct (N_digit x) as [Hdiv Hmod].
  assert (Hm : (x mod 10 < 10)%N) by by apply N.mod_lt.
  rewrite is_digit_pretty_char, byte_of_pretty_char, Hdiv, Hmod by done. cbn [negb].
  pose proof (Z.div_mod (Z.of_N x) 10 ltac:(lia)). pose proof (Z.mod_pos_bound (Z.of_N x) 10 ltac:(lia)).
  change (2 ^ 63 / 10) with 922337203685477580. rewrite (proj2 (Z.ltb_ge _ _)) by lia.
  rewrite u64_id by (unfold is_u64; lia). rewrite (proj2 (Z.ltb_ge _ _)) by lia. f_equal. lia.
Qed.

(** A unit that can follow a number. *)
Record unit_text (u : chars) (unit : Z) : Prop := {
  unit_found : find_unit u unitMap = Some unit;
  unit_some : u ≠ [];
  unit_chars : Forall (λ c, ascii_eqb c dot || is_digit c = false) u;
  unit_range : 0 < unit ≤ 2 ^ 63;
}.
Lemma leading_unit_app u r : Forall (λ c, ascii_eqb c dot || is_digit c = false) u →
  stops_unit r → leading_unit (u ++ r) = (u, r).
Proof.
  intros Hu Hr. induction Hu as [|c u Hc Hu IH]; simpl.
  - destruct r as [|c r]; [done|]. simpl in *. by rewrite Hr, orb_true_r.
  - by rewrite Hc, IH.
Qed.
Lemma duration_step_unit v u unit r :
  unit_text u unit → 0 ≤ v → v * unit ≤ 2 ^ 63 → stops_unit r →
  duration_step (chars_of (fmt_d v) ++ u ++ r) = Some (v * unit, r).
Proof.
  intros [Hfind Hne Hchars Hunit] Hv Hrange Hr. unfold duration_step.
  assert (Hv63 : 0 ≤ v ≤ 2 ^ 63) by nia.
  assert (Hstop : stops_number (u ++ r)).
  { destruct u as [|c u]; [done|]. apply Forall_cons in Hchars as [Hc _].
    by apply orb_false_iff in Hc as [_ ?]. }
  pose proof (leadingInt_fmt_d v (u ++ r) Hv63 Hstop) as Hint.
  destruct (fmt_d_head v Hv) as (d & t & Hc & Hd & _).
  assert (Hlen : (length (chars_of (fmt_d v) ++ u ++ r) =? length (u ++ r))%nat = false).
  { apply Nat.eqb_neq. rewrite length_app, Hc. simpl. lia. }
  rewrite Hc in *. cbn [app]. rewrite is_digit_pretty_char, orb_true_r by done. cbn [negb].
  cbn [app] in Hint, Hlen. rewrite Hint. unfold mbind, option_bind. cbv beta iota.
  rewrite Hlen. cbn [negb].
  assert (Hd1 : match u ++ r with c :: _ => ascii_eqb c dot = false | [] => True end).
  { destruct u as [|c u]; [done|]. apply Forall_cons in Hchars as [Hc' _].
    by apply orb_false_iff in Hc' as [? _]. }
  replace (match u ++ r with [] => _ | _ :: _ => _ end) with (0, float64 1, u ++ r, false)
    by (destruct (u ++ r); [done|]; by rewrite Hd1).
  cbn [andb negb]. rewrite leading_unit_app by done.
  destruct u as [|c u]; [done|]. rewrite Hfind.
  rewrite (proj2 (Z.ltb_ge _ _)) by (apply Z.div_le_lower_bound; lia).
  cbn [Z.ltb Z.compare]. rewrite u64_id by (unfold is_u64; lia). done.
Qed.
Lemma duration_loop_unit fuel v u unit r d :
  unit_text u unit → 0 ≤ v → stops_unit r → 0 ≤ d → d + v * unit ≤ 2 ^ 63 → 0 ≤ v * unit →
  let s := chars_of (fmt_d v) ++ u ++ r in
  (length s ≤ fuel)%nat →
  ∃ fuel', duration_loop fuel s d = duration_loop fuel' r (d + v * unit) ∧ (length r ≤ fuel')%nat.
Proof.
  intros Hu Hv Hr Hd Hdv Hvu s Hf.
  pose proof (duration_step_unit v u unit r Hu Hv ltac:(lia) Hr) as Hstep. fold s in Hstep.
  destruct (fmt_d_head v Hv) as (c & t & Hc & _).
  assert (Hs : s = pretty_N_char c :: t ++ u ++ r) by (unfold s; by rewrite Hc).
  destruct fuel as [|fuel]; [rewrite Hs in Hf; simpl in Hf; lia|].
  exists fuel. split.
  - rewrite Hs in Hstep |- *. cbn [duration_loop]. rewrite Hstep.
    unfold mbind, option_bind. cbv beta iota. rewrite u64_id by (unfold is_u64; lia).
    by rewrite (proj2 (Z.ltb_ge _ _)) by lia.
  - rewrite Hs in Hf. simpl in Hf. rewrite !length_app in Hf. lia.
Qed.
Lemma unit_h : unit_text ["h"%char] Hour.
Proof. split; [done|done|by repeat constructor|done]. Qed.
Lemma unit_m : unit_text ["m"%char] Minute.
Proof. split; [done|done|by repeat constructor|done]. Qed.
Lemma unit_s : unit_text ["s"%char] Second.
Proof. split; [done|done|by repeat constructor|done]. Qed.
Lemma stops_unit_fmt_d v r : 0 ≤ v → stops_unit (chars_of (fmt_d v) ++ r).
Proof.
  intros Hv. destruct (fmt_d_head v Hv) as (d & t & -> & Hd & _). by apply is_digit_pretty_char.
Qed.

(** The fraction of a whole number of seconds is empty. *)
Lemma fmtFrac_loop_whole prec k : 0 ≤ k →
  fmtFrac_loop prec (10 ^ Z.of_nat prec * k) false "" = (false, "", k).
Proof.
  intros Hk. induction prec as [|prec IH]; cbn [fmtFrac_loop]; [f_equal; lia|].
  rewrite Nat2Z.inj_succ, Z.pow_succ_r by lia.
  replace (10 * 10 ^ Z.of_nat prec * k) with ((10 ^ Z.of_nat prec * k) * 10) by lia.
  rewrite Z.mod_mul, Z.div_mul by lia. apply IH.
Qed.
Lemma fmtFrac_whole k : 0 ≤ k → fmtFrac (Second * k) 9 = ("", k).
Proof.
  intros Hk. unfold fmtFrac. change Second with (10 ^ Z.of_nat 9).
  by rewrite fmtFrac_loop_whole.
Qed.
Lemma chars_app s t : chars_of (s +:+ t) = chars_of s ++ chars_of t.
Proof. apply list_ascii_app. Qed.

(** What [String] prints of [k] seconds: up to three parts. *)
Lemma dur_String_seconds k : 0 < k →
  dur_String (Second * k) =
    if k / 60 =? 0 then fmt_d k +:+ "s"
    else if k / 60 / 60 =? 0 then fmt_d (k / 60) +:+ "m" +:+ fmt_d (k mod 60) +:+ "s"
    else fmt_d (k / 60 / 60) +:+ "h" +:+ fmt_d (k / 60 mod 60) +:+ "m" +:+ fmt_d (k mod 60) +:+ "s".
Proof.
  intros Hk. unfold dur_String.
  rewrite Z.abs_eq, (proj2 (Z.ltb_ge (Second * k) 0)) by (unfold Second; lia).
  rewrite (proj2 (Z.ltb_ge (Second * k) Second)) by (unfold Second; lia).
  rewrite fmtFrac_whole by lia. cbv beta iota zeta. change pretty with fmt_d.
  change ("" +:+ "s") with "s". pose proof (Z.div_mod k 60 ltac:(lia)).
  destruct (Z.eqb_spec (k / 60) 0) as [H60|H60].
  - by replace (k mod 60) with k by lia.
  - pose proof (Z.div_pos k 60 ltac:(lia) ltac:(lia)).
    pose proof (Z.div_mod (k / 60) 60 ltac:(lia)).
    destruct (Z.eqb_spec (k / 60 / 60) 0) as [H3600|_]; [|done].
    by replace (k / 60 mod 60) with (k / 60) by lia.
Qed.

(** The last round, and the loop over one, two and three parts. *)
Lemma duration_loop_s fuel v d : 0 ≤ v → 0 ≤ d → d + v * Second ≤ 2 ^ 63 →
  (length (chars_of (fmt_d v) ++ ["s"%char]) ≤ fuel)%nat →
  duration_loop fuel (chars_of (fmt_d v) ++ ["s"%char]) d = Some (d + v * Second).
Proof.
  intros Hv Hd Hr Hf.
  destruct (duration_loop_unit fuel v ["s"%char] Second [] d unit_s Hv I Hd Hr) as (f & Hl & _);
    [unfold Second; lia|done|]. cbn [app] in Hl. rewrite Hl. by destruct f.
Qed.
Lemma duration_loop_ms fuel m v d : 0 ≤ m → 0 ≤ v → 0 ≤ d →
  d + m * Minute + v * Second ≤ 2 ^ 63 →
  let s := chars_of (fmt_d m) ++ ["m"%char] ++ chars_of (fmt_d v) ++ ["s"%char] in
  (length s ≤ fuel)%nat → duration_loop fuel s d = Some (d + m * Minute + v * Second).
Proof.
  intros Hm Hv Hd Hr s Hf. unfold Minute, Second in *.
  destruct (duration_loop_unit fuel m ["m"%char] Minute (chars_of (fmt_d v) ++ ["s"%char]) d
    unit_m Hm (stops_unit_fmt_d v _ Hv) Hd) as (f & Hl & Hf'); [unfold Minute, Second; lia..|done|].
  unfold s. rewrite Hl. apply duration_loop_s; unfold Minute, Second in *; lia.
Qed.
Lemma duration_loop_hms fuel h m v : 0 ≤ h → 0 ≤ m → 0 ≤ v →
  h * Hour + m * Minute + v * Second ≤ 2 ^ 63 →
  let s := chars_of (fmt_d h) ++ ["h"%char] ++
    chars_of (fmt_d m) ++ ["m"%char] ++ chars_of (fmt_d v) ++ ["s"%char] in
  (length s ≤ fuel)%nat → duration_loop fuel s 0 = Some (h * Hour + m * Minute + v * Second).
Proof.
  intros Hh Hm Hv Hr s Hf. unfold Hour, Minute, Second in *.
  destruct (duration_loop_unit fuel h ["h"%char] Hour
    (chars_of (fmt_d m) ++ ["m"%char] ++ chars_of (fmt_d v) ++ ["s"%char]) 0
    unit_h Hh (stops_unit_fmt_d m _ Hm)) as (f & Hl & Hf');
    [lia|unfold Hour, Minute, Second; lia..|done|].
  unfold s. rewrite Hl. apply duration_loop_ms; unfold Hour, Minute, Second in *; lia.
Qed.

(** A text that starts with a digit has no sign, and is not the special case 0. *)
Lemma ParseDuration_digits z s r d : 0 ≤ z → s ≠ [] →
  chars_of r = chars_of (fmt_d z) ++ s →
  duration_loop (length (chars_of r)) (chars_of r) 0 = Some d → d < 2 ^ 63 →
  ParseDuration r = Some d.
Proof.
  intros Hz Hs Hr Hl Hd. unfold ParseDuration. destruct (fmt_d_head z Hz) as (c & t & Hc & Hlt & _).
  rewrite Hc in Hr. rewrite Hr in *. cbn [app]. rewrite digit_char by done.
  rewrite 2!(proj2 (Z.eqb_neq _ _)) by lia. rewrite bool_decide_false.
  2: { intros [= _ Hnil]. apply app_eq_nil in Hnil as [_ ?]. done. }
  cbn [app] in Hl. rewrite Hl. unfold mbind, option_bind. cbv beta iota.
  by rewrite (proj2 (Z.ltb_ge _ _)) by lia.
Qed.

Lemma ParseDuration_String d : 0 ≤ d < 2 ^ 63 → d mod Second = 0 → ParseDuration (dur_String d) = Some d.
Proof.
  intros Hd Hmod. pose proof (Z.div_mod d Second ltac:(done)) as Hdiv. rewrite Hmod, Z.add_0_r in Hdiv.
  set (k := d / Second) in *. assert (Hk : 0 ≤ k) by (by apply Z.div_pos; [lia|]).
  destruct (decide (k = 0)) as [Hk0|Hk0]; [by rewrite Hdiv, Hk0|].
  rewrite Hdiv at 1. rewrite dur_String_seconds by lia. clearbody k. subst d.
  pose proof (Z.div_mod k 60 ltac:(lia)). pose proof (Z.mod_pos_bound k 60 ltac:(lia)).
  pose proof (Z.div_mod (k / 60) 60 ltac:(lia)). pose proof (Z.mod_pos_bound (k / 60) 60 ltac:(lia)).
  pose proof (Z.div_pos k 60 ltac:(lia) ltac:(lia)).
  pose proof (Z.div_pos (k / 60) 60 ltac:(lia) ltac:(lia)).
  unfold Second in Hd. destruct (k / 60 =? 0); [|destruct (k / 60 / 60 =? 0)].
  - apply (ParseDuration_digits k (chars_of "s")); [lia|done|by rewrite chars_app| |unfold Second; lia].
    rewrite chars_app. rewrite duration_loop_s; unfold Second; [f_equal; lia|lia..|done].
  - apply (ParseDuration_digits (k / 60) (chars_of ("m" +:+ fmt_d (k mod 60) +:+ "s")));
      [lia|done|by rewrite chars_app| |unfold Second; lia].
    rewrite !chars_app. rewrite duration_loop_ms; unfold Minute, Second; [f_equal; lia|lia..|done].
  - apply (ParseDuration_digits (k / 60 / 60)
      (chars_of ("h" +:+ fmt_d (k / 60 mod 60) +:+ "m" +:+ fmt_d (k mod 60) +:+ "s")));
      [lia|done|by rewrite chars_app| |unfold Second; lia].
    rewrite !chars_app. rewrite duration_loop_hms; unfold Hour, Minute, Second; [f_equal; lia|lia..|done].
Qed.

(** ** Flags written as -name=value are assigned *)
Definition valid_name (name : string) : bool :=
  match chars_of name with
  | c :: s => negb (byte_of c =? 45) && negb (byte_of c =? 61) &&
              forallb (λ c, negb (byte_of c =? 61)) s
  | [] => false
  end.
Definition assign (name value : string) : string := "-" +:+ name +:+ "=" +:+ value.
(** Arguments that end the flags: none, or one that does not look like a flag. *)
Definition stops_flags (rest : list string) : Prop :=
  match rest with
  | s :: _ => match chars_of s with c :: _ :: _ => byte_of c ≠ 45 | _ => True end
  | [] => True
  end.

Lemma split_eq_app n x : forallb (λ c, negb (byte_of c =? 61)) n = true →
  split_eq (n ++ "="%char :: x) = (n, Some x).
Proof.
  induction n as [|c n IH]; [done|]. simpl. intros [Hc Hn]%andb_true_iff.
  apply negb_true_iff in Hc. by rewrite Hc, IH.
Qed.
Lemma string_of_chars s : string_of (chars_of s) = s.
Proof. apply String.string_of_list_ascii_of_string. Qed.

Section Assign.
Context {V : Type} (fs : FlagSet V).

Lemma parse_assign name value f v v' args :
  valid_name name = true → lookup_flag name (formal fs) = Some f → Set_ f value v = inr v' →
  parseOne fs v (assign name value :: args) = inr (true, v', args).
Proof.
  intros Hname Hf Hset. unfold parseOne, assign. rewrite !chars_app.
  unfold valid_name in Hname. destruct (chars_of name) as [|c s] eqn:Hc; [done|].
  apply andb_true_iff in Hname as [[Hc1 Hc2]%andb_true_iff Hs].
  apply negb_true_iff in Hc1, Hc2. cbn [chars_of app]. change (chars_of "-") with ["-"%char].
  cbn [app]. rewrite Hc1. cbn [negb andb orb]. rewrite Hc1, Hc2. cbn [orb].
  unfold parse_flag. change (chars_of "=") with ["="%char]. cbn [app].
  rewrite split_eq_app by done. cbn [fmap option_fmap option_map].
  change (fmap string_of (Some (chars_of value))) with (Some (string_of (chars_of value))).
  rewrite string_of_chars, <- Hc, string_of_chars, Hf. unfold set_flag. rewrite Hset.
  by case_decide.
Qed.

Lemma parse_stops v rest : stops_flags rest → parseOne fs v rest = inr (false, v, rest).
Proof.
  unfold parseOne, stops_flags. destruct rest as [|s rest]; [done|].
  destruct (chars_of s) as [|c0 [|c1 cs]]; [done..|]. intros H. by rewrite (proj2 (Z.eqb_neq _ _)).
Qed.

(** The variables after a list of assignments. *)
Fixpoint set_all (l : list (string * string)) (v : V) : option V :=
  match l with
  | [] => Some v
  | (name, x) :: l =>
    f ← lookup_flag name (formal fs);
    match Set_ f x v with inl _ => None | inr v => set_all l v end
  end.
Lemma parse_assigns l rest fuel v v' :
  forallb (λ p, valid_name p.1) l = true → set_all l v = Some v' → stops_flags rest →
  (length l < fuel)%nat →
  parse_loop fuel fs v (((λ p, assign p.1 p.2) <$> l) ++ rest) =
    Some (inr (v', rest)).
Proof.
  revert fuel v. induction l as [|[name x] l IH]; intros fuel v Hn Hset Hrest Hf.
  - injection Hset as ->. destruct fuel as [|fuel]; [simpl in Hf; lia|].
    cbn [fmap list_fmap app parse_loop]. by rewrite parse_stops.
  - apply andb_true_iff in Hn as [Hname Hn]. simpl in Hset.
    destruct (lookup_flag name (formal fs)) as [f|] eqn:Hlook; [|done]. simpl in Hset.
    destruct (Set_ f x v) as [e|v1] eqn:Hx; [done|].
    destruct fuel as [|fuel]; [simpl in Hf; lia|]. cbn [fmap list_fmap app parse_loop fst snd].
    rewrite (parse_assign name x f v v1) by done. apply IH; try done. simpl in Hf. lia.
Qed.
End Assign.
