(* ===== verification/CommandLine.v ===== *)
(** * The command line ([main.go] and the flags of every command)

    Each command declares its flags, parses its arguments and goes on with the values:
    [vars] holds the variables the flags are bound to, by the name of the flag.  With it
    [main] runs from [os.Args] to the exit code.  The body of the daemon, which works on
    handles instead of pinned maps, is a parameter ([Run.cmdRun] is that body); how many
    rounds of a watch loop are looked at, and the time of day it shows, are too. *)
From S2P Require Import Prelude Kernel World GoBase GoSys GoLogic Labels Json Dump Report Clear Inspect Top Loader Api Run Commands Flags.

Local Open Scope string_scope.
Local Open Scope list_scope.
Local Open Scope Z_scope.

(** ** Variables *)
Inductive value := VString (s : string) | VBool (b : bool) | VInt (x : Z).
Definition vars : Type := gmap string value.
Definition string_var (v : vars) (name : string) : string :=
  match v !! name with Some (VString s) => s | _ => "" end.
Definition bool_var (v : vars) (name : string) : bool :=
  match v !! name with Some (VBool b) => b | _ => false end.
Definition int_var (v : vars) (name : string) : Z :=
  match v !! name with Some (VInt x) => x | _ => 0 end.

Definition var_String name def usage : Flag vars :=
  fs_String name def usage (λ s, <[name := VString s]>).
Definition var_Bool name def usage : Flag vars :=
  fs_Bool name def usage (λ b, <[name := VBool b]>).
Definition var_Int name def usage : Flag vars := fs_Int name def usage (λ x, <[name := VInt x]>).
Definition var_Uint name def usage : Flag vars := fs_Uint name def usage (λ x, <[name := VInt x]>).
Definition var_Duration name def usage : Flag vars :=
  fs_Duration name def usage (λ x, <[name := VInt x]>).

(** ** The flags of the commands *)
Definition dump_flagset : FlagSet vars := NewFlagSet "dump" [
  var_String "pin-path" "/sys/fs/bpf/minecraft"
    "bpf map pin directory";
  var_String "map" "whitelist"
    "which map to dump: whitelist | established | syn-seen | open-count | status-ratelimit | login-ratelimit | health | drop-history | all"].

Definition stats_flagset : FlagSet vars := NewFlagSet "stats" [
  var_String "pin-path" "/sys/fs/bpf/minecraft"
    "bpf map pin directory";
  var_Bool "json" false
    "emit JSON instead of text";
  var_Duration "watch" 0
    "repeat every N (e.g. 1s); 0 = run once"].

Definition info_flagset : FlagSet vars := NewFlagSet "info" [
  var_String "pin-path" "/sys/fs/bpf/minecraft"
    "bpf map pin directory"].

Definition health_flagset : FlagSet vars := NewFlagSet "health" [
  var_String "pin-path" "/sys/fs/bpf/minecraft"
    "bpf map pin directory";
  var_Bool "all" false
    "include IPs that have anomalies but aren't blacklisted"].

Definition clear_flagset : FlagSet vars := NewFlagSet "clear" [
  var_String "pin-path" "/sys/fs/bpf/minecraft"
    "bpf map pin directory";
  var_String "map" "whitelist"
    "which map to clear: whitelist | established | syn-seen | open-count | status-ratelimit | login-ratelimit | syn-ratelimit | conn-ratelimit | health | drop-history | all";
  var_String "ip" ""
    "if set, only clear this single IPv4 from the target map(s) instead of wiping every entry"].

Definition inspect_flagset : FlagSet vars := NewFlagSet "inspect" [
  var_String "pin-path" "/sys/fs/bpf/minecraft"
    "bpf map pin directory";
  var_Duration "watch" 0
    "repeat every N (e.g. 1s); 0 = run once"].

Definition top_flagset : FlagSet vars := NewFlagSet "top" [
  var_String "pin-path" "/sys/fs/bpf/minecraft"
    "bpf map pin directory";
  var_String "map" "open-count"
    "which map: whitelist | established | syn-seen | open-count | status-ratelimit | login-ratelimit | syn-ratelimit | conn-ratelimit | health | drop-history";
  var_Int "n" 10
    "max entries to print (0 for all)";
  var_String "reason" ""
    "for --map drop-history: rank by this reason instead of total drops (e.g. login_ratelimit)"].

Definition run_flagset : FlagSet vars := NewFlagSet "run" [
  var_String "iface" "eth0"
    "network interface to attach XDP to";
  var_Uint "port" 25565
    "Minecraft Java server port (TCP)";
  var_Duration "ttl" (10 * Minute)
    "whitelist TTL";
  var_String "metrics-addr" ":9464"
    "prometheus metrics listen address";
  var_String "cgroup" "/sys/fs/cgroup"
    "cgroup v2 path for sockops attach";
  var_String "pin-path" "/sys/fs/bpf/minecraft"
    "bpf map pin directory";
  var_Uint "status-per-min" 60
    "per-IP Status/ping handshake refill rate (per minute)";
  var_Uint "status-burst" 20
    "per-IP Status/ping handshake burst capacity";
  var_Uint "login-per-min" 20
    "per-IP Login/Transfer handshake refill rate (per minute)";
  var_Uint "login-burst" 8
    "per-IP Login/Transfer handshake burst capacity";
  var_Uint "tcp-global-rate" 5000
    "global circuit-breaker on aggregate new-connection SYNs/sec to target port (0 disables)";
  var_Uint "tcp-global-burst" 15000
    "global circuit-breaker burst capacity (SYNs)";
  var_Uint "tcp-max-open-per-ip" 8
    "drop new SYNs from any IP that already holds this many open TCP sockets to the target port (0 disables)";
  var_Uint "conn-pps" 300
    "per-IP packets/sec cap on established+whitelisted connections (0 disables)";
  var_Uint "conn-burst" 600
    "per-IP established/whitelisted packet burst capacity";
  var_Uint "conn-bps" 524288
    "per-IP bytes/sec cap on established+whitelisted connections (0 disables)";
  var_Uint "conn-byte-burst" 1048576
    "per-IP established/whitelisted byte burst capacity";
  var_Uint "conn-new-rate" 10
    "per-IP new-connection (SYN) rate/sec to the target port (0 disables)";
  var_Uint "conn-new-burst" 20
    "per-IP new-connection burst capacity";
  var_Duration "health-window" (60 * Second)
    "anomaly counting window per IP";
  var_Uint "health-threshold" 100
    "anomalies (malformed handshakes) per window before blacklisting an IP";
  var_Duration "health-blacklist" (5 * Minute)
    "how long an unhealthy IP stays blacklisted";
  var_Duration "map-size-interval" (30 * Second)
    "how often to refresh map-size Prometheus gauges"].

Definition run_values (v : vars) : run_flags :=
  RunFlags (string_var v "iface") (int_var v "port") (int_var v "ttl")
    (string_var v "metrics-addr") (string_var v "cgroup") (string_var v "pin-path")
    (int_var v "status-per-min") (int_var v "status-burst") (int_var v "login-per-min")
    (int_var v "login-burst") (int_var v "tcp-global-rate") (int_var v "tcp-global-burst")
    (int_var v "tcp-max-open-per-ip") (int_var v "conn-pps") (int_var v "conn-burst")
    (int_var v "conn-bps") (int_var v "conn-byte-burst") (int_var v "conn-new-rate")
    (int_var v "conn-new-burst") (int_var v "health-window") (int_var v "health-threshold")
    (int_var v "health-blacklist") (int_var v "map-size-interval").
Example run_defaults : run_values (defaults run_flagset ∅) = default_flags.
Proof. reflexivity. Qed.

(** ** The commands, from their arguments *)
Section CommandLine.
Context `{Hsort : SortSlice}.
Context (version : string) (range_map : list (string * Z) → list (string * Z)).
Context (rounds : nat) (time_text : nat → string) (daemon : run_flags → io unit).

Definition command_args (c : command) (args : list string) : io unit :=
  match c with
  | Run => r ← Parse run_flagset ∅ args; daemon (run_values r.1)
  | Info => r ← Parse info_flagset ∅ args; cmdInfo version range_map (string_var r.1 "pin-path")
  | Dump => r ← Parse dump_flagset ∅ args;
      cmdDump (string_var r.1 "pin-path") (string_var r.1 "map")
  | Stats_ => r ← Parse stats_flagset ∅ args;
      cmdStats (string_var r.1 "pin-path") (bool_var r.1 "json") (int_var r.1 "watch")
        rounds time_text
  | Clear => r ← Parse clear_flagset ∅ args;
      cmdClear (string_var r.1 "pin-path") (string_var r.1 "map") (string_var r.1 "ip")
  | Inspect => r ← Parse inspect_flagset ∅ args;
      cmdInspect (string_var r.1 "pin-path") (int_var r.1 "watch") r.2 rounds time_text
  | Top_ => r ← Parse top_flagset ∅ args;
      cmdTop (string_var r.1 "pin-path") (string_var r.1 "map") (int_var r.1 "n")
        (string_var r.1 "reason")
  | Health_ => r ← Parse health_flagset ∅ args;
      cmdHealth (string_var r.1 "pin-path") (bool_var r.1 "all")
  end.
Definition os_main : list string → io unit := main command_args.
End CommandLine.
