(* ===== verification/CommandLineProps.v ===== *)
(** * What the command line guarantees

    The flags of the daemon survive printing and parsing; a command line that cannot be
    parsed does nothing; and of everything that can be typed, only [clear] writes. *)
From S2P Require Import Prelude Kernel World GoBase GoSys GoLogic Labels Json Dump Report Clear Inspect Top Loader Api Run Commands Flags FlagProps CommandLine.

Local Open Scope string_scope.
Local Open Scope list_scope.
Local Open Scope Z_scope.

(** ** The flags of the daemon *)
Section SetAll.
Context (fs : FlagSet vars) (name : string) (l : list (string * string)) (v : vars).

Lemma set_all_string def usage s : lookup_flag name (formal fs) = Some (var_String name def usage) →
  set_all fs ((name, s) :: l) v = set_all fs l (<[name := VString s]> v).
Proof. intros Hf. simpl. by rewrite Hf. Qed.
Lemma set_all_uint def usage x : lookup_flag name (formal fs) = Some (var_Uint name def usage) →
  is_u64 x → set_all fs ((name, fmt_d x) :: l) v = set_all fs l (<[name := VInt x]> v).
Proof. intros Hf Hx. simpl. rewrite Hf. simpl. by rewrite ParseUint_fmt_d. Qed.
Definition whole_seconds (d : Z) : Prop := 0 ≤ d < 2 ^ 63 ∧ d mod Second = 0.
Lemma set_all_duration def usage d :
  lookup_flag name (formal fs) = Some (var_Duration name def usage) → whole_seconds d →
  set_all fs ((name, dur_String d) :: l) v = set_all fs l (<[name := VInt d]> v).
Proof. intros Hf [Hd Hs]. simpl. rewrite Hf. simpl. by rewrite ParseDuration_String. Qed.
End SetAll.

(** Values of the types of the flags, the durations in whole seconds. *)
Definition run_flags_typed (f : run_flags) : Prop :=
  Forall is_u64 [f_port f; f_statusRate f; f_statusBurst f; f_loginRate f; f_loginBurst f;
    f_tcpGlobalRate f; f_tcpGlobalBurst f; f_tcpMaxOpenPerIP f; f_connPPS f; f_connBurst f;
    f_connBPS f; f_connByteBurst f; f_connNewRate f; f_connNewBurst f; f_healthThreshold f] ∧
  Forall whole_seconds [f_ttl f; f_healthWindow f; f_healthBlacklist f; f_sizeInterval f].
Definition run_assignments (f : run_flags) : list (string * string) := [
  ("iface", f_iface f); ("port", fmt_d (f_port f)); ("ttl", dur_String (f_ttl f));
  ("metrics-addr", f_metricsAddr f); ("cgroup", f_cgroup f); ("pin-path", f_pinPath f);
  ("status-per-min", fmt_d (f_statusRate f)); ("status-burst", fmt_d (f_statusBurst f));
  ("login-per-min", fmt_d (f_loginRate f)); ("login-burst", fmt_d (f_loginBurst f));
  ("tcp-global-rate", fmt_d (f_tcpGlobalRate f)); ("tcp-global-burst", fmt_d (f_tcpGlobalBurst f));
  ("tcp-max-open-per-ip", fmt_d (f_tcpMaxOpenPerIP f)); ("conn-pps", fmt_d (f_connPPS f));
  ("conn-burst", fmt_d (f_connBurst f)); ("conn-bps", fmt_d (f_connBPS f));
  ("conn-byte-burst", fmt_d (f_connByteBurst f)); ("conn-new-rate", fmt_d (f_connNewRate f));
  ("conn-new-burst", fmt_d (f_connNewBurst f)); ("health-window", dur_String (f_healthWindow f));
  ("health-threshold", fmt_d (f_healthThreshold f));
  ("health-blacklist", dur_String (f_healthBlacklist f));
  ("map-size-interval", dur_String (f_sizeInterval f))].
(** [-iface=eth0 -port=25565 ...] *)
Definition run_args (f : run_flags) : list string :=
  (λ p, assign p.1 p.2) <$> run_assignments f.

Ltac set_next :=
  first [erewrite set_all_string; [|reflexivity]
        |erewrite set_all_uint; [|reflexivity|assumption]
        |erewrite set_all_duration; [|reflexivity|assumption]].
Lemma run_set_all f : run_flags_typed f →
  ∃ v, set_all run_flagset (run_assignments f) (defaults run_flagset ∅) = Some v ∧ run_values v = f.
Proof.
  intros [Hu Hd]. repeat apply Forall_cons in Hu as [? Hu]. repeat apply Forall_cons in Hd as [? Hd].
  unfold run_assignments.
  repeat set_next. eexists. split; [reflexivity|].
  destruct f. vm_compute. reflexivity.
Qed.

(** ** From the command line to the command *)
Definition flagset_of (c : command) : FlagSet vars :=
  match c with
  | Run => run_flagset | Info => info_flagset | Dump => dump_flagset | Stats_ => stats_flagset
  | Clear => clear_flagset | Inspect => inspect_flagset | Top_ => top_flagset
  | Health_ => health_flagset
  end.
Definition command_name (c : command) : string :=
  match c with
  | Run => "run" | Info => "info" | Dump => "dump" | Stats_ => "stats" | Clear => "clear"
  | Inspect => "inspect" | Top_ => "top" | Health_ => "health"
  end.
Lemma command_of_name c : command_of (command_name c) = Some c.
Proof. by destruct c. Qed.

Section Parse.
Context (fs : FlagSet vars) (args : list string).
Let result := parse_loop (S (length args)) fs (defaults fs ∅) args.

Lemma Parse_values v rest s : result = Some (inr (v, rest)) → Parse fs ∅ args s = (Done (v, rest), s).
Proof. intros H. unfold Parse. fold result. by rewrite H. Qed.
Lemma prints_stderr {A} (f : A → string) l :
  Prints (for_each l (λ x, fprint Stderr (f x))) ((λ x, (Stderr, f x)) <$> l).
Proof.
  induction l as [|x l IH]; [apply prints_nothing|].
  apply (prints_bind (fprint Stderr (f x)) _ [_]); [apply prints_fprint|apply IH].
Qed.
Lemma print_usage_prints : ∃ l, Prints (print_usage fs) ((λ t, (Stderr, t)) <$> l).
Proof.
  unfold print_usage, PrintDefaults. eexists (_ :: (flag_text <$> sorted_flags fs)).
  rewrite fmap_cons, <- list_fmap_compose.
  apply (prints_bind (fprint Stderr _) _ [_]); [apply prints_fprint|apply prints_stderr].
Qed.
(** The exit code of an error: asking for help is none. *)
Definition exit_code (err : parse_err) : Z := match err with ErrHelp => 0 | ErrMsg _ => 2 end.
Lemma Parse_fails err s : result = Some (inl err) →
  ∃ l, Parse fs ∅ args s = (Exit (exit_code err), set_trace (trace s ++ ((λ t, (Stderr, t)) <$> l)) s).
Proof.
  intros H. unfold Parse. fold result. rewrite H. destruct print_usage_prints as [l Hl].
  destruct err as [|msg].
  - exists l. by rewrite (bind_done _ _ _ _ _ (Hl s)).
  - exists ((msg +:+ newline) :: l). unfold eprintln.
    rewrite (bind_done _ _ _ _ _ (prints_fprint _ _ s)), (bind_done _ _ _ _ _ (Hl _)).
    rewrite set_trace_twice. simpl. by rewrite <- app_assoc.
Qed.
Lemma Parse_clean : Clean (Parse fs ∅ args).
Proof.
  unfold Parse, print_usage, PrintDefaults.
  destruct (parse_loop _ _ _ _) as [[[|msg]|r]|]; clean; apply clean_for_each; intros; apply clean_print.
Qed.
End Parse.

Section CommandLine.
Context `{Hsort : SortSlice}.
Context (version : string) (range_map : list (string * Z) → list (string * Z)).
Context (rounds : nat) (time_text : nat → string) (daemon : run_flags → io unit).
Notation os_main := (os_main version range_map rounds time_text daemon).
Notation command_args := (command_args version range_map rounds time_text daemon).

Lemma os_main_command p c args : os_main (p :: command_name c :: args) = command_args c args.
Proof. unfold os_main, main. by rewrite command_of_name. Qed.
Lemma command_args_fails c args err s :
  parse_loop (S (length args)) (flagset_of c) (defaults (flagset_of c) ∅) args = Some (inl err) →
  ∃ l, command_args c args s =
    (Exit (exit_code err), set_trace (trace s ++ ((λ t, (Stderr, t)) <$> l)) s).
Proof.
  intros H. destruct (Parse_fails _ _ _ s H) as [l Hl]. exists l.
  destruct c; unfold command_args, flagset_of in *; unfold mbind, io_bind; by rewrite Hl.
Qed.

(** C32. What the daemon is told is what it runs with: settings whose numbers fit 64 bits
    unsigned and whose durations are non-negative whole seconds, printed as -name=value, the
    numbers in decimal and the durations as the log shows them, are read back by the command
    line into the same settings, whatever positional arguments follow. *)
Theorem run_flags_roundtrip p f rest s :
  run_flags_typed f → stops_flags rest →
  os_main (p :: "run" :: run_args f ++ rest) s = daemon f s.
Proof.
  intros Hf Hrest. destruct (run_set_all f Hf) as (v & Hv & Hval).
  assert (Hp : parse_loop (S (length (run_args f ++ rest))) run_flagset (defaults run_flagset ∅)
    (run_args f ++ rest) = Some (inr (v, rest))).
  { apply parse_assigns; [reflexivity|done|done|].
    unfold run_args. rewrite length_app, length_fmap. lia. }
  rewrite (os_main_command p Run). unfold CommandLine.command_args, mbind, io_bind.
  rewrite (Parse_values _ _ v rest s Hp). cbn [fst]. by rewrite Hval.
Qed.

(** A command line that does not parse does nothing: whichever command it names, an
    unknown flag, a bad value, a missing value or a request for help leaves everything
    as it was but for lines on stderr, and exits with 2, or with 0 after help. *)
Theorem bad_arguments_exit p c args err s :
  parse_loop (S (length args)) (flagset_of c) (defaults (flagset_of c) ∅) args = Some (inl err) →
  ∃ l, os_main (p :: command_name c :: args) s =
    (Exit (exit_code err), set_trace (trace s ++ ((λ t, (Stderr, t)) <$> l)) s).
Proof. rewrite os_main_command. apply command_args_fails. Qed.

(** C33. Flags end at the first positional argument: [inspect] with the address first looks
    the address up once, in the default directory, whatever follows it; a --watch or
    --pin-path behind the address is not read. *)
Theorem inspect_address_first p addr more s :
  stops_flags [addr] →
  os_main (p :: "inspect" :: addr :: more) s =
    cmdInspect "/sys/fs/bpf/minecraft" 0 (addr :: more) rounds time_text s.
Proof.
  intros Ha. rewrite (os_main_command p Inspect). simpl. unfold mbind, io_bind.
  rewrite (Parse_values _ _ (defaults inspect_flagset ∅) (addr :: more)); [done|].
  cbn [parse_loop length]. by rewrite parse_stops.
Qed.

(** C34. Of everything that can be typed, only [clear] writes: whatever the arguments,
    every other command but the daemon leaves all pinned maps as they were, and has
    closed every map it opened when it returns. *)
Theorem command_line_reads_only argv :
  (∀ p args, argv ≠ p :: "run" :: args ∧ argv ≠ p :: "clear" :: args) → Clean (os_main argv).
Proof.
  intros Hargv. unfold os_main, main, usage.
  destruct argv as [|p [|name args]]; [clean; apply clean_for_each; intros; clean..|].
  destruct (command_of name) as [c|] eqn:Hc.
  2: { destruct (is_help name); clean; apply clean_for_each; intros; clean. }
  assert (Hname : name = command_name c).
  { unfold command_of in Hc. repeat (case_bool_decide; [by simplify_eq|]). done. }
  subst name. clear Hc. destruct c; try (by destruct (Hargv p args) as [H1 H2]; (destruct H1 + destruct H2)).
  all: apply clean_bind; [apply Parse_clean|intros r].
  - apply cmdInfo_clean.
  - apply cmdDump_clean.
  - apply cmdStats_clean.
  - apply cmdInspect_clean.
  - apply cmdTop_clean.
  - apply cmdHealth_clean.
Qed.
End CommandLine.
