(* ===== verification/GoWitnesses.v ===== *)
(** * The Go theorems at concrete inputs

    A pin directory that shows a state with one banned, whitelisted source, the daemon
    with its default flags, and a machine on which every call succeeds. *)
From S2P Require Import Prelude Kernel World Health XdpAccounting GoBase GoSys Layout Pins GoLogic Labels Json Dump Shown Report Clear Inspect Top Loader LoaderProps LoadHandles Api ApiProps Collector CollectorProps Run Commands.

Local Open Scope string_scope.
Local Open Scope list_scope.
Local Open Scope Z_scope.

Ltac computes := vm_compute; reflexivity.

(** ** The state and its pins *)
Definition src7 : ipkey := IPKey 203 0 113 7.
Definition banned : ip_health := IpHealth 20 5 2000000000000.
Definition go_world : world (gmap ipkey) :=
  set_map HEALTH {[src7 := banned]} (set_map WHITELIST {[src7 := 5]} (empty_world 1)).
(** The clock of [example_sys] reads 1000 s; the datapath's, here, the same. *)
Definition go_env : kenv := Kenv default_config 0 (λ _, 1000000000000).
Definition go_sys : sys := example_sys "/pins" go_world.

Lemma go_values V (i : mapid V) : values_ok i go_world.
Proof.
  destruct i; try apply map_Forall_empty; unfold values_ok; simpl;
    apply map_Forall_singleton; simpl.
  - by split.
  - split; [repeat split; simpl; lia|]. by exists [0; 0; 0; 0].
Qed.
Lemma go_pinned : pinned_world "/pins" go_world go_sys.
Proof. apply example_pinned. intros V i. apply go_values. Qed.
Lemma go_shows {V} (i : mapid V) :
  shows i go_world (pin_map i go_world) (map_to_list (get_map i go_world)).
Proof. apply pin_map_shows, go_values. Qed.
Lemma go_shows_stats : shows_stats go_world (pin_stats go_world).
Proof. by intros i _. Qed.

Lemma info_totals_witness :
  Prints (info_counters id (inr (pin_stats go_world)))
    [(Stdout, "  tcp: 0 pass / 0 drop" +:+ newline)].
Proof. exact (info_totals id go_world (pin_stats go_world) (λ l, reflexivity l) go_shows_stats). Defined.

Lemma health_lists_blacklist_witness :
  ∃ (listed : list (ipkey * ip_health)) s', cmdHealth "/pins" false go_sys = (Done tt, s') ∧
    (∀ r, r ∈ listed ↔ r ∈ map_to_list (get_map HEALTH go_world) ∧ blocked go_env go_world r.1).
Proof.
  assert (Hm : fs go_sys !! path_Join "/pins" "health" = Some (pin_map HEALTH go_world)) by computes.
  assert (Hnow : boot_ns go_env (clock_reads go_world) = boot_reading go_sys) by computes.
  destruct (health_lists_blacklist "/pins" go_world go_env go_sys _ _ Hm (go_shows HEALTH) Hnow)
    as (listed & s' & Hrun & Hl & _).
  exists listed, s'. split; [exact Hrun|exact Hl].
Defined.

Lemma go_fits : fits (boot_reading go_sys).
Proof. split; vm_compute; congruence. Qed.
Lemma go_source_fits k : source_fits go_world k.
Proof.
  intros V i v Hv. destruct i; cbn in Hv; try (rewrite lookup_empty in Hv; discriminate Hv).
  - apply lookup_singleton_Some in Hv as [_ <-]. repeat constructor; vm_compute; congruence.
  - apply lookup_singleton_Some in Hv as [_ <-]. repeat constructor; vm_compute; congruence.
Qed.
Lemma inspect_shows_state_witness :
  cmdInspect "/pins" 0 ["203.0.113.7"] 0 (λ _, "") go_sys =
    (Done tt, set_trace (trace go_sys ++ said_lines (boot_reading go_sys) "203.0.113.7" go_world src7)
     (set_clock (S (clock_count go_sys)) go_sys)) ∧
  said_lines (boot_reading go_sys) "203.0.113.7" go_world src7 !! 9%nat =
    Some (Stdout, "  health                 anomalies=20 window_age=16m39s BLACKLISTED unblock_in=16m40s"
      +:+ newline).
Proof.
  split; [|computes].
  apply inspect_shows_state; [computes|apply go_pinned|apply go_fits|apply go_source_fits].
Defined.

Lemma topFromMap_ranks_witness :
  topFromMap "/pins" "health" 10 "" go_sys =
    (Done (inr [top_entry 1000000000000 None HEALTH src7 banned]), set_clock 1 go_sys).
Proof.
  assert (Hm : fs go_sys !! path_Join "/pins" (pin_name HEALTH) = Some (pin_map HEALTH go_world))
    by computes.
  assert (Hf : ∀ k v, (k, v) ∈ map_to_list (get_map HEALTH go_world) → entry_fits HEALTH v).
  { intros k v Hkv%elem_of_map_to_list. by apply (go_source_fits k). }
  destruct (topFromMap_ranks "/pins" "health" 10 None HEALTH go_world _ _ go_sys top_health Hm
    (go_shows HEALTH) go_fits Hf) as (kept & rest & Hp & Hrun & _ & _ & _ & Hlen).
  assert (He : map_to_list (get_map HEALTH go_world) = [(src7, banned)]) by computes.
  rewrite He in Hp, Hlen.
  specialize (Hlen eq_refl). destruct kept as [|e [|]]; [discriminate Hlen| |cbn in Hlen; lia].
  symmetry in Hp. apply Permutation_singleton_l in Hp. injection Hp as <- _. exact Hrun.
Defined.

Lemma clear_empties_witness :
  let s' := (cmdClear "/pins" "whitelist" "" go_sys).2 in
  (cmdClear "/pins" "whitelist" "" go_sys).1 = Done tt ∧
  Forall2 (λ name m, fs s' !! path_Join "/pins" name = Some (set_entries m []))
    ["tcp_whitelist"] [pin_map WHITELIST go_world].
Proof.
  assert (Ht : clear_targets "whitelist" = Some ["tcp_whitelist"]) by computes.
  assert (Hnd : NoDup ["tcp_whitelist"]) by (apply NoDup_singleton).
  assert (Hms : Forall2 (λ name m, fs go_sys !! path_Join "/pins" name = Some m ∧ healthy_map m)
    ["tcp_whitelist"] [pin_map WHITELIST go_world]).
  { constructor; [|constructor]. split; [computes|]. split; [done|]. split; [done|].
    apply (bool_decide_unpack _). computes. }
  destruct (clear_empties "/pins" "whitelist" _ _ go_sys Ht Hnd Hms) as (Hd & Ha & _).
  split; [exact Hd|exact Ha].
Defined.

(** ** The API *)
Definition go_loaded : Loaded unit pinned :=
  MkLoaded (Some tt) (Some tt) (Some (pin_map ESTABLISHED go_world))
    (Some (pin_map SYN_SEEN go_world)) (Some (pin_map WHITELIST go_world))
    (Some (pin_map STATUS_RL go_world)) (Some (pin_map LOGIN_RL go_world)) None
    (Some (pin_map OPEN_COUNT go_world)) (Some (pin_map CONN_RL go_world))
    (Some (pin_map SYN_RL go_world)) (Some (pin_map HEALTH go_world))
    (Some (pin_map DROP_HISTORY go_world)) (Some (pin_stats go_world)) "native".
Lemma go_shown {V} (i : mapid V) : shown i go_world (Some (pin_map i go_world)).
Proof. eexists _, _. split; [reflexivity|apply go_shows]. Qed.
Definition go_request : request := Request "/api/ip/203.0.113.7" (λ _, "").

Lemma ip_lookup_answers_witness :
  handleIPLookup go_loaded go_request go_sys =
    (Done (writeJSON (ip_report (boot_reading go_sys) "203.0.113.7" go_world src7)),
     set_clock (S (clock_count go_sys)) go_sys).
Proof.
  assert (Hl : loaded_shows go_world go_loaded)
    by (unfold loaded_shows; split_and!; apply go_shown).
  exact (ip_lookup_answers go_loaded go_world go_request go_sys Hl).
Defined.

Lemma api_lists_blacklist_witness :
  ∃ listed : list (ipkey * ip_health),
    (∀ x, x ∈ listed ↔ x ∈ map_to_list (get_map HEALTH go_world) ∧ blocked go_env go_world x.1) ∧
    handleBlacklist (Some (pin_map HEALTH go_world)) go_sys =
      (Done (writeJSON (JArr (blacklistEntry (boot_reading go_sys) <$> listed))),
       set_clock (S (clock_count go_sys)) go_sys).
Proof.
  assert (Hnow : boot_ns go_env (clock_reads go_world) = boot_reading go_sys) by computes.
  assert (Hq : req_query go_request "all" ≠ "1") by discriminate.
  destruct (api_lists_blacklist go_world go_env _ _ go_request go_sys (go_shows HEALTH) Hnow Hq)
    as (listed & Hl & Hb & _).
  exists listed. split; [exact Hl|exact Hb].
Defined.

Definition go_api : apiCfg := run_api "dev" default_flags go_loaded.
Definition go_metrics (_ : request) : io response := mret (Response 200 [] "").
Lemma daemon_routes_witness :
  fst <$> mux_serve (run_routes go_metrics "dev" go_api) "/favicon.ico" = Some "/".
Proof.
  pose proof (daemon_routes go_metrics "dev" go_api "/favicon.ico" eq_refl) as H.
  rewrite H. reflexivity.
Defined.

(** ** The loader and the daemon *)
Definition no_set_err (name : string) : option goerr := None.
Lemma loader_serves_datapath_witness :
  ∃ sp, set_variables no_set_err (run_options default_flags) 4 c_variables = inr sp ∧
    settings_kept (run_options default_flags) (config_of sp) ∧
    share_of 4 (TCPGlobalBurst (run_options default_flags)) (tcp_global_burst (config_of sp)).
Proof.
  assert (Ht : options_typed (run_options default_flags))
    by (unfold options_typed; split_and!; split; vm_compute; congruence).
  assert (Hs : options_sane (run_options default_flags))
    by (unfold options_sane; split_and!; repeat constructor; vm_compute; congruence).
  destruct (loader_serves_datapath no_set_err (run_options default_flags) (inr 4)
    (λ _, eq_refl) Ht Hs) as (sp & Hsp & Hk & _ & _ & _ & _ & _ & _ & _ & _ & Hb).
  exists sp. split; [exact Hsp|]. split; [exact Hk|exact Hb].
Defined.

Lemma run_wires_flags_witness :
  ∃ sp, set_variables no_set_err (run_options default_flags) 4 c_variables = inr sp ∧
    target_port (config_of sp) = cfg_Port go_api.
Proof.
  destruct (run_wires_flags no_set_err default_flags "dev" go_loaded 4 (λ _, eq_refl))
    as (sp & Hsp & Hp & _).
  exists sp. split; [exact Hsp|exact Hp].
Defined.

(** Everything succeeds, natively. *)
Definition go_lib : lib := {|
  InterfaceByName := λ _, inr 2; MkdirAll := λ _, None;
  xdp_spec := inr c_variables; sockops_spec := inr {["target_port" := (2%nat, 25565)]};
  lib_set_err := no_set_err; lib_possible_cpu := inr 4;
  load_xdp := λ _ _, None; load_sockops := λ _ _, None;
  xdp_maps := "tcp_first_data" :: named_xdp_maps; sockops_maps := "tcp_first_data" :: named_sockops_maps;
  attach_native := λ _, None; attach_generic := λ _, None; attach_cgroup := λ _, None;
  close_err := λ _, None |}.
Lemma go_lib_maps n : n ∈ named_xdp_maps → n ∈ xdp_maps go_lib.
Proof. intros Hn. by right. Qed.

Lemma Load_handles_witness :
  match Load go_lib (run_options default_flags) [] with
  | (inl _, o) => False
  | (inr l, o) => (∀ h, h ∈ o ↔ h ∈ owned l ∨ unnamed go_lib h) ∧ XDPMode l ∈ ["native"; "generic"]
  end.
Proof.
  pose proof (Load_handles go_lib go_lib_maps (run_options default_flags)) as H.
  destruct (Load go_lib (run_options default_flags) []) as [[err|l] o] eqn:E; [|exact H].
  assert (Hb : match (Load go_lib (run_options default_flags) []).1 with
               | inl _ => false | inr _ => true end = true) by computes.
  rewrite E in Hb. discriminate Hb.
Defined.

Lemma cmdRun_releases_witness :
  (cmdRun go_lib None default_flags []).1 = 0 ∧
  ∀ h, h ∈ (cmdRun go_lib None default_flags []).2 → unnamed go_lib h.
Proof.
  pose proof (cmdRun_releases go_lib None go_lib_maps default_flags) as H.
  split; [computes|]. destruct (cmdRun go_lib None default_flags []) as [code o]. exact (proj1 H).
Defined.

(** ** The collector *)
Definition go_maps : Maps :=
  MkMaps (percpu (pin_stats go_world)) (Some (pin_map WHITELIST go_world))
    (Some (pin_map ESTABLISHED go_world)) (Some (pin_map SYN_SEEN go_world))
    (Some (pin_map OPEN_COUNT go_world)) (Some (pin_map STATUS_RL go_world))
    (Some (pin_map LOGIN_RL go_world)) (Some (pin_map SYN_RL go_world))
    (Some (pin_map CONN_RL go_world)) (Some (pin_map HEALTH go_world))
    (Some (pin_map DROP_HISTORY go_world)).
Definition valid_ascii (s : string) : bool := true.
Lemma ascii_eth0 : is_ascii "eth0".
Proof. by repeat constructor. Qed.
Lemma ascii_dev : is_ascii "dev".
Proof. by repeat constructor. Qed.
Definition go_collector : Collector := NewCollector go_maps "eth0" 25565 "dev" true true.

Lemma collector_registers_witness :
  ∃ ms, Collect valid_ascii go_collector (λ _, 3) = Some ms ∧ NoDup (metric_id <$> ms).
Proof.
  destruct (collector_registers valid_ascii go_maps "eth0" "dev" 25565 true true (λ _, 3)
    (λ _ _, eq_refl) ascii_eth0 ascii_dev) as (ms & Hms & _ & Hnd & _).
  exists ms. split; [exact Hms|exact Hnd].
Defined.

Lemma collector_exports_counters_witness :
  ∃ ms d, Collect valid_ascii go_collector (λ _, -1) = Some ms ∧
    filter (λ m, metric_id m = ("minecraft_xdp_packets_total", ["drop"; "tcp"; "no_syn"])) ms =
      [Metric d CounterValue 0 ["drop"; "tcp"; "no_syn"]].
Proof.
  destruct (collector_exports_counters valid_ascii go_maps "eth0" "dev" 25565 true true (λ _, -1)
    (λ _ _, eq_refl) ascii_eth0 ascii_dev) as (ms & Hms & Hs & _).
  destruct (Hs STAT_DROP_TCP_NO_SYN) as (d & Hd). exists ms, d. split; [exact Hms|exact Hd].
Defined.

Lemma go_maps_shown V (i : mapid V) : shown_or_nil i go_world (map_of i go_maps).
Proof. destruct i; intros m [= <-]; eexists; apply go_shows. Qed.
Lemma gauges_show_maps_witness :
  ∃ sz' s' ms, refreshSizes go_maps (λ _, 0) go_sys = (Done sz', s') ∧
    Collect valid_ascii go_collector sz' = Some ms ∧
    ∃ n, blacklist_count go_env go_world n ∧
      series ms ("minecraft_health_blacklisted_ips", []) = Some (float64 n).
Proof.
  assert (Hnow : boot_ns go_env (clock_reads go_world) = boot_reading go_sys) by computes.
  destruct (gauges_show_maps valid_ascii go_maps "eth0" "dev" 25565 true true (λ _, 0) go_env
    go_world go_sys (λ _ _, eq_refl) ascii_eth0 ascii_dev go_maps_shown Hnow)
    as (sz' & s' & ms & Hr & Hc & _ & Hb).
  exists sz', s', ms. split; [exact Hr|]. split; [exact Hc|]. apply Hb. discriminate.
Defined.
