(* ===== verification/DaemonWitnesses.v ===== *)
(** * The command line and the daemon at concrete inputs

    Argument lists as they are typed, and the daemon on a machine on which every call
    succeeds. *)
From S2P Require Import Prelude Kernel World GoBase GoSys GoLogic Dump Inspect Top Loader LoadHandles Run Daemon Flags FlagProps CommandLine CommandLineProps GoWitnesses.

Local Open Scope string_scope.
Local Open Scope list_scope.
Local Open Scope Z_scope.

(** ** Command lines *)
Definition say_iface (f : run_flags) : io unit := println (f_iface f).
Definition typed (argv : list string) : io unit :=
  os_main "dev" id 3 (λ _, "12:00:00") say_iface argv.

Lemma run_flags_roundtrip_witness :
  length (run_args default_flags) = 23%nat ∧
  typed ("minecraft-ebpf" :: "run" :: run_args default_flags ++ ["extra"]) go_sys =
    println "eth0" go_sys.
Proof.
  assert (Hf : run_flags_typed default_flags).
  { split; repeat apply Forall_cons_2; try apply Forall_nil_2; repeat split; vm_compute; congruence. }
  split; [computes|].
  exact (run_flags_roundtrip "dev" id 3 (λ _, "12:00:00") say_iface "minecraft-ebpf" default_flags
    ["extra"] go_sys Hf ltac:(vm_compute; discriminate)).
Defined.

(** An unknown flag after a good one. *)
Lemma bad_arguments_exit_witness :
  ∃ l, typed ["minecraft-ebpf"; "dump"; "--map"; "health"; "-all"] go_sys =
    (Exit 2, set_trace (trace go_sys ++ ((λ t, (Stderr, t)) <$> l)) go_sys).
Proof.
  apply (bad_arguments_exit "dev" id 3 (λ _, "12:00:00") say_iface "minecraft-ebpf" Dump
    ["--map"; "health"; "-all"] (ErrMsg "flag provided but not defined: -all") go_sys).
  computes.
Defined.

(** The order the usage text shows. *)
Lemma inspect_address_first_witness :
  typed ["minecraft-ebpf"; "inspect"; "203.0.113.7"; "--watch"; "1s"] go_sys =
    cmdInspect "/sys/fs/bpf/minecraft" 0 ["203.0.113.7"; "--watch"; "1s"] 3 (λ _, "12:00:00") go_sys.
Proof.
  apply (inspect_address_first "dev" id 3 (λ _, "12:00:00") say_iface "minecraft-ebpf"
    "203.0.113.7" ["--watch"; "1s"] go_sys).
  vm_compute. discriminate.
Defined.

Lemma command_line_reads_only_witness :
  fs (typed ["minecraft-ebpf"; "health"; "-pin-path=/pins"; "--all"] go_sys).2 = fs go_sys.
Proof.
  refine (proj1 (command_line_reads_only "dev" id 3 (λ _, "12:00:00") say_iface
    ["minecraft-ebpf"; "health"; "-pin-path=/pins"; "--all"] _ go_sys)).
  intros p args. split; discriminate.
Defined.

(** ** The daemon *)
Definition go_load : go (Loaded handle handle) * list handle := Load go_lib (run_options default_flags) [].
Lemma go_load_succeeds : ∃ l o, Load go_lib (run_options default_flags) [] = (inr l, o).
Proof. eexists _, _. computes. Qed.
Definition zero_interval : run_flags := {|
  f_iface := "eth0"; f_port := 25565; f_ttl := 10 * Minute; f_metricsAddr := ":9464";
  f_cgroup := "/sys/fs/cgroup"; f_pinPath := "/sys/fs/bpf/minecraft";
  f_statusRate := 60; f_statusBurst := 20; f_loginRate := 20; f_loginBurst := 8;
  f_tcpGlobalRate := 5000; f_tcpGlobalBurst := 15000; f_tcpMaxOpenPerIP := 8;
  f_connPPS := 300; f_connBurst := 600; f_connBPS := 524288; f_connByteBurst := 1048576;
  f_connNewRate := 10; f_connNewBurst := 20; f_healthWindow := 60 * Second;
  f_healthThreshold := 100; f_healthBlacklist := 5 * Minute; f_sizeInterval := 0 |}.

(** The run of the signal, with the handles [Load] left. *)
Lemma go_stopped_run : ∃ l o, reached go_lib None default_flags
  (DState (Closing l []) (Refreshing true) ServerDown [] true true false
    (filter (λ h, h ∉ close_order l) o) None).
Proof.
  destruct go_load_succeeds as (l & o & Hl). exists l, o.
  by apply (stopped_run go_lib None default_flags l o []), waiting_run.
Qed.
Lemma daemon_exits_witness :
  ∃ st, reached go_lib None default_flags st ∧ exited st = Some 0 ∧ signalled st = true ∧
    ∀ h, h ∈ opened st → unnamed go_lib h.
Proof.
  destruct go_stopped_run as (l & o & Hr).
  pose proof (rtc_r _ _ _ Hr (step_main _ _ _ _ _ (returns _ _ _ _ _ _ _ _ _ _ _))) as Hr'.
  eexists. split; [exact Hr'|]. split; [reflexivity|].
  destruct (daemon_exits go_lib None default_flags go_lib_maps _ 0 Hr' eq_refl)
    as [(_ & Hs & _ & _ & Ho)|[(? & _)|(? & _)]]; [by split|discriminate..].
Defined.

Lemma interval_kills_witness :
  ∃ st, reached go_lib None zero_interval st ∧ exited st = Some 2.
Proof.
  apply (proj1 (interval_kills go_lib None zero_interval)). split; [vm_compute; discriminate|].
  split; [reflexivity|]. eexists _, _. computes.
Defined.

Lemma requests_find_maps_witness :
  ∃ st l, reached go_lib None default_flags st ∧ requests st = [Handling] ∧
    holds (main_at st) = Some l ∧ ∀ h, h ∈ owned l → h ∈ opened st.
Proof.
  destruct go_load_succeeds as (l & o & Hl).
  pose proof (busy_run go_lib None default_flags l o eq_refl Hl) as Hr.
  destruct (proj1 (requests_find_maps go_lib None default_flags go_lib_maps _ Hr eq_refl))
    as (l' & Hh & Ho); [done|by left|].
  eexists _, l'. split; [exact Hr|]. split; [reflexivity|]. split; [exact Hh|exact Ho].
Defined.

(** Told to stop while it serves nobody. *)
Lemma go_stopping_run : ∃ l o, reached go_lib None default_flags
  (DState (Stopping l) (Refreshing true) ServerDown [] true false false o None).
Proof.
  destruct go_load_succeeds as (l & o & Hl). exists l, o.
  eapply rtc_r; [eapply rtc_r; [by apply (waiting_run go_lib None default_flags l o)|]|].
  - by apply step_other, step_signal, signal_comes.
  - apply step_main, signal_taken.
Qed.
Lemma daemon_stops_witness :
  ∃ st st', reached go_lib None default_flags st ∧ stopping st ∧ exited st = None ∧
    (remaining st ≤ 17)%nat ∧ main_step go_lib None default_flags st st'.
Proof.
  destruct go_stopping_run as (l & o & Hr).
  destruct (daemon_stops go_lib None default_flags go_lib_maps _ 0 _ eq_refl Hr I eq_refl
    (no_steps _ _ _ _)) as (Hle & _ & _ & Hnext & _).
  destruct (Hnext eq_refl) as (st' & Hst').
  eexists _, st'. split; [exact Hr|]. split; [exact I|]. split; [reflexivity|]. by split.
Defined.
