(* ===== verification/RateWitnesses.v ===== *)
(** * The rate theorems at concrete runs

    Three knocks from one address at a server that allows two new connections per source
    and one per CPU at once, and one more in a hundred seconds; a login at the same server;
    and the daemon's default options. *)
From S2P Require Import Prelude Kernel World Frame Packet Handshake TokenBucket Limits Health Xdp XdpProps Policy Sockops Datapath Served Ledger Rates Bans Traffic Breaker XdpWitnesses GoBase GoSys Loader LoaderProps EndToEnd Run GoWitnesses.

Local Open Scope list_scope.
Local Open Scope Z_scope.

Definition ex_tight : xdp_config := {|
  target_port := 25565; whitelist_ttl_ns := 0; status_period_ns := 100000000000; status_burst := 1;
  login_period_ns := 100000000000; login_burst := 1; tcp_global_period_ns := 0;
  tcp_global_burst := 0; tcp_max_open_per_ip := 0; health_window_ns := 0; health_threshold := 0;
  health_blacklist_ns := 0; conn_pkt_period_ns := 100000000000; conn_pkt_burst := 2;
  conn_byte_period_ns := 0; conn_byte_burst := 0; conn_new_period_ns := 100000000000;
  conn_new_burst := 2 |}.
Lemma ex_tight_ok : tunables_ok ex_tight.
Proof. repeat split; vm_compute; congruence. Qed.
Ltac frames :=
  repeat (apply Forall_cons_2; [first [exact I|apply ex_bytes; computes]|]); apply Forall_nil; exact I.
(** Not evicted: the entry is there after every event, or was not before. *)
Ltac stays := repeat split;
  first [intros _; vm_compute; eexists; reflexivity|intros [? He]; vm_compute in He; discriminate].
Definition ex_knocking : list event := [Frame 0 ex_syn; Frame 0 ex_syn; Frame 0 ex_syn].

(** All three are counted when they pass; the third does not. *)
Lemma opens_bounded_witness :
  tally ex_tight ex_clock_fn (opens ex_tight ex_clock_fn example_src) ex_knocking ex_world = 2 ∧
  2 ≤ 2 + periods_begun
    (ex_clock_fn (clock_reads (handle_all ex_tight ex_clock_fn ex_knocking ex_world)) -
     ex_clock_fn (clock_reads ex_world)) 100000000000.
Proof.
  assert (Hwf : Forall well_formed ex_knocking) by frames.
  assert (Hn : tally ex_tight ex_clock_fn (opens ex_tight ex_clock_fn example_src) ex_knocking ex_world = 2)
    by computes.
  split; [exact Hn|].
  pose proof (opens_bounded ex_tight ex_clock_fn ex_tight_ok ex_clock_bounds ex_clock_mono example_src
    ex_knocking ex_world (reach_fresh _ _ _ ex_fresh) Hwf eq_refl eq_refl) as H. cbv zeta in H.
  rewrite Hn in H. apply H. stays.
Defined.

(** A player connects and logs in twice; only the first login joins. *)
Definition ex_joining : list event :=
  [Frame 0 ex_syn; Callback 0 no_race ex_open_call; Frame 0 ex_login; Frame 0 ex_login].
Lemma joins_bounded_witness :
  tally ex_tight ex_clock_fn (joins ex_tight ex_clock_fn example_src) ex_joining ex_world = 1 ∧
  1 ≤ 1 + periods_begun
    (ex_clock_fn (clock_reads (handle_all ex_tight ex_clock_fn ex_joining ex_world)) -
     ex_clock_fn (clock_reads ex_world)) 100000000000.
Proof.
  assert (Hwf : Forall well_formed ex_joining) by frames.
  assert (Hn : tally ex_tight ex_clock_fn (joins ex_tight ex_clock_fn example_src) ex_joining ex_world = 1)
    by computes.
  split; [exact Hn|].
  pose proof (joins_bounded ex_tight ex_clock_fn ex_tight_ok ex_clock_bounds ex_clock_mono example_src
    ex_joining ex_world (reach_fresh _ _ _ ex_fresh) Hwf eq_refl) as H. cbv zeta in H.
  rewrite Hn in H. apply H. stays.
Defined.

(** A player connects and asks for the status. *)
Definition ex_status : xdp_md := linear_ctx (example_frame 24 (encode_handshake 765 example_net [0x63; 0xDD] 1)).
Definition ex_pinging : list event :=
  [Frame 0 ex_syn; Callback 0 no_race ex_open_call; Frame 0 ex_status].
Lemma answers_bounded_witness :
  tally ex_tight ex_clock_fn (answers ex_tight ex_clock_fn example_src) ex_pinging ex_world = 1 ∧
  1 ≤ 1 + periods_begun
    (ex_clock_fn (clock_reads (handle_all ex_tight ex_clock_fn ex_pinging ex_world)) -
     ex_clock_fn (clock_reads ex_world)) 100000000000.
Proof.
  assert (Hwf : Forall well_formed ex_pinging) by frames.
  assert (Hn : tally ex_tight ex_clock_fn (answers ex_tight ex_clock_fn example_src) ex_pinging ex_world = 1)
    by computes.
  split; [exact Hn|].
  pose proof (answers_bounded ex_tight ex_clock_fn ex_tight_ok ex_clock_bounds ex_clock_mono example_src
    ex_pinging ex_world (reach_fresh _ _ _ ex_fresh) Hwf eq_refl) as H. cbv zeta in H.
  rewrite Hn in H. apply H. stays.
Defined.

(** A player has joined and sends three more packets; two of them pass. *)
Definition ex_streaming : list event := ex_joining ++ [Frame 0 ex_data; Frame 0 ex_data].
Lemma streams_bounded_witness :
  weigh ex_tight ex_clock_fn (streams ex_tight ex_clock_fn (λ _, 1) example_src) ex_streaming ex_world = 2 ∧
  2 ≤ 2 + periods_begun
    (ex_clock_fn (clock_reads (handle_all ex_tight ex_clock_fn ex_streaming ex_world)) -
     ex_clock_fn (clock_reads ex_world)) 100000000000.
Proof.
  assert (Hwf : Forall well_formed ex_streaming) by frames.
  assert (Hn : weigh ex_tight ex_clock_fn (streams ex_tight ex_clock_fn (λ _, 1) example_src)
    ex_streaming ex_world = 2) by computes.
  split; [exact Hn|].
  pose proof (streams_bounded ex_tight ex_clock_fn ex_tight_ok ex_clock_bounds ex_clock_mono example_src
    ex_streaming ex_world (reach_fresh _ _ _ ex_fresh) Hwf) as H. cbv zeta in H.
  rewrite Hn in H. apply H; [stays|reflexivity].
Defined.


(** A breaker that admits one new connection, whoever knocks. *)
Definition ex_broken : xdp_config := {|
  target_port := 25565; whitelist_ttl_ns := 0; status_period_ns := 0; status_burst := 0;
  login_period_ns := 0; login_burst := 0; tcp_global_period_ns := 100000000000;
  tcp_global_burst := 1; tcp_max_open_per_ip := 0; health_window_ns := 0; health_threshold := 0;
  health_blacklist_ns := 0; conn_pkt_period_ns := 0; conn_pkt_burst := 0;
  conn_byte_period_ns := 0; conn_byte_burst := 0; conn_new_period_ns := 0; conn_new_burst := 0 |}.
Lemma newcomers_bounded_witness :
  let n := tally ex_broken ex_clock_fn (newcomer ex_broken ex_clock_fn) ex_knocking ex_world in
  n ≤ 1 * (1 + periods_begun
    (ex_clock_fn (clock_reads (handle_all ex_broken ex_clock_fn ex_knocking ex_world)) -
     ex_clock_fn (clock_reads ex_world)) 100000000000).
Proof.
  assert (Hcfg : tunables_ok ex_broken) by (repeat split; vm_compute; congruence).
  apply (newcomers_bounded ex_broken ex_clock_fn Hcfg ex_clock_bounds ex_clock_mono 1
    ex_knocking ex_world (reach_fresh _ _ _ ex_fresh) eq_refl eq_refl).
  - intros [|n] Hn; [eexists; reflexivity|lia].
  - repeat apply Forall_cons_2; try apply Forall_nil; simpl; lia.
Defined.

(** The daemon as it comes, on four CPUs: ten connections a second and source, in bursts of
    twenty, and five thousand a second altogether. *)
Lemma options_enforced_witness :
  let o := run_options default_flags in
  ∃ sp, set_variables no_set_err o 4 c_variables = inr sp ∧
    policy_enforced (M := gmap ipkey) ex_clock_fn (config_of sp) ∧
    new_rate_enforced (M := gmap ipkey) o ex_clock_fn (config_of sp) ∧
    login_rate_enforced (M := gmap ipkey) o ex_clock_fn (config_of sp) ∧
    status_rate_enforced (M := gmap ipkey) o ex_clock_fn (config_of sp) ∧
    byte_rate_enforced (M := gmap ipkey) o ex_clock_fn (config_of sp) ∧
    packet_rate_enforced (M := gmap ipkey) o ex_clock_fn (config_of sp) ∧
    global_rate_enforced (M := gmap ipkey) o 4 ex_clock_fn (config_of sp).
Proof.
  intros o.
  assert (Ht : options_typed o) by (unfold options_typed; split_and!; split; vm_compute; congruence).
  assert (Hs : options_sane o)
    by (unfold options_sane; split_and!; repeat constructor; vm_compute; congruence).
  destruct (options_enforced (M := gmap ipkey) no_set_err o (inr 4) (λ _, eq_refl) Ht Hs)
    as (sp & Hsp & H).
  exists sp. split; [exact Hsp|].
  destruct (H ex_clock_fn ex_clock_bounds ex_clock_mono) as (Hp & Hn & Hl & Hst & Hb & Hpk & Hg).
  split; [exact Hp|]. split; [apply Hn; [split; vm_compute; congruence|reflexivity]|].
  split; [apply Hl; split; vm_compute; congruence|].
  split; [apply Hst; split; vm_compute; congruence|].
  split; [apply Hb; [split; vm_compute; congruence|reflexivity]|].
  split; [apply Hpk; [split; vm_compute; congruence|reflexivity]|].
  apply Hg; [split; vm_compute; congruence|reflexivity].
Defined.
